(** * HFT packet-filter core: lock-free queue, packet parser, memory pool,
      latency tracker

    A shallow embedding of the four Cython extension classes
    [LockFreeQueue], [FastPacketParser], [HighPerformanceMemoryPool] and
    [UltraLowLatencyTracker], and the properties of the specification that
    are about them.

    Conventions.  C integers are [Z] with the wrap-around written out
    ([wrap32], [wrap64]).  C arrays are lists read with stdpp's [!!] and
    written with [<[i:=x]>].  A pointer into an array is the index of the
    element, [NULL] is [None].  A Python [dict] is a [gmap].  C [double]
    is the kernel's binary64 [float]. *)

From Stdlib Require Import ZArith Lia Bool Floats.
From Stdlib Require Uint63.
From Stdlib Require Import Strings.String Strings.Ascii Strings.Byte.
From stdpp Require Import base option list gmap strings pretty.

Local Open Scope Z_scope.

(** ** Machine integers *)

Definition wrap32 (z : Z) : Z := z mod 2 ^ 32.
Definition wrap64 (z : Z) : Z := z mod 2 ^ 64.

(** An unsigned integer as a [double]; exact below 2^53. *)
Definition to_double (z : Z) : float := of_uint63 (Uint63.of_Z z).

(** What a Python-level call does: it returns a value or raises. *)
Inductive py_result (A : Type) : Type :=
  | Returns (a : A)
  | Raises (exn : string).
Arguments Returns {A} a.
Arguments Raises {A} exn.

(** One pass through the body of a [while True:] loop: it leaves the loop
    with a value, or goes round again. *)
Inductive iteration (A : Type) : Type :=
  | Retry
  | Return (a : A).
Arguments Retry {A}.
Arguments Return {A} a.

(** * lock_free_queue.pyx *)

Module Queue.

(** The Python objects handed to [enqueue]: a [str] (held as its UTF-8
    text), an [int], or [None]. *)
Inductive pyobj : Type :=
  | PyStr (s : string)
  | PyInt (z : Z)
  | PyNone.

(** [str(data)] *)
Definition py_str (data : pyobj) : string :=
  match data with
  | PyStr s => s
  | PyInt z => pretty z
  | PyNone => "None"
  end.

(** [cdef packed struct queue_node].  The [next] field is set to [NULL]
    once and never read; it is left out. *)
Record queue_node : Type := {
  data : option string;   (* void* data: the malloc'ed bytes, None = NULL *)
  data_size : Z;          (* uint32_t *)
  sequence : Z            (* uint64_t *)
}.

Definition DEFAULT_QUEUE_SIZE : Z := 65536.

Record LockFreeQueue : Type := {
  nodes : list queue_node;
  capacity : Z;               (* uint32_t *)
  mask : Z;                   (* uint32_t *)
  head_seq : Z;               (* volatile uint64_t *)
  tail_seq : Z;               (* volatile uint64_t *)
  committed_seq : Z;
  total_enqueued : Z;         (* uint64_t *)
  total_dequeued : Z;
  total_failed_enqueues : Z;
  total_failed_dequeues : Z;
  initialized : bool
}.

Definition set_nodes (q : LockFreeQueue) (ns : list queue_node) : LockFreeQueue :=
  {| nodes := ns; capacity := capacity q; mask := mask q;
     head_seq := head_seq q; tail_seq := tail_seq q;
     committed_seq := committed_seq q;
     total_enqueued := total_enqueued q; total_dequeued := total_dequeued q;
     total_failed_enqueues := total_failed_enqueues q;
     total_failed_dequeues := total_failed_dequeues q;
     initialized := initialized q |}.

Definition set_head_seq (q : LockFreeQueue) (h : Z) : LockFreeQueue :=
  {| nodes := nodes q; capacity := capacity q; mask := mask q;
     head_seq := h; tail_seq := tail_seq q;
     committed_seq := committed_seq q;
     total_enqueued := total_enqueued q; total_dequeued := total_dequeued q;
     total_failed_enqueues := total_failed_enqueues q;
     total_failed_dequeues := total_failed_dequeues q;
     initialized := initialized q |}.

Definition set_tail_seq (q : LockFreeQueue) (t : Z) : LockFreeQueue :=
  {| nodes := nodes q; capacity := capacity q; mask := mask q;
     head_seq := head_seq q; tail_seq := t;
     committed_seq := committed_seq q;
     total_enqueued := total_enqueued q; total_dequeued := total_dequeued q;
     total_failed_enqueues := total_failed_enqueues q;
     total_failed_dequeues := total_failed_dequeues q;
     initialized := initialized q |}.

Definition set_total_enqueued (q : LockFreeQueue) (n : Z) : LockFreeQueue :=
  {| nodes := nodes q; capacity := capacity q; mask := mask q;
     head_seq := head_seq q; tail_seq := tail_seq q;
     committed_seq := committed_seq q;
     total_enqueued := n; total_dequeued := total_dequeued q;
     total_failed_enqueues := total_failed_enqueues q;
     total_failed_dequeues := total_failed_dequeues q;
     initialized := initialized q |}.

Definition set_total_failed_enqueues (q : LockFreeQueue) (n : Z) : LockFreeQueue :=
  {| nodes := nodes q; capacity := capacity q; mask := mask q;
     head_seq := head_seq q; tail_seq := tail_seq q;
     committed_seq := committed_seq q;
     total_enqueued := total_enqueued q; total_dequeued := total_dequeued q;
     total_failed_enqueues := n;
     total_failed_dequeues := total_failed_dequeues q;
     initialized := initialized q |}.

(** [_initialize_nodes]: [for i in range(self.capacity)], slot [i] is empty
    and carries sequence [i]. *)
Fixpoint initialize_from (i : Z) (count : nat) : list queue_node :=
  match count with
  | O => []
  | S count' =>
      {| data := None; data_size := 0; sequence := i |}
        :: initialize_from (i + 1) count'
  end.

Definition _initialize_nodes (capacity : Z) : list queue_node :=
  initialize_from 0 (Z.to_nat capacity).

(** [__cinit__(self, uint32_t capacity)].  [nodes_allocated] says whether
    [malloc] returned a block. *)
Definition __cinit__ (capacity : Z) (nodes_allocated : bool)
  : py_result LockFreeQueue :=
  let capacity :=
    if (capacity =? 0) || negb (Z.land capacity (wrap32 (capacity - 1)) =? 0)
    then DEFAULT_QUEUE_SIZE else capacity in
  if negb nodes_allocated then Raises "MemoryError"
  else Returns
    {| nodes := _initialize_nodes capacity;
       capacity := capacity;
       mask := wrap32 (capacity - 1);
       head_seq := 0; tail_seq := 0; committed_seq := 0;
       total_enqueued := 0; total_dequeued := 0;
       total_failed_enqueues := 0; total_failed_dequeues := 0;
       initialized := true |}.

(** [compare_and_swap(<volatile int* >&cell, old_val, new_val)]: the cell is
    a [uint64_t], the builtin works on the [int] at its address, which on
    the little-endian targets of the extension is the low 32-bit word; the
    two values are converted to [int], which keeps their low words.  The
    high word of the cell is not touched. *)
Definition compare_and_swap (cell old_val new_val : Z) : bool * Z :=
  if wrap32 cell =? wrap32 old_val
  then (true, cell - wrap32 cell + wrap32 new_val)
  else (false, cell).

(** The body of the loop of [_try_enqueue_fast]. *)
Definition enqueue_iteration (q : LockFreeQueue) (dat : string) (size : Z)
  : iteration (bool * LockFreeQueue) :=
  let current_tail := tail_seq q in
  let next_tail := wrap64 (current_tail + 1) in
  let index := wrap32 (Z.land current_tail (mask q)) in
  match nodes q !! Z.to_nat index with
  | None => Retry  (* outside the array; not reached, index <= mask < capacity *)
  | Some node =>
      if negb (sequence node =? current_tail) then
        if sequence node <? current_tail then Return (false, q)
        else Retry
      else
        let '(claimed, tail') := compare_and_swap (tail_seq q) current_tail next_tail in
        if claimed then
          Return (true,
                  set_nodes (set_tail_seq q tail')
                    (<[Z.to_nat index :=
                         {| data := Some dat; data_size := size;
                            sequence := next_tail |}]> (nodes q)))
        else Retry
  end.

(** The body of the loop of [_try_dequeue_fast]; the two out-parameters are
    returned next to the flag. *)
Definition dequeue_iteration (q : LockFreeQueue)
  : iteration (bool * option string * Z * LockFreeQueue) :=
  let current_head := head_seq q in
  let next_head := wrap64 (current_head + 1) in
  let index := wrap32 (Z.land current_head (mask q)) in
  match nodes q !! Z.to_nat index with
  | None => Retry
  | Some node =>
      if negb (sequence node =? next_head) then
        if sequence node <? next_head then Return (false, None, 0, q)
        else Retry
      else
        let '(claimed, head') := compare_and_swap (head_seq q) current_head next_head in
        if claimed then
          Return (true, data node, data_size node,
                  set_nodes (set_head_seq q head')
                    (<[Z.to_nat index :=
                         {| data := None; data_size := 0;
                            sequence := wrap64 (next_head + mask q) |}]> (nodes q)))
        else Retry
  end.

(** [while True:] run by one thread at a time.  An iteration that asks for
    a retry has changed nothing, so the next one sees the same queue and
    asks again: the call never returns, which is [None] here. *)
Definition while_true {A : Type} (body : iteration A) : option A :=
  match body with
  | Retry => None
  | Return a => Some a
  end.

Definition _try_enqueue_fast (q : LockFreeQueue) (dat : string) (size : Z)
  : option (bool * LockFreeQueue) :=
  while_true (enqueue_iteration q dat size).

Definition _try_dequeue_fast (q : LockFreeQueue)
  : option (bool * option string * Z * LockFreeQueue) :=
  while_true (dequeue_iteration q).

(** [enqueue(self, data)].  [str(data).encode('utf-8')] is the text of
    [py_str data]; [allocated] says whether [PyMem_Malloc] returned a
    block.  The conversion of [len(serialized_data)] to [uint32_t] is a
    checked one (Cython raises [OverflowError] from 2^32 on, before the
    queue is touched), so [size] is the length itself. *)
Definition enqueue (q : LockFreeQueue) (dat : pyobj) (allocated : bool)
  : option (bool * LockFreeQueue) :=
  if negb (initialized q) then Some (false, q)
  else
    let serialized_data := py_str dat in
    let size := Z.of_nat (String.length serialized_data) in
    if negb allocated then
      Some (false, set_total_failed_enqueues q (wrap64 (total_failed_enqueues q + 1)))
    else
      match _try_enqueue_fast q serialized_data size with
      | None => None
      | Some (true, q') =>
          Some (true, set_total_enqueued q' (wrap64 (total_enqueued q' + 1)))
      | Some (false, q') =>
          Some (false, set_total_failed_enqueues q' (wrap64 (total_failed_enqueues q' + 1)))
      end.

(** [dequeue(self)]: the first [data_size] bytes of the block, decoded. *)
Definition dequeue (q : LockFreeQueue) : option (pyobj * LockFreeQueue) :=
  match _try_dequeue_fast q with
  | None => None
  | Some (success, data_ptr, size, q') =>
      match success, data_ptr with
      | true, Some bytes => Some (PyStr (substring 0 (Z.to_nat size) bytes), q')
      | _, _ => Some (PyNone, q')
      end
  end.

Definition is_empty (q : LockFreeQueue) : bool := head_seq q =? tail_seq q.
Definition size (q : LockFreeQueue) : Z := wrap64 (tail_seq q - head_seq q).
Definition is_full (q : LockFreeQueue) : bool := capacity q <=? size q.
Definition capacity_remaining (q : LockFreeQueue) : Z := Z.max 0 (capacity q - size q).

(** The entries of the dictionary of [get_statistics], without the two
    success rates. *)
Record statistics : Type := {
  stat_capacity : Z;
  stat_size : Z;
  stat_capacity_remaining : Z;
  stat_total_enqueued : Z;
  stat_total_dequeued : Z;
  stat_total_failed_enqueues : Z;
  stat_total_failed_dequeues : Z;
  stat_is_empty : bool;
  stat_is_full : bool
}.

Definition get_statistics (q : LockFreeQueue) : statistics :=
  {| stat_capacity := capacity q;
     stat_size := size q;
     stat_capacity_remaining := capacity_remaining q;
     stat_total_enqueued := total_enqueued q;
     stat_total_dequeued := total_dequeued q;
     stat_total_failed_enqueues := total_failed_enqueues q;
     stat_total_failed_dequeues := total_failed_dequeues q;
     stat_is_empty := is_empty q;
     stat_is_full := is_full q |}.

(** A sequential history of calls on one queue. *)
Inductive call : Type :=
  | Enqueue (dat : pyobj) (allocated : bool)
  | Dequeue.

Inductive reply : Type :=
  | Pushed (dat : pyobj) (ok : bool)
  | Popped (v : pyobj).

Definition step (q : LockFreeQueue) (c : call) : option (reply * LockFreeQueue) :=
  match c with
  | Enqueue dat allocated =>
      match enqueue q dat allocated with
      | Some (ok, q') => Some (Pushed dat ok, q')
      | None => None
      end
  | Dequeue =>
      match dequeue q with
      | Some (v, q') => Some (Popped v, q')
      | None => None
      end
  end.

(** [run q calls] is the list of replies and the final queue, or [None]
    when one of the calls never returns. *)
Fixpoint run (q : LockFreeQueue) (calls : list call)
  : option (list reply * LockFreeQueue) :=
  match calls with
  | [] => Some ([], q)
  | c :: rest =>
      match step q c with
      | None => None
      | Some (r, q') =>
          match run q' rest with
          | None => None
          | Some (rs, q'') => Some (r :: rs, q'')
          end
      end
  end.

(** The values accepted by the successful [enqueue] calls, and the values
    handed out by the successful [dequeue] calls, of a history. *)
Definition pushed (rs : list reply) : list pyobj :=
  omap (fun r => match r with Pushed d true => Some d | _ => None end) rs.

Definition popped (rs : list reply) : list pyobj :=
  omap (fun r => match r with Popped PyNone => None | Popped v => Some v | _ => None end) rs.

(** What the ring holds, slot by slot, when [head] calls of [dequeue] and
    [tail] calls of [enqueue] have claimed a slot and the strings of
    [pending] are waiting, oldest first.  [head] and [tail] count calls and
    do not wrap; the two cells hold their low words. *)
Record ring_holds (q : LockFreeQueue) (k head tail : Z) (pending : list string)
  : Prop := {
  rh_log : 1 <= k <= 31;
  rh_capacity : capacity q = 2 ^ k;
  rh_mask : mask q = 2 ^ k - 1;
  rh_length : length (nodes q) = Z.to_nat (2 ^ k);
  rh_initialized : initialized q = true;
  rh_head : head_seq q = wrap32 head;
  rh_tail : tail_seq q = wrap32 tail;
  rh_order : 0 <= head <= tail /\ tail <= head + 2 ^ k /\ tail <= 2 ^ 32;
  rh_pending : Z.of_nat (length pending) = tail - head;
  rh_filled : forall p s, head <= p < tail ->
      pending !! Z.to_nat (p - head) = Some s ->
      nodes q !! Z.to_nat (p mod 2 ^ k) =
        Some {| data := Some s; data_size := Z.of_nat (String.length s);
                sequence := p + 1 |};
  rh_free : forall p, tail <= p < head + 2 ^ k ->
      nodes q !! Z.to_nat (p mod 2 ^ k) =
        Some {| data := None; data_size := 0; sequence := p |}
}.

(** [c] is one of 1, 2, 4, 8, ... *)
Definition power_of_two (c : Z) : Prop := exists k : Z, 0 <= k /\ c = 2 ^ k.

(** *** The rest of the queue *)

(** [clear(self)]: the blocks still held are freed, and
    [_initialize_nodes] writes every slot of the array. *)
Definition clear (q : LockFreeQueue) : LockFreeQueue :=
  {| nodes := _initialize_nodes (capacity q);
     capacity := capacity q; mask := mask q;
     head_seq := 0; tail_seq := 0; committed_seq := 0;
     total_enqueued := total_enqueued q; total_dequeued := total_dequeued q;
     total_failed_enqueues := total_failed_enqueues q;
     total_failed_dequeues := total_failed_dequeues q;
     initialized := initialized q |}.

(** [reset_statistics(self)] *)
Definition reset_statistics (q : LockFreeQueue) : LockFreeQueue :=
  {| nodes := nodes q; capacity := capacity q; mask := mask q;
     head_seq := head_seq q; tail_seq := tail_seq q;
     committed_seq := committed_seq q;
     total_enqueued := 0; total_dequeued := 0;
     total_failed_enqueues := 0; total_failed_dequeues := 0;
     initialized := initialized q |}.

(** A queue of two slots on which 2^32 - 1 values have gone in and out,
    one after the other, and one more value has gone in: the low word of
    the tail counter is 0 again. *)
Definition queue_after_2_32_values : LockFreeQueue :=
  {| nodes := [ {| data := None; data_size := 0; sequence := 2 ^ 32 |};
                {| data := Some "x"%string; data_size := 1; sequence := 2 ^ 32 |} ];
     capacity := 2; mask := 1;
     head_seq := 2 ^ 32 - 1; tail_seq := 0; committed_seq := 0;
     total_enqueued := 2 ^ 32; total_dequeued := 0;
     total_failed_enqueues := 0; total_failed_dequeues := 0;
     initialized := true |}.

(** The entries [enqueue_success_rate] and [dequeue_success_rate] of the
    dictionary of [get_statistics]. *)
Definition enqueue_success_rate (q : LockFreeQueue) : float :=
  (to_double (total_enqueued q)
   / to_double (Z.max 1 (wrap64 (total_enqueued q + total_failed_enqueues q)))
   * 100.0)%float.

Definition dequeue_success_rate (q : LockFreeQueue) : float :=
  (to_double (total_dequeued q)
   / to_double (Z.max 1 (wrap64 (total_dequeued q + total_failed_dequeues q)))
   * 100.0)%float.

(** The values of the [enqueue] calls of a history that returned
    [False]. *)
Definition refused (rs : list reply) : list pyobj :=
  omap (fun r => match r with Pushed d false => Some d | _ => None end) rs.

(** *** One producer thread and one consumer thread *)

(** [enqueue] and [dequeue] run [_try_enqueue_fast] and
    [_try_dequeue_fast] with the GIL released, so the loads and stores of
    a thread that enqueues and of a thread that dequeues interleave.  A
    thread is known by the statement it has come to and by the locals it
    holds.  A step of a thread is one load, one store or one
    [compare_and_swap] on a field of the queue that the other thread
    reads or writes, with the statements before it that touch none.
    Memory is sequentially consistent here: a step sees the stores of
    every step before it, and a field is read or written in one piece. *)

(** [node.data], [node.data_size] and [node.sequence] are written one at a
    time. *)
Definition with_data (node : queue_node) (d : option string) : queue_node :=
  {| data := d; data_size := data_size node; sequence := sequence node |}.

Definition with_data_size (node : queue_node) (n : Z) : queue_node :=
  {| data := data node; data_size := n; sequence := sequence node |}.

Definition with_sequence (node : queue_node) (n : Z) : queue_node :=
  {| data := data node; data_size := data_size node; sequence := n |}.

(** A store to a field of [self.nodes[index]]. *)
Definition update_node (q : LockFreeQueue) (index : Z)
    (f : queue_node -> queue_node) : LockFreeQueue :=
  match nodes q !! Z.to_nat index with
  | Some node => set_nodes q (<[Z.to_nat index := f node]> (nodes q))
  | None => q      (* outside the array; not reached, index <= mask < capacity *)
  end.

(** The thread that calls [enqueue]: [dat] is the argument of the call
    under way. *)
Inductive producer : Type :=
  | P_idle                                              (* between two calls *)
  | P_loop (dat : pyobj)                                (* current_tail = self.tail_seq *)
  | P_check (dat : pyobj) (current_tail : Z)            (* if node.sequence != current_tail: *)
  | P_check_full (dat : pyobj) (current_tail : Z)       (* if node.sequence < current_tail: *)
  | P_claim (dat : pyobj) (current_tail : Z)            (* if compare_and_swap(...): *)
  | P_store_data (dat : pyobj) (current_tail : Z)       (* node.data = data *)
  | P_store_size (dat : pyobj) (current_tail : Z)       (* node.data_size = data_size *)
  | P_store_sequence (dat : pyobj) (current_tail : Z)   (* node.sequence = next_tail *)
  | P_return (dat : pyobj) (success : bool).            (* if success: ... *)

(** The thread that calls [dequeue], with the two out-parameters of
    [_try_dequeue_fast] once they are set. *)
Inductive consumer : Type :=
  | C_idle                                              (* between two calls *)
  | C_loop                                              (* current_head = self.head_seq *)
  | C_check (current_head : Z)                          (* if node.sequence != next_head: *)
  | C_check_empty (current_head : Z)                    (* if node.sequence < next_head: *)
  | C_claim (current_head : Z)                          (* if compare_and_swap(...): *)
  | C_load_data (current_head : Z)                      (* data[0] = node.data *)
  | C_load_size (current_head : Z) (data_ptr : option string)
                                                        (* data_size[0] = node.data_size *)
  | C_clear_data (current_head : Z) (data_ptr : option string) (size : Z)
                                                        (* node.data = NULL *)
  | C_clear_size (current_head : Z) (data_ptr : option string) (size : Z)
                                                        (* node.data_size = 0 *)
  | C_store_sequence (current_head : Z) (data_ptr : option string) (size : Z)
                                                        (* node.sequence = next_head + self.mask *)
  | C_return (success : bool) (data_ptr : option string) (size : Z).
                                                        (* if success and data_ptr != NULL: *)

(** The queue, the two threads, the calls each of them has still to
    make, and the replies each of them has received so far, oldest first.
    A call of [enqueue] to come is its argument and whether [PyMem_Malloc]
    will return a block. *)
Record machine : Type := {
  shared : LockFreeQueue;
  producer_at : producer;
  consumer_at : consumer;
  to_push : list (pyobj * bool);
  to_pop : nat;
  pushes : list reply;
  pops : list reply
}.

Definition producer_moves (m : machine) (q : LockFreeQueue) (p : producer) : machine :=
  {| shared := q; producer_at := p; consumer_at := consumer_at m;
     to_push := to_push m; to_pop := to_pop m;
     pushes := pushes m; pops := pops m |}.

Definition producer_calls (m : machine) (rest : list (pyobj * bool)) (p : producer)
  : machine :=
  {| shared := shared m; producer_at := p; consumer_at := consumer_at m;
     to_push := rest; to_pop := to_pop m;
     pushes := pushes m; pops := pops m |}.

Definition producer_returns (m : machine) (q : LockFreeQueue) (r : reply) : machine :=
  {| shared := q; producer_at := P_idle; consumer_at := consumer_at m;
     to_push := to_push m; to_pop := to_pop m;
     pushes := pushes m ++ [r]; pops := pops m |}.

Definition consumer_moves (m : machine) (q : LockFreeQueue) (c : consumer) : machine :=
  {| shared := q; producer_at := producer_at m; consumer_at := c;
     to_push := to_push m; to_pop := to_pop m;
     pushes := pushes m; pops := pops m |}.

Definition consumer_calls (m : machine) (rest : nat) : machine :=
  {| shared := shared m; producer_at := producer_at m; consumer_at := C_loop;
     to_push := to_push m; to_pop := rest;
     pushes := pushes m; pops := pops m |}.

Definition consumer_returns (m : machine) (r : reply) : machine :=
  {| shared := shared m; producer_at := producer_at m; consumer_at := C_idle;
     to_push := to_push m; to_pop := to_pop m;
     pushes := pushes m; pops := pops m ++ [r] |}.

(** One step of the thread in [enqueue]. *)
Definition producer_step (m : machine) : machine :=
  let q := shared m in
  match producer_at m with
  | P_idle =>
      match to_push m with
      | [] => m
      | (dat, allocated) :: rest =>
          if negb (initialized q) then
            producer_returns (producer_calls m rest P_idle) q (Pushed dat false)
          else if negb allocated then
            producer_returns (producer_calls m rest P_idle)
              (set_total_failed_enqueues q (wrap64 (total_failed_enqueues q + 1)))
              (Pushed dat false)
          else producer_calls m rest (P_loop dat)
      end
  | P_loop dat => producer_moves m q (P_check dat (tail_seq q))
  | P_check dat current_tail =>
      let index := wrap32 (Z.land current_tail (mask q)) in
      match nodes q !! Z.to_nat index with
      | None => m
      | Some node =>
          if negb (sequence node =? current_tail)
          then producer_moves m q (P_check_full dat current_tail)
          else producer_moves m q (P_claim dat current_tail)
      end
  | P_check_full dat current_tail =>
      let index := wrap32 (Z.land current_tail (mask q)) in
      match nodes q !! Z.to_nat index with
      | None => m
      | Some node =>
          if sequence node <? current_tail
          then producer_moves m q (P_return dat false)
          else producer_moves m q (P_loop dat)
      end
  | P_claim dat current_tail =>
      let next_tail := wrap64 (current_tail + 1) in
      let '(claimed, tail') := compare_and_swap (tail_seq q) current_tail next_tail in
      producer_moves m (set_tail_seq q tail')
        (if claimed then P_store_data dat current_tail else P_loop dat)
  | P_store_data dat current_tail =>
      let index := wrap32 (Z.land current_tail (mask q)) in
      producer_moves m
        (update_node q index (fun node => with_data node (Some (py_str dat))))
        (P_store_size dat current_tail)
  | P_store_size dat current_tail =>
      let index := wrap32 (Z.land current_tail (mask q)) in
      producer_moves m
        (update_node q index
           (fun node => with_data_size node (Z.of_nat (String.length (py_str dat)))))
        (P_store_sequence dat current_tail)
  | P_store_sequence dat current_tail =>
      let next_tail := wrap64 (current_tail + 1) in
      let index := wrap32 (Z.land current_tail (mask q)) in
      producer_moves m
        (update_node q index (fun node => with_sequence node next_tail))
        (P_return dat true)
  | P_return dat success =>
      producer_returns m
        (if success
         then set_total_enqueued q (wrap64 (total_enqueued q + 1))
         else set_total_failed_enqueues q (wrap64 (total_failed_enqueues q + 1)))
        (Pushed dat success)
  end.

(** One step of the thread in [dequeue]. *)
Definition consumer_step (m : machine) : machine :=
  let q := shared m in
  match consumer_at m with
  | C_idle =>
      match to_pop m with
      | O => m
      | S rest => consumer_calls m rest
      end
  | C_loop => consumer_moves m q (C_check (head_seq q))
  | C_check current_head =>
      let next_head := wrap64 (current_head + 1) in
      let index := wrap32 (Z.land current_head (mask q)) in
      match nodes q !! Z.to_nat index with
      | None => m
      | Some node =>
          if negb (sequence node =? next_head)
          then consumer_moves m q (C_check_empty current_head)
          else consumer_moves m q (C_claim current_head)
      end
  | C_check_empty current_head =>
      let next_head := wrap64 (current_head + 1) in
      let index := wrap32 (Z.land current_head (mask q)) in
      match nodes q !! Z.to_nat index with
      | None => m
      | Some node =>
          if sequence node <? next_head
          then consumer_moves m q (C_return false None 0)
          else consumer_moves m q C_loop
      end
  | C_claim current_head =>
      let next_head := wrap64 (current_head + 1) in
      let '(claimed, head') := compare_and_swap (head_seq q) current_head next_head in
      consumer_moves m (set_head_seq q head')
        (if claimed then C_load_data current_head else C_loop)
  | C_load_data current_head =>
      let index := wrap32 (Z.land current_head (mask q)) in
      match nodes q !! Z.to_nat index with
      | None => m
      | Some node => consumer_moves m q (C_load_size current_head (data node))
      end
  | C_load_size current_head data_ptr =>
      let index := wrap32 (Z.land current_head (mask q)) in
      match nodes q !! Z.to_nat index with
      | None => m
      | Some node =>
          consumer_moves m q (C_clear_data current_head data_ptr (data_size node))
      end
  | C_clear_data current_head data_ptr size =>
      let index := wrap32 (Z.land current_head (mask q)) in
      consumer_moves m (update_node q index (fun node => with_data node None))
        (C_clear_size current_head data_ptr size)
  | C_clear_size current_head data_ptr size =>
      let index := wrap32 (Z.land current_head (mask q)) in
      consumer_moves m (update_node q index (fun node => with_data_size node 0))
        (C_store_sequence current_head data_ptr size)
  | C_store_sequence current_head data_ptr size =>
      let next_head := wrap64 (current_head + 1) in
      let index := wrap32 (Z.land current_head (mask q)) in
      consumer_moves m
        (update_node q index
           (fun node => with_sequence node (wrap64 (next_head + mask q))))
        (C_return true data_ptr size)
  | C_return success data_ptr size =>
      consumer_returns m
        (Popped (match success, data_ptr with
                 | true, Some bytes => PyStr (substring 0 (Z.to_nat size) bytes)
                 | _, _ => PyNone
                 end))
  end.

(** A schedule says which thread makes the next step. *)
Inductive thread : Type := Producer | Consumer.

Definition thread_step (m : machine) (t : thread) : machine :=
  match t with
  | Producer => producer_step m
  | Consumer => consumer_step m
  end.

Definition interleave (m : machine) (schedule : list thread) : machine :=
  fold_left thread_step schedule m.

(** Two threads about to start on [q]. *)
Definition start (q : LockFreeQueue) (values : list (pyobj * bool)) (count : nat)
  : machine :=
  {| shared := q; producer_at := P_idle; consumer_at := C_idle;
     to_push := values; to_pop := count; pushes := []; pops := [] |}.

(** The value that [enqueue] has put, or is putting, into the slot it
    claimed, before the call has returned. *)
Definition in_flight (p : producer) : list pyobj :=
  match p with
  | P_store_data dat _ | P_store_size dat _ | P_store_sequence dat _ => [dat]
  | P_return dat true => [dat]
  | _ => []
  end.

(** The values accepted so far: those of the calls that returned [True],
    and the one in flight. *)
Definition accepted (m : machine) : list pyobj :=
  pushed (pushes m) ++ in_flight (producer_at m).

(** The producer has claimed a slot and not yet published it. *)
Definition writing (p : producer) : bool :=
  match p with
  | P_store_data _ _ | P_store_size _ _ | P_store_sequence _ _ => true
  | _ => false
  end.

(** The consumer has claimed a slot and not yet handed it back. *)
Definition taking (c : consumer) : bool :=
  match c with
  | C_load_data _ | C_load_size _ _ | C_clear_data _ _ _
  | C_clear_size _ _ _ | C_store_sequence _ _ _ => true
  | _ => false
  end.

(** The consumer has claimed a value that its call has not yet
    returned. *)
Definition holding (c : consumer) : bool :=
  match c with
  | C_return true _ _ => true
  | _ => taking c
  end.

(** Of the [head] slots the consumer has claimed, those it has handed
    back; of the [tail] slots the producer has claimed, those it has
    published; and the number of values that [dequeue] has returned. *)
Definition released (head : Z) (c : consumer) : Z :=
  head - (if taking c then 1 else 0).
Definition committed (tail : Z) (p : producer) : Z :=
  tail - (if writing p then 1 else 0).
Definition returned (head : Z) (c : consumer) : Z :=
  head - (if holding c then 1 else 0).

(** The slot of position [p] in a ring of [2^k] slots. *)
Definition slot_of (q : LockFreeQueue) (k p : Z) : option queue_node :=
  nodes q !! Z.to_nat (p mod 2 ^ k).

(** What the producer knows at each statement: the tail it has read; at
    the exchange, that the slot it saw was free; after it, the state of the
    slot it is writing. *)
Definition producer_holds (q : LockFreeQueue) (k tail room : Z) (p : producer)
  : Prop :=
  match p with
  | P_idle | P_loop _ | P_return _ _ => True
  | P_check _ current_tail | P_check_full _ current_tail =>
      current_tail = wrap32 tail
  | P_claim _ current_tail =>
      current_tail = tail /\ tail < room /\ tail < 2 ^ 32
  | P_store_data dat current_tail =>
      current_tail = tail - 1
      /\ slot_of q k current_tail
         = Some {| data := None; data_size := 0; sequence := current_tail |}
  | P_store_size dat current_tail =>
      current_tail = tail - 1
      /\ slot_of q k current_tail
         = Some {| data := Some (py_str dat); data_size := 0;
                   sequence := current_tail |}
  | P_store_sequence dat current_tail =>
      current_tail = tail - 1
      /\ slot_of q k current_tail
         = Some {| data := Some (py_str dat);
                   data_size := Z.of_nat (String.length (py_str dat));
                   sequence := current_tail |}
  end.

(** What the consumer knows at each statement: the head it has read; at
    the exchange, that the slot it saw was published; after it, the state
    of the slot it is emptying and the value it has taken from it. *)
Definition consumer_holds (q : LockFreeQueue) (k head ready : Z)
    (texts : list string) (c : consumer) : Prop :=
  match c with
  | C_idle | C_loop | C_return false _ _ => True
  | C_check current_head | C_check_empty current_head =>
      current_head = wrap32 head
  | C_claim current_head => current_head = head /\ head < ready
  | C_load_data current_head =>
      current_head = head - 1
      /\ exists s, texts !! Z.to_nat current_head = Some s
           /\ slot_of q k current_head
              = Some {| data := Some s; data_size := Z.of_nat (String.length s);
                        sequence := current_head + 1 |}
  | C_load_size current_head data_ptr =>
      current_head = head - 1
      /\ exists s, texts !! Z.to_nat current_head = Some s
           /\ data_ptr = Some s
           /\ slot_of q k current_head
              = Some {| data := Some s; data_size := Z.of_nat (String.length s);
                        sequence := current_head + 1 |}
  | C_clear_data current_head data_ptr size =>
      current_head = head - 1
      /\ exists s, texts !! Z.to_nat current_head = Some s
           /\ data_ptr = Some s /\ size = Z.of_nat (String.length s)
           /\ slot_of q k current_head
              = Some {| data := Some s; data_size := Z.of_nat (String.length s);
                        sequence := current_head + 1 |}
  | C_clear_size current_head data_ptr size =>
      current_head = head - 1
      /\ exists s, texts !! Z.to_nat current_head = Some s
           /\ data_ptr = Some s /\ size = Z.of_nat (String.length s)
           /\ slot_of q k current_head
              = Some {| data := None; data_size := Z.of_nat (String.length s);
                        sequence := current_head + 1 |}
  | C_store_sequence current_head data_ptr size =>
      current_head = head - 1
      /\ exists s, texts !! Z.to_nat current_head = Some s
           /\ data_ptr = Some s /\ size = Z.of_nat (String.length s)
           /\ slot_of q k current_head
              = Some {| data := None; data_size := 0;
                        sequence := current_head + 1 |}
  | C_return true data_ptr size =>
      1 <= head
      /\ exists s, texts !! Z.to_nat (head - 1) = Some s
           /\ data_ptr = Some s /\ size = Z.of_nat (String.length s)
  end.

(** The ring while the two threads are at work: [head] and [tail] count
    the slots claimed by the consumer and by the producer, and [texts] are
    the texts of all values accepted so far.  Between the slots published
    and not claimed, which hold their texts, and the free slots, there is
    at most one slot that the producer is writing and one that the
    consumer is emptying. *)
Record threads_hold (m : machine) (k head tail : Z) (texts : list string)
  : Prop := {
  th_log : 1 <= k <= 31;
  th_capacity : capacity (shared m) = 2 ^ k;
  th_mask : mask (shared m) = 2 ^ k - 1;
  th_length : length (nodes (shared m)) = Z.to_nat (2 ^ k);
  th_initialized : initialized (shared m) = true;
  th_head : head_seq (shared m) = wrap32 head;
  th_tail : tail_seq (shared m) = wrap32 tail;
  th_texts : Z.of_nat (length texts) = tail;
  th_order : 0 <= released head (consumer_at m)
             /\ head <= committed tail (producer_at m)
             /\ tail <= released head (consumer_at m) + 2 ^ k
             /\ tail <= 2 ^ 32;
  th_filled : forall p s,
      head <= p < committed tail (producer_at m) ->
      texts !! Z.to_nat p = Some s ->
      slot_of (shared m) k p
      = Some {| data := Some s; data_size := Z.of_nat (String.length s);
                sequence := p + 1 |};
  th_free : forall p,
      tail <= p < released head (consumer_at m) + 2 ^ k ->
      slot_of (shared m) k p
      = Some {| data := None; data_size := 0; sequence := p |};
  th_producer : producer_holds (shared m) k tail
                  (released head (consumer_at m) + 2 ^ k) (producer_at m);
  th_consumer : consumer_holds (shared m) k head
                  (committed tail (producer_at m)) texts (consumer_at m);
  th_pushes : map py_str (accepted m) = texts;
  th_pops : popped (pops m)
            = map PyStr (take (Z.to_nat (returned head (consumer_at m))) texts)
}.

(** The calls of a history, by thread, and its replies, by thread. *)
Definition enqueues_of (calls : list call) : list (pyobj * bool) :=
  omap (fun c => match c with Enqueue dat allocated => Some (dat, allocated)
                            | Dequeue => None end) calls.

Definition dequeues_of (calls : list call) : nat :=
  length (List.filter (fun c => match c with Dequeue => true | _ => false end) calls).

Definition enqueue_replies (rs : list reply) : list reply :=
  List.filter (fun r => match r with Pushed _ _ => true | Popped _ => false end) rs.

Definition dequeue_replies (rs : list reply) : list reply :=
  List.filter (fun r => match r with Popped _ => true | Pushed _ _ => false end) rs.

(** [node.sequence] for the slot of a counter. *)
Definition sequence_at (q : LockFreeQueue) (counter : Z) : option Z :=
  option_map sequence (nodes q !! Z.to_nat (wrap32 (Z.land counter (mask q)))).

(** A bound on the number of steps that the producer, left alone, needs
    to come to the end of the call under way: the statements left on the
    path it is about to take. *)
Definition producer_steps_left (m : machine) : nat :=
  let q := shared m in
  let after_check (current_tail : Z) : nat :=
    match sequence_at q current_tail with
    | Some s => if s =? current_tail then 6%nat else 3%nat
    | None => 0%nat
    end in
  match producer_at m with
  | P_idle => 0%nat
  | P_return _ _ => 1%nat
  | P_store_sequence _ _ => 2%nat
  | P_store_size _ _ => 3%nat
  | P_store_data _ _ => 4%nat
  | P_claim _ _ => 5%nat
  | P_check _ current_tail => after_check current_tail
  | P_loop _ => S (after_check (tail_seq q))
  | P_check_full _ current_tail =>
      match sequence_at q current_tail with
      | Some s => if s <? current_tail then 2%nat else 8%nat
      | None => 0%nat
      end
  end.

(** The same for the consumer. *)
Definition consumer_steps_left (m : machine) : nat :=
  let q := shared m in
  let after_check (current_head : Z) : nat :=
    match sequence_at q current_head with
    | Some s => if s =? wrap64 (current_head + 1) then 8%nat else 3%nat
    | None => 0%nat
    end in
  match consumer_at m with
  | C_idle => 0%nat
  | C_return _ _ _ => 1%nat
  | C_store_sequence _ _ _ => 2%nat
  | C_clear_size _ _ _ => 3%nat
  | C_clear_data _ _ _ => 4%nat
  | C_load_size _ _ => 5%nat
  | C_load_data _ => 6%nat
  | C_claim _ => 7%nat
  | C_check current_head => after_check current_head
  | C_loop => S (after_check (head_seq q))
  | C_check_empty current_head =>
      match sequence_at q current_head with
      | Some s => if s <? wrap64 (current_head + 1) then 2%nat else 10%nat
      | None => 0%nat
      end
  end.

(** The producer has claimed the slot for the value of its call, or has
    no call under way. *)
Definition claimed (p : producer) : bool :=
  match p with
  | P_idle | P_store_data _ _ | P_store_size _ _ | P_store_sequence _ _
  | P_return _ _ => true
  | _ => false
  end.

(** Whether a thread has a call under way. *)
Definition producer_busy (p : producer) : nat :=
  match p with P_idle => 0 | _ => 1 end.

Definition consumer_busy (c : consumer) : nat :=
  match c with C_idle => 0 | _ => 1 end.

(** Two values, and an order of steps in which the two threads are in
    the middle of a call at the same time. *)
Definition two_values : list (pyobj * bool) := [(PyStr "a", true); (PyInt 7, true)].

Definition a_schedule : list thread :=
  repeat Producer 6 ++ repeat Consumer 5 ++ repeat Producer 4
  ++ repeat Consumer 6 ++ repeat Producer 3 ++ repeat Consumer 4
  ++ repeat Producer 3 ++ repeat Consumer 10.

End Queue.

(** * fast_parser.pyx *)

Module Parser.

Definition wrap16 (z : Z) : Z := z mod 2 ^ 16.

(** [data[off]] of the [const uint8_t*] view of the frame.  The parser
    checks the frame length before each read; a read past the end, which
    it never makes, is 0 here. *)
Definition byte_at (data : list byte) (off : Z) : Z :=
  match data !! Z.to_nat off with
  | Some b => Z.of_N (Byte.to_N b)
  | None => 0
  end.

(** A [uint16_t] or [uint32_t] field of a packed header struct laid over
    the frame at [off]: the bytes in host order, which is little-endian on
    the targets of the extension. *)
Definition load16 (data : list byte) (off : Z) : Z :=
  byte_at data off + 2 ^ 8 * byte_at data (off + 1).

Definition load32 (data : list byte) (off : Z) : Z :=
  byte_at data off + 2 ^ 8 * byte_at data (off + 1)
  + 2 ^ 16 * byte_at data (off + 2) + 2 ^ 24 * byte_at data (off + 3).

Definition NYSE_PORTS : list Z := [4001; 9001; 8001; 7001].
Definition NASDAQ_PORTS : list Z := [4002; 9002; 8002; 7002].
Definition CBOE_PORTS : list Z := [4003; 9003; 8003; 7003].

Record FastPacketParser : Type := {
  packets_parsed : Z;    (* uint64_t *)
  bytes_processed : Z;   (* uint64_t *)
  parse_time_ns : Z;
  initialized : bool
}.

Definition __cinit__ : FastPacketParser :=
  {| packets_parsed := 0; bytes_processed := 0; parse_time_ns := 0;
     initialized := true |}.

Definition _ntohs (value : Z) : Z :=
  wrap16 (Z.lor (Z.shiftl (Z.land value 0xFF) 8) (Z.land (Z.shiftr value 8) 0xFF)).

Definition _ntohl (value : Z) : Z :=
  wrap32 (Z.lor (Z.lor (Z.lor (Z.shiftl (Z.land value 0xFF) 24)
                              (Z.shiftl (Z.land (Z.shiftr value 8) 0xFF) 16))
                       (Z.shiftl (Z.land (Z.shiftr value 16) 0xFF) 8))
                (Z.land (Z.shiftr value 24) 0xFF)).

(** [for i in range(4): if port == PORTS[i]: return True] *)
Definition port_in (port : Z) (ports : list Z) : bool :=
  existsb (fun p => port =? p) ports.

Definition _is_exchange_port (port : Z) : bool :=
  if port_in port NYSE_PORTS then true
  else if port_in port NASDAQ_PORTS then true
  else if port_in port CBOE_PORTS then true
  else false.

Definition _get_exchange_id (port : Z) : Z :=
  if port_in port NYSE_PORTS then 1
  else if port_in port NASDAQ_PORTS then 2
  else if port_in port CBOE_PORTS then 3
  else 0.

(** [_is_fix_protocol(payload, payload_len)], the payload being the frame
    from [off] on. *)
Definition _is_fix_protocol (data : list byte) (off payload_len : Z) : bool :=
  if payload_len <? 8 then false
  else (byte_at data off =? 56)
       && (byte_at data (off + 1) =? 61)
       && (byte_at data (off + 2) =? 70)
       && (byte_at data (off + 3) =? 73)
       && (byte_at data (off + 4) =? 88).

(** The dictionary returned for a trading packet. *)
Record parsed : Type := {
  src_port : Z;
  dest_port : Z;
  protocol : string;
  exchange_id : Z;
  exchange_name : string;
  is_fix : bool;
  packet_size : Z;
  src_ip : Z;
  dest_ip : Z
}.

(** How the TCP/UDP part of [parse_packet_fast] ends: with [return None],
    or by falling through to the statistics with its local variables set.
    Locals the branch leaves unassigned are 0 here; they are not read. *)
Inductive l4_walk : Type :=
  | ReturnNone
  | Walked (is_trading_packet : bool) (src_port dest_port exchange_id : Z)
           (is_fix : bool).

Definition walk_ports (data : list byte) (packet_len l4 header_len : Z) : l4_walk :=
  let src_port := _ntohs (load16 data l4) in
  let dest_port := _ntohs (load16 data (l4 + 2)) in
  let is_trading_packet := _is_exchange_port src_port || _is_exchange_port dest_port in
  if is_trading_packet then
    let exchange_id := _get_exchange_id dest_port in
    let exchange_id :=
      if exchange_id =? 0 then _get_exchange_id src_port else exchange_id in
    let payload_len := packet_len - l4 - header_len in
    let is_fix :=
      if 0 <? payload_len
      then _is_fix_protocol data (l4 + header_len) payload_len
      else false in
    Walked true src_port dest_port exchange_id is_fix
  else Walked false src_port dest_port 0 false.

(** [parse_packet_fast(self, packet_data)]: the dictionary or [None], and
    the parser with its counters. *)
Definition parse_packet_fast (self : FastPacketParser) (packet_data : list byte)
  : option parsed * FastPacketParser :=
  let packet_len := Z.of_nat (length packet_data) in
  if packet_len <? 14 then (None, self)
  else if negb (_ntohs (load16 packet_data 12) =? 0x0800) then (None, self)
  else if packet_len <? 34 then (None, self)
  else
    let version_ihl := byte_at packet_data 14 in
    if negb (Z.shiftr version_ihl 4 =? 4) then (None, self)
    else
      let ip_header_len := Z.land version_ihl 0x0F * 4 in
      if (ip_header_len <? 20) || (packet_len <? 14 + ip_header_len)
      then (None, self)
      else
        let ip_protocol := byte_at packet_data 23 in
        let walk :=
          if ip_protocol =? 6 then
            if packet_len <? 14 + ip_header_len + 20 then ReturnNone
            else
              let tcp_header_len :=
                Z.land (Z.shiftr (byte_at packet_data (14 + ip_header_len + 12)) 4)
                       0x0F * 4 in
              walk_ports packet_data packet_len (14 + ip_header_len) tcp_header_len
          else if ip_protocol =? 17 then
            if packet_len <? 14 + ip_header_len + 8 then ReturnNone
            else walk_ports packet_data packet_len (14 + ip_header_len) 8
          else Walked false 0 0 0 false in
        match walk with
        | ReturnNone => (None, self)
        | Walked is_trading_packet src_port dest_port exchange_id is_fix =>
            let self' :=
              {| packets_parsed := wrap64 (packets_parsed self + 1);
                 bytes_processed := wrap64 (bytes_processed self + packet_len);
                 parse_time_ns := parse_time_ns self;
                 initialized := initialized self |} in
            if negb is_trading_packet then (None, self')
            else
              (Some {| src_port := src_port;
                       dest_port := dest_port;
                       protocol := if ip_protocol =? 6 then "TCP" else "UDP";
                       exchange_id := exchange_id;
                       exchange_name :=
                         nth (Z.to_nat exchange_id)
                             ["Unknown"; "NYSE"; "NASDAQ"; "CBOE"]%string ""%string;
                       is_fix := is_fix;
                       packet_size := packet_len;
                       src_ip := _ntohl (load32 packet_data 26);
                       dest_ip := _ntohl (load32 packet_data 30) |},
               self')
        end.

(** *** The frame as the specification reads it *)

(** Big-endian fields. *)
Definition be16 (data : list byte) (off : Z) : Z :=
  2 ^ 8 * byte_at data off + byte_at data (off + 1).

Definition be32 (data : list byte) (off : Z) : Z :=
  2 ^ 24 * byte_at data off + 2 ^ 16 * byte_at data (off + 1)
  + 2 ^ 8 * byte_at data (off + 2) + byte_at data (off + 3).

Definition frame_len (data : list byte) : Z := Z.of_nat (length data).
Definition ethertype (data : list byte) : Z := be16 data 12.
Definition ip_version (data : list byte) : Z := Z.shiftr (byte_at data 14) 4.
Definition ihl_words (data : list byte) : Z := Z.land (byte_at data 14) 0x0F.
Definition ihl (data : list byte) : Z := ihl_words data * 4.
Definition l4_protocol (data : list byte) : Z := byte_at data 23.
Definition source_address (data : list byte) : Z := be32 data 26.
Definition destination_address (data : list byte) : Z := be32 data 30.
Definition source_port (data : list byte) : Z := be16 data (14 + ihl data).
Definition destination_port (data : list byte) : Z := be16 data (14 + ihl data + 2).
Definition tcp_hdr_len (data : list byte) : Z :=
  Z.land (Z.shiftr (byte_at data (14 + ihl data + 12)) 4) 0x0F * 4.
Definition tcp_payload (data : list byte) : list byte :=
  drop (Z.to_nat (14 + ihl data + tcp_hdr_len data)) data.

Definition exchange_ports : list Z := NYSE_PORTS ++ NASDAQ_PORTS ++ CBOE_PORTS.

(** The five reasons for [None] that the contract of the parser lists. *)
Definition too_short (data : list byte) : bool :=
  (frame_len data <? 14) || (frame_len data <? 34)
  || (frame_len data <? 14 + ihl data).

Definition not_ipv4 (data : list byte) : bool :=
  negb (ethertype data =? 0x0800) || negb (ip_version data =? 4).

Definition ihl_below_5 (data : list byte) : bool := ihl_words data <? 5.

Definition l4_header_truncated (data : list byte) : bool :=
  ((l4_protocol data =? 6) && (frame_len data <? 14 + ihl data + 20))
  || ((l4_protocol data =? 17) && (frame_len data <? 14 + ihl data + 8)).

Definition ports_match_no_exchange (data : list byte) : bool :=
  ((l4_protocol data =? 6) || (l4_protocol data =? 17))
  && negb (port_in (destination_port data) exchange_ports)
  && negb (port_in (source_port data) exchange_ports).

(** The sixth reason, step 5 of the frame walk: another L4 protocol. *)
Definition other_l4 (data : list byte) : bool :=
  negb (l4_protocol data =? 6) && negb (l4_protocol data =? 17).

(** An ICMP echo request of 42 bytes: Ethernet II, IPv4 with IHL 5 and
    protocol 1, eight bytes of ICMP. *)
Definition icmp_frame : list byte :=
  [x00; x11; x22; x33; x44; x55; x66; x77; x88; x99; xaa; xbb; x08; x00;
   x45; x00; x00; x1c; x00; x01; x40; x00; x40; x01; x00; x00;
   x0a; x00; x00; x01; x0a; x00; x00; x02;
   x08; x00; xf7; xff; x00; x00; x00; x00]%byte.

(** Scenario 1 of the specification: TCP from 10.0.0.1:54321 to
    10.0.0.2:4001 carrying a FIX message. *)
Definition nyse_fix_frame : list byte :=
  ([x00; x11; x22; x33; x44; x55; x66; x77; x88; x99; xaa; xbb; x08; x00;
    x45; x00; x00; x36; x00; x01; x40; x00; x40; x06; x00; x00;
    x0a; x00; x00; x01; x0a; x00; x00; x02;
    xd4; x31; x0f; xa1; x00; x00; x00; x01; x00; x00; x00; x00;
    x50; x18; xff; xff; x00; x00; x00; x00]%byte
   ++ list_byte_of_string "8=FIX.4.2" ++ [x01]%byte ++ list_byte_of_string "9=5")%list.

(** The payload of a UDP frame, and of a frame of either protocol. *)
Definition udp_payload (data : list byte) : list byte :=
  drop (Z.to_nat (14 + ihl data + 8)) data.

Definition l4_payload (data : list byte) : list byte :=
  if l4_protocol data =? 6 then tcp_payload data else udp_payload data.

(** [get_statistics(self)] and [reset_statistics(self)] *)
Definition get_statistics (self : FastPacketParser) : Z * Z * Z :=
  (packets_parsed self, bytes_processed self, parse_time_ns self).

(** The statistics update at the end of [parse_packet_fast]. *)
Definition count_frame (self : FastPacketParser) (packet_len : Z)
  : FastPacketParser :=
  {| packets_parsed := wrap64 (packets_parsed self + 1);
     bytes_processed := wrap64 (bytes_processed self + packet_len);
     parse_time_ns := parse_time_ns self;
     initialized := initialized self |}.

(** The frames that are turned away before the ports are read. *)
Definition header_reject (data : list byte) : bool :=
  too_short data || not_ipv4 data || ihl_below_5 data
  || l4_header_truncated data.

(** A batch of frames handed to one parser, one call after the other. *)
Fixpoint parse_all (self : FastPacketParser) (frames : list (list byte))
  : list (option parsed) * FastPacketParser :=
  match frames with
  | [] => ([], self)
  | data :: rest =>
      let '(r, self') := parse_packet_fast self data in
      let '(rs, self'') := parse_all self' rest in
      (r :: rs, self'')
  end.

End Parser.

(** * memory_pool.pyx *)

Module Pool.

(** [cdef packed struct memory_block].  [data] is an address, [next] the
    index in [all_blocks] of the block pointed to. *)
Record memory_block : Type := {
  data : Z;            (* uint8_t* *)
  size : Z;            (* uint32_t *)
  offset : Z;          (* uint32_t *)
  in_use : bool;
  next : option nat    (* memory_block* *)
}.

Record HighPerformanceMemoryPool : Type := {
  pool_memory : Z;                 (* uint8_t*: the address of the arena *)
  memory : list byte;              (* the bytes of the arena *)
  free_blocks : option nat;        (* memory_block* *)
  all_blocks : list memory_block;
  pool_size : Z;                   (* uint32_t *)
  block_size : Z;
  num_blocks : Z;
  blocks_allocated : Z;
  blocks_free : Z;
  total_allocations : Z;           (* uint64_t *)
  total_deallocations : Z;
  use_mmap : bool;
  initialized : bool;
  mmap_fd : Z;
  allocated_views : gmap Z Z       (* id(memview) -> address of the block *)
}.

(** [memset(memory + start, 0, len)] *)
Definition memset_zero (memory : list byte) (start len : Z) : list byte :=
  list_inserts (Z.to_nat start) (replicate (Z.to_nat len) x00%byte) memory.

(** The loop of [_initialize_blocks], from block [i] on; [offset] is the
    [uint32_t] accumulator. *)
Fixpoint initialize_from (pool_memory block_size num_blocks : Z)
    (i : nat) (offset : Z) (count : nat) : list memory_block :=
  match count with
  | O => []
  | S count' =>
      {| data := pool_memory + offset;
         size := block_size;
         offset := offset;
         in_use := false;
         next := if Z.of_nat i <? wrap32 (num_blocks - 1) then Some (S i) else None |}
        :: initialize_from pool_memory block_size num_blocks
             (S i) (wrap32 (offset + block_size)) count'
  end.

(** [__cinit__(self, pool_size, block_size, use_mmap)].  [arena] is what
    [malloc(pool_size)] returned (0 is [NULL]); [descriptors] says whether
    the [malloc] of the block array succeeded.  The division is C's
    ([cdivision=True]): a [block_size] of 0 is outside the model. *)
Definition __cinit__ (pool_size block_size : Z) (use_mmap : bool)
    (arena : Z) (descriptors : bool) : py_result HighPerformanceMemoryPool :=
  let num_blocks := pool_size / block_size in
  if arena =? 0 then Raises "MemoryError"
  else if negb descriptors then Raises "MemoryError"
  else Returns
    {| pool_memory := arena;
       memory := replicate (Z.to_nat pool_size) x00%byte;
       free_blocks := Some 0%nat;
       all_blocks :=
         initialize_from arena block_size num_blocks 0 0 (Z.to_nat num_blocks);
       pool_size := pool_size;
       block_size := block_size;
       num_blocks := num_blocks;
       blocks_allocated := 0;
       blocks_free := num_blocks;
       total_allocations := 0;
       total_deallocations := 0;
       use_mmap := use_mmap;
       initialized := true;
       mmap_fd := -1;
       allocated_views := ∅ |}.

Definition set_block (b : memory_block) (used : bool) (nxt : option nat)
  : memory_block :=
  {| data := data b; size := size b; offset := offset b;
     in_use := used; next := nxt |}.

(** The statements of [_allocate_block_fast] after the test for [NULL]:
    [block] is what [free_blocks] points to, which is entry [i] of
    [all_blocks] when the array has one. *)
Definition take_block (self : HighPerformanceMemoryPool) (i : nat)
    (block : memory_block) : Z * HighPerformanceMemoryPool :=
  (data block,
   {| pool_memory := pool_memory self;
      memory := memory self;
      free_blocks := next block;
      all_blocks := <[i := set_block block true None]> (all_blocks self);
      pool_size := pool_size self;
      block_size := block_size self;
      num_blocks := num_blocks self;
      blocks_allocated := wrap32 (blocks_allocated self + 1);
      blocks_free := wrap32 (blocks_free self - 1);
      total_allocations := wrap64 (total_allocations self + 1);
      total_deallocations := total_deallocations self;
      use_mmap := use_mmap self;
      initialized := initialized self;
      mmap_fd := mmap_fd self;
      allocated_views := allocated_views self |}).

(** [_allocate_block_fast]: the address of the block, 0 for [NULL].  The
    result is [None] when [free_blocks] points outside [all_blocks], which
    C leaves undefined. *)
Definition _allocate_block_fast (self : HighPerformanceMemoryPool)
  : option (Z * HighPerformanceMemoryPool) :=
  match free_blocks self with
  | None => Some (0, self)
  | Some i =>
      match all_blocks self !! i with
      | None => None
      | Some block => Some (take_block self i block)
      end
  end.

(** [_deallocate_block_fast(self, ptr)] *)
Definition _deallocate_block_fast (self : HighPerformanceMemoryPool) (ptr : Z)
  : HighPerformanceMemoryPool :=
  let off := wrap32 (ptr - pool_memory self) in
  match list_find (fun b => offset b = off) (all_blocks self) with
  | None => self                                   (* invalid pointer *)
  | Some (i, block) =>
      if negb (in_use block) then self             (* double free *)
      else
        {| pool_memory := pool_memory self;
           memory := memset_zero (memory self) (data block - pool_memory self)
                                 (size block);
           free_blocks := Some i;
           all_blocks :=
             <[i := set_block block false (free_blocks self)]> (all_blocks self);
           pool_size := pool_size self;
           block_size := block_size self;
           num_blocks := num_blocks self;
           blocks_allocated := wrap32 (blocks_allocated self - 1);
           blocks_free := wrap32 (blocks_free self + 1);
           total_allocations := total_allocations self;
           total_deallocations := wrap64 (total_deallocations self + 1);
           use_mmap := use_mmap self;
           initialized := initialized self;
           mmap_fd := mmap_fd self;
           allocated_views := allocated_views self |}
  end.

Definition set_allocated_views (self : HighPerformanceMemoryPool)
    (views : gmap Z Z) : HighPerformanceMemoryPool :=
  {| pool_memory := pool_memory self;
     memory := memory self;
     free_blocks := free_blocks self;
     all_blocks := all_blocks self;
     pool_size := pool_size self;
     block_size := block_size self;
     num_blocks := num_blocks self;
     blocks_allocated := blocks_allocated self;
     blocks_free := blocks_free self;
     total_allocations := total_allocations self;
     total_deallocations := total_deallocations self;
     use_mmap := use_mmap self;
     initialized := initialized self;
     mmap_fd := mmap_fd self;
     allocated_views := views |}.

(** [allocate(self, size)].  The memoryview that is returned is known by
    its [id], which the interpreter chooses: [view_id].  The result is the
    handle, [None] when the pool is exhausted. *)
Definition allocate (self : HighPerformanceMemoryPool) (view_id : Z)
  : option (option Z * HighPerformanceMemoryPool) :=
  match _allocate_block_fast self with
  | None => None
  | Some (ptr, self') =>
      if ptr =? 0 then Some (None, self')
      else Some (Some view_id,
                 set_allocated_views self'
                   (<[view_id := ptr]> (allocated_views self')))
  end.

(** [deallocate(self, memview)]; [memview] is [None] or an object known by
    its [id]. *)
Definition deallocate (self : HighPerformanceMemoryPool) (memview : option Z)
  : HighPerformanceMemoryPool :=
  match memview with
  | None => self
  | Some view_id =>
      match allocated_views self !! view_id with
      | Some ptr_addr =>
          _deallocate_block_fast
            (set_allocated_views self (delete view_id (allocated_views self)))
            ptr_addr
      | None => self
      end
  end.




(** A history of calls on one pool. *)
Inductive call : Type :=
  | Allocate (view_id : Z)
  | Deallocate (memview : option Z).

Definition step (self : HighPerformanceMemoryPool) (c : call)
  : option (option Z * HighPerformanceMemoryPool) :=
  match c with
  | Allocate view_id => allocate self view_id
  | Deallocate memview => Some (None, deallocate self memview)
  end.

Fixpoint run (self : HighPerformanceMemoryPool) (calls : list call)
  : option HighPerformanceMemoryPool :=
  match calls with
  | [] => Some self
  | c :: rest =>
      match step self c with
      | None => None
      | Some (_, self') => run self' rest
      end
  end.

(** The free list, read from [start] along the [next] fields, visits the
    blocks [free] in this order and ends in [NULL]. *)
Fixpoint chain (blocks : list memory_block) (start : option nat)
    (free : list nat) : Prop :=
  match free with
  | [] => start = None
  | i :: free' =>
      start = Some i
      /\ exists b, blocks !! i = Some b /\ chain blocks (next b) free'
  end.

(** The state of a pool whose free list is [free]. *)
Record pool_ok (self : HighPerformanceMemoryPool) (free : list nat) : Prop := {
  ok_length : Z.of_nat (length (all_blocks self)) = num_blocks self;
  ok_bound : num_blocks self < 2 ^ 32;
  ok_chain : chain (all_blocks self) (free_blocks self) free;
  ok_nodup : NoDup free;
  ok_in_use : forall i b, all_blocks self !! i = Some b ->
                (in_use b = false <-> i ∈ free);
  ok_data : forall i b, all_blocks self !! i = Some b -> data b <> 0;
  ok_free : blocks_free self = Z.of_nat (length free);
  ok_allocated : blocks_allocated self = num_blocks self - Z.of_nat (length free)
}.

(** Where the blocks lie, and what the tracking dictionary holds: the
    address of a block in use, and no address twice. *)
Record views_ok (self : HighPerformanceMemoryPool) : Prop := {
  vo_block_size : 0 < block_size self;
  vo_fits : Z.of_nat (length (all_blocks self)) * block_size self < 2 ^ 32;
  vo_layout : forall i b, all_blocks self !! i = Some b ->
      offset b = Z.of_nat i * block_size self
      /\ data b = pool_memory self + offset b;
  vo_tracked : forall v ptr, allocated_views self !! v = Some ptr ->
      exists i b, all_blocks self !! i = Some b /\ data b = ptr /\ in_use b = true;
  vo_one_handle : forall v v' ptr,
      allocated_views self !! v = Some ptr ->
      allocated_views self !! v' = Some ptr -> v = v'
}.

(** *** The rest of the pool *)

(** [is_address_in_pool(self, ptr)] *)
Definition is_address_in_pool (self : HighPerformanceMemoryPool) (ptr : Z) : bool :=
  (pool_memory self <=? ptr) && (ptr <? pool_memory self + pool_size self).

Definition set_memory (self : HighPerformanceMemoryPool) (bytes : list byte)
  : HighPerformanceMemoryPool :=
  {| pool_memory := pool_memory self;
     memory := bytes;
     free_blocks := free_blocks self;
     all_blocks := all_blocks self;
     pool_size := pool_size self;
     block_size := block_size self;
     num_blocks := num_blocks self;
     blocks_allocated := blocks_allocated self;
     blocks_free := blocks_free self;
     total_allocations := total_allocations self;
     total_deallocations := total_deallocations self;
     use_mmap := use_mmap self;
     initialized := initialized self;
     mmap_fd := mmap_fd self;
     allocated_views := allocated_views self |}.

(** What the holder of a memoryview does with it: [memview[k] = value]
    writes one byte of the arena.  The view is bounds-checked, so the
    address lies in the arena; it stays usable after [deallocate]. *)
Definition store (self : HighPerformanceMemoryPool) (addr : Z) (value : byte)
  : HighPerformanceMemoryPool :=
  if is_address_in_pool self addr
  then set_memory self
         (<[Z.to_nat (addr - pool_memory self) := value]> (memory self))
  else self.

(** One round of the loop of [reset_pool]. *)
Definition reset_block (num_blocks : Z) (blocks : list memory_block) (i : nat)
  : list memory_block :=
  match blocks !! i with
  | Some b =>
      <[i := set_block b false
               (if Z.of_nat i <? wrap32 (num_blocks - 1) then Some (S i) else None)]>
        blocks
  | None => blocks
  end.

(** [reset_pool(self)] *)
Definition reset_pool (self : HighPerformanceMemoryPool)
  : HighPerformanceMemoryPool :=
  {| pool_memory := pool_memory self;
     memory := memset_zero (memory self) 0 (pool_size self);
     free_blocks := Some 0%nat;
     all_blocks :=
       foldl (reset_block (num_blocks self)) (all_blocks self)
             (seq 0 (Z.to_nat (num_blocks self)));
     pool_size := pool_size self;
     block_size := block_size self;
     num_blocks := num_blocks self;
     blocks_allocated := 0;
     blocks_free := num_blocks self;
     total_allocations := total_allocations self;
     total_deallocations := total_deallocations self;
     use_mmap := use_mmap self;
     initialized := initialized self;
     mmap_fd := mmap_fd self;
     allocated_views := ∅ |}.

(** The [while current != NULL] loop of [get_fragmentation_ratio];
    [free_segments] is a [uint32_t].  [fuel] bounds the rounds: the loop of
    the source has no bound and does not end on a cyclic list. *)
Fixpoint count_free_segments (blocks : list memory_block) (current : option nat)
    (free_segments : Z) (fuel : nat) : option Z :=
  match current with
  | None => Some free_segments
  | Some i =>
      match fuel with
      | O => None
      | S fuel' =>
          match blocks !! i with
          | None => None
          | Some b =>
              count_free_segments blocks (next b)
                                  (wrap32 (free_segments + 1)) fuel'
          end
      end
  end.

(** [get_fragmentation_ratio(self)] *)
Definition get_fragmentation_ratio (self : HighPerformanceMemoryPool)
    (fuel : nat) : option float :=
  if blocks_allocated self =? 0 then Some 0.0%float
  else
    match count_free_segments (all_blocks self) (free_blocks self) 0 fuel with
    | None => None
    | Some free_segments =>
        if blocks_free self =? 0 then Some 0.0%float
        else Some (to_double (wrap32 (free_segments - 1))
                   / to_double (Z.max 1 (blocks_free self - 1)))%float
    end.

(** A history of a pool and of the memoryviews it has handed out. *)
Inductive action : Type :=
  | Call (c : call)
  | Store (addr : Z) (value : byte)
  | Reset.

Definition act (self : HighPerformanceMemoryPool) (a : action)
  : option HighPerformanceMemoryPool :=
  match a with
  | Call c => option_map snd (step self c)
  | Store addr value => Some (store self addr value)
  | Reset => Some (reset_pool self)
  end.

Fixpoint perform (self : HighPerformanceMemoryPool) (actions : list action)
  : option HighPerformanceMemoryPool :=
  match actions with
  | [] => Some self
  | a :: rest =>
      match act self a with
      | None => None
      | Some self' => perform self' rest
      end
  end.

(** The arena and the blocks in it: the arena has [pool_size] bytes, and
    the blocks, of [block_size] bytes each, fit in. *)
Record layout_ok (self : HighPerformanceMemoryPool) : Prop := {
  lo_memory : Z.of_nat (length (memory self)) = pool_size self;
  lo_size : forall i b, all_blocks self !! i = Some b -> size b = block_size self;
  lo_fits : num_blocks self * block_size self <= pool_size self;
  lo_blocks : 1 <= num_blocks self
}.

(** What no call changes. *)
Definition same_arena (self self' : HighPerformanceMemoryPool) : Prop :=
  pool_memory self' = pool_memory self
  /\ pool_size self' = pool_size self
  /\ block_size self' = block_size self
  /\ num_blocks self' = num_blocks self
  /\ use_mmap self' = use_mmap self
  /\ initialized self' = initialized self
  /\ mmap_fd self' = mmap_fd self.

Definition with_totals (self : HighPerformanceMemoryPool)
    (allocations deallocations : Z) : HighPerformanceMemoryPool :=
  {| pool_memory := pool_memory self;
     memory := memory self;
     free_blocks := free_blocks self;
     all_blocks := all_blocks self;
     pool_size := pool_size self;
     block_size := block_size self;
     num_blocks := num_blocks self;
     blocks_allocated := blocks_allocated self;
     blocks_free := blocks_free self;
     total_allocations := allocations;
     total_deallocations := deallocations;
     use_mmap := use_mmap self;
     initialized := initialized self;
     mmap_fd := mmap_fd self;
     allocated_views := allocated_views self |}.

End Pool.

(** * latency_tracker.pyx *)

Module Tracker.

(** [(int)] arithmetic: two's complement on 32 bits. *)
Definition wrap_int (z : Z) : Z := (z + 2 ^ 31) mod 2 ^ 32 - 2 ^ 31.

(** An integer as a [double]; exact below 2^53. *)
Definition double_of_Z (z : Z) : float := of_uint63 (Uint63.of_Z z).

(** [<uint32_t>x] for a [double] [x]: the fraction is dropped; C leaves the
    conversion undefined when the integral part is not a [uint32_t], which
    is [None] here. *)
Definition to_uint32 (x : float) : option Z :=
  match Prim2SF x with
  | S754_zero _ => Some 0
  | S754_finite sign m e =>
      let magnitude := if 0 <=? e then Z.pos m * 2 ^ e else Z.pos m / 2 ^ (- e) in
      if sign then (if magnitude =? 0 then Some 0 else None)
      else if magnitude <? 2 ^ 32 then Some magnitude else None
  | _ => None
  end.

(** [cdef packed struct latency_sample], without its padding byte. *)
Record latency_sample : Type := {
  timestamp_ns : Z;     (* uint64_t *)
  latency_ns : Z;       (* uint32_t *)
  exchange_id : Z;      (* uint16_t *)
  protocol_type : Z     (* uint8_t *)
}.

Record UltraLowLatencyTracker : Type := {
  samples : list latency_sample;
  sample_count : Z;                (* int *)
  max_samples : Z;                 (* int *)
  total_samples : Z;               (* uint64_t *)
  start_time_ns : Z;
  min_latency_us : float;
  max_latency_us : float;
  sum_latency_us : float;
  sum_squared_latency_us : float;
  violation_count : Z;             (* uint64_t *)
  target_latency_us : float;
  initialized : bool
}.

(** [__cinit__(self, max_samples, target_latency_us)]; [now_ns] is the
    reading of [time.time_ns()], [allocated] says whether [malloc]
    succeeded. *)
Definition __cinit__ (max_samples : Z) (target_latency_us : float)
    (now_ns : Z) (allocated : bool) : py_result UltraLowLatencyTracker :=
  if negb allocated then Raises "MemoryError"
  else Returns
    {| samples := replicate (Z.to_nat max_samples)
                    {| timestamp_ns := 0; latency_ns := 0;
                       exchange_id := 0; protocol_type := 0 |};
       sample_count := 0;
       max_samples := max_samples;
       total_samples := 0;
       start_time_ns := wrap64 now_ns;
       min_latency_us := 999999.0%float;
       max_latency_us := 0.0%float;
       sum_latency_us := 0.0%float;
       sum_squared_latency_us := 0.0%float;
       violation_count := 0;
       target_latency_us := target_latency_us;
       initialized := true |}.

(** The statements of [_add_sample_fast] after the index has been
    computed, for an [index] inside the buffer. *)
Definition add_sample_at (self : UltraLowLatencyTracker) (index : Z)
    (latency_ns exchange_id protocol_type now_ns : Z) : UltraLowLatencyTracker :=
  let latency_us := (double_of_Z latency_ns / 1000.0)%float in
  {| samples := <[Z.to_nat index :=
                    {| timestamp_ns := wrap64 now_ns; latency_ns := latency_ns;
                       exchange_id := exchange_id;
                       protocol_type := protocol_type |}]> (samples self);
     sample_count := wrap_int (sample_count self + 1);
     max_samples := max_samples self;
     total_samples := wrap64 (total_samples self + 1);
     start_time_ns := start_time_ns self;
     min_latency_us :=
       if (latency_us <? min_latency_us self)%float then latency_us
       else min_latency_us self;
     max_latency_us :=
       if (max_latency_us self <? latency_us)%float then latency_us
       else max_latency_us self;
     sum_latency_us := (sum_latency_us self + latency_us)%float;
     sum_squared_latency_us :=
       (sum_squared_latency_us self + latency_us * latency_us)%float;
     violation_count :=
       if (target_latency_us self <? latency_us)%float
       then wrap64 (violation_count self + 1) else violation_count self;
     target_latency_us := target_latency_us self;
     initialized := initialized self |}.

(** [_add_sample_fast(self, latency_ns, exchange_id, protocol_type)];
    [now_ns] is the reading of [self._get_time_ns()].  [%] is the remainder
    of C ([cdivision=True]), which has the sign of [sample_count]: the
    process is killed when [max_samples] is 0 (and the remainder of
    [INT_MIN] by -1 is undefined), and a negative index, or one past the
    end of [samples], writes outside the array.  [None] stands for these:
    the call does not return a tracker. *)
Definition _add_sample_fast (self : UltraLowLatencyTracker)
    (latency_ns exchange_id protocol_type now_ns : Z)
  : option UltraLowLatencyTracker :=
  if (max_samples self =? 0)
     || ((sample_count self =? - 2 ^ 31) && (max_samples self =? -1)) then None
  else
    let index := Z.rem (sample_count self) (max_samples self) in
    if (index <? 0) || (Z.of_nat (length (samples self)) <=? index) then None
    else Some (add_sample_at self index latency_ns exchange_id protocol_type now_ns).

(** [record_latency(self, latency_us, exchange_id, protocol)] *)
Definition record_latency (self : UltraLowLatencyTracker) (latency_us : float)
    (exchange_id : Z) (protocol : string) (now_ns : Z)
  : option UltraLowLatencyTracker :=
  match to_uint32 (latency_us * 1000.0)%float with
  | None => None
  | Some latency_ns =>
      let exch_id := exchange_id mod 2 ^ 16 in
      let proto_type :=
        if String.eqb protocol "TCP" then 1
        else if String.eqb protocol "UDP" then 2
        else if String.eqb protocol "FIX" then 3
        else 0 in
      _add_sample_fast self latency_ns exch_id proto_type now_ns
  end.

(** [record_packet_latency(self, send_time_ns, recv_time_ns, exchange_id,
    protocol)] *)
Definition record_packet_latency (self : UltraLowLatencyTracker)
    (send_time_ns recv_time_ns exchange_id : Z) (protocol : string) (now_ns : Z)
  : option UltraLowLatencyTracker :=
  if recv_time_ns <=? send_time_ns then Some self
  else
    let latency_ns_raw := wrap64 (recv_time_ns - send_time_ns) in
    let latency_ns := wrap32 (Z.min latency_ns_raw 4294967295) in
    let latency_us := (double_of_Z latency_ns / 1000.0)%float in
    record_latency self latency_us exchange_id protocol now_ns.

(** The entries [count], [min_us], [max_us], [mean_us] and [target_us] of
    the dictionary of [get_statistics]. *)
Record statistics : Type := {
  count : Z;
  min_us : float;
  max_us : float;
  mean_us : float;
  target_us : float
}.

(** [get_statistics(self)].  The dictionary is built only when the four
    calls of [get_percentile] return.  With [actual_count =
    min(sample_count, max_samples)], [np.empty(actual_count)] raises
    [ValueError] for a negative count, the loop reads the first
    [actual_count] entries of [samples], and [latencies[index]], with
    [index = <int>(percentile / 100.0 * (actual_count - 1))], lies in the
    sorted array when it has at least one entry.  [None] stands for the
    other cases: the call returns no dictionary. *)
Definition get_statistics (self : UltraLowLatencyTracker) : option statistics :=
  if sample_count self =? 0 then
    Some {| count := 0; min_us := 0.0%float; max_us := 0.0%float;
            mean_us := 0.0%float; target_us := target_latency_us self |}
  else
    let actual_count := Z.min (sample_count self) (max_samples self) in
    if (actual_count <? 1) || (Z.of_nat (length (samples self)) <? actual_count)
    then None
    else
      Some {| count := total_samples self;
              min_us := min_latency_us self;
              max_us := max_latency_us self;
              mean_us := (sum_latency_us self / double_of_Z (total_samples self))%float;
              target_us := target_latency_us self |}.

(** One call of [record_latency]. *)
Record recording : Type := {
  rec_latency_us : float;
  rec_exchange_id : Z;
  rec_protocol : string;
  rec_now_ns : Z
}.

Fixpoint record_all (self : UltraLowLatencyTracker) (calls : list recording)
  : option UltraLowLatencyTracker :=
  match calls with
  | [] => Some self
  | c :: rest =>
      match record_latency self (rec_latency_us c) (rec_exchange_id c)
                           (rec_protocol c) (rec_now_ns c) with
      | None => None
      | Some self' => record_all self' rest
      end
  end.

(** The two comparisons of [_add_sample_fast]. *)
Definition lower (m u : float) : float := if (u <? m)%float then u else m.
Definition higher (m u : float) : float := if (m <? u)%float then u else m.

(** The value under which a recorded latency enters the statistics: its
    whole nanoseconds, in microseconds. *)
Definition recorded_us (latency_us : float) : option float :=
  match to_uint32 (latency_us * 1000.0)%float with
  | None => None
  | Some latency_ns => Some (double_of_Z latency_ns / 1000.0)%float
  end.

(** *** The rest of the tracker *)

(** [get_current_latency_us(self)]; [None] when the index computed lies
    outside the array, which C leaves undefined. *)
Definition get_current_latency_us (self : UltraLowLatencyTracker) : option float :=
  if sample_count self =? 0 then Some 0.0%float
  else
    let last_index := Z.rem (wrap_int (sample_count self - 1)) (max_samples self) in
    if last_index <? 0 then None
    else
      match samples self !! Z.to_nat last_index with
      | None => None
      | Some s => Some (double_of_Z (latency_ns s) / 1000.0)%float
      end.

(** [reset_statistics(self)]; [now_ns] is the reading of
    [time.time_ns()]. *)
Definition reset_statistics (self : UltraLowLatencyTracker) (now_ns : Z)
  : UltraLowLatencyTracker :=
  {| samples := replicate (Z.to_nat (max_samples self))
                  {| timestamp_ns := 0; latency_ns := 0;
                     exchange_id := 0; protocol_type := 0 |};
     sample_count := 0;
     max_samples := max_samples self;
     total_samples := 0;
     start_time_ns := wrap64 now_ns;
     min_latency_us := 999999.0%float;
     max_latency_us := 0.0%float;
     sum_latency_us := 0.0%float;
     sum_squared_latency_us := 0.0%float;
     violation_count := 0;
     target_latency_us := target_latency_us self;
     initialized := initialized self |}.

(** [is_violation(self, latency_us)] *)
Definition is_violation (self : UltraLowLatencyTracker) (latency_us : float) : bool :=
  (target_latency_us self <? latency_us)%float.

(** The index [_add_sample_fast] computes for its write. *)
Definition write_index (self : UltraLowLatencyTracker) : Z :=
  Z.rem (sample_count self) (max_samples self).

(** The entries [exchange_id], [count], [min_us] and [max_us] of the
    dictionary of [get_exchange_statistics]. *)
Record exchange_statistics : Type := {
  ex_exchange_id : Z;
  ex_count : Z;
  ex_min_us : float;
  ex_max_us : float
}.

(** The list [exchange_latencies] built by the loop of
    [get_exchange_statistics] over the first [actual_count] entries. *)
Definition latencies_of (exchange : Z) (entries : list latency_sample)
  : list float :=
  omap (fun s => if exchange_id s =? exchange
                 then Some (double_of_Z (latency_ns s) / 1000.0)%float
                 else None)
       entries.

(** [get_exchange_statistics(self, exchange_id)]; [min] and [max] are
    those of Python: the first of the least, resp. greatest, elements. *)
Definition get_exchange_statistics (self : UltraLowLatencyTracker)
    (exchange : Z) : option exchange_statistics :=
  if sample_count self =? 0 then None
  else
    let actual_count := Z.min (sample_count self) (max_samples self) in
    let exchange_latencies :=
      latencies_of exchange (take (Z.to_nat actual_count) (samples self)) in
    match exchange_latencies with
    | [] => None
    | first :: rest =>
        Some {| ex_exchange_id := exchange;
                ex_count := wrap_int (Z.of_nat (length exchange_latencies));
                ex_min_us := fold_left lower rest first;
                ex_max_us := fold_left higher rest first |}
    end.

(** A tracker with room for three samples that has taken 2^31 - 2 of
    them, the last three of 1 us each. *)
Definition tracker_after_many_samples : UltraLowLatencyTracker :=
  {| samples := replicate 3 {| timestamp_ns := 5; latency_ns := 1000;
                               exchange_id := 1; protocol_type := 1 |};
     sample_count := 2 ^ 31 - 2;
     max_samples := 3;
     total_samples := 2 ^ 31 - 2;
     start_time_ns := 0;
     min_latency_us := 1.0%float;
     max_latency_us := 1.0%float;
     sum_latency_us := 2147483646.0%float;
     sum_squared_latency_us := 2147483646.0%float;
     violation_count := 0;
     target_latency_us := 500.0%float;
     initialized := true |}.

(** The entry [record_latency] writes into the buffer for a call. *)
Definition stored (c : recording) : option latency_sample :=
  match to_uint32 (rec_latency_us c * 1000.0)%float with
  | None => None
  | Some latency_ns =>
      Some {| timestamp_ns := wrap64 (rec_now_ns c);
              latency_ns := latency_ns;
              exchange_id := rec_exchange_id c mod 2 ^ 16;
              protocol_type :=
                if String.eqb (rec_protocol c) "TCP" then 1
                else if String.eqb (rec_protocol c) "UDP" then 2
                else if String.eqb (rec_protocol c) "FIX" then 3
                else 0 |}
  end.

(** Three calls of [record_latency]: 2.5 us, and the doubles next to
    600.0005 us and 1.001 us. *)
Definition three_recordings : list recording :=
  [ {| rec_latency_us := 2.5%float; rec_exchange_id := 1;
       rec_protocol := "TCP"; rec_now_ns := 10 |};
    {| rec_latency_us := 0x1.2c0010624dd2fp+9%float; rec_exchange_id := 2;
       rec_protocol := "UDP"; rec_now_ns := 20 |};
    {| rec_latency_us := 0x1.004189374bc6ap+0%float; rec_exchange_id := 3;
       rec_protocol := "FIX"; rec_now_ns := 30 |} ].

End Tracker.

(* ================================================================== *)
(** * Properties                                                       *)
(* ================================================================== *)

Section QueueFacts.
Import Queue.

Lemma wrap32_small z : 0 <= z < 2 ^ 32 -> wrap32 z = z.
Proof. intros. unfold wrap32. apply Z.mod_small. lia. Qed.

Lemma wrap64_small z : 0 <= z < 2 ^ 64 -> wrap64 z = z.
Proof. intros. unfold wrap64. apply Z.mod_small. lia. Qed.

Lemma wrap32_range z : 0 <= wrap32 z < 2 ^ 32.
Proof. unfold wrap32. apply Z.mod_pos_bound. lia. Qed.

Lemma pow2_le_pow32 k : 0 <= k <= 32 -> 0 < 2 ^ k <= 2 ^ 32.
Proof.
  intros. split; [apply Z.pow_pos_nonneg; lia|].
  apply Z.pow_le_mono_r; lia.
Qed.

(** [x & (2^k - 1)] is [x mod 2^k]. *)
Lemma land_mask x k : 0 <= k -> Z.land x (2 ^ k - 1) = x mod 2 ^ k.
Proof.
  intros Hk. rewrite <- Z.land_ones by lia.
  f_equal. rewrite Z.ones_equiv. lia.
Qed.

(** The slot of a position read through the low word of the counter. *)
Lemma slot_of_low_word p k :
  0 <= k <= 32 ->
  wrap32 (Z.land (wrap32 p) (2 ^ k - 1)) = p mod 2 ^ k.
Proof.
  intros Hk. rewrite land_mask by lia.
  pose proof (pow2_le_pow32 k Hk) as [Hpos Hle].
  assert (Hlow : wrap32 p mod 2 ^ k = p mod 2 ^ k).
  { unfold wrap32. apply Z.mod_mod_divide.
    exists (2 ^ (32 - k)). rewrite <- Z.pow_add_r by lia. f_equal. lia. }
  rewrite Hlow. apply wrap32_small.
  pose proof (Z.mod_pos_bound p (2 ^ k) Hpos). lia.
Qed.

(** Two positions of one lap of the ring that share a slot are equal. *)
Lemma slot_injective c lo p p' :
  0 < c -> lo <= p < lo + c -> lo <= p' < lo + c ->
  p mod c = p' mod c -> p = p'.
Proof.
  intros Hc Hp Hp' Heq.
  pose proof (Z.div_mod p c ltac:(lia)) as E1.
  pose proof (Z.div_mod p' c ltac:(lia)) as E2.
  rewrite Heq in E1.
  assert (p / c = p' / c) by nia.
  congruence.
Qed.

Lemma slot_ne c lo p p' :
  0 < c -> lo <= p < lo + c -> lo <= p' < lo + c -> p <> p' ->
  Z.to_nat (p mod c) <> Z.to_nat (p' mod c).
Proof.
  intros Hc Hp Hp' Hne Heq. apply Hne.
  apply (slot_injective c lo); try assumption.
  pose proof (Z.mod_pos_bound p c Hc). pose proof (Z.mod_pos_bound p' c Hc).
  apply Z2Nat.inj; lia.
Qed.

Lemma slot_in_array k p :
  0 <= k -> (Z.to_nat (p mod 2 ^ k) < Z.to_nat (2 ^ k))%nat.
Proof.
  intros Hk. assert (Hpos : 0 < 2 ^ k) by (apply Z.pow_pos_nonneg; lia).
  pose proof (Z.mod_pos_bound p (2 ^ k) Hpos). apply Z2Nat.inj_lt; lia.
Qed.

Lemma substring_all s : substring 0 (String.length s) s = s.
Proof. induction s as [|a s IH]; simpl; [reflexivity | now rewrite IH]. Qed.

(** The low-word exchange, when the cell holds the low word of a counter
    that is about to move from [n] to [n + 1]. *)
Lemma compare_and_swap_next n :
  0 <= n < 2 ^ 32 ->
  compare_and_swap n n (wrap64 (n + 1)) = (true, wrap32 (n + 1)).
Proof.
  intros Hn. unfold compare_and_swap. rewrite Z.eqb_refl.
  rewrite (wrap32_small n) by lia.
  rewrite (wrap64_small (n + 1)) by lia.
  f_equal. lia.
Qed.

Section Ring.
Context (q : LockFreeQueue) (k head tail : Z) (pending : list string).
Hypothesis Hring : ring_holds q k head tail pending.

Lemma ring_pow : 2 <= 2 ^ k <= 2 ^ 31.
Proof.
  destruct Hring.
  pose proof (Z.pow_le_mono_r 2 1 k ltac:(lia) ltac:(lia)).
  pose proof (Z.pow_le_mono_r 2 k 31 ltac:(lia) ltac:(lia)).
  lia.
Qed.

Lemma ring_tail_slot :
  wrap32 (Z.land (tail_seq q) (mask q)) = tail mod 2 ^ k.
Proof.
  destruct Hring. rewrite rh_tail0, rh_mask0. apply slot_of_low_word. lia.
Qed.

Lemma ring_head_slot :
  wrap32 (Z.land (head_seq q) (mask q)) = head mod 2 ^ k.
Proof.
  destruct Hring. rewrite rh_head0, rh_mask0. apply slot_of_low_word. lia.
Qed.

(** A slot is free: [enqueue] claims it. *)
Lemma enqueue_claims dat :
  tail < head + 2 ^ k -> tail < 2 ^ 32 ->
  exists q', enqueue q dat true = Some (true, q')
    /\ ring_holds q' k head (tail + 1) (pending ++ [py_str dat]).
Proof.
  intros Hroom Hlow. pose proof ring_pow as Hpow.
  pose proof ring_tail_slot as Hslot. destruct Hring.
  assert (Hnode : nodes q !! Z.to_nat (tail mod 2 ^ k)
                  = Some {| data := None; data_size := 0; sequence := tail |})
    by (apply rh_free0; lia).
  unfold enqueue, _try_enqueue_fast, while_true, enqueue_iteration.
  assert (Htail : tail_seq q = tail)
    by (rewrite rh_tail0; apply wrap32_small; lia).
  rewrite rh_initialized0, Hslot, Hnode. cbn [negb sequence].
  rewrite Htail, Z.eqb_refl, compare_and_swap_next by lia. cbn [negb].
  eexists; split; [reflexivity|].
  split; cbn; try assumption; try lia.
  - rewrite length_insert. assumption.
  - rewrite length_app. cbn. lia.
  - intros p s Hp Hs.
    destruct (Z.eq_dec p tail) as [->|Hne].
    + replace (Z.to_nat (tail - head)) with (length pending + 0)%nat in Hs by lia.
      rewrite lookup_app_r, Nat.add_comm, Nat.add_sub in Hs by lia.
      cbn in Hs. injection Hs as <-.
      rewrite list_lookup_insert_eq;
        [now rewrite (wrap64_small (tail + 1)) by lia|].
      rewrite rh_length0. apply slot_in_array. lia.
    + rewrite list_lookup_insert_ne
        by (apply (slot_ne (2 ^ k) head); lia).
      apply rh_filled0; [lia|].
      rewrite lookup_app_l in Hs by lia. exact Hs.
  - intros p Hp.
    rewrite list_lookup_insert_ne by (apply (slot_ne (2 ^ k) head); lia).
    apply rh_free0. lia.
Qed.

(** The ring is full: [enqueue] answers [False] and only counts the
    failure. *)
Lemma enqueue_full dat :
  tail = head + 2 ^ k -> tail < 2 ^ 32 ->
  enqueue q dat true
  = Some (false, set_total_failed_enqueues q (wrap64 (total_failed_enqueues q + 1))).
Proof.
  intros Hfull Hlow. pose proof ring_pow as Hpow.
  pose proof ring_tail_slot as Hslot. destruct Hring.
  assert (Htail : tail_seq q = tail)
    by (rewrite rh_tail0; apply wrap32_small; lia).
  destruct pending as [|s rest]; [cbn in rh_pending0; lia|].
  assert (Hnode : nodes q !! Z.to_nat (tail mod 2 ^ k)
                  = Some {| data := Some s; data_size := Z.of_nat (String.length s);
                            sequence := head + 1 |}).
  { replace (tail mod 2 ^ k) with (head mod 2 ^ k).
    - apply rh_filled0; [lia|]. now rewrite Z.sub_diag.
    - subst tail. replace (head + 2 ^ k) with (head + 1 * 2 ^ k) by lia.
      now rewrite Z_mod_plus_full. }
  unfold enqueue, _try_enqueue_fast, while_true, enqueue_iteration.
  rewrite rh_initialized0, Hslot, Hnode. cbn [negb sequence].
  rewrite Htail.
  destruct (Z.eqb_spec (head + 1) tail) as [|_]; [lia|]. cbn [negb].
  destruct (Z.ltb_spec (head + 1) tail) as [_|]; [reflexivity|lia].
Qed.

(** [PyMem_Malloc] fails: the ring is not looked at. *)
Lemma enqueue_no_memory dat :
  enqueue q dat false
  = Some (false, set_total_failed_enqueues q (wrap64 (total_failed_enqueues q + 1))).
Proof. destruct Hring. unfold enqueue. now rewrite rh_initialized0. Qed.

(** After 2^32 successful calls the low word of the tail counter is 0
    again while the slots carry sequence numbers of 2^32 and more: the
    loop of [enqueue] finds its slot "not ready" for ever. *)
Lemma enqueue_after_wrap dat :
  tail = 2 ^ 32 -> enqueue q dat true = None.
Proof.
  intros Hwrap. pose proof ring_pow as Hpow.
  pose proof ring_tail_slot as Hslot. destruct Hring.
  assert (Htail : tail_seq q = 0) by (rewrite rh_tail0, Hwrap; reflexivity).
  assert (Hnode : exists node, nodes q !! Z.to_nat (tail mod 2 ^ k) = Some node
                               /\ 0 < sequence node).
  { destruct (Z.eq_dec tail (head + 2 ^ k)) as [Hfull|Hroom].
    - destruct pending as [|s rest]; [cbn in rh_pending0; lia|].
      eexists; split.
      + replace (tail mod 2 ^ k) with (head mod 2 ^ k).
        * apply rh_filled0; [lia|]. now rewrite Z.sub_diag.
        * rewrite Hfull. replace (head + 2 ^ k) with (head + 1 * 2 ^ k) by lia.
          now rewrite Z_mod_plus_full.
      + cbn. lia.
    - eexists; split; [apply rh_free0; lia|]. cbn. lia. }
  destruct Hnode as (node & Hnode & Hseq).
  unfold enqueue, _try_enqueue_fast, while_true, enqueue_iteration.
  rewrite rh_initialized0, Hslot, Hnode, Htail. cbn [negb].
  destruct (Z.eqb_spec (sequence node) 0) as [|_]; [lia|]. cbn [negb].
  destruct (Z.ltb_spec (sequence node) 0) as [|_]; [lia|reflexivity].
Qed.

(** A string is waiting: [dequeue] returns the oldest one. *)
Lemma dequeue_takes s rest :
  pending = s :: rest ->
  exists q', dequeue q = Some (PyStr s, q')
    /\ ring_holds q' k (head + 1) tail rest
    /\ total_dequeued q' = total_dequeued q
    /\ total_failed_dequeues q' = total_failed_dequeues q.
Proof.
  intros Hpend. pose proof ring_pow as Hpow.
  pose proof ring_head_slot as Hslot. destruct Hring. subst pending.
  cbn [length] in rh_pending0.
  assert (Hhead : head_seq q = head)
    by (rewrite rh_head0; apply wrap32_small; lia).
  assert (Hnode : nodes q !! Z.to_nat (head mod 2 ^ k)
                  = Some {| data := Some s; data_size := Z.of_nat (String.length s);
                            sequence := head + 1 |}).
  { apply rh_filled0; [lia|]. now rewrite Z.sub_diag. }
  unfold dequeue, _try_dequeue_fast, while_true, dequeue_iteration.
  rewrite Hslot, Hnode, Hhead. cbn [negb sequence data data_size].
  rewrite compare_and_swap_next, (wrap64_small (head + 1)), Z.eqb_refl by lia.
  cbn [negb]. rewrite Nat2Z.id, substring_all.
  eexists; split; [reflexivity|].
  split; [|split; reflexivity].
  split; cbn; try assumption; try lia.
  - rewrite length_insert. assumption.
  - intros p s' Hp Hs'.
    rewrite list_lookup_insert_ne by (apply (slot_ne (2 ^ k) head); lia).
    apply rh_filled0; [lia|].
    replace (Z.to_nat (p - head)) with (S (Z.to_nat (p - (head + 1)))) by lia.
    exact Hs'.
  - intros p Hp.
    destruct (Z.eq_dec p (head + 2 ^ k)) as [->|Hne].
    + replace ((head + 2 ^ k) mod 2 ^ k) with (head mod 2 ^ k).
      * rewrite list_lookup_insert_eq
          by (rewrite rh_length0; apply slot_in_array; lia).
        rewrite rh_mask0, wrap64_small by lia. do 2 f_equal. lia.
      * replace (head + 2 ^ k) with (head + 1 * 2 ^ k) by lia.
        now rewrite Z_mod_plus_full.
    + rewrite list_lookup_insert_ne by (apply (slot_ne (2 ^ k) head); lia).
      apply rh_free0. lia.
Qed.

(** Nothing is waiting: [dequeue] returns [None] and changes nothing. *)
Lemma dequeue_empty :
  head = tail -> tail < 2 ^ 32 -> dequeue q = Some (PyNone, q).
Proof.
  intros Hempty Hlow. pose proof ring_pow as Hpow.
  pose proof ring_head_slot as Hslot. destruct Hring.
  assert (Hhead : head_seq q = head)
    by (rewrite rh_head0; apply wrap32_small; lia).
  assert (Hnode : nodes q !! Z.to_nat (head mod 2 ^ k)
                  = Some {| data := None; data_size := 0; sequence := head |})
    by (apply rh_free0; lia).
  unfold dequeue, _try_dequeue_fast, while_true, dequeue_iteration.
  rewrite Hslot, Hnode, Hhead. cbn [negb sequence].
  rewrite (wrap64_small (head + 1)) by lia.
  destruct (Z.eqb_spec head (head + 1)) as [|_]; [lia|]. cbn [negb].
  destruct (Z.ltb_spec head (head + 1)) as [_|]; [reflexivity|lia].
Qed.

(** The same wrap on the consumer side: once 2^32 strings have been taken
    out, [dequeue] on the empty ring does not return. *)
Lemma dequeue_after_wrap :
  head = 2 ^ 32 -> dequeue q = None.
Proof.
  intros Hwrap. pose proof ring_pow as Hpow.
  pose proof ring_head_slot as Hslot. destruct Hring.
  assert (Hhead : head_seq q = 0) by (rewrite rh_head0, Hwrap; reflexivity).
  assert (Hnode : nodes q !! Z.to_nat (head mod 2 ^ k)
                  = Some {| data := None; data_size := 0; sequence := head |})
    by (apply rh_free0; lia).
  unfold dequeue, _try_dequeue_fast, while_true, dequeue_iteration.
  rewrite Hslot, Hnode, Hhead, Hwrap. reflexivity.
Qed.

End Ring.

(** The counters are not part of the ring. *)
Lemma ring_holds_failed_enqueue q k head tail pending n :
  ring_holds q k head tail pending ->
  ring_holds (set_total_failed_enqueues q n) k head tail pending.
Proof. intros []. split; assumption. Qed.

(** *** Construction *)

Lemma power_of_two_land c :
  0 < c -> Z.land c (c - 1) = 0 -> c = 2 ^ Z.log2 c.
Proof.
  intros Hc Hland.
  destruct (Z.log2_spec c Hc) as [Hlo Hhi].
  destruct (Z.eq_dec c (2 ^ Z.log2 c)) as [|Hne]; [assumption|exfalso].
  assert (Hlog : Z.log2 (c - 1) = Z.log2 c).
  { apply Z.log2_unique; [apply Z.log2_nonneg|]. lia. }
  assert (Hbit : Z.testbit (Z.land c (c - 1)) (Z.log2 c) = true).
  { assert (Hlt : 0 < c - 1).
    { pose proof (Z.pow_pos_nonneg 2 (Z.log2 c) ltac:(lia) (Z.log2_nonneg c)). lia. }
    pose proof (Z.bit_log2 c Hc) as B1.
    pose proof (Z.bit_log2 (c - 1) Hlt) as B2. rewrite Hlog in B2.
    now rewrite Z.land_spec, B1, B2. }
  rewrite Hland, Z.bits_0 in Hbit. discriminate.
Qed.

Lemma land_power_of_two k : 0 <= k -> Z.land (2 ^ k) (2 ^ k - 1) = 0.
Proof. intros Hk. rewrite land_mask by lia. apply Z_mod_same_full. Qed.

(** The test of [__cinit__] decides [power_of_two] on [uint32_t]. *)
Lemma capacity_test c :
  0 <= c < 2 ^ 32 ->
  (c =? 0) || negb (Z.land c (wrap32 (c - 1)) =? 0) = false <-> power_of_two c.
Proof.
  intros Hc. rewrite orb_false_iff, negb_false_iff, !Z.eqb_eq, Z.eqb_neq. split.
  - intros [Hnz Hland]. rewrite wrap32_small in Hland by lia.
    exists (Z.log2 c). split; [apply Z.log2_nonneg|].
    apply power_of_two_land; [lia|assumption].
  - intros (k & Hk & ->).
    pose proof (Z.pow_pos_nonneg 2 k ltac:(lia) Hk).
    split; [lia|]. rewrite wrap32_small by lia. now apply land_power_of_two.
Qed.

Lemma length_initialize_from i count : length (initialize_from i count) = count.
Proof. revert i. induction count as [|n IH]; intros i; cbn; [reflexivity|now rewrite IH]. Qed.

Lemma lookup_initialize_from i count j :
  (j < count)%nat ->
  initialize_from i count !! j
  = Some {| data := None; data_size := 0; sequence := i + Z.of_nat j |}.
Proof.
  revert i j. induction count as [|n IH]; intros i j Hj; [lia|].
  destruct j as [|j]; cbn.
  - do 2 f_equal. lia.
  - rewrite IH by lia. do 2 f_equal. lia.
Qed.

(** A fresh queue of capacity [2^k], [1 <= k <= 31], is an empty ring. *)
Lemma fresh_ring k :
  1 <= k <= 31 ->
  exists q, __cinit__ (2 ^ k) true = Returns q /\ ring_holds q k 0 0 [].
Proof.
  intros Hk.
  pose proof (Z.pow_le_mono_r 2 1 k ltac:(lia) ltac:(lia)) as Hlo.
  pose proof (Z.pow_lt_mono_r 2 k 32 ltac:(lia) ltac:(lia) ltac:(lia)) as Hhi.
  assert (Htest : (2 ^ k =? 0) || negb (Z.land (2 ^ k) (wrap32 (2 ^ k - 1)) =? 0) = false).
  { apply capacity_test; [lia|]. exists k. split; [lia|reflexivity]. }
  unfold __cinit__. rewrite Htest. cbn [negb].
  eexists; split; [reflexivity|].
  split; cbn; try reflexivity; try lia.
  - apply wrap32_small. lia.
  - unfold _initialize_nodes. apply length_initialize_from.
  - intros p Hp. rewrite Z.mod_small by lia.
    unfold _initialize_nodes. rewrite lookup_initialize_from by lia.
    do 2 f_equal. lia.
Qed.

(** Every capacity but 1 gives an empty ring of at least two slots. *)
Lemma constructed_ring capacity q :
  0 <= capacity < 2 ^ 32 -> capacity <> 1 ->
  __cinit__ capacity true = Returns q ->
  exists k, ring_holds q k 0 0 [].
Proof.
  intros Hc Hne Hq.
  destruct ((capacity =? 0) || negb (Z.land capacity (wrap32 (capacity - 1)) =? 0))
    eqn:Htest.
  - destruct (fresh_ring 16 ltac:(lia)) as (q' & Hq' & Hring).
    exists 16. unfold __cinit__ in Hq. rewrite Htest in Hq.
    assert (Hsame : __cinit__ (2 ^ 16) true = Returns q) by exact Hq.
    congruence.
  - apply capacity_test in Htest as (k & Hk & ->); [|assumption].
    assert (k <> 0) by (intros ->; apply Hne; reflexivity).
    assert (k < 32) by (apply (Z.pow_lt_mono_r_iff 2); lia).
    destruct (fresh_ring k ltac:(lia)) as (q' & Hq' & Hring).
    exists k. congruence.
Qed.

(** *** Histories *)

(** What goes in comes out: along a history that runs to its end, the
    strings waiting before it followed by the texts of the values pushed
    are the values popped followed by the strings still waiting. *)
Lemma run_keeps_ring calls : forall q k head tail pending rs q',
  ring_holds q k head tail pending ->
  run q calls = Some (rs, q') ->
  exists head' tail' pending',
    ring_holds q' k head' tail' pending'
    /\ map PyStr pending ++ map (fun d => PyStr (py_str d)) (pushed rs)
       = popped rs ++ map PyStr pending'.
Proof.
  induction calls as [|c calls IH]; intros q k head tail pending rs q' Hring Hrun.
  - injection Hrun as <- <-. exists head, tail, pending.
    split; [assumption|]. cbn. now rewrite app_nil_r.
  - cbn [run] in Hrun.
    destruct (step q c) as [[r q1]|] eqn:Hstep; [|discriminate].
    destruct (run q1 calls) as [[rs1 q2]|] eqn:Hrest; [|discriminate].
    injection Hrun as <- <-.
    pose proof (rh_order _ _ _ _ _ Hring) as Hord.
    pose proof (rh_pending _ _ _ _ _ Hring) as Hlen.
    destruct c as [dat [|]|]; cbn [step] in Hstep.
    + (* enqueue, memory at hand *)
      destruct (Z.eq_dec tail (2 ^ 32)) as [Hwrap|Hlow].
      { rewrite (enqueue_after_wrap _ _ _ _ _ Hring) in Hstep by assumption.
        discriminate. }
      destruct (Z.eq_dec tail (head + 2 ^ k)) as [Hfull|Hroom].
      * rewrite (enqueue_full _ _ _ _ _ Hring) in Hstep by lia.
        injection Hstep as <- <-.
        apply (IH _ _ _ _ _ _ _ (ring_holds_failed_enqueue _ _ _ _ _ _ Hring)) in Hrest.
        exact Hrest.
      * destruct (enqueue_claims _ _ _ _ _ Hring dat) as (q1' & Henq & Hring');
          [lia|lia|].
        rewrite Henq in Hstep. injection Hstep as <- <-.
        destruct (IH _ _ _ _ _ _ _ Hring' Hrest) as (h' & t' & p' & Hr & Heq).
        exists h', t', p'. split; [assumption|].
        cbn. rewrite map_app, <- app_assoc in Heq. exact Heq.
    + (* enqueue, no memory *)
      rewrite (enqueue_no_memory _ _ _ _ _ Hring) in Hstep.
      injection Hstep as <- <-.
      apply (IH _ _ _ _ _ _ _ (ring_holds_failed_enqueue _ _ _ _ _ _ Hring)) in Hrest.
      exact Hrest.
    + (* dequeue *)
      destruct pending as [|s rest].
      * cbn in Hlen.
        destruct (Z.eq_dec tail (2 ^ 32)) as [Hwrap|Hlow].
        { rewrite (dequeue_after_wrap _ _ _ _ _ Hring) in Hstep by lia.
          discriminate. }
        rewrite (dequeue_empty _ _ _ _ _ Hring) in Hstep by lia.
        injection Hstep as <- <-.
        apply (IH _ _ _ _ _ _ _ Hring Hrest).
      * destruct (dequeue_takes _ _ _ _ _ Hring s rest eq_refl)
          as (q1' & Hdeq & Hring' & _).
        rewrite Hdeq in Hstep. injection Hstep as <- <-.
        destruct (IH _ _ _ _ _ _ _ Hring' Hrest) as (h' & t' & p' & Hr & Heq).
        exists h', t', p'. split; [assumption|].
        unfold pushed, popped in *. cbn. now rewrite Heq.
Qed.

(** As many [dequeue] calls as strings are waiting hand them out, oldest
    first. *)
Lemma drain pending : forall q k head tail,
  ring_holds q k head tail pending ->
  exists q', run q (repeat Dequeue (length pending))
             = Some (map (fun s => Popped (PyStr s)) pending, q')
          /\ ring_holds q' k tail tail [].
Proof.
  induction pending as [|s rest IH]; intros q k head tail Hring.
  - exists q. split; [reflexivity|].
    pose proof (rh_pending _ _ _ _ _ Hring) as Hlen. cbn in Hlen.
    replace head with tail in Hring by lia. exact Hring.
  - destruct (dequeue_takes _ _ _ _ _ Hring s rest eq_refl)
      as (q1 & Hdeq & Hring' & _).
    destruct (IH _ _ _ _ Hring') as (q' & Hrun & Hempty).
    exists q'. split; [|assumption].
    cbn [length repeat run step]. now rewrite Hdeq, Hrun.
Qed.

(** Pushing values while there is room: their texts join the strings
    that wait. *)
Lemma fill vs : forall q k head tail pending,
  ring_holds q k head tail pending ->
  tail + Z.of_nat (length vs) <= head + 2 ^ k ->
  tail + Z.of_nat (length vs) <= 2 ^ 32 ->
  exists q', run q (map (fun d => Enqueue d true) vs)
             = Some (map (fun d => Pushed d true) vs, q')
          /\ ring_holds q' k head (tail + Z.of_nat (length vs))
                        (pending ++ map py_str vs).
Proof.
  induction vs as [|v vs IH]; intros q k head tail pending Hring Hroom Hlow.
  - exists q. split; [reflexivity|]. cbn. now rewrite Z.add_0_r, app_nil_r.
  - cbn [length] in Hroom, Hlow.
    destruct (enqueue_claims _ _ _ _ _ Hring v) as (q1 & Henq & Hring');
      [lia|lia|].
    destruct (IH _ _ _ _ _ Hring') as (q' & Hrun & Hfilled); [lia|lia|].
    exists q'. split.
    + cbn [map run step]. now rewrite Henq, Hrun.
    + rewrite <- app_assoc in Hfilled. cbn [map].
      replace (tail + Z.of_nat (length (v :: vs)))
        with (tail + 1 + Z.of_nat (length vs)) by (cbn [length]; lia).
      exact Hfilled.
Qed.

(** A history of at most 2^32 calls, counted from the tail, runs to its
    end: no call spins. *)
Lemma run_returns calls : forall q k head tail pending,
  ring_holds q k head tail pending ->
  tail + Z.of_nat (length calls) <= 2 ^ 32 ->
  is_Some (run q calls).
Proof.
  induction calls as [|c calls IH]; intros q k head tail pending Hring Hlen.
  - eexists; reflexivity.
  - cbn [length] in Hlen.
    pose proof (rh_order _ _ _ _ _ Hring) as Hord.
    pose proof (rh_pending _ _ _ _ _ Hring) as Hpend.
    assert (Hnext : exists r q1 head1 tail1 pending1,
               step q c = Some (r, q1) /\ ring_holds q1 k head1 tail1 pending1
               /\ tail1 <= tail + 1).
    { destruct c as [dat [|]|]; cbn [step].
      - destruct (Z.eq_dec tail (head + 2 ^ k)) as [Hfull|Hroom].
        + rewrite (enqueue_full _ _ _ _ _ Hring) by lia.
          do 5 eexists. split; [reflexivity|].
          split; [apply ring_holds_failed_enqueue; eassumption|lia].
        + destruct (enqueue_claims _ _ _ _ _ Hring dat) as (q1 & -> & Hring');
            [lia|lia|].
          do 5 eexists. split; [reflexivity|]. split; [eassumption|lia].
      - rewrite (enqueue_no_memory _ _ _ _ _ Hring).
        do 5 eexists. split; [reflexivity|].
        split; [apply ring_holds_failed_enqueue; eassumption|lia].
      - destruct pending as [|s rest].
        + cbn in Hpend. rewrite (dequeue_empty _ _ _ _ _ Hring) by lia.
          do 5 eexists. split; [reflexivity|]. split; [eassumption|lia].
        + destruct (dequeue_takes _ _ _ _ _ Hring s rest eq_refl)
            as (q1 & -> & Hring' & _).
          do 5 eexists. split; [reflexivity|]. split; [eassumption|lia]. }
    destruct Hnext as (r & q1 & head1 & tail1 & pending1 & Hstep & Hring1 & Htail1).
    destruct (IH _ _ _ _ _ Hring1) as [[rs q2] Hrun]; [lia|].
    cbn [run]. rewrite Hstep, Hrun. eexists; reflexivity.
Qed.

(** Case analysis on the innermost scrutinee of the goal. *)
Ltac destruct_innermost :=
  match goal with
  | |- context [match ?x with _ => _ end] =>
      lazymatch x with
      | context [match _ with _ => _ end] => fail
      | _ => destruct x
      end
  | |- context [if ?x then _ else _] =>
      lazymatch x with
      | context [match _ with _ => _ end] => fail
      | _ => destruct x
      end
  end.

(** No call touches the two dequeue counters, whatever the queue. *)
Lemma step_dequeue_counters q c r q' :
  step q c = Some (r, q') ->
  total_dequeued q' = total_dequeued q
  /\ total_failed_dequeues q' = total_failed_dequeues q.
Proof.
  destruct c as [dat allocated|]; cbn [step].
  - unfold enqueue, _try_enqueue_fast, while_true, enqueue_iteration,
      compare_and_swap.
    repeat destruct_innermost;
      intros Hs; try discriminate; injection Hs as <- <-; split; reflexivity.
  - unfold dequeue, _try_dequeue_fast, while_true, dequeue_iteration,
      compare_and_swap.
    repeat destruct_innermost;
      intros Hs; try discriminate; injection Hs as <- <-; split; reflexivity.
Qed.

Lemma run_dequeue_counters calls : forall q rs q',
  run q calls = Some (rs, q') ->
  total_dequeued q' = total_dequeued q
  /\ total_failed_dequeues q' = total_failed_dequeues q.
Proof.
  induction calls as [|c calls IH]; intros q rs q' Hrun.
  - injection Hrun as <- <-. split; reflexivity.
  - cbn [run] in Hrun.
    destruct (step q c) as [[r q1]|] eqn:Hstep; [|discriminate].
    destruct (run q1 calls) as [[rs1 q2]|] eqn:Hrest; [|discriminate].
    injection Hrun as <- <-.
    apply step_dequeue_counters in Hstep as [<- <-]. eapply IH; eassumption.
Qed.

(** [str] of a string is the string. *)
Lemma texts_of_strings ds :
  Forall (fun d => exists s, d = PyStr s) ds ->
  map (fun d => PyStr (py_str d)) ds = ds.
Proof.
  induction 1 as [|d ds [s ->] _ IH]; [reflexivity|].
  cbn. now rewrite IH.
Qed.

Lemma three_is_no_power_of_two : ~ power_of_two 3.
Proof.
  intros Hp. apply (capacity_test 3) in Hp; [discriminate|lia].
Qed.

(** *** The claims about the queue *)

(** C1, as stated, fails: capacity 3 is not a power of two, yet the
    constructor returns a queue, of capacity 65536, and raises nothing. *)
Lemma constructor_accepts_capacity_3 :
  ~ power_of_two 3
  /\ (exists q, __cinit__ 3 true = Returns q /\ capacity q = 65536)
  /\ (forall exn, __cinit__ 3 true <> Raises exn).
Proof.
  split; [exact three_is_no_power_of_two|]. split.
  - eexists. split; reflexivity.
  - intros exn. discriminate.
Qed.

(** C1, amended: a capacity that is not a power of two, 0 included, is
    not rejected.  The constructor replaces it by the default capacity
    65536 and returns an empty queue of 65536 slots with mask 65535; the
    only failure of the constructor is the [MemoryError] raised when the
    node array cannot be allocated. *)
Theorem constructor_falls_back_to_default (capacity : Z) :
  0 <= capacity < 2 ^ 32 ->
  ~ power_of_two capacity ->
  (exists q, __cinit__ capacity true = Returns q
             /\ Queue.capacity q = DEFAULT_QUEUE_SIZE
             /\ mask q = 65535
             /\ length (nodes q) = Z.to_nat 65536
             /\ is_empty q = true)
  /\ (forall allocated exn, __cinit__ capacity allocated = Raises exn ->
        allocated = false /\ exn = "MemoryError"%string).
Proof.
  intros Hrange Hnot.
  assert (Htest : (capacity =? 0)
                  || negb (Z.land capacity (wrap32 (capacity - 1)) =? 0) = true).
  { destruct ((capacity =? 0)
              || negb (Z.land capacity (wrap32 (capacity - 1)) =? 0)) eqn:E;
      [reflexivity|].
    exfalso. apply Hnot. now apply capacity_test. }
  split.
  - unfold __cinit__. rewrite Htest. eexists. split; [reflexivity|].
    cbn [Queue.capacity mask nodes].
    split; [reflexivity|]. split; [reflexivity|].
    split; [apply length_initialize_from | reflexivity].
  - intros [|] exn; unfold __cinit__; cbn [negb]; intros Hexn;
      [discriminate|]. injection Hexn as <-. split; reflexivity.
Qed.

Lemma constructor_falls_back_to_default_witness :
  0 <= 3 < 2 ^ 32
  /\ ~ power_of_two 3
  /\ (exists q, __cinit__ 3 true = Returns q
                /\ Queue.capacity q = DEFAULT_QUEUE_SIZE
                /\ mask q = 65535
                /\ length (nodes q) = Z.to_nat 65536
                /\ is_empty q = true)
  /\ (forall allocated exn, __cinit__ 3 allocated = Raises exn ->
        allocated = false /\ exn = "MemoryError"%string).
Proof.
  split; [lia|]. split; [exact three_is_no_power_of_two|].
  apply (constructor_falls_back_to_default 3);
    [lia | exact three_is_no_power_of_two].
Defined.

(** C8, as stated, fails: eight integers pushed on a queue of capacity 8
    are all accepted, and the eight pops that follow return eight strings,
    the decimal texts of the integers, and none of the values pushed. *)
Lemma eight_integers_come_back_as_texts :
  exists q0 q8 q16 rs,
    __cinit__ 8 true = Returns q0
    /\ run q0 (map (fun z => Enqueue (PyInt z) true) [1; 2; 3; 4; 5; 6; 7; 8])
       = Some (map (fun z => Pushed (PyInt z) true) [1; 2; 3; 4; 5; 6; 7; 8], q8)
    /\ run q8 (repeat Dequeue 8) = Some (rs, q16)
    /\ popped rs = map PyStr ["1"; "2"; "3"; "4"; "5"; "6"; "7"; "8"]%string
    /\ popped rs <> map PyInt [1; 2; 3; 4; 5; 6; 7; 8]
    /\ Forall (fun v => v ∉ map PyInt [1; 2; 3; 4; 5; 6; 7; 8]) (popped rs).
Proof.
  eexists. eexists. eexists. eexists.
  split; [reflexivity|]. split; [vm_compute; reflexivity|].
  split; [vm_compute; reflexivity|]. split; [reflexivity|].
  split; [discriminate|].
  repeat constructor; intros Hin;
    repeat (apply elem_of_cons in Hin as [Hin|Hin]; [discriminate|]);
    apply elem_of_nil in Hin; contradiction.
Qed.

(** C8, amended: on a queue of capacity 8, eight values pushed in a row
    are all accepted; a ninth push returns [False] and leaves the ring
    (slots, head and tail) as it was; eight pops then return the [str()]
    texts of the eight values in the order they were pushed, which are the
    values themselves when these are strings, and a ninth pop returns
    [None]. *)
Theorem queue_of_eight_scenario (q0 : LockFreeQueue) (vs : list pyobj) (v9 : pyobj) :
  __cinit__ 8 true = Returns q0 ->
  length vs = 8%nat ->
  exists q8 q9 q17,
    run q0 (map (fun d => Enqueue d true) vs)
      = Some (map (fun d => Pushed d true) vs, q8)
    /\ enqueue q8 v9 true = Some (false, q9)
    /\ nodes q9 = nodes q8 /\ head_seq q9 = head_seq q8 /\ tail_seq q9 = tail_seq q8
    /\ run q9 (repeat Dequeue 8)
       = Some (map (fun d => Popped (PyStr (py_str d))) vs, q17)
    /\ (Forall (fun d => exists s, d = PyStr s) vs ->
        run q9 (repeat Dequeue 8) = Some (map Popped vs, q17))
    /\ dequeue q17 = Some (PyNone, q17).
Proof.
  intros Hq Hlen.
  destruct (constructed_ring 8 q0 ltac:(lia) ltac:(lia) Hq) as (k & Hring).
  assert (Hk : 2 ^ k = 8).
  { rewrite <- (rh_capacity _ _ _ _ _ Hring). unfold __cinit__ in Hq.
    cbn in Hq. injection Hq as <-. reflexivity. }
  destruct (fill vs _ _ _ _ _ Hring) as (q8 & Hpush & Hring8);
    [rewrite Hlen, Hk; lia | rewrite Hlen; lia |].
  rewrite Hlen in Hring8. cbn [app] in Hring8.
  pose proof (enqueue_full _ _ _ _ _ Hring8 v9) as Hninth.
  rewrite Hk in Hninth. specialize (Hninth ltac:(lia) ltac:(lia)).
  pose proof (ring_holds_failed_enqueue _ _ _ _ _
                (wrap64 (total_failed_enqueues q8 + 1)) Hring8) as Hring9.
  destruct (drain (map py_str vs) _ _ _ _ Hring9) as (q17 & Hpop & Hring17).
  rewrite length_map, Hlen, map_map in Hpop.
  exists q8, (set_total_failed_enqueues q8 (wrap64 (total_failed_enqueues q8 + 1))), q17.
  split; [assumption|]. split; [assumption|].
  split; [reflexivity|]. split; [reflexivity|]. split; [reflexivity|].
  split; [assumption|]. split.
  - intros Hstr. rewrite Hpop. do 2 f_equal.
    rewrite <- (texts_of_strings vs Hstr) at 2. now rewrite map_map.
  - apply (dequeue_empty _ _ _ _ _ Hring17); lia.
Qed.

Lemma queue_of_eight_scenario_witness :
  exists q0,
    __cinit__ 8 true = Returns q0
    /\ length [PyStr "a"; PyInt 2; PyStr "c"; PyNone; PyStr "e"; PyInt (-6);
               PyStr "g"; PyStr "h"] = 8%nat
    /\ exists q8 q9 q17,
         run q0 (map (fun d => Enqueue d true)
                     [PyStr "a"; PyInt 2; PyStr "c"; PyNone; PyStr "e"; PyInt (-6);
                      PyStr "g"; PyStr "h"])
           = Some (map (fun d => Pushed d true)
                       [PyStr "a"; PyInt 2; PyStr "c"; PyNone; PyStr "e"; PyInt (-6);
                        PyStr "g"; PyStr "h"], q8)
         /\ enqueue q8 (PyStr "i") true = Some (false, q9)
         /\ nodes q9 = nodes q8 /\ head_seq q9 = head_seq q8
         /\ tail_seq q9 = tail_seq q8
         /\ run q9 (repeat Dequeue 8)
            = Some (map (fun d => Popped (PyStr (py_str d)))
                        [PyStr "a"; PyInt 2; PyStr "c"; PyNone; PyStr "e"; PyInt (-6);
                         PyStr "g"; PyStr "h"], q17)
         /\ (Forall (fun d => exists s, d = PyStr s)
                [PyStr "a"; PyInt 2; PyStr "c"; PyNone; PyStr "e"; PyInt (-6);
                 PyStr "g"; PyStr "h"] ->
             run q9 (repeat Dequeue 8)
             = Some (map Popped
                       [PyStr "a"; PyInt 2; PyStr "c"; PyNone; PyStr "e"; PyInt (-6);
                        PyStr "g"; PyStr "h"], q17))
         /\ dequeue q17 = Some (PyNone, q17).
Proof.
  eexists. split; [reflexivity|]. split; [reflexivity|].
  apply (queue_of_eight_scenario _ _ (PyStr "i")); reflexivity.
Defined.

(** C10: along every history of [enqueue] and [dequeue] calls on a freshly
    built queue, [total_dequeued] and [total_failed_dequeues] stay 0, and
    so do the two entries of [get_statistics]; the reported number of
    dequeues is therefore wrong as soon as one [dequeue] has returned a
    value. *)
Theorem dequeue_counters_stay_zero
    (capacity : Z) (allocated : bool) (q : LockFreeQueue)
    (calls : list call) (rs : list reply) (q' : LockFreeQueue) :
  __cinit__ capacity allocated = Returns q ->
  run q calls = Some (rs, q') ->
  total_dequeued q' = 0
  /\ total_failed_dequeues q' = 0
  /\ stat_total_dequeued (get_statistics q') = 0
  /\ stat_total_failed_dequeues (get_statistics q') = 0
  /\ (popped rs <> [] ->
      stat_total_dequeued (get_statistics q') <> Z.of_nat (length (popped rs))).
Proof.
  intros Hq Hrun.
  assert (Hzero : total_dequeued q = 0 /\ total_failed_dequeues q = 0).
  { unfold __cinit__ in Hq. destruct allocated; cbn [negb] in Hq;
      [|discriminate]. injection Hq as <-. split; reflexivity. }
  destruct (run_dequeue_counters calls q rs q' Hrun) as [Hd Hf].
  destruct Hzero as [Hd0 Hf0]. cbn [get_statistics stat_total_dequeued
                                     stat_total_failed_dequeues].
  rewrite Hd, Hf, Hd0, Hf0. repeat split.
  intros Hpop. destruct (popped rs); [congruence|cbn [length]; lia].
Qed.

Lemma dequeue_counters_stay_zero_witness :
  exists q rs q',
    __cinit__ 2 true = Returns q
    /\ run q [Enqueue (PyStr "x") true; Dequeue; Dequeue] = Some (rs, q')
    /\ popped rs = [PyStr "x"]
    /\ total_dequeued q' = 0
    /\ total_failed_dequeues q' = 0
    /\ stat_total_dequeued (get_statistics q') = 0
    /\ stat_total_failed_dequeues (get_statistics q') = 0
    /\ (popped rs <> [] ->
        stat_total_dequeued (get_statistics q') <> Z.of_nat (length (popped rs))).
Proof.
  eexists. eexists. eexists.
  split; [reflexivity|]. split; [reflexivity|]. split; [reflexivity|].
  exact (dequeue_counters_stay_zero 2 true _
           [Enqueue (PyStr "x") true; Dequeue; Dequeue] _ _ eq_refl eq_refl).
Defined.

End QueueFacts.



Section QueueThreads.
Import Queue.

(** *** The ring under two threads *)


Lemma slot_of_position p k :
  0 <= k <= 32 -> 0 <= p < 2 ^ 32 ->
  wrap32 (Z.land p (2 ^ k - 1)) = p mod 2 ^ k.
Proof.
  intros Hk Hp. rewrite <- (wrap32_small p) at 1 by lia.
  now apply slot_of_low_word.
Qed.

Lemma pow_bounds k : 1 <= k <= 31 -> 2 <= 2 ^ k <= 2 ^ 31.
Proof.
  intros Hk.
  pose proof (Z.pow_le_mono_r 2 1 k ltac:(lia) ltac:(lia)).
  pose proof (Z.pow_le_mono_r 2 k 31 ltac:(lia) ltac:(lia)).
  lia.
Qed.

(** A store to the slot of position [x] leaves the slots of the other
    positions of the lap as they are. *)
Lemma slot_of_update_ne q k lo x p f :
  0 < 2 ^ k -> lo <= x < lo + 2 ^ k -> lo <= p < lo + 2 ^ k -> p <> x ->
  slot_of (update_node q (x mod 2 ^ k) f) k p = slot_of q k p.
Proof.
  intros Hk Hx Hp Hne. unfold slot_of, update_node.
  destruct (nodes q !! Z.to_nat (x mod 2 ^ k)); [|reflexivity].
  cbn [nodes set_nodes]. apply list_lookup_insert_ne.
  apply (slot_ne (2 ^ k) lo); lia.
Qed.

Lemma slot_of_update_eq q k x f node :
  slot_of q k x = Some node ->
  slot_of (update_node q (x mod 2 ^ k) f) k x = Some (f node).
Proof.
  unfold slot_of, update_node. intros Hnode. rewrite Hnode.
  cbn [nodes set_nodes]. apply list_lookup_insert_eq.
  eapply lookup_lt_Some; eassumption.
Qed.

Lemma update_node_frame q i f :
  capacity (update_node q i f) = capacity q
  /\ mask (update_node q i f) = mask q
  /\ length (nodes (update_node q i f)) = length (nodes q)
  /\ initialized (update_node q i f) = initialized q
  /\ head_seq (update_node q i f) = head_seq q
  /\ tail_seq (update_node q i f) = tail_seq q.
Proof.
  unfold update_node. destruct (nodes q !! Z.to_nat i); [|repeat split].
  cbn. rewrite length_insert. repeat split.
Qed.

Lemma producer_holds_frame q q' k tail room room' p :
  producer_holds q k tail room p ->
  room <= room' ->
  (writing p = true -> slot_of q' k (tail - 1) = slot_of q k (tail - 1)) ->
  producer_holds q' k tail room' p.
Proof.
  intros Hp Hroom Hslot. destruct p; cbn in *; try exact Hp.
  - destruct Hp as (? & ? & ?). repeat split; lia.
  - destruct Hp as (-> & Hp). split; [reflexivity|]. now rewrite Hslot.
  - destruct Hp as (-> & Hp). split; [reflexivity|]. now rewrite Hslot.
  - destruct Hp as (-> & Hp). split; [reflexivity|]. now rewrite Hslot.
Qed.

Lemma consumer_holds_frame q q' k head ready ready' texts texts' c :
  consumer_holds q k head ready texts c ->
  ready <= ready' ->
  (forall i s, texts !! i = Some s -> texts' !! i = Some s) ->
  (taking c = true -> slot_of q' k (head - 1) = slot_of q k (head - 1)) ->
  consumer_holds q' k head ready' texts' c.
Proof.
  intros Hc Hready Htexts Hslot.
  destruct c as [| |ch|ch|ch|ch|ch d|ch d sz|ch d sz|ch d sz|[|] d sz];
    cbn in *; try exact Hc.
  - destruct Hc. split; lia.
  - destruct Hc as (-> & s & Hs & Hn). split; [reflexivity|].
    exists s. rewrite Hslot by reflexivity. auto.
  - destruct Hc as (-> & s & Hs & Hd & Hn). split; [reflexivity|].
    exists s. rewrite Hslot by reflexivity. auto.
  - destruct Hc as (-> & s & Hs & Hd & Hz & Hn). split; [reflexivity|].
    exists s. rewrite Hslot by reflexivity. auto.
  - destruct Hc as (-> & s & Hs & Hd & Hz & Hn). split; [reflexivity|].
    exists s. rewrite Hslot by reflexivity. auto.
  - destruct Hc as (-> & s & Hs & Hd & Hz & Hn). split; [reflexivity|].
    exists s. rewrite Hslot by reflexivity. auto.
  - destruct Hc as (Hpos & s & Hs & Hd & Hz). split; [exact Hpos|]. exists s. auto.
Qed.

Ltac simpl_machine :=
  unfold accepted, released, committed, returned in *;
  cbn [shared producer_at consumer_at pushes pops to_push to_pop
       producer_moves producer_calls producer_returns
       consumer_moves consumer_calls consumer_returns
       writing taking holding in_flight
       nodes capacity mask head_seq tail_seq initialized
       set_nodes set_head_seq set_tail_seq set_total_enqueued
       set_total_failed_enqueues] in *.

Lemma pushed_snoc rs d ok :
  pushed (rs ++ [Pushed d ok]) = pushed rs ++ (if ok then [d] else []).
Proof. unfold pushed. rewrite omap_app. destruct ok; reflexivity. Qed.

Lemma popped_snoc rs v :
  popped (rs ++ [Popped v])
  = popped rs ++ (match v with PyNone => [] | _ => [v] end).
Proof. unfold popped. rewrite omap_app. destruct v; reflexivity. Qed.

(** When the ring is full, the slot the producer looks at still carries
    the sequence number of the oldest value. *)
Lemma oldest_slot m k head tail texts :
  threads_hold m k head tail texts ->
  tail = released head (consumer_at m) + 2 ^ k ->
  exists node,
    slot_of (shared m) k (released head (consumer_at m)) = Some node
    /\ sequence node = released head (consumer_at m) + 1.
Proof.
  intros Hinv Hfull. pose proof (pow_bounds k (th_log _ _ _ _ _ Hinv)) as Hpow.
  destruct m as [q p c tp tc ps cs].
  destruct Hinv as [Hlog Hcap Hmask Hlen Hinit Hhead Htail Htexts Hord Hfilled
                    Hfree Hprod Hcons Hpush Hpop].
  simpl_machine.
  assert (Hwritten : taking c = false ->
            exists node, slot_of q k head = Some node /\ sequence node = head + 1).
  { intros Hc. rewrite Hc in *.
    assert (Hwr : 0 <= (if writing p then 1 else 0) <= 1) by (destruct (writing p); lia).
    destruct (lookup_lt_is_Some_2 texts (Z.to_nat head) ltac:(lia)) as [s Hs].
    eexists. split; [apply (Hfilled head s); [lia|exact Hs]|reflexivity]. }
  destruct c as [| |ch|ch|ch|ch|ch d|ch d sz|ch d sz|ch d sz|ok d sz];
    cbn [taking consumer_holds] in *;
    try (rewrite Z.sub_0_r; apply Hwritten; reflexivity).
  - destruct Hcons as (-> & s & _ & Hn). eexists. split; [exact Hn|reflexivity].
  - destruct Hcons as (-> & s & _ & _ & Hn). eexists. split; [exact Hn|reflexivity].
  - destruct Hcons as (-> & s & _ & _ & _ & Hn). eexists. split; [exact Hn|reflexivity].
  - destruct Hcons as (-> & s & _ & _ & _ & Hn). eexists. split; [exact Hn|reflexivity].
  - destruct Hcons as (-> & s & _ & _ & _ & Hn). eexists. split; [exact Hn|reflexivity].
Qed.

Lemma last_text (ds : list pyobj) (d : pyobj) (texts : list string) (s : string) :
  map py_str (ds ++ [d]) = texts ->
  texts !! (length texts - 1)%nat = Some s ->
  s = py_str d.
Proof.
  intros <- Hs. rewrite map_app, length_app in Hs. cbn [map length] in Hs.
  rewrite lookup_app_r in Hs by (rewrite length_map; lia).
  rewrite length_map in Hs.
  replace (length ds + 1 - 1 - length ds)%nat with 0%nat in Hs by lia.
  cbn in Hs. congruence.
Qed.

Lemma producer_step_holds m k head tail texts :
  threads_hold m k head tail texts ->
  exists tail' texts', threads_hold (producer_step m) k head tail' texts'.
Proof.
  intros Hinv. pose proof (pow_bounds k (th_log _ _ _ _ _ Hinv)) as Hpow.
  pose proof (oldest_slot _ _ _ _ _ Hinv) as Holdest.
  destruct m as [q p c tp tc ps cs]. unfold producer_step.
  pose proof Hinv as Hsame.
  destruct Hinv as [Hlog Hcap Hmask Hlen Hinit Hhead Htail Htexts Hord Hfilled
                    Hfree Hprod Hcons Hpush Hpop].
  cbn [shared producer_at consumer_at pushes pops to_push to_pop] in Holdest.
  simpl_machine.
  assert (Htk : 0 <= (if taking c then 1 else 0) <= 1) by (destruct (taking c); lia).
  destruct p as [|dat|dat ct|dat ct|dat ct|dat ct|dat ct|dat ct|dat ok];
    simpl_machine.
  - (* P_idle *)
    destruct tp as [|[dat allocated] rest].
    + exists tail, texts. exact Hsame.
    + rewrite Hinit. cbn [negb]. destruct allocated; cbn [negb].
      * exists tail, texts. split; simpl_machine; assumption.
      * exists tail, texts. split; simpl_machine; try assumption.
        rewrite pushed_snoc, ?app_nil_r in *. assumption.
  - (* P_loop *)
    exists tail, texts. split; simpl_machine; try assumption.
  - (* P_check *)
    cbn [producer_holds] in Hprod. subst ct.
    rewrite Hmask, slot_of_low_word by lia.
    fold (slot_of q k tail).
    destruct (slot_of q k tail) as [node|] eqn:Hnode; [|exists tail, texts; exact Hsame].
    destruct (Z.eqb_spec (sequence node) (wrap32 tail)) as [Hseq|Hseq]; cbn [negb].
    + exists tail, texts. split; simpl_machine; try assumption.
      cbn [producer_holds].
      pose proof (wrap32_range tail) as Hw.
      destruct (Z.eq_dec tail (head - (if taking c then 1 else 0) + 2 ^ k))
        as [Hfull|Hroom].
      * exfalso. destruct (Holdest Hfull) as (node' & Hnode' & Hseq').
        assert (Hslot : slot_of q k tail
                        = slot_of q k (head - (if taking c then 1 else 0))).
        { unfold slot_of. rewrite Hfull.
          replace (head - (if taking c then 1 else 0) + 2 ^ k)
            with (head - (if taking c then 1 else 0) + 1 * 2 ^ k) by lia.
          now rewrite Z_mod_plus_full. }
        rewrite Hslot, Hnode' in Hnode. injection Hnode as <-.
        destruct (Z.eq_dec tail (2 ^ 32)) as [Hwrap|Hlow].
        -- rewrite Hwrap in Hseq. change (wrap32 (2 ^ 32)) with 0 in Hseq. lia.
        -- rewrite wrap32_small in Hseq by lia. lia.
      * rewrite Hfree in Hnode by lia. injection Hnode as <-.
        cbn [sequence] in Hseq. repeat split; lia.
    + exists tail, texts. split; simpl_machine; try assumption. reflexivity.
  - (* P_check_full *)
    destruct (nodes q !! _) as [node|]; [|exists tail, texts; exact Hsame].
    destruct (sequence node <? ct);
      exists tail, texts; split; simpl_machine; try assumption; exact I.
  - (* P_claim *)
    cbn [producer_holds] in Hprod. destruct Hprod as (-> & Hroom & Hlow).
    rewrite Htail, (wrap32_small tail), compare_and_swap_next by lia.
    exists (tail + 1), (texts ++ [py_str dat]).
    split; simpl_machine; try assumption; try lia.
    + rewrite length_app. cbn [length]. lia.
    + intros p s Hp Hs. apply Hfilled; [lia|].
      rewrite lookup_app_l in Hs by lia. exact Hs.
    + intros p Hp. apply Hfree. lia.
    + cbn [producer_holds]. split; [lia|].
      replace (tail + 1 - 1) with tail by lia. apply Hfree. lia.
    + apply (consumer_holds_frame q _ k head (tail - 0) _ texts); try assumption.
      * lia.
      * intros i s Hs. apply lookup_app_l_Some. exact Hs.
      * reflexivity.
    + rewrite map_app, <- Hpush, ?app_nil_r. reflexivity.
    + rewrite take_app_le; [exact Hpop|]. destruct (holding c); lia.
  - (* P_store_data *)
    cbn [producer_holds] in Hprod. destruct Hprod as (-> & Hslot).
    rewrite Hmask, slot_of_position by lia.
    match goal with
    | |- context [update_node q ?i ?f] =>
        destruct (update_node_frame q i f) as (Ec & Em & El & Ei & Eh & Et);
        pose proof (slot_of_update_eq q k (tail - 1) f _ Hslot) as Hmine;
        assert (Hother : forall p,
                   head - (if taking c then 1 else 0) <= p
                     < head - (if taking c then 1 else 0) + 2 ^ k ->
                   p <> tail - 1 ->
                   slot_of (update_node q i f) k p = slot_of q k p)
          by (intros p Hp Hne;
              apply (slot_of_update_ne q k (head - (if taking c then 1 else 0)));
              lia);
        set (q' := update_node q i f) in *
    end.
    exists tail, texts. split; simpl_machine; try congruence; try assumption.
    + intros p s Hp Hs. rewrite Hother by lia. now apply Hfilled.
    + intros p Hp. rewrite Hother by lia. now apply Hfree.
    + cbn [producer_holds]. split; [reflexivity|exact Hmine].
    + apply (consumer_holds_frame q _ k head (tail - 1) _ texts); try assumption;
        [lia|auto|].
      intros Hc. rewrite Hc in *. apply Hother; lia.
  - (* P_store_size *)
    cbn [producer_holds] in Hprod. destruct Hprod as (-> & Hslot).
    rewrite Hmask, slot_of_position by lia.
    match goal with
    | |- context [update_node q ?i ?f] =>
        destruct (update_node_frame q i f) as (Ec & Em & El & Ei & Eh & Et);
        pose proof (slot_of_update_eq q k (tail - 1) f _ Hslot) as Hmine;
        assert (Hother : forall p,
                   head - (if taking c then 1 else 0) <= p
                     < head - (if taking c then 1 else 0) + 2 ^ k ->
                   p <> tail - 1 ->
                   slot_of (update_node q i f) k p = slot_of q k p)
          by (intros p Hp Hne;
              apply (slot_of_update_ne q k (head - (if taking c then 1 else 0)));
              lia);
        set (q' := update_node q i f) in *
    end.
    exists tail, texts. split; simpl_machine; try congruence; try assumption.
    + intros p s Hp Hs. rewrite Hother by lia. now apply Hfilled.
    + intros p Hp. rewrite Hother by lia. now apply Hfree.
    + cbn [producer_holds]. split; [reflexivity|exact Hmine].
    + apply (consumer_holds_frame q _ k head (tail - 1) _ texts); try assumption;
        [lia|auto|].
      intros Hc. rewrite Hc in *. apply Hother; lia.
  - (* P_store_sequence *)
    cbn [producer_holds] in Hprod. destruct Hprod as (-> & Hslot).
    rewrite Hmask, slot_of_position by lia.
    match goal with
    | |- context [update_node q ?i ?f] =>
        destruct (update_node_frame q i f) as (Ec & Em & El & Ei & Eh & Et);
        pose proof (slot_of_update_eq q k (tail - 1) f _ Hslot) as Hmine;
        assert (Hother : forall p,
                   head - (if taking c then 1 else 0) <= p
                     < head - (if taking c then 1 else 0) + 2 ^ k ->
                   p <> tail - 1 ->
                   slot_of (update_node q i f) k p = slot_of q k p)
          by (intros p Hp Hne;
              apply (slot_of_update_ne q k (head - (if taking c then 1 else 0)));
              lia);
        set (q' := update_node q i f) in *
    end.
    exists tail, texts. split; simpl_machine; try congruence; try assumption;
      try lia.
    + intros p s Hp Hs. destruct (Z.eq_dec p (tail - 1)) as [->|Hne].
      * rewrite Hmine. unfold with_sequence. cbn [data data_size sequence].
        rewrite wrap64_small by lia.
        assert (s = py_str dat) as ->.
        { apply (last_text (pushed ps) dat texts); [exact Hpush|].
          rewrite <- Hs. f_equal. lia. }
        reflexivity.
      * rewrite Hother by lia. apply Hfilled; [lia|exact Hs].
    + intros p Hp. rewrite Hother by lia. now apply Hfree.
    + exact I.
    + apply (consumer_holds_frame q _ k head (tail - 1) _ texts); try assumption;
        [lia|auto|].
      intros Hc. rewrite Hc in *. apply Hother; lia.
  - (* P_return *)
    exists tail, texts. destruct ok; split; simpl_machine; try assumption;
      rewrite pushed_snoc, ?app_nil_r in *; assumption.
Qed.

(** When nothing is ready, the slot the consumer looks at carries the
    sequence number of a slot that is free or being written. *)
Lemma newest_slot m k head tail texts :
  threads_hold m k head tail texts ->
  taking (consumer_at m) = false ->
  head = committed tail (producer_at m) ->
  exists node, slot_of (shared m) k head = Some node /\ sequence node = head.
Proof.
  intros Hinv Hc Hnone. pose proof (pow_bounds k (th_log _ _ _ _ _ Hinv)) as Hpow.
  destruct m as [q p c tp tc ps cs].
  destruct Hinv as [Hlog Hcap Hmask Hlen Hinit Hhead Htail Htexts Hord Hfilled
                    Hfree Hprod Hcons Hpush Hpop].
  simpl_machine. rewrite Hc in *.
  destruct p as [|dat|dat ct|dat ct|dat ct|dat ct|dat ct|dat ct|dat ok];
    cbn [writing producer_holds] in *;
    try (eexists; split; [apply Hfree; lia|reflexivity]).
  - destruct Hprod as (-> & Hn). replace head with (tail - 1) by lia.
    eexists. split; [exact Hn|reflexivity].
  - destruct Hprod as (-> & Hn). replace head with (tail - 1) by lia.
    eexists. split; [exact Hn|reflexivity].
  - destruct Hprod as (-> & Hn). replace head with (tail - 1) by lia.
    eexists. split; [exact Hn|reflexivity].
Qed.

Lemma consumer_step_holds m k head tail texts :
  threads_hold m k head tail texts ->
  exists head', threads_hold (consumer_step m) k head' tail texts.
Proof.
  intros Hinv. pose proof (pow_bounds k (th_log _ _ _ _ _ Hinv)) as Hpow.
  pose proof (newest_slot _ _ _ _ _ Hinv) as Hnewest.
  destruct m as [q p c tp tc ps cs]. unfold consumer_step.
  pose proof Hinv as Hsame.
  destruct Hinv as [Hlog Hcap Hmask Hlen Hinit Hhead Htail Htexts Hord Hfilled
                    Hfree Hprod Hcons Hpush Hpop].
  cbn [shared producer_at consumer_at pushes pops to_push to_pop] in Hnewest.
  simpl_machine.
  assert (Hwr : 0 <= (if writing p then 1 else 0) <= 1) by (destruct (writing p); lia).
  destruct c as [| |ch|ch|ch|ch|ch d|ch d sz|ch d sz|ch d sz|ok d sz];
    simpl_machine.
  - (* C_idle *)
    destruct tc as [|rest]; [exists head; exact Hsame|].
    exists head. split; simpl_machine; assumption.
  - (* C_loop *)
    exists head. split; simpl_machine; assumption.
  - (* C_check *)
    cbn [consumer_holds] in Hcons. subst ch.
    rewrite Hmask, slot_of_low_word by lia.
    fold (slot_of q k head).
    destruct (slot_of q k head) as [node|] eqn:Hnode; [|exists head; exact Hsame].
    destruct (Z.eqb_spec (sequence node) (wrap64 (wrap32 head + 1))) as [Hseq|Hseq];
      cbn [negb].
    + exists head. split; simpl_machine; try assumption.
      cbn [consumer_holds].
      destruct (Z.eq_dec head (tail - (if writing p then 1 else 0))) as [Hnone|Hsome].
      * exfalso. destruct (Hnewest eq_refl Hnone) as (node' & Hnode' & Hseq').
        injection Hnode' as <-.
        destruct (Z.eq_dec head (2 ^ 32)) as [Hwrap|Hlow].
        -- rewrite Hwrap in Hseq. change (wrap64 (wrap32 (2 ^ 32) + 1)) with 1 in Hseq.
           lia.
        -- rewrite wrap32_small, wrap64_small in Hseq by lia. lia.
      * split; [apply wrap32_small|]; lia.
    + exists head. split; simpl_machine; try assumption. reflexivity.
  - (* C_check_empty *)
    destruct (nodes q !! _) as [node|]; [|exists head; exact Hsame].
    destruct (sequence node <? _);
      exists head; split; simpl_machine; try assumption; exact I.
  - (* C_claim *)
    cbn [consumer_holds] in Hcons. destruct Hcons as (-> & Hready).
    rewrite Hhead, (wrap32_small head), compare_and_swap_next by lia.
    exists (head + 1). split; simpl_machine; try assumption; try lia.
    + intros p' s Hp Hs. apply Hfilled; [lia|exact Hs].
    + intros p' Hp. apply Hfree. lia.
    + replace (head + 1 - 1) with (head - 0) by lia.
      apply (producer_holds_frame q _ k tail _ _ p Hprod); [lia|intros _; reflexivity].
    + cbn [consumer_holds]. split; [lia|].
      destruct (lookup_lt_is_Some_2 texts (Z.to_nat head) ltac:(lia)) as [s Hs].
      exists s. split; [exact Hs|]. apply Hfilled; [lia|exact Hs].
    + replace (head + 1 - 1) with (head - 0) by lia. exact Hpop.
  - (* C_load_data *)
    cbn [consumer_holds] in Hcons. destruct Hcons as (-> & s & Hs & Hn).
    rewrite Hmask, slot_of_position by lia. fold (slot_of q k (head - 1)).
    rewrite Hn. cbn [data].
    exists head. split; simpl_machine; try assumption.
    cbn [consumer_holds]. split; [reflexivity|]. exists s. auto.
  - (* C_load_size *)
    cbn [consumer_holds] in Hcons. destruct Hcons as (-> & s & Hs & Hd & Hn).
    rewrite Hmask, slot_of_position by lia. fold (slot_of q k (head - 1)).
    rewrite Hn. cbn [data_size].
    exists head. split; simpl_machine; try assumption.
    cbn [consumer_holds]. split; [reflexivity|]. exists s. auto.
  - (* C_clear_data *)
    cbn [consumer_holds] in Hcons. destruct Hcons as (-> & s & Hs & Hd & Hz & Hn).
    rewrite Hmask, slot_of_position by lia.
    match goal with
    | |- context [update_node q ?i ?f] =>
        destruct (update_node_frame q i f) as (Ec & Em & El & Ei & Eh & Et);
        pose proof (slot_of_update_eq q k (head - 1) f _ Hn) as Hmine;
        assert (Hother : forall p', head - 1 <= p' < head - 1 + 2 ^ k ->
                   p' <> head - 1 ->
                   slot_of (update_node q i f) k p' = slot_of q k p')
          by (intros p' Hp' Hne; apply (slot_of_update_ne q k (head - 1)); lia);
        set (q' := update_node q i f) in *
    end.
    exists head. split; simpl_machine; try congruence; try assumption.
    + intros p' s' Hp Hs'. rewrite Hother by lia. now apply Hfilled.
    + intros p' Hp. rewrite Hother by lia. now apply Hfree.
    + apply (producer_holds_frame q _ k tail _ _ p Hprod); [lia|].
      intros Hw. rewrite Hw in *. apply Hother; lia.
    + cbn [consumer_holds]. split; [reflexivity|]. exists s. auto.
  - (* C_clear_size *)
    cbn [consumer_holds] in Hcons. destruct Hcons as (-> & s & Hs & Hd & Hz & Hn).
    rewrite Hmask, slot_of_position by lia.
    match goal with
    | |- context [update_node q ?i ?f] =>
        destruct (update_node_frame q i f) as (Ec & Em & El & Ei & Eh & Et);
        pose proof (slot_of_update_eq q k (head - 1) f _ Hn) as Hmine;
        assert (Hother : forall p', head - 1 <= p' < head - 1 + 2 ^ k ->
                   p' <> head - 1 ->
                   slot_of (update_node q i f) k p' = slot_of q k p')
          by (intros p' Hp' Hne; apply (slot_of_update_ne q k (head - 1)); lia);
        set (q' := update_node q i f) in *
    end.
    exists head. split; simpl_machine; try congruence; try assumption.
    + intros p' s' Hp Hs'. rewrite Hother by lia. now apply Hfilled.
    + intros p' Hp. rewrite Hother by lia. now apply Hfree.
    + apply (producer_holds_frame q _ k tail _ _ p Hprod); [lia|].
      intros Hw. rewrite Hw in *. apply Hother; lia.
    + cbn [consumer_holds]. split; [reflexivity|]. exists s. auto.
  - (* C_store_sequence *)
    cbn [consumer_holds] in Hcons. destruct Hcons as (-> & s & Hs & Hd & Hz & Hn).
    rewrite Hmask, slot_of_position by lia.
    match goal with
    | |- context [update_node q ?i ?f] =>
        destruct (update_node_frame q i f) as (Ec & Em & El & Ei & Eh & Et);
        pose proof (slot_of_update_eq q k (head - 1) f _ Hn) as Hmine;
        assert (Hother : forall p', head - 1 <= p' < head - 1 + 2 ^ k ->
                   p' <> head - 1 ->
                   slot_of (update_node q i f) k p' = slot_of q k p')
          by (intros p' Hp' Hne; apply (slot_of_update_ne q k (head - 1)); lia);
        set (q' := update_node q i f) in *
    end.
    exists head. split; simpl_machine; try congruence; try assumption; try lia.
    + intros p' s' Hp Hs'. rewrite Hother by lia. now apply Hfilled.
    + intros p' Hp. destruct (Z.eq_dec p' (head - 1 + 2 ^ k)) as [->|Hne].
      * assert (Hslot : slot_of q' k (head - 1 + 2 ^ k) = slot_of q' k (head - 1)).
        { unfold slot_of.
          replace (head - 1 + 2 ^ k) with (head - 1 + 1 * 2 ^ k) by lia.
          now rewrite Z_mod_plus_full. }
        rewrite Hslot, Hmine. unfold with_sequence. cbn [data data_size sequence].
        rewrite (wrap64_small (head - 1 + 1)), wrap64_small by lia.
        do 2 f_equal. lia.
      * rewrite Hother by lia. apply Hfree. lia.
    + apply (producer_holds_frame q _ k tail _ _ p Hprod); [lia|].
      intros Hw. rewrite Hw in *. apply Hother; lia.
    + cbn [consumer_holds]. split; [lia|]. exists s. auto.
  - (* C_return *)
    destruct ok.
    + cbn [consumer_holds] in Hcons. destruct Hcons as (Hpos & s & Hs & -> & ->).
      rewrite Nat2Z.id, substring_all.
      exists head. split; simpl_machine; try assumption; [exact I|].
      rewrite popped_snoc, Hpop, Z.sub_0_r.
      replace (Z.to_nat head) with (S (Z.to_nat (head - 1))) by lia.
      rewrite (take_S_r _ _ _ Hs), map_app. reflexivity.
    + exists head. split; simpl_machine; try assumption.
      rewrite popped_snoc, app_nil_r. exact Hpop.
Qed.

Lemma interleave_holds schedule : forall m k head tail texts,
  threads_hold m k head tail texts ->
  exists head' tail' texts',
    threads_hold (interleave m schedule) k head' tail' texts'.
Proof.
  induction schedule as [|t schedule IH]; intros m k head tail texts Hinv.
  - exists head, tail, texts. exact Hinv.
  - cbn [interleave fold_left]. destruct t; cbn [thread_step].
    + destruct (producer_step_holds _ _ _ _ _ Hinv) as (tail' & texts' & Hinv').
      apply (IH _ _ _ _ _ Hinv').
    + destruct (consumer_step_holds _ _ _ _ _ Hinv) as (head' & Hinv').
      apply (IH _ _ _ _ _ Hinv').
Qed.

(** Two threads that have not started, on an empty ring. *)
Lemma start_holds q k values count :
  ring_holds q k 0 0 [] -> threads_hold (start q values count) k 0 0 [].
Proof.
  intros [Hlog Hcap Hmask Hlen Hinit Hhead Htail Hord Hpend Hfilled Hfree].
  pose proof (pow_bounds k Hlog).
  unfold start. split; simpl_machine;
    try assumption; try reflexivity; try lia; try exact I.
Qed.

(** Between calls the threads leave a ring as the calls made one after
    the other know it. *)
Lemma quiescent_ring m k head tail texts :
  threads_hold m k head tail texts ->
  producer_at m = P_idle -> consumer_at m = C_idle ->
  ring_holds (shared m) k head tail (drop (Z.to_nat head) texts).
Proof.
  intros [Hlog Hcap Hmask Hlen Hinit Hhead Htail Htexts Hord Hfilled
          Hfree Hprod Hcons Hpush Hpop] Hp Hc.
  rewrite Hp, Hc in *. simpl_machine.
  split; try assumption; try lia.
  - rewrite length_drop. lia.
  - intros p s Hrange Hs. apply Hfilled; [lia|].
    rewrite lookup_drop in Hs. rewrite <- Hs. f_equal. lia.
  - intros p Hrange. apply Hfree. lia.
Qed.

Lemma texts_split m k head tail texts :
  threads_hold m k head tail texts ->
  map (fun d => PyStr (py_str d)) (accepted m)
  = popped (pops m)
    ++ map PyStr (drop (Z.to_nat (returned head (consumer_at m))) texts).
Proof.
  intros Hinv. rewrite (th_pops _ _ _ _ _ Hinv), <- map_app, take_drop.
  rewrite <- (th_pushes _ _ _ _ _ Hinv), map_map. reflexivity.
Qed.

(** *** Calls that run one after the other *)

(** Three stores to the fields of one node are the store of the node. *)
Lemma update_node_thrice q i node d n s :
  nodes q !! Z.to_nat i = Some node ->
  update_node
    (update_node
       (update_node q i (fun node => with_data node d))
       i (fun node => with_data_size node n))
    i (fun node => with_sequence node s)
  = set_nodes q (<[Z.to_nat i := {| data := d; data_size := n; sequence := s |}]>
                   (nodes q)).
Proof.
  intros Hnode. pose proof (lookup_lt_Some _ _ _ Hnode) as Hlt.
  unfold update_node at 3. rewrite Hnode.
  unfold update_node at 2. cbn [nodes set_nodes].
  rewrite list_lookup_insert_eq by assumption.
  unfold update_node. cbn [nodes set_nodes].
  rewrite list_lookup_insert_eq by (rewrite length_insert; assumption).
  unfold set_nodes. cbn. rewrite !list_insert_insert_eq. reflexivity.
Qed.

Lemma interleave_cons m t schedule :
  interleave m (t :: schedule) = interleave (thread_step m t) schedule.
Proof. reflexivity. Qed.

Lemma mask_update_node q i f : mask (update_node q i f) = mask q.
Proof. apply update_node_frame. Qed.

Ltac producer_steps :=
  rewrite interleave_cons; cbn [thread_step];
  unfold producer_step, producer_moves, producer_calls, producer_returns;
  cbn [producer_at shared to_push to_pop pushes pops consumer_at];
  rewrite ?mask_update_node.

(** The producer, when no step of the consumer comes in between, does
    what [enqueue] does. *)
Lemma enqueue_alone m dat allocated rest ok q' :
  producer_at m = P_idle ->
  to_push m = (dat, allocated) :: rest ->
  enqueue (shared m) dat allocated = Some (ok, q') ->
  exists n, (n <= 8)%nat
    /\ interleave m (repeat Producer n)
       = {| shared := q'; producer_at := P_idle; consumer_at := consumer_at m;
            to_push := rest; to_pop := to_pop m;
            pushes := pushes m ++ [Pushed dat ok]; pops := pops m |}.
Proof.
  destruct m as [q p c tp tc ps cs]. cbn [shared producer_at consumer_at to_push
                                          to_pop pushes pops].
  intros -> -> Henq. unfold enqueue in Henq.
  destruct (initialized q) eqn:Hinit; cbn [negb] in Henq.
  2:{ injection Henq as <- <-. exists 1%nat. split; [lia|].
      cbn [repeat]. producer_steps. rewrite Hinit. reflexivity. }
  destruct allocated; cbn [negb] in Henq.
  2:{ injection Henq as <- <-. exists 1%nat. split; [lia|].
      cbn [repeat]. producer_steps. rewrite Hinit. reflexivity. }
  unfold _try_enqueue_fast, while_true, enqueue_iteration in Henq.
  destruct (nodes q !! Z.to_nat (wrap32 (Z.land (tail_seq q) (mask q))))
    as [node|] eqn:Hnode; [|discriminate].
  destruct (Z.eqb_spec (sequence node) (tail_seq q)) as [Hseq|Hseq];
    cbn [negb] in Henq.
  - unfold compare_and_swap in Henq. rewrite Z.eqb_refl in Henq.
    injection Henq as <- <-. exists 8%nat. split; [lia|].
    cbn [repeat]. producer_steps. rewrite Hinit. cbn [negb producer_calls].
    producer_steps. producer_steps.
    rewrite Hnode, (proj2 (Z.eqb_eq _ _) Hseq). cbn [negb producer_moves].
    producer_steps. unfold compare_and_swap. rewrite Z.eqb_refl.
    cbn [producer_moves]. do 4 producer_steps.
    cbn [mask set_tail_seq set_nodes].
    rewrite (update_node_thrice _ _ node) by exact Hnode.
    reflexivity.
  - destruct (Z.ltb_spec (sequence node) (tail_seq q)) as [Hlt|Hge]; [|discriminate].
    injection Henq as <- <-. exists 5%nat. split; [lia|].
    cbn [repeat]. producer_steps. rewrite Hinit. cbn [negb producer_calls].
    producer_steps. producer_steps.
    rewrite Hnode, (proj2 (Z.eqb_neq _ _) Hseq). cbn [negb producer_moves].
    producer_steps.
    rewrite Hnode, (proj2 (Z.ltb_lt _ _) Hlt). cbn [producer_moves].
    producer_steps. reflexivity.
Qed.

Ltac consumer_steps :=
  rewrite interleave_cons; cbn [thread_step];
  unfold consumer_step, consumer_moves, consumer_calls, consumer_returns;
  cbn [producer_at shared to_push to_pop pushes pops consumer_at];
  rewrite ?mask_update_node.

(** The consumer, when no step of the producer comes in between, does
    what [dequeue] does. *)
Lemma dequeue_alone m rest v q' :
  consumer_at m = C_idle ->
  to_pop m = S rest ->
  dequeue (shared m) = Some (v, q') ->
  exists n, (n <= 10)%nat
    /\ interleave m (repeat Consumer n)
       = {| shared := q'; producer_at := producer_at m; consumer_at := C_idle;
            to_push := to_push m; to_pop := rest;
            pushes := pushes m; pops := pops m ++ [Popped v] |}.
Proof.
  destruct m as [q p c tp tc ps cs]. cbn [shared producer_at consumer_at to_push
                                          to_pop pushes pops].
  intros -> -> Hdeq. unfold dequeue, _try_dequeue_fast, while_true,
                       dequeue_iteration in Hdeq.
  destruct (nodes q !! Z.to_nat (wrap32 (Z.land (head_seq q) (mask q))))
    as [node|] eqn:Hnode; [|discriminate].
  destruct (Z.eqb_spec (sequence node) (wrap64 (head_seq q + 1))) as [Hseq|Hseq];
    cbn [negb] in Hdeq.
  - unfold compare_and_swap in Hdeq. rewrite Z.eqb_refl in Hdeq.
    exists 10%nat. split; [lia|].
    cbn [repeat]. do 3 consumer_steps.
    rewrite Hnode, (proj2 (Z.eqb_eq _ _) Hseq). cbn [negb].
    consumer_steps. unfold compare_and_swap. rewrite Z.eqb_refl.
    consumer_steps. cbn [nodes mask set_head_seq]. rewrite Hnode.
    consumer_steps. cbn [nodes mask set_head_seq]. rewrite Hnode.
    do 4 consumer_steps. cbn [mask set_head_seq].
    rewrite (update_node_thrice _ _ node) by exact Hnode.
    destruct (data node) as [bytes|]; injection Hdeq as <- <-; reflexivity.
  - destruct (Z.ltb_spec (sequence node) (wrap64 (head_seq q + 1))) as [Hlt|Hge];
      [|discriminate].
    injection Hdeq as <- <-. exists 5%nat. split; [lia|].
    cbn [repeat]. do 3 consumer_steps.
    rewrite Hnode, (proj2 (Z.eqb_neq _ _) Hseq). cbn [negb].
    consumer_steps.
    rewrite Hnode, (proj2 (Z.ltb_lt _ _) Hlt).
    consumer_steps. reflexivity.
Qed.


Lemma interleave_app m schedule schedule' :
  interleave m (schedule ++ schedule')
  = interleave (interleave m schedule) schedule'.
Proof. apply fold_left_app. Qed.

(** Calls made one after the other are an interleaving: the one in which
    each call runs to its end before the next one starts. *)
Lemma run_interleaved calls : forall m rs q',
  producer_at m = P_idle -> consumer_at m = C_idle ->
  to_push m = enqueues_of calls -> to_pop m = dequeues_of calls ->
  run (shared m) calls = Some (rs, q') ->
  exists schedule,
    interleave m schedule
    = {| shared := q'; producer_at := P_idle; consumer_at := C_idle;
         to_push := []; to_pop := 0;
         pushes := pushes m ++ enqueue_replies rs;
         pops := pops m ++ dequeue_replies rs |}.
Proof.
  induction calls as [|c calls IH]; intros m rs q' Hp Hc Hpush Hpop Hrun.
  - injection Hrun as <- <-. exists []. destruct m; cbn in *. subst.
    now rewrite !app_nil_r.
  - cbn [run] in Hrun.
    destruct (step (shared m) c) as [[r q1]|] eqn:Hstep; [|discriminate].
    destruct (run q1 calls) as [[rs1 q2]|] eqn:Hrest; [|discriminate].
    injection Hrun as <- <-.
    destruct c as [dat allocated|]; cbn [step] in Hstep.
    + destruct (enqueue (shared m) dat allocated) as [[ok q1']|] eqn:Henq;
        [|discriminate].
      injection Hstep as <- <-.
      destruct (enqueue_alone m dat allocated (enqueues_of calls) ok q1' Hp Hpush Henq)
        as (n & _ & Hn).
      rewrite Hc in Hn.
      match type of Hn with
      | _ = ?m1 => destruct (IH m1 rs1 q2) as (schedule & Hs)
      end; try reflexivity; try assumption.
      exists (repeat Producer n ++ schedule).
      rewrite interleave_app, Hn, Hs. cbn [pushes pops enqueue_replies
                                          dequeue_replies List.filter].
      rewrite <- app_assoc. reflexivity.
    + destruct (dequeue (shared m)) as [[v q1']|] eqn:Hdeq; [|discriminate].
      injection Hstep as <- <-.
      destruct (dequeue_alone m (dequeues_of calls) v q1' Hc Hpop Hdeq)
        as (n & _ & Hn).
      rewrite Hp in Hn.
      match type of Hn with
      | _ = ?m1 => destruct (IH m1 rs1 q2) as (schedule & Hs)
      end; try reflexivity; try assumption.
      exists (repeat Consumer n ++ schedule).
      rewrite interleave_app, Hn, Hs. cbn [pushes pops enqueue_replies
                                          dequeue_replies List.filter].
      rewrite <- app_assoc. reflexivity.
Qed.

(** *** A thread that the other one leaves alone *)

Lemma sequence_at_position q k p :
  mask q = 2 ^ k - 1 -> 0 <= k <= 32 ->
  sequence_at q (wrap32 p) = option_map sequence (slot_of q k p).
Proof.
  intros Hmask Hk. unfold sequence_at, slot_of.
  rewrite Hmask, slot_of_low_word by lia. reflexivity.
Qed.

(** What the producer finds in the slot of the tail. *)
Lemma tail_slot m k head tail texts :
  threads_hold m k head tail texts ->
  writing (producer_at m) = false ->
  exists node,
    slot_of (shared m) k tail = Some node
    /\ (tail < released head (consumer_at m) + 2 ^ k /\ sequence node = tail
        \/ tail = released head (consumer_at m) + 2 ^ k
           /\ sequence node = tail - 2 ^ k + 1).
Proof.
  intros Hinv Hw. pose proof (pow_bounds k (th_log _ _ _ _ _ Hinv)) as Hpow.
  pose proof (th_order _ _ _ _ _ Hinv) as Hord.
  destruct (Z.eq_dec tail (released head (consumer_at m) + 2 ^ k)) as [Hfull|Hroom].
  - destruct (oldest_slot _ _ _ _ _ Hinv Hfull) as (node & Hnode & Hseq).
    exists node. split.
    + rewrite <- Hnode. unfold slot_of. rewrite Hfull.
      replace (released head (consumer_at m) + 2 ^ k)
        with (released head (consumer_at m) + 1 * 2 ^ k) by lia.
      now rewrite Z_mod_plus_full.
    + right. split; [exact Hfull|lia].
  - eexists. split; [apply (th_free _ _ _ _ _ Hinv); lia|].
    left. split; [lia|reflexivity].
Qed.

(** What the consumer finds in the slot of the head. *)
Lemma head_slot m k head tail texts :
  threads_hold m k head tail texts ->
  taking (consumer_at m) = false ->
  exists node,
    slot_of (shared m) k head = Some node
    /\ (head < committed tail (producer_at m) /\ sequence node = head + 1
        \/ head = committed tail (producer_at m) /\ sequence node = head).
Proof.
  intros Hinv Hc.
  pose proof (th_order _ _ _ _ _ Hinv) as Hord.
  pose proof (th_texts _ _ _ _ _ Hinv) as Htexts.
  destruct (Z.eq_dec head (committed tail (producer_at m))) as [Hnone|Hsome].
  - destruct (newest_slot _ _ _ _ _ Hinv Hc Hnone) as (node & Hnode & Hseq).
    exists node. auto.
  - unfold released, committed in *. rewrite Hc in *.
    assert (Hwr : 0 <= (if writing (producer_at m) then 1 else 0) <= 1)
      by (destruct (writing (producer_at m)); lia).
    destruct (lookup_lt_is_Some_2 texts (Z.to_nat head) ltac:(lia)) as [s Hs].
    eexists. split; [apply (th_filled _ _ _ _ _ Hinv head s); [unfold committed; lia|exact Hs]|].
    left. split; [lia|reflexivity].
Qed.

Lemma tail_is_count m k head tail texts :
  threads_hold m k head tail texts -> tail = Z.of_nat (length (accepted m)).
Proof.
  intros Hinv. rewrite <- (th_texts _ _ _ _ _ Hinv), <- (th_pushes _ _ _ _ _ Hinv).
  now rewrite length_map.
Qed.

(** Left alone, the producer comes closer to the end of its call with
    every step, as long as the tail counter has not wrapped when it looks
    for a slot. *)
Lemma producer_step_closer m k head tail texts :
  threads_hold m k head tail texts ->
  producer_at m <> P_idle ->
  tail < 2 ^ 32 \/ claimed (producer_at m) = true ->
  exists tail' texts',
    threads_hold (producer_step m) k head tail' texts'
    /\ (producer_steps_left (producer_step m) < producer_steps_left m)%nat
    /\ (tail' < 2 ^ 32 \/ claimed (producer_at (producer_step m)) = true)
    /\ (length (pushes (producer_step m))
          + producer_busy (producer_at (producer_step m))
        = length (pushes m) + producer_busy (producer_at m))%nat.
Proof.
  intros Hinv Hbusy Hlow.
  pose proof (pow_bounds k (th_log _ _ _ _ _ Hinv)) as Hpow.
  destruct (producer_step_holds _ _ _ _ _ Hinv) as (tail' & texts' & Hinv').
  exists tail', texts'. split; [exact Hinv'|].
  pose proof (tail_is_count _ _ _ _ _ Hinv) as Htail.
  pose proof (tail_is_count _ _ _ _ _ Hinv') as Htail'.
  pose proof (tail_slot _ _ _ _ _ Hinv) as Hslot.
  pose proof (th_mask _ _ _ _ _ Hinv) as Hmask.
  pose proof (th_log _ _ _ _ _ Hinv) as Hlog.
  pose proof (th_tail _ _ _ _ _ Hinv) as Htl.
  pose proof (th_producer _ _ _ _ _ Hinv) as Hprod.
  pose proof (th_order _ _ _ _ _ Hinv) as Hord.
  clear Hinv Hinv'.
  remember (producer_step m) as m' eqn:Hm'.
  destruct m as [q p c tp tc ps cs]. simpl_machine.
  assert (Htk : 0 <= (if taking c then 1 else 0) <= 1) by (destruct (taking c); lia).
  unfold producer_step in Hm'. unfold producer_steps_left at 2. simpl_machine.
  destruct p as [|dat|dat ct|dat ct|dat ct|dat ct|dat ct|dat ct|dat ok];
    try congruence; cbn [claimed producer_holds writing in_flight] in *.
  - (* P_loop *)
    subst m'. unfold producer_steps_left. simpl_machine. cbn [claimed in_flight] in *.
    split; [apply Nat.lt_succ_diag_r|]. split; [|reflexivity]. left.
    destruct Hlow as [Hlow|]; [lia|discriminate].
  - (* P_check *)
    destruct Hlow as [Hlow|]; [|discriminate]. subst ct.
    destruct (Hslot eq_refl) as (node & Hnode & Hcase).
    rewrite (sequence_at_position q k) by (assumption || lia).
    rewrite Hmask, slot_of_low_word in Hm' by lia. fold (slot_of q k tail) in Hm'.
    rewrite Hnode in *. cbn [option_map]. rewrite (wrap32_small tail) in * by lia.
    destruct Hcase as [(Hroom & Hseq)|(Hfull & Hseq)]; rewrite Hseq in *.
    + rewrite Z.eqb_refl in *. cbn [negb] in Hm'. subst m'.
      unfold producer_steps_left. simpl_machine. cbn [claimed in_flight] in *.
      split; [lia|]. split; [left; lia|reflexivity].
    + destruct (Z.eqb_spec (tail - 2 ^ k + 1) tail) as [|_]; [lia|].
      cbn [negb] in Hm'. subst m'.
      unfold producer_steps_left. simpl_machine. cbn [claimed in_flight] in *.
      unfold sequence_at. rewrite Hmask, slot_of_position by lia.
      fold (slot_of q k tail). rewrite Hnode. cbn [option_map sequence]. rewrite Hseq.
      destruct (Z.ltb_spec (tail - 2 ^ k + 1) tail) as [_|]; [|lia].
      split; [lia|]. split; [left; lia|reflexivity].
  - (* P_check_full *)
    destruct Hlow as [Hlow|]; [|discriminate]. subst ct.
    destruct (Hslot eq_refl) as (node & Hnode & Hcase).
    rewrite (sequence_at_position q k) by (assumption || lia).
    rewrite Hmask, slot_of_low_word in Hm' by lia. fold (slot_of q k tail) in Hm'.
    rewrite Hnode in *. cbn [option_map]. rewrite (wrap32_small tail) in * by lia.
    destruct (sequence node <? tail); subst m';
      unfold producer_steps_left; simpl_machine; cbn [claimed in_flight] in *.
    + split; [lia|]. split; [right; reflexivity|reflexivity].
    + split; [|split; [left; lia|reflexivity]].
      rewrite Htl. unfold sequence_at. rewrite Hmask, slot_of_position by lia.
      fold (slot_of q k tail). rewrite Hnode. cbn [option_map].
      destruct (sequence node =? tail); lia.
  - (* P_claim *)
    destruct Hprod as (-> & Hroom & Hlt).
    rewrite Htl, (wrap32_small tail), compare_and_swap_next in Hm' by lia.
    subst m'. unfold producer_steps_left. simpl_machine. cbn [claimed].
    split; [lia|]. split; [right; reflexivity|reflexivity].
  - subst m'. unfold producer_steps_left. simpl_machine. cbn [claimed].
    split; [lia|]. split; [right; reflexivity|].
    rewrite ?length_app; cbn [length producer_busy]; lia.
  - subst m'. unfold producer_steps_left. simpl_machine. cbn [claimed].
    split; [lia|]. split; [right; reflexivity|].
    rewrite ?length_app; cbn [length producer_busy]; lia.
  - subst m'. unfold producer_steps_left. simpl_machine. cbn [claimed].
    split; [lia|]. split; [right; reflexivity|].
    rewrite ?length_app; cbn [length producer_busy]; lia.
  - subst m'. unfold producer_steps_left. simpl_machine. cbn [claimed].
    split; [lia|]. split; [right; reflexivity|].
    rewrite ?length_app; cbn [length producer_busy]; lia.
Qed.

(** The same for the consumer, as long as the head counter has not
    wrapped. *)
Lemma consumer_step_closer m k head tail texts :
  threads_hold m k head tail texts ->
  consumer_at m <> C_idle ->
  tail < 2 ^ 32 ->
  exists head',
    threads_hold (consumer_step m) k head' tail texts
    /\ (consumer_steps_left (consumer_step m) < consumer_steps_left m)%nat
    /\ (length (pops (consumer_step m))
          + consumer_busy (consumer_at (consumer_step m))
        = length (pops m) + consumer_busy (consumer_at m))%nat.
Proof.
  intros Hinv Hbusy Hlow.
  pose proof (pow_bounds k (th_log _ _ _ _ _ Hinv)) as Hpow.
  destruct (consumer_step_holds _ _ _ _ _ Hinv) as (head' & Hinv').
  exists head'. split; [exact Hinv'|].
  pose proof (head_slot _ _ _ _ _ Hinv) as Hslot.
  pose proof (th_mask _ _ _ _ _ Hinv) as Hmask.
  pose proof (th_log _ _ _ _ _ Hinv) as Hlog.
  pose proof (th_head _ _ _ _ _ Hinv) as Hhd.
  pose proof (th_consumer _ _ _ _ _ Hinv) as Hcons.
  pose proof (th_order _ _ _ _ _ Hinv) as Hord.
  clear Hinv Hinv'.
  remember (consumer_step m) as m' eqn:Hm'.
  destruct m as [q p c tp tc ps cs]. simpl_machine.
  assert (Hwr : 0 <= (if writing p then 1 else 0) <= 1) by (destruct (writing p); lia).
  unfold consumer_step in Hm'. unfold consumer_steps_left at 2. simpl_machine.
  destruct c as [| |ch|ch|ch|ch|ch d|ch d sz|ch d sz|ch d sz|ok d sz];
    try congruence; cbn [consumer_holds taking] in *.
  - (* C_loop *)
    subst m'. unfold consumer_steps_left. simpl_machine.
    split; [apply Nat.lt_succ_diag_r|reflexivity].
  - (* C_check *)
    subst ch. destruct (Hslot eq_refl) as (node & Hnode & Hcase).
    rewrite (sequence_at_position q k) by (assumption || lia).
    rewrite Hmask, slot_of_low_word in Hm' by lia. fold (slot_of q k head) in Hm'.
    rewrite Hnode in *. cbn [option_map]. rewrite (wrap32_small head) in * by lia.
    rewrite (wrap64_small (head + 1)) in * by lia.
    destruct Hcase as [(Hready & Hseq)|(Hnone & Hseq)]; rewrite Hseq in *.
    + rewrite Z.eqb_refl in *. cbn [negb] in Hm'. subst m'.
      unfold consumer_steps_left. simpl_machine. split; [lia|reflexivity].
    + destruct (Z.eqb_spec head (head + 1)) as [|_]; [lia|].
      cbn [negb] in Hm'. subst m'.
      unfold consumer_steps_left. simpl_machine.
      unfold sequence_at. rewrite Hmask, slot_of_position by lia.
      fold (slot_of q k head). rewrite Hnode. cbn [option_map sequence]. rewrite Hseq.
      rewrite (wrap64_small (head + 1)) by lia.
      destruct (Z.ltb_spec head (head + 1)) as [_|]; [|lia].
      split; [lia|reflexivity].
  - (* C_check_empty *)
    subst ch. destruct (Hslot eq_refl) as (node & Hnode & Hcase).
    rewrite (sequence_at_position q k) by (assumption || lia).
    rewrite Hmask, slot_of_low_word in Hm' by lia. fold (slot_of q k head) in Hm'.
    rewrite Hnode in *. cbn [option_map]. rewrite (wrap32_small head) in * by lia.
    destruct (sequence node <? wrap64 (head + 1)); subst m';
      unfold consumer_steps_left; simpl_machine; (split; [|reflexivity]); [lia|].
    rewrite Hhd. unfold sequence_at. rewrite Hmask, slot_of_position by lia.
    fold (slot_of q k head). rewrite Hnode. cbn [option_map].
    destruct (sequence node =? wrap64 (head + 1)); lia.
  - (* C_claim *)
    destruct Hcons as (-> & Hready).
    rewrite Hhd, (wrap32_small head), compare_and_swap_next in Hm' by lia.
    subst m'. unfold consumer_steps_left. simpl_machine.
    split; [lia|reflexivity].
  - (* C_load_data *)
    destruct Hcons as (-> & s & Hs & Hn).
    rewrite Hmask, slot_of_position in Hm' by lia.
    fold (slot_of q k (head - 1)) in Hm'. rewrite Hn in Hm'.
    subst m'. unfold consumer_steps_left. simpl_machine.
    split; [lia|reflexivity].
  - (* C_load_size *)
    destruct Hcons as (-> & s & Hs & Hd & Hn).
    rewrite Hmask, slot_of_position in Hm' by lia.
    fold (slot_of q k (head - 1)) in Hm'. rewrite Hn in Hm'.
    subst m'. unfold consumer_steps_left. simpl_machine.
    split; [lia|reflexivity].
  - subst m'. unfold consumer_steps_left. simpl_machine.
    split; [lia|]. rewrite ?length_app; cbn [length consumer_busy]; lia.
  - subst m'. unfold consumer_steps_left. simpl_machine.
    split; [lia|]. rewrite ?length_app; cbn [length consumer_busy]; lia.
  - subst m'. unfold consumer_steps_left. simpl_machine.
    split; [lia|]. rewrite ?length_app; cbn [length consumer_busy]; lia.
  - subst m'. unfold consumer_steps_left. simpl_machine.
    split; [lia|]. rewrite ?length_app; cbn [length consumer_busy]; lia.
Qed.

Lemma producer_steps_bound m : (producer_steps_left m <= 8)%nat.
Proof.
  unfold producer_steps_left.
  destruct (producer_at m); try lia;
    repeat match goal with
           | |- context [match ?x with _ => _ end] => destruct x
           end; lia.
Qed.

Lemma consumer_steps_bound m : (consumer_steps_left m <= 10)%nat.
Proof.
  unfold consumer_steps_left.
  destruct (consumer_at m); try lia;
    repeat match goal with
           | |- context [match ?x with _ => _ end] => destruct x
           end; lia.
Qed.

Lemma producer_idle_or_busy p : p = P_idle \/ p <> P_idle.
Proof. destruct p; [left; reflexivity|right; discriminate..]. Qed.

Lemma consumer_idle_or_busy c : c = C_idle \/ c <> C_idle.
Proof. destruct c; [left; reflexivity|right; discriminate..]. Qed.

Lemma interleave_repeat_S m t n :
  interleave m (repeat t (S n)) = interleave (thread_step m t) (repeat t n).
Proof. reflexivity. Qed.

(** The producer, left alone, comes to the end of its call. *)
Lemma producer_returns_alone bound : forall m k head tail texts,
  threads_hold m k head tail texts ->
  tail < 2 ^ 32 \/ claimed (producer_at m) = true ->
  (producer_steps_left m <= bound)%nat ->
  exists n, (n <= bound)%nat
    /\ producer_at (interleave m (repeat Producer n)) = P_idle
    /\ length (pushes (interleave m (repeat Producer n)))
       = (length (pushes m) + producer_busy (producer_at m))%nat.
Proof.
  induction bound as [|bound IH]; intros m k head tail texts Hinv Hlow Hleft.
  - exists 0%nat. split; [lia|]. cbn [repeat interleave fold_left].
    destruct (producer_idle_or_busy (producer_at m)) as [Hidle|Hbusy].
    + split; [exact Hidle|]. rewrite Hidle. cbn. lia.
    + destruct (producer_step_closer _ _ _ _ _ Hinv Hbusy Hlow)
        as (tail' & texts' & _ & Hless & _). lia.
  - destruct (producer_idle_or_busy (producer_at m)) as [Hidle|Hbusy].
    + exists 0%nat. split; [lia|]. cbn [repeat interleave fold_left].
      split; [exact Hidle|]. rewrite Hidle. cbn. lia.
    + destruct (producer_step_closer _ _ _ _ _ Hinv Hbusy Hlow)
        as (tail' & texts' & Hinv' & Hless & Hlow' & Hkept).
      destruct (IH _ _ _ _ _ Hinv' Hlow' ltac:(lia)) as (n & Hn & Hidle & Hcount).
      exists (S n). split; [lia|]. rewrite interleave_repeat_S.
      split; [exact Hidle|]. cbn [thread_step]. lia.
Qed.

Lemma consumer_returns_alone bound : forall m k head tail texts,
  threads_hold m k head tail texts ->
  tail < 2 ^ 32 ->
  (consumer_steps_left m <= bound)%nat ->
  exists n, (n <= bound)%nat
    /\ consumer_at (interleave m (repeat Consumer n)) = C_idle
    /\ length (pops (interleave m (repeat Consumer n)))
       = (length (pops m) + consumer_busy (consumer_at m))%nat.
Proof.
  induction bound as [|bound IH]; intros m k head tail texts Hinv Hlow Hleft.
  - exists 0%nat. split; [lia|]. cbn [repeat interleave fold_left].
    destruct (consumer_idle_or_busy (consumer_at m)) as [Hidle|Hbusy].
    + split; [exact Hidle|]. rewrite Hidle. cbn. lia.
    + destruct (consumer_step_closer _ _ _ _ _ Hinv Hbusy Hlow)
        as (head' & _ & Hless & _). lia.
  - destruct (consumer_idle_or_busy (consumer_at m)) as [Hidle|Hbusy].
    + exists 0%nat. split; [lia|]. cbn [repeat interleave fold_left].
      split; [exact Hidle|]. rewrite Hidle. cbn. lia.
    + destruct (consumer_step_closer _ _ _ _ _ Hinv Hbusy Hlow)
        as (head' & Hinv' & Hless & Hkept).
      destruct (IH _ _ _ _ _ Hinv' Hlow ltac:(lia)) as (n & Hn & Hidle & Hcount).
      exists (S n). split; [lia|]. rewrite interleave_repeat_S.
      split; [exact Hidle|]. cbn [thread_step]. lia.
Qed.

(** *** The claim about the order of values *)

(** C2, as stated, fails: the integer 42 goes in, the string "42" comes
    out. *)
Lemma int_comes_back_as_text :
  exists q q',
    __cinit__ 8 true = Returns q
    /\ run q [Enqueue (PyInt 42) true; Dequeue]
       = Some ([Pushed (PyInt 42) true; Popped (PyStr "42")], q')
    /\ popped [Pushed (PyInt 42) true; Popped (PyStr "42")]
       <> pushed [Pushed (PyInt 42) true; Popped (PyStr "42")].
Proof.
  eexists. eexists. split; [reflexivity|]. split; [reflexivity|].
  cbn. discriminate.
Qed.

(** A queue of capacity 1 (a power of two, so accepted as it is) takes a
    second string while the first is still waiting, writes it over the
    first, and a [dequeue] after that does not return. *)
Remark capacity_one_overwrites :
  exists q q',
    __cinit__ 1 true = Returns q
    /\ run q [Enqueue (PyStr "a") true; Enqueue (PyStr "b") true]
       = Some ([Pushed (PyStr "a") true; Pushed (PyStr "b") true], q')
    /\ nodes q' = [{| data := Some "b"%string; data_size := 1; sequence := 2 |}]
    /\ dequeue q' = None.
Proof.
  eexists. eexists. split; [reflexivity|]. split; [reflexivity|].
  split; reflexivity.
Qed.

(** Two threads in the middle of a call at the same time: the producer
    has claimed its second slot and written the pointer, the consumer has
    read the first value and not yet cleared its slot.  At the end of the
    schedule both values have come out, in order, as texts. *)
Remark threads_meet_in_mid_call :
  exists q,
    __cinit__ 2 true = Returns q
    /\ (let m := interleave (start q two_values 3) (take 24 a_schedule) in
        producer_at m = P_store_size (PyInt 7) 1
        /\ consumer_at m = C_clear_data 0 (Some "a"%string) 1
        /\ pushes m = [Pushed (PyStr "a") true]
        /\ pops m = [Popped PyNone])
    /\ (let m := interleave (start q two_values 3) a_schedule in
        producer_at m = P_idle /\ consumer_at m = C_idle
        /\ pushes m = [Pushed (PyStr "a") true; Pushed (PyInt 7) true]
        /\ pops m = [Popped PyNone; Popped (PyStr "a"); Popped (PyStr "7")]).
Proof.
  eexists. split; [reflexivity|]. split; vm_compute; repeat split; reflexivity.
Qed.

(** C2, amended: on a queue built with any capacity but 1, with one
    thread that calls [enqueue] and one thread that calls [dequeue], in
    whatever order the loads, the stores and the exchanges of the two
    threads on the fields of the queue take effect: at every moment the
    values returned so far by the successful [dequeue] calls are the
    [str()] texts of the values accepted so far by [enqueue], in the same
    order and without a gap, as far as they have been taken out; strings
    come back as they went in; and when both threads are between two
    calls, the values accepted are those of the [enqueue] calls that
    returned [True], and as many further [dequeue] calls as values remain
    return the remaining texts in order.  While fewer than 2^32 values
    have been accepted, a thread that the other one leaves alone comes to
    the end of the call it has under way, [enqueue] within 8 steps and
    [dequeue] within 10.  Calls made one after the other are one such
    order, and at most 2^32 of them all return. *)
Theorem fifo_of_texts (capacity : Z) (q : LockFreeQueue) :
  0 <= capacity < 2 ^ 32 ->
  capacity <> 1 ->
  __cinit__ capacity true = Returns q ->
  (forall (values : list (pyobj * bool)) (count : nat) (schedule : list thread),
     let m := interleave (start q values count) schedule in
     exists waiting,
       map (fun d => PyStr (py_str d)) (accepted m)
         = popped (pops m) ++ map PyStr waiting
       /\ (Forall (fun d => exists s, d = PyStr s) (accepted m) ->
             accepted m = popped (pops m) ++ map PyStr waiting)
       /\ (producer_at m = P_idle -> consumer_at m = C_idle ->
             accepted m = pushed (pushes m)
             /\ exists q'', run (shared m) (repeat Dequeue (length waiting))
                            = Some (map (fun s => Popped (PyStr s)) waiting, q''))
       /\ (Z.of_nat (length (accepted m)) < 2 ^ 32 ->
             (exists n, (n <= 8)%nat
                /\ producer_at (interleave m (repeat Producer n)) = P_idle
                /\ length (pushes (interleave m (repeat Producer n)))
                   = (length (pushes m) + producer_busy (producer_at m))%nat)
             /\ (exists n, (n <= 10)%nat
                   /\ consumer_at (interleave m (repeat Consumer n)) = C_idle
                   /\ length (pops (interleave m (repeat Consumer n)))
                      = (length (pops m) + consumer_busy (consumer_at m))%nat)))
  /\ (forall calls : list call,
        Z.of_nat (length calls) <= 2 ^ 32 ->
        exists rs q' schedule,
          run q calls = Some (rs, q')
          /\ interleave (start q (enqueues_of calls) (dequeues_of calls)) schedule
             = {| shared := q'; producer_at := P_idle; consumer_at := C_idle;
                  to_push := []; to_pop := 0;
                  pushes := enqueue_replies rs; pops := dequeue_replies rs |}).
Proof.
  intros Hrange Hne Hq.
  destruct (constructed_ring capacity q Hrange Hne Hq) as (k & Hring).
  split.
  - intros values count schedule m.
    destruct (interleave_holds schedule _ _ _ _ _ (start_holds q k values count Hring))
      as (head & tail & texts & Hinv).
    fold m in Hinv.
    exists (drop (Z.to_nat (returned head (consumer_at m))) texts).
    pose proof (texts_split _ _ _ _ _ Hinv) as Hsplit.
    split; [exact Hsplit|]. split; [|split].
    + intros Hstr. rewrite <- Hsplit. symmetry. now apply texts_of_strings.
    + intros Hp Hc. split.
      * unfold accepted. rewrite Hp. apply app_nil_r.
      * pose proof (quiescent_ring _ _ _ _ _ Hinv Hp Hc) as Hring'.
        rewrite Hc. unfold returned. cbn [holding taking]. rewrite Z.sub_0_r.
        destruct (drain _ _ _ _ _ Hring') as (q'' & Hdrain & _).
        exists q''. exact Hdrain.
    + intros Hlow. rewrite <- (tail_is_count _ _ _ _ _ Hinv) in Hlow. split.
      * apply (producer_returns_alone 8 _ _ _ _ _ Hinv);
          [left; exact Hlow|apply producer_steps_bound].
      * apply (consumer_returns_alone 10 _ _ _ _ _ Hinv);
          [exact Hlow|apply consumer_steps_bound].
  - intros calls Hlen.
    destruct (run_returns calls q k 0 0 [] Hring ltac:(lia)) as [[rs q'] Hrun].
    destruct (run_interleaved calls (start q (enqueues_of calls) (dequeues_of calls))
                rs q' eq_refl eq_refl eq_refl eq_refl Hrun) as (schedule & Hs).
    exists rs, q', schedule. split; [exact Hrun|exact Hs].
Qed.

Lemma fifo_of_texts_witness :
  exists q,
    0 <= 2 < 2 ^ 32
    /\ 2 <> 1
    /\ __cinit__ 2 true = Returns q
    /\ (forall (values : list (pyobj * bool)) (count : nat) (schedule : list thread),
          let m := interleave (start q values count) schedule in
          exists waiting,
            map (fun d => PyStr (py_str d)) (accepted m)
              = popped (pops m) ++ map PyStr waiting
            /\ (Forall (fun d => exists s, d = PyStr s) (accepted m) ->
                  accepted m = popped (pops m) ++ map PyStr waiting)
            /\ (producer_at m = P_idle -> consumer_at m = C_idle ->
                  accepted m = pushed (pushes m)
                  /\ exists q'', run (shared m) (repeat Dequeue (length waiting))
                                 = Some (map (fun s => Popped (PyStr s)) waiting, q''))
            /\ (Z.of_nat (length (accepted m)) < 2 ^ 32 ->
                  (exists n, (n <= 8)%nat
                     /\ producer_at (interleave m (repeat Producer n)) = P_idle
                     /\ length (pushes (interleave m (repeat Producer n)))
                        = (length (pushes m) + producer_busy (producer_at m))%nat)
                  /\ (exists n, (n <= 10)%nat
                        /\ consumer_at (interleave m (repeat Consumer n)) = C_idle
                        /\ length (pops (interleave m (repeat Consumer n)))
                           = (length (pops m) + consumer_busy (consumer_at m))%nat)))
    /\ (forall calls : list call,
          Z.of_nat (length calls) <= 2 ^ 32 ->
          exists rs q' schedule,
            run q calls = Some (rs, q')
            /\ interleave (start q (enqueues_of calls) (dequeues_of calls)) schedule
               = {| shared := q'; producer_at := P_idle; consumer_at := C_idle;
                    to_push := []; to_pop := 0;
                    pushes := enqueue_replies rs; pops := dequeue_replies rs |}).
Proof.
  eexists. split; [lia|]. split; [lia|]. split; [reflexivity|].
  apply (fifo_of_texts 2); [lia | lia | reflexivity].
Defined.

End QueueThreads.

Section ParserFacts.
Import Parser.

Lemma byte_at_range data off : 0 <= byte_at data off < 2 ^ 8.
Proof.
  unfold byte_at. destruct (data !! Z.to_nat off) as [b|]; [|lia].
  pose proof (Byte.to_N_bounded b). lia.
Qed.

(** [(hi << k) | lo] is [hi * 2^k + lo] when [lo] fits in [k] bits. *)
Lemma lor_shiftl_low hi lo k :
  0 <= k -> 0 <= lo < 2 ^ k ->
  Z.lor (Z.shiftl hi k) lo = hi * 2 ^ k + lo.
Proof.
  intros Hk Hlo.
  assert (Hdisjoint : Z.land (Z.shiftl hi k) lo = 0).
  { replace lo with (Z.land lo (Z.ones k))
      by (rewrite Z.land_ones by lia; apply Z.mod_small; lia).
    rewrite (Z.land_comm lo), Z.land_assoc, Z.land_ones by lia.
    rewrite Z.shiftl_mul_pow2, Z_mod_mult by lia. reflexivity. }
  pose proof (Z.add_lor_land (Z.shiftl hi k) lo) as Hadd.
  rewrite Hdisjoint in Hadd. rewrite <- Z.shiftl_mul_pow2 by lia. lia.
Qed.

Lemma land_255 z : Z.land z 0xFF = z mod 2 ^ 8.
Proof. change 0xFF with (Z.ones 8). apply Z.land_ones. lia. Qed.

(** The low byte and the rest of [lo + 2^8 * hi]. *)
Lemma low_byte lo hi : 0 <= lo < 2 ^ 8 -> (lo + 2 ^ 8 * hi) mod 2 ^ 8 = lo.
Proof. intros. symmetry. apply (Z.mod_unique _ _ hi); lia. Qed.

Lemma high_bytes lo hi : 0 <= lo < 2 ^ 8 -> (lo + 2 ^ 8 * hi) / 2 ^ 8 = hi.
Proof. intros. symmetry. apply (Z.div_unique _ _ hi lo); lia. Qed.

(** Swapping the two bytes of a little-endian load reads the field
    big-endian. *)
Lemma ntohs_load16 data off : _ntohs (load16 data off) = be16 data off.
Proof.
  unfold _ntohs, load16, be16, wrap16.
  pose proof (byte_at_range data off) as H0.
  pose proof (byte_at_range data (off + 1)) as H1.
  set (b0 := byte_at data off) in *. set (b1 := byte_at data (off + 1)) in *.
  rewrite Z.shiftr_div_pow2, !land_255 by lia.
  rewrite low_byte, high_bytes, (Z.mod_small b1) by lia.
  rewrite lor_shiftl_low by lia.
  rewrite Z.mod_small by lia. lia.
Qed.

Lemma ntohl_load32 data off : _ntohl (load32 data off) = be32 data off.
Proof.
  unfold _ntohl, load32, be32.
  pose proof (byte_at_range data off) as H0.
  pose proof (byte_at_range data (off + 1)) as H1.
  pose proof (byte_at_range data (off + 2)) as H2.
  pose proof (byte_at_range data (off + 3)) as H3.
  set (b0 := byte_at data off) in *. set (b1 := byte_at data (off + 1)) in *.
  set (b2 := byte_at data (off + 2)) in *. set (b3 := byte_at data (off + 3)) in *.
  replace (b0 + 2 ^ 8 * b1 + 2 ^ 16 * b2 + 2 ^ 24 * b3)
    with (b0 + 2 ^ 8 * (b1 + 2 ^ 8 * (b2 + 2 ^ 8 * b3))) by lia.
  set (v := b0 + 2 ^ 8 * (b1 + 2 ^ 8 * (b2 + 2 ^ 8 * b3))).
  assert (D1 : Z.shiftr v 8 = b1 + 2 ^ 8 * (b2 + 2 ^ 8 * b3)).
  { rewrite Z.shiftr_div_pow2 by lia. apply high_bytes. lia. }
  assert (D2 : Z.shiftr v 16 = b2 + 2 ^ 8 * b3).
  { change 16 with (8 + 8). rewrite <- Z.shiftr_shiftr, D1 by lia.
    rewrite Z.shiftr_div_pow2 by lia. apply high_bytes. lia. }
  assert (D3 : Z.shiftr v 24 = b3).
  { change 24 with (16 + 8). rewrite <- Z.shiftr_shiftr, D2 by lia.
    rewrite Z.shiftr_div_pow2 by lia. apply high_bytes. lia. }
  rewrite D1, D2, D3, !land_255.
  unfold v. rewrite !low_byte, (Z.mod_small b3) by lia.
  replace (Z.shiftl b0 24) with (Z.shiftl (Z.shiftl b0 8) 16)
    by (rewrite Z.shiftl_shiftl by lia; reflexivity).
  rewrite <- Z.shiftl_lor, (lor_shiftl_low b0 b1 8) by lia.
  replace (Z.shiftl (b0 * 2 ^ 8 + b1) 16)
    with (Z.shiftl (Z.shiftl (b0 * 2 ^ 8 + b1) 8) 8)
    by (rewrite Z.shiftl_shiftl by lia; reflexivity).
  rewrite <- Z.shiftl_lor, (lor_shiftl_low _ b2 8) by lia.
  rewrite (lor_shiftl_low _ b3 8) by lia.
  rewrite wrap32_small by lia. lia.
Qed.

Lemma is_exchange_port_in port :
  _is_exchange_port port = port_in port exchange_ports.
Proof.
  unfold _is_exchange_port, exchange_ports, port_in.
  rewrite !existsb_app.
  destruct (existsb _ NYSE_PORTS), (existsb _ NASDAQ_PORTS),
    (existsb _ CBOE_PORTS); reflexivity.
Qed.

(** The port part of the walk never ends in [return None]; it reports a
    trading packet when one of the two ports is an exchange port. *)
Lemma walk_ports_trading data n l4 h :
  exists exchange fx,
    walk_ports data n l4 h
    = Walked (port_in (be16 data l4) exchange_ports
              || port_in (be16 data (l4 + 2)) exchange_ports)
             (be16 data l4) (be16 data (l4 + 2)) exchange fx.
Proof.
  unfold walk_ports. rewrite !ntohs_load16, !is_exchange_port_in.
  destruct (port_in (be16 data l4) exchange_ports
            || port_in (be16 data (l4 + 2)) exchange_ports);
    eexists; eexists; reflexivity.
Qed.

(** Turns the boolean tests of a goal and its hypotheses into
    propositions. *)
Ltac tests_to_props :=
  repeat match goal with
         | H : (_ <? _) = true |- _ => apply Z.ltb_lt in H
         | H : (_ <? _) = false |- _ => apply Z.ltb_ge in H
         | H : (_ =? _) = true |- _ => apply Z.eqb_eq in H
         | H : (_ =? _) = false |- _ => apply Z.eqb_neq in H
         | H : negb _ = true |- _ => apply negb_true_iff in H
         | H : negb _ = false |- _ => apply negb_false_iff in H
         | H : _ || _ = false |- _ => apply orb_false_iff in H as [? ?]
         | H : _ || _ = true |- _ => apply orb_true_iff in H
         end;
  rewrite ?orb_true_iff, ?andb_true_iff, ?negb_true_iff,
    ?Z.ltb_lt, ?Z.eqb_eq, ?Z.eqb_neq.

(** C3, as stated, fails: an ICMP frame is long enough, is IPv4 with
    IHL 5, has no TCP or UDP header to truncate and no ports to compare,
    and the parser returns [None] for it. *)
Lemma icmp_frame_is_dropped :
  (parse_packet_fast __cinit__ icmp_frame).1 = None
  /\ too_short icmp_frame || not_ipv4 icmp_frame || ihl_below_5 icmp_frame
     || l4_header_truncated icmp_frame || ports_match_no_exchange icmp_frame
     = false.
Proof. split; reflexivity. Qed.

(** C3, amended: the parser returns [None] if and only if the frame is
    too short, is not IPv4, has an IHL below 5, has a truncated TCP or UDP
    header, carries an L4 protocol other than TCP and UDP, or has TCP or UDP
    ports none of which is an exchange port; in every other case it returns
    a record. *)
Theorem none_iff_six_reasons (self : FastPacketParser) (data : list byte) :
  (parse_packet_fast self data).1 = None
  <-> too_short data || not_ipv4 data || ihl_below_5 data
      || l4_header_truncated data || other_l4 data
      || ports_match_no_exchange data = true.
Proof.
  unfold parse_packet_fast, too_short, not_ipv4, ihl_below_5,
    l4_header_truncated, other_l4, ports_match_no_exchange,
    source_port, destination_port, ihl, ihl_words, ethertype, ip_version,
    l4_protocol, frame_len.
  rewrite ntohs_load16.
  set (n := Z.of_nat (length data)).
  set (words := Z.land (byte_at data 14) 15).
  destruct (n <? 14) eqn:H14; [tests_to_props; intuition lia|].
  destruct (be16 data 12 =? 2048) eqn:Hether; cbn [negb fst];
    [|tests_to_props; intuition lia].
  destruct (n <? 34) eqn:H34; [tests_to_props; intuition lia|].
  destruct (Z.shiftr (byte_at data 14) 4 =? 4) eqn:Hversion; cbn [negb fst];
    [|tests_to_props; intuition lia].
  destruct ((words * 4 <? 20) || (n <? 14 + words * 4)) eqn:Hihl;
    [tests_to_props; intuition lia|].
  destruct (byte_at data 23 =? 6) eqn:Htcp.
  - destruct (n <? 14 + words * 4 + 20) eqn:Hl4;
      [tests_to_props; intuition lia|].
    destruct (walk_ports_trading data n (14 + words * 4)
                (Z.land (Z.shiftr (byte_at data (14 + words * 4 + 12)) 4) 15 * 4))
      as (exchange & fx & ->).
    destruct (port_in (be16 data (14 + words * 4)) exchange_ports) eqn:Hsrc,
      (port_in (be16 data (14 + words * 4 + 2)) exchange_ports) eqn:Hdst;
      cbn [orb negb fst]; tests_to_props;
      (split; [try discriminate|]); intuition (try lia; try congruence).
  - destruct (byte_at data 23 =? 17) eqn:Hudp.
    + destruct (n <? 14 + words * 4 + 8) eqn:Hl4;
        [tests_to_props; intuition lia|].
      destruct (walk_ports_trading data n (14 + words * 4) 8)
        as (exchange & fx & ->).
      destruct (port_in (be16 data (14 + words * 4)) exchange_ports) eqn:Hsrc,
        (port_in (be16 data (14 + words * 4 + 2)) exchange_ports) eqn:Hdst;
        cbn [orb negb fst]; tests_to_props;
        (split; [try discriminate|]); intuition (try lia; try congruence).
    + cbn [negb fst]. tests_to_props. intuition lia.
Qed.

(** A byte of the payload is a byte of the frame. *)
Lemma byte_at_drop data k i b :
  0 <= k ->
  take 5 (drop (Z.to_nat k) data) !! i = Some b ->
  byte_at data (k + Z.of_nat i) = Z.of_N (Byte.to_N b).
Proof.
  intros Hk Hb. apply lookup_take_Some in Hb as [Hb _].
  rewrite lookup_drop in Hb. unfold byte_at.
  replace (Z.to_nat (k + Z.of_nat i)) with (Z.to_nat k + i)%nat by lia.
  now rewrite Hb.
Qed.

Lemma get_exchange_id_range port : 0 <= _get_exchange_id port <= 3.
Proof.
  unfold _get_exchange_id.
  destruct (port_in port NYSE_PORTS), (port_in port NASDAQ_PORTS),
    (port_in port CBOE_PORTS); lia.
Qed.

Lemma exchange_id_of_exchange_port port :
  _is_exchange_port port = true -> 1 <= _get_exchange_id port.
Proof.
  unfold _is_exchange_port, _get_exchange_id.
  destruct (port_in port NYSE_PORTS), (port_in port NASDAQ_PORTS),
    (port_in port CBOE_PORTS); intros; try discriminate; lia.
Qed.

(** The exchange of a trading packet: the destination port decides, the
    source port is asked when the destination port is no exchange port. *)
Lemma walk_ports_exchange data n l4 h sp dp e fx :
  walk_ports data n l4 h = Walked true sp dp e fx ->
  e = (if _get_exchange_id dp =? 0 then _get_exchange_id sp
       else _get_exchange_id dp)
  /\ 1 <= e <= 3.
Proof.
  unfold walk_ports.
  destruct (_is_exchange_port (_ntohs (load16 data l4))) eqn:Hsrc;
    destruct (_is_exchange_port (_ntohs (load16 data (l4 + 2)))) eqn:Hdst;
    cbn [orb]; intros [= <- <- <- _]; try discriminate;
    (split; [reflexivity|]);
    pose proof (get_exchange_id_range (_ntohs (load16 data l4)));
    pose proof (get_exchange_id_range (_ntohs (load16 data (l4 + 2))));
    try (apply exchange_id_of_exchange_port in Hsrc);
    try (apply exchange_id_of_exchange_port in Hdst);
    destruct (Z.eqb_spec (_get_exchange_id (_ntohs (load16 data (l4 + 2)))) 0);
    lia.
Qed.

(** C4: a frame with EtherType 0x0800, IPv4 with protocol 6, source
    10.0.0.1 port 54321, destination 10.0.0.2 port 4001 and a TCP payload
    of at least 8 bytes that begins with "8=FIX" is parsed to a record with
    [exchange_id = 1] (NYSE), [is_fix = true] and protocol TCP, and with the
    addresses and ports of the frame.  In every record the parser returns,
    the exchange is that of the destination port if it has one, and that
    of the source port otherwise. *)
Theorem nyse_fix_frame_is_classified (self : FastPacketParser) (data : list byte) :
  ethertype data = 0x0800 ->
  ip_version data = 4 ->
  5 <= ihl_words data ->
  l4_protocol data = 6 ->
  14 + ihl data + 20 <= frame_len data ->
  source_address data = 0x0A000001 ->
  destination_address data = 0x0A000002 ->
  source_port data = 54321 ->
  destination_port data = 4001 ->
  take 5 (tcp_payload data) = list_byte_of_string "8=FIX" ->
  (8 <= length (tcp_payload data))%nat ->
  (exists r, (parse_packet_fast self data).1 = Some r
     /\ exchange_id r = 1 /\ exchange_name r = "NYSE"%string
     /\ is_fix r = true /\ protocol r = "TCP"%string
     /\ src_port r = 54321 /\ dest_port r = 4001
     /\ src_ip r = 0x0A000001 /\ dest_ip r = 0x0A000002
     /\ packet_size r = frame_len data)
  /\ (forall self' data' r',
        (parse_packet_fast self' data').1 = Some r' ->
        exchange_id r' =
          (if _get_exchange_id (dest_port r') =? 0
           then _get_exchange_id (src_port r')
           else _get_exchange_id (dest_port r'))
        /\ 1 <= exchange_id r' <= 3).
Proof.
  intros Hether Hversion Hihl Htcp Hlen Hsrc Hdst Hsport Hdport Hfix Hpay.
  split.
  - unfold ethertype, ip_version, l4_protocol, frame_len,
      source_address, destination_address, source_port, destination_port,
      tcp_payload, tcp_hdr_len, ihl, ihl_words in *.
    unfold parse_packet_fast, walk_ports.
    rewrite !ntohs_load16, !ntohl_load32.
    set (n := Z.of_nat (length data)) in *.
    set (words := Z.land (byte_at data 14) 15) in *.
    set (tcp_len := Z.land (Z.shiftr (byte_at data (14 + words * 4 + 12)) 4) 15 * 4) in *.
    assert (Htcp_len : 0 <= tcp_len).
    { unfold tcp_len. pose proof (Z.land_nonneg
        (Z.shiftr (byte_at data (14 + words * 4 + 12)) 4) 15). lia. }
    rewrite Hether, Hversion, Htcp, Hsport, Hdport, Hsrc, Hdst.
    destruct (Z.ltb_spec n 14) as [|_]; [lia|].
    destruct (Z.ltb_spec n 34) as [|_]; [lia|].
    destruct (Z.ltb_spec (words * 4) 20) as [|_]; [lia|].
    destruct (Z.ltb_spec n (14 + words * 4)) as [|_]; [lia|].
    destruct (Z.ltb_spec n (14 + words * 4 + 20)) as [|_]; [lia|].
    cbn [negb orb Z.eqb Pos.eqb].
    rewrite length_drop in Hpay.
    destruct (Z.ltb_spec 0 (n - (14 + words * 4) - tcp_len)) as [_|]; [|lia].
    unfold _is_fix_protocol.
    destruct (Z.ltb_spec (n - (14 + words * 4) - tcp_len) 8) as [|_]; [lia|].
    pose proof (fun i b => byte_at_drop data (14 + words * 4 + tcp_len) i b
                             ltac:(lia)) as Hbyte.
    rewrite Hfix in Hbyte.
    set (payload := 14 + words * 4 + tcp_len) in *.
    assert (B0 : byte_at data payload = 56)
      by (rewrite <- (Z.add_0_r payload); exact (Hbyte 0%nat _ eq_refl)).
    assert (B1 : byte_at data (payload + 1) = 61) by exact (Hbyte 1%nat _ eq_refl).
    assert (B2 : byte_at data (payload + 2) = 70) by exact (Hbyte 2%nat _ eq_refl).
    assert (B3 : byte_at data (payload + 3) = 73) by exact (Hbyte 3%nat _ eq_refl).
    assert (B4 : byte_at data (payload + 4) = 88) by exact (Hbyte 4%nat _ eq_refl).
    rewrite B0, B1, B2, B3, B4.
    eexists. split; [reflexivity|]. cbn. repeat split; reflexivity.
  - clear. intros self data r.
    unfold parse_packet_fast.
    repeat match goal with
           | |- context [if ?c then (None, _) else _] => destruct c
           end; try discriminate.
    destruct (byte_at data 23 =? 6); [|destruct (byte_at data 23 =? 17)];
      repeat match goal with
             | |- context [if ?c then ReturnNone else _] => destruct c
             end; try discriminate;
      match goal with
      | |- context [walk_ports ?d ?n ?l ?h] =>
          pose proof (walk_ports_exchange d n l h) as Hwalk;
          destruct (walk_ports d n l h) as [|[|] sp dp e fx]
      end; try discriminate;
      cbn [negb fst]; intros [= <-]; cbn [exchange_id src_port dest_port];
      exact (Hwalk _ _ _ _ eq_refl).
Qed.

Lemma nyse_fix_frame_is_classified_witness :
  exists r, (parse_packet_fast __cinit__ nyse_fix_frame).1 = Some r
     /\ exchange_id r = 1 /\ exchange_name r = "NYSE"%string
     /\ is_fix r = true /\ protocol r = "TCP"%string
     /\ src_port r = 54321 /\ dest_port r = 4001
     /\ src_ip r = 0x0A000001 /\ dest_ip r = 0x0A000002
     /\ packet_size r = frame_len nyse_fix_frame.
Proof.
  apply (nyse_fix_frame_is_classified __cinit__ nyse_fix_frame);
    try reflexivity; vm_compute; first [discriminate | lia].
Defined.

End ParserFacts.

Section PoolFacts.
Import Pool.

(** Writing a block that is not on the free list leaves the list alone. *)
Lemma chain_insert blocks i x free : forall start,
  i ∉ free -> chain blocks start free -> chain (<[i := x]> blocks) start free.
Proof.
  induction free as [|j free IH]; intros start Hnotin Hchain; [exact Hchain|].
  destruct Hchain as (Hstart & b & Hb & Hrest).
  apply not_elem_of_cons in Hnotin as [Hne Hnotin].
  split; [assumption|]. exists b. split.
  - rewrite list_lookup_insert_ne by congruence. exact Hb.
  - apply IH; assumption.
Qed.

Lemma chain_in_range blocks free : forall start i,
  chain blocks start free -> i ∈ free -> (i < length blocks)%nat.
Proof.
  induction free as [|j free IH]; intros start i Hchain Hin.
  - apply elem_of_nil in Hin. contradiction.
  - destruct Hchain as (_ & b & Hb & Hrest).
    apply elem_of_cons in Hin as [->|Hin].
    + eapply lookup_lt_Some; eassumption.
    + eapply IH; eassumption.
Qed.

(** Distinct indices below [n] are at most [n]. *)
Lemma nodup_length_le (l : list nat) (n : nat) :
  NoDup l -> (forall i, i ∈ l -> (i < n)%nat) -> (length l <= n)%nat.
Proof.
  intros Hnodup Hlt.
  replace n with (length (seq 0 n)) by apply length_seq.
  apply submseteq_length.
  apply NoDup_submseteq; [assumption|].
  intros i Hi. apply elem_of_seq. specialize (Hlt i Hi). lia.
Qed.

Lemma free_list_fits self free :
  pool_ok self free -> Z.of_nat (length free) <= num_blocks self.
Proof.
  intros Hok. rewrite <- (ok_length _ _ Hok).
  apply inj_le, nodup_length_le; [apply (ok_nodup _ _ Hok)|].
  intros i Hi. eapply chain_in_range; [apply (ok_chain _ _ Hok)|assumption].
Qed.

(** The tracking dictionary is not part of the block structure. *)
Lemma pool_ok_views self free views :
  pool_ok self free -> pool_ok (set_allocated_views self views) free.
Proof. intros []. split; assumption. Qed.

(** [_allocate_block_fast] on an exhausted pool. *)
Lemma allocate_exhausted self view_id :
  pool_ok self [] -> allocate self view_id = Some (None, self).
Proof.
  intros Hok. pose proof (ok_chain _ _ Hok) as Hchain. cbn in Hchain.
  unfold allocate, _allocate_block_fast. rewrite Hchain. reflexivity.
Qed.

(** [allocate] with a free block: the head of the free list is handed
    out. *)
Lemma allocate_takes self view_id i rest :
  pool_ok self (i :: rest) ->
  exists self', allocate self view_id = Some (Some view_id, self')
    /\ pool_ok self' rest
    /\ blocks_allocated self' = blocks_allocated self + 1
    /\ blocks_free self' = blocks_free self - 1
    /\ num_blocks self' = num_blocks self.
Proof.
  intros Hok. pose proof (free_list_fits _ _ Hok) as Hfits.
  destruct Hok as [Hlen Hbound Hchain Hnodup Huse Hdata Hfree Halloc].
  destruct Hchain as (Hstart & b & Hb & Hrest).
  apply NoDup_cons in Hnodup as [Hnotin Hnodup].
  cbn [length] in *.
  unfold allocate, _allocate_block_fast, take_block. rewrite Hstart, Hb.
  destruct (Z.eqb_spec (data b) 0) as [Hnull|_];
    [exfalso; exact (Hdata _ _ Hb Hnull)|].
  eexists. split; [reflexivity|]. cbn.
  split; [split; cbn|].
  - rewrite length_insert. assumption.
  - assumption.
  - apply chain_insert; assumption.
  - assumption.
  - intros j bj Hj. destruct (decide (j = i)) as [->|Hne].
    + rewrite list_lookup_insert_eq in Hj by (eapply lookup_lt_Some; eassumption).
      injection Hj as <-. cbn. split; [discriminate|]. intros Hin. contradiction.
    + rewrite list_lookup_insert_ne in Hj by congruence.
      rewrite (Huse _ _ Hj), elem_of_cons. intuition congruence.
  - intros j bj Hj. destruct (decide (j = i)) as [->|Hne].
    + rewrite list_lookup_insert_eq in Hj by (eapply lookup_lt_Some; eassumption).
      injection Hj as <-. cbn. eapply Hdata; eassumption.
    + rewrite list_lookup_insert_ne in Hj by congruence.
      eapply Hdata; eassumption.
  - rewrite Hfree. rewrite wrap32_small by lia. lia.
  - rewrite Halloc. rewrite wrap32_small by lia. lia.
  - rewrite Halloc, Hfree, !wrap32_small by lia. lia.
Qed.

(** [_deallocate_block_fast] either puts the block of [ptr] back at the
    head of the free list, or changes nothing. *)
Lemma deallocate_block_fast_ok self free ptr :
  pool_ok self free ->
  (exists i, pool_ok (_deallocate_block_fast self ptr) (i :: free)
     /\ blocks_allocated (_deallocate_block_fast self ptr) = blocks_allocated self - 1
     /\ blocks_free (_deallocate_block_fast self ptr) = blocks_free self + 1
     /\ total_deallocations (_deallocate_block_fast self ptr)
        = wrap64 (total_deallocations self + 1)
     /\ num_blocks (_deallocate_block_fast self ptr) = num_blocks self)
  \/ _deallocate_block_fast self ptr = self.
Proof.
  intros Hok. unfold _deallocate_block_fast.
  destruct (list_find _ (all_blocks self)) as [[i b]|] eqn:Hfind; [|right; reflexivity].
  destruct (in_use b) eqn:Hused; cbn [negb]; [|right; reflexivity].
  left. exists i.
  apply list_find_Some in Hfind as (Hb & _ & _).
  destruct Hok as [Hlen Hbound Hchain Hnodup Huse Hdata Hfree Halloc].
  assert (Hnotin : i ∉ free).
  { intros Hin. apply (Huse _ _ Hb) in Hin. congruence. }
  assert (Hfits : Z.of_nat (length (i :: free)) <= num_blocks self).
  { rewrite <- Hlen. apply inj_le, nodup_length_le.
    - apply NoDup_cons. split; assumption.
    - intros j Hj. apply elem_of_cons in Hj as [->|Hj].
      + eapply lookup_lt_Some; eassumption.
      + eapply chain_in_range; eassumption. }
  cbn [length] in Hfits.
  assert (Hi : (i < length (all_blocks self))%nat)
    by (eapply lookup_lt_Some; eassumption).
  cbn. split; [split; cbn|].
  - rewrite length_insert. assumption.
  - assumption.
  - split; [reflexivity|]. eexists. split.
    + apply list_lookup_insert_eq. assumption.
    + cbn. apply chain_insert; assumption.
  - apply NoDup_cons. split; assumption.
  - intros j bj Hj. destruct (decide (j = i)) as [->|Hne].
    + rewrite list_lookup_insert_eq in Hj by assumption.
      injection Hj as <-. cbn. split; [intros _; apply elem_of_cons; now left|reflexivity].
    + rewrite list_lookup_insert_ne in Hj by congruence.
      rewrite (Huse _ _ Hj), elem_of_cons. intuition congruence.
  - intros j bj Hj. destruct (decide (j = i)) as [->|Hne].
    + rewrite list_lookup_insert_eq in Hj by assumption.
      injection Hj as <-. cbn. eapply Hdata; eassumption.
    + rewrite list_lookup_insert_ne in Hj by congruence.
      eapply Hdata; eassumption.
  - rewrite Hfree, wrap32_small by lia. lia.
  - rewrite Halloc, wrap32_small by lia. lia.
  - rewrite Halloc, Hfree, !wrap32_small by lia. repeat split; lia.
Qed.

Lemma deallocate_block_fast_views self ptr :
  allocated_views (_deallocate_block_fast self ptr) = allocated_views self.
Proof.
  unfold _deallocate_block_fast.
  destruct (list_find _ (all_blocks self)) as [[i b]|]; [|reflexivity].
  destruct (in_use b); reflexivity.
Qed.


(** *** Construction *)

Lemma length_pool_initialize_from a bs nb count : forall i off,
  length (initialize_from a bs nb i off count) = count.
Proof.
  induction count as [|n IH]; intros i off; cbn; [reflexivity|now rewrite IH].
Qed.

Lemma lookup_pool_initialize_from a bs nb count : forall i off j,
  (j < count)%nat -> 0 < a -> 0 <= off -> 0 <= bs ->
  off + Z.of_nat count * bs < 2 ^ 32 ->
  exists b, initialize_from a bs nb i off count !! j = Some b
    /\ in_use b = false /\ data b <> 0
    /\ next b = (if Z.of_nat (i + j) <? wrap32 (nb - 1)
                 then Some (S (i + j)) else None)
    /\ offset b = off + Z.of_nat j * bs
    /\ data b = a + offset b.
Proof.
  induction count as [|n IH]; intros i off j Hj Ha Hoff Hbs Hfits; [lia|].
  destruct j as [|j]; cbn [initialize_from].
  - eexists. split; [reflexivity|]. cbn. rewrite Nat.add_0_r.
    repeat split; lia.
  - destruct (IH (S i) (wrap32 (off + bs)) j)
      as (b & Hb & Huse & Hdata & Hnext & Hoffset & Haddr);
      [lia|assumption|apply wrap32_range|assumption|rewrite wrap32_small; nia|].
    exists b. split; [exact Hb|]. repeat split; try assumption.
    + rewrite Hnext. replace (S i + j)%nat with (i + S j)%nat by lia. reflexivity.
    + rewrite Hoffset, wrap32_small by nia. lia.
Qed.

(** The blocks of a fresh pool are chained in index order. *)
Lemma initial_chain blocks n :
  (forall j, (j < n)%nat ->
     exists b, blocks !! j = Some b
       /\ next b = if (j <? n - 1)%nat then Some (S j) else None) ->
  forall m i, (i + m = n)%nat -> (1 <= m)%nat ->
  chain blocks (Some i) (seq i m).
Proof.
  intros Hblocks. induction m as [|m IH]; intros i Hsum Hm; [lia|].
  cbn [seq chain]. split; [reflexivity|].
  destruct (Hblocks i ltac:(lia)) as (b & Hb & Hnext).
  exists b. split; [exact Hb|]. rewrite Hnext.
  destruct m as [|m].
  - destruct (Nat.ltb_spec i (n - 1)); [lia|]. reflexivity.
  - destruct (Nat.ltb_spec i (n - 1)); [|lia]. apply IH; lia.
Qed.

Lemma constructed_pool_ok pool_size block_size use_mmap arena self :
  0 < block_size <= pool_size -> pool_size < 2 ^ 32 -> 0 < arena ->
  __cinit__ pool_size block_size use_mmap arena true = Returns self ->
  pool_ok self (seq 0 (Z.to_nat (pool_size / block_size)))
  /\ views_ok self
  /\ num_blocks self = pool_size / block_size.
Proof.
  intros Hsize Hpool Harena Hself.
  assert (Hn : 1 <= pool_size / block_size <= pool_size).
  { split.
    - apply Z.div_le_lower_bound; lia.
    - apply Z.div_le_upper_bound; nia. }
  pose proof (Z.mul_div_le pool_size block_size ltac:(lia)) as Hmul.
  set (n := pool_size / block_size) in *.
  unfold __cinit__ in Hself.
  destruct (Z.eqb_spec arena 0) as [|_]; [lia|]. cbn [negb] in Hself.
  injection Hself as <-. fold n.
  assert (Hlookup : forall j, (j < Z.to_nat n)%nat ->
             exists b, initialize_from arena block_size n 0 0 (Z.to_nat n) !! j = Some b
               /\ in_use b = false /\ data b <> 0
               /\ next b = (if (j <? Z.to_nat n - 1)%nat then Some (S j) else None)
               /\ offset b = Z.of_nat j * block_size
               /\ data b = arena + offset b).
  { intros j Hj.
    destruct (lookup_pool_initialize_from arena block_size n (Z.to_nat n) 0 0 j)
      as (b & Hb & Huse & Hdata & Hnext & Hoffset & Haddr); [lia|lia|lia|lia|lia|].
    exists b. split; [exact Hb|]. split; [exact Huse|]. split; [exact Hdata|].
    split; [|split; [lia|exact Haddr]].
    rewrite Hnext, wrap32_small by lia. cbn [Nat.add].
    destruct (Z.ltb_spec (Z.of_nat j) (n - 1)),
      (Nat.ltb_spec j (Z.to_nat n - 1)); try reflexivity; lia. }
  assert (Hin : forall i b,
             initialize_from arena block_size n 0 0 (Z.to_nat n) !! i = Some b ->
             (i < Z.to_nat n)%nat).
  { intros i b Hb. apply lookup_lt_Some in Hb.
    now rewrite length_pool_initialize_from in Hb. }
  split; [|split; [|reflexivity]].
  - split; cbn.
    + rewrite length_pool_initialize_from. lia.
    + lia.
    + apply (initial_chain _ (Z.to_nat n)); [|lia|lia].
      intros j Hj. destruct (Hlookup j Hj) as (b & Hb & _ & _ & Hnext & _). eauto.
    + apply NoDup_seq.
    + intros i b Hb.
      destruct (Hlookup i (Hin i b Hb)) as (b' & Hb' & Huse & _).
      rewrite Hb in Hb'. injection Hb' as <-.
      rewrite elem_of_seq. pose proof (Hin i b Hb).
      split; [lia|intros _; exact Huse].
    + intros i b Hb.
      destruct (Hlookup i (Hin i b Hb)) as (b' & Hb' & _ & Hdata & _).
      rewrite Hb in Hb'. injection Hb' as <-. exact Hdata.
    + rewrite length_seq. lia.
    + rewrite length_seq. lia.
  - split; cbn.
    + lia.
    + rewrite length_pool_initialize_from. lia.
    + intros i b Hb.
      destruct (Hlookup i (Hin i b Hb)) as (b' & Hb' & _ & _ & _ & Hoffset & Haddr).
      rewrite Hb in Hb'. injection Hb' as <-. split; assumption.
    + intros v ptr Hv. rewrite lookup_empty in Hv. discriminate.
    + intros v v' ptr Hv. rewrite lookup_empty in Hv. discriminate.
Qed.

(** *** The tracking dictionary *)

(** Blocks at the same address are the same block. *)
Lemma block_of_address self i b i' b' :
  views_ok self ->
  all_blocks self !! i = Some b -> all_blocks self !! i' = Some b' ->
  data b = data b' -> i = i'.
Proof.
  intros Hv Hb Hb' Hdata.
  destruct (vo_layout _ Hv _ _ Hb) as [Ho Ha].
  destruct (vo_layout _ Hv _ _ Hb') as [Ho' Ha'].
  pose proof (vo_block_size _ Hv). nia.
Qed.

(** The search loop of [_deallocate_block_fast] finds the block of an
    address handed out. *)
Lemma find_block self i b :
  views_ok self -> all_blocks self !! i = Some b ->
  list_find (fun b' => offset b' = wrap32 (data b - pool_memory self))
            (all_blocks self) = Some (i, b).
Proof.
  intros Hv Hb.
  destruct (vo_layout _ Hv _ _ Hb) as [Ho Ha].
  pose proof (vo_block_size _ Hv) as Hbs. pose proof (vo_fits _ Hv) as Hfits.
  pose proof (lookup_lt_Some _ _ _ Hb) as Hi.
  assert (Hoff : wrap32 (data b - pool_memory self) = offset b).
  { rewrite Ha, Z.add_simpl_l. apply wrap32_small. nia. }
  rewrite Hoff. apply list_find_Some. split; [exact Hb|]. split; [reflexivity|].
  intros j bj Hbj Hlt Heq.
  destruct (vo_layout _ Hv _ _ Hbj) as [Hoj _]. nia.
Qed.

(** Releasing a block in use through its address. *)
Lemma deallocate_block_fast_in_use self i b :
  views_ok self -> all_blocks self !! i = Some b -> in_use b = true ->
  all_blocks (_deallocate_block_fast self (data b))
    = <[i := set_block b false (free_blocks self)]> (all_blocks self)
  /\ blocks_allocated (_deallocate_block_fast self (data b))
     = wrap32 (blocks_allocated self - 1)
  /\ blocks_free (_deallocate_block_fast self (data b))
     = wrap32 (blocks_free self + 1)
  /\ total_deallocations (_deallocate_block_fast self (data b))
     = wrap64 (total_deallocations self + 1)
  /\ pool_memory (_deallocate_block_fast self (data b)) = pool_memory self
  /\ block_size (_deallocate_block_fast self (data b)) = block_size self.
Proof.
  intros Hv Hb Hused. unfold _deallocate_block_fast.
  rewrite (find_block _ _ _ Hv Hb), Hused. cbn. repeat split; reflexivity.
Qed.

Lemma views_ok_set_block self self' i b used nxt :
  views_ok self -> all_blocks self !! i = Some b ->
  all_blocks self' = <[i := set_block b used nxt]> (all_blocks self) ->
  pool_memory self' = pool_memory self ->
  block_size self' = block_size self ->
  (forall v ptr, allocated_views self' !! v = Some ptr ->
     (ptr = data b /\ used = true)
     \/ (allocated_views self !! v = Some ptr /\ ptr <> data b)) ->
  (forall v v' ptr, allocated_views self' !! v = Some ptr ->
     allocated_views self' !! v' = Some ptr -> v = v') ->
  views_ok self'.
Proof.
  intros Hv Hb Hblocks Hpm Hbs Htracked Hone.
  pose proof (lookup_lt_Some _ _ _ Hb) as Hi.
  split.
  - rewrite Hbs. apply (vo_block_size _ Hv).
  - rewrite Hblocks, Hbs, length_insert. apply (vo_fits _ Hv).
  - intros j bj Hj. rewrite Hblocks in Hj. rewrite Hpm, Hbs.
    destruct (decide (j = i)) as [->|Hne].
    + rewrite list_lookup_insert_eq in Hj by assumption. injection Hj as <-.
      cbn. apply (vo_layout _ Hv _ _ Hb).
    + rewrite list_lookup_insert_ne in Hj by congruence.
      apply (vo_layout _ Hv _ _ Hj).
  - intros v ptr Hptr. rewrite Hblocks.
    destruct (Htracked v ptr Hptr) as [[-> ->]|[Hold Hother]].
    + exists i, (set_block b true nxt).
      rewrite list_lookup_insert_eq by assumption. repeat split.
    + destruct (vo_tracked _ Hv _ _ Hold) as (j & bj & Hj & Hdata & Hused).
      exists j, bj. rewrite list_lookup_insert_ne; [repeat split; assumption|].
      intros ->. rewrite Hb in Hj. injection Hj as ->. congruence.
  - exact Hone.
Qed.

(** [allocate] keeps the dictionary in order. *)
Lemma allocate_views_ok self view_id i rest self' :
  pool_ok self (i :: rest) -> views_ok self ->
  allocate self view_id = Some (Some view_id, self') ->
  views_ok self'
  /\ exists ptr, allocated_views self' !! view_id = Some ptr.
Proof.
  intros Hok Hv Halloc.
  destruct (ok_chain _ _ Hok) as (Hstart & b & Hb & _).
  assert (Hfree : in_use b = false).
  { apply (ok_in_use _ _ Hok _ _ Hb), elem_of_cons. now left. }
  unfold allocate, _allocate_block_fast, take_block in Halloc. rewrite Hstart, Hb in Halloc.
  destruct (Z.eqb_spec (data b) 0) as [Hnull|_];
    [exfalso; exact (ok_data _ _ Hok _ _ Hb Hnull)|].
  injection Halloc as <-. cbn [allocated_views set_allocated_views].
  split; [|exists (data b); apply lookup_insert_eq].
  assert (Hnot : forall v, allocated_views self !! v <> Some (data b)).
  { intros v Hold.
    destruct (vo_tracked _ Hv _ _ Hold) as (j & bj & Hj & Hdata & Hused).
    assert (j = i) as -> by (eapply block_of_address; eassumption).
    rewrite Hb in Hj. injection Hj as ->. congruence. }
  apply (views_ok_set_block self _ i b true None Hv Hb); cbn; try reflexivity.
  - intros v ptr Hptr. destruct (decide (v = view_id)) as [->|Hne].
    + rewrite lookup_insert_eq in Hptr. injection Hptr as <-. now left.
    + rewrite lookup_insert_ne in Hptr by congruence.
      right. split; [assumption|]. intros ->. exact (Hnot _ Hptr).
  - intros v v' ptr Hptr Hptr'.
    destruct (decide (v = view_id)) as [->|Hne];
      destruct (decide (v' = view_id)) as [->|Hne']; [reflexivity| | |].
    + rewrite lookup_insert_eq in Hptr. injection Hptr as <-.
      rewrite lookup_insert_ne in Hptr' by congruence.
      exfalso. exact (Hnot _ Hptr').
    + rewrite lookup_insert_eq in Hptr'. injection Hptr' as <-.
      rewrite lookup_insert_ne in Hptr by congruence.
      exfalso. exact (Hnot _ Hptr).
    + rewrite lookup_insert_ne in Hptr, Hptr' by congruence.
      eapply (vo_one_handle _ Hv); eassumption.
Qed.

(** [deallocate] of a handle that is tracked gives its block back. *)
Lemma deallocate_tracked self free view_id ptr :
  pool_ok self free -> views_ok self ->
  allocated_views self !! view_id = Some ptr ->
  blocks_allocated (deallocate self (Some view_id)) = blocks_allocated self - 1
  /\ blocks_free (deallocate self (Some view_id)) = blocks_free self + 1
  /\ total_deallocations (deallocate self (Some view_id))
     = wrap64 (total_deallocations self + 1)
  /\ views_ok (deallocate self (Some view_id)).
Proof.
  intros Hok Hv Hptr.
  destruct (vo_tracked _ Hv _ _ Hptr) as (i & b & Hb & <- & Hused).
  set (views := delete view_id (allocated_views self)).
  assert (Hv1 : views_ok (set_allocated_views self views)).
  { split; try apply Hv; cbn [allocated_views set_allocated_views].
    - intros v p Hp. apply lookup_delete_Some in Hp as [_ Hp].
      apply (vo_tracked _ Hv _ _ Hp).
    - intros v v' p Hp Hp'. apply lookup_delete_Some in Hp as [_ Hp].
      apply lookup_delete_Some in Hp' as [_ Hp'].
      eapply (vo_one_handle _ Hv); eassumption. }
  destruct (deallocate_block_fast_in_use (set_allocated_views self views) i b
              Hv1 Hb Hused) as (Hblocks & Ha & Hf & Ht & Hpm & Hbs).
  assert (Hsame : deallocate self (Some view_id)
                  = _deallocate_block_fast (set_allocated_views self views) (data b)).
  { unfold deallocate. now rewrite Hptr. }
  rewrite Hsame, Ha, Hf, Ht. cbn [blocks_allocated blocks_free total_deallocations
                                   set_allocated_views].
  assert (Hnotfree : i ∉ free).
  { intros Hin. apply (ok_in_use _ _ Hok _ _ Hb) in Hin. congruence. }
  assert (Hfits : Z.of_nat (length (i :: free)) <= num_blocks self).
  { rewrite <- (ok_length _ _ Hok). apply inj_le, nodup_length_le.
    - apply NoDup_cons. split; [assumption|apply (ok_nodup _ _ Hok)].
    - intros j Hj. apply elem_of_cons in Hj as [->|Hj].
      + eapply lookup_lt_Some; eassumption.
      + eapply chain_in_range; [apply (ok_chain _ _ Hok)|assumption]. }
  cbn [length] in Hfits.
  pose proof (ok_bound _ _ Hok). 
  rewrite (ok_allocated _ _ Hok), (ok_free _ _ Hok), !wrap32_small by lia.
  split; [reflexivity|]. split; [reflexivity|]. split; [reflexivity|].
  apply (views_ok_set_block (set_allocated_views self views) _ i b false
           (free_blocks self) Hv1 Hb Hblocks Hpm Hbs).
  - intros v p Hp. rewrite deallocate_block_fast_views in Hp.
    right. split; [exact Hp|]. cbn in Hp.
    apply lookup_delete_Some in Hp as [Hne Hp]. intros ->.
    apply Hne. eapply (vo_one_handle _ Hv); eassumption.
  - intros v v' p Hp Hp'. rewrite deallocate_block_fast_views in Hp, Hp'.
    eapply (vo_one_handle _ Hv1); eassumption.
Qed.





(** *** The claims about the pool *)







End PoolFacts.

Section TrackerFacts.
Import Tracker.

(** *** The order of [double] *)

Ltac compare_cases :=
  repeat match goal with
         | H : context [PosDef.Pos.compare_cont Eq ?x ?y] |- _ =>
             change (PosDef.Pos.compare_cont Eq x y) with (Pos.compare x y) in H
         | |- context [PosDef.Pos.compare_cont Eq ?x ?y] =>
             change (PosDef.Pos.compare_cont Eq x y) with (Pos.compare x y)
         end;
  repeat match goal with
         | H : context [Z.compare ?x ?y] |- _ => destruct (Z.compare_spec x y)
         | H : context [Pos.compare ?x ?y] |- _ => destruct (Pos.compare_spec x y)
         | |- context [Z.compare ?x ?y] => destruct (Z.compare_spec x y)
         | |- context [Pos.compare ?x ?y] => destruct (Pos.compare_spec x y)
         end.

Lemma SFltb_irrefl a : SFltb a a = false.
Proof.
  unfold SFltb, SFcompare.
  destruct a as [s|s| |s m e]; try destruct s; try reflexivity;
    compare_cases; cbn; try reflexivity; lia.
Qed.

Lemma SFltb_trans a b c :
  SFltb a b = true -> SFltb b c = true -> SFltb a c = true.
Proof.
  unfold SFltb, SFcompare.
  destruct a as [sa|sa| |sa ma ea], b as [sb|sb| |sb mb eb],
    c as [sc|sc| |sc mc ec];
    try destruct sa; try destruct sb; try destruct sc;
    try discriminate; try reflexivity;
    intros Hab Hbc; compare_cases; cbn in *;
    try discriminate; try reflexivity; lia.
Qed.

Lemma ltb_irrefl (x : float) : (x <? x)%float = false.
Proof. rewrite FloatAxioms.ltb_spec. apply SFltb_irrefl. Qed.

Lemma ltb_trans (x y z : float) :
  (x <? y)%float = true -> (y <? z)%float = true -> (x <? z)%float = true.
Proof. rewrite !FloatAxioms.ltb_spec. apply SFltb_trans. Qed.

(** The running minimum is the start value or one of the samples, no
    sample is below it, and neither is the start value. *)
Lemma running_minimum us m0 :
  let m := fold_left lower us m0 in
  (m = m0 \/ m ∈ us)
  /\ (forall u, u ∈ us -> (u <? m)%float = false)
  /\ (m0 <? m)%float = false.
Proof.
  induction us as [|u us IH] using rev_ind; cbn zeta.
  - cbn. split; [now left|]. split; [|apply ltb_irrefl].
    intros u Hu. apply elem_of_nil in Hu. contradiction.
  - rewrite fold_left_app. cbn [fold_left].
    cbn zeta in IH. destruct IH as (Hwhere & Hbelow & Hstart).
    set (m := fold_left lower us m0) in *.
    replace (lower m u) with (if (u <? m)%float then u else m) by reflexivity.
    destruct (u <? m)%float eqn:Hu.
    + split; [right; apply elem_of_app; right; apply list_elem_of_singleton;
              reflexivity|].
      split.
      * intros u' Hu'. apply elem_of_app in Hu' as [Hu'|Hu'].
        -- destruct (u' <? u)%float eqn:Hlt; [|reflexivity].
           rewrite <- (Hbelow u' Hu'). symmetry. eapply ltb_trans; eassumption.
        -- apply list_elem_of_singleton in Hu' as ->. apply ltb_irrefl.
      * destruct (m0 <? u)%float eqn:Hlt; [|reflexivity].
        rewrite <- Hstart. symmetry. eapply ltb_trans; eassumption.
    + split; [destruct Hwhere as [->|Hin]; [now left|right; apply elem_of_app; now left]|].
      split; [|assumption].
      intros u' Hu'. apply elem_of_app in Hu' as [Hu'|Hu'].
      * now apply Hbelow.
      * apply list_elem_of_singleton in Hu' as ->. assumption.
Qed.

Lemma running_maximum us m0 :
  let m := fold_left higher us m0 in
  (m = m0 \/ m ∈ us)
  /\ (forall u, u ∈ us -> (m <? u)%float = false)
  /\ (m <? m0)%float = false.
Proof.
  induction us as [|u us IH] using rev_ind; cbn zeta.
  - cbn. split; [now left|]. split; [|apply ltb_irrefl].
    intros u Hu. apply elem_of_nil in Hu. contradiction.
  - rewrite fold_left_app. cbn [fold_left].
    cbn zeta in IH. destruct IH as (Hwhere & Habove & Hstart).
    set (m := fold_left higher us m0) in *.
    replace (higher m u) with (if (m <? u)%float then u else m) by reflexivity.
    destruct (m <? u)%float eqn:Hu.
    + split; [right; apply elem_of_app; right; apply list_elem_of_singleton;
              reflexivity|].
      split.
      * intros u' Hu'. apply elem_of_app in Hu' as [Hu'|Hu'].
        -- destruct (u <? u')%float eqn:Hlt; [|reflexivity].
           rewrite <- (Habove u' Hu'). symmetry. eapply ltb_trans; eassumption.
        -- apply list_elem_of_singleton in Hu' as ->. apply ltb_irrefl.
      * destruct (u <? m0)%float eqn:Hlt; [|reflexivity].
        rewrite <- Hstart. symmetry. eapply ltb_trans; eassumption.
    + split; [destruct Hwhere as [->|Hin]; [now left|right; apply elem_of_app; now left]|].
      split; [|assumption].
      intros u' Hu'. apply elem_of_app in Hu' as [Hu'|Hu'].
      * now apply Habove.
      * apply list_elem_of_singleton in Hu' as ->. assumption.
Qed.

Lemma wrap_int_small z : - 2 ^ 31 <= z < 2 ^ 31 -> wrap_int z = z.
Proof. intros. unfold wrap_int. rewrite Z.mod_small by lia. lia. Qed.

(** [_add_sample_fast] returns when the index lies inside the buffer. *)
Lemma add_sample_fast_in_range self ns e p now :
  0 < max_samples self ->
  0 <= sample_count self ->
  length (samples self) = Z.to_nat (max_samples self) ->
  _add_sample_fast self ns e p now
  = Some (add_sample_at self (sample_count self mod max_samples self) ns e p now).
Proof.
  intros Hmax Hcount Hlen. unfold _add_sample_fast.
  destruct (Z.eqb_spec (max_samples self) 0) as [|_]; [lia|].
  destruct (Z.eqb_spec (max_samples self) (-1)) as [|_]; [lia|].
  rewrite andb_false_r. cbn [orb].
  rewrite Z.rem_mod_nonneg by lia.
  pose proof (Z.mod_pos_bound (sample_count self) (max_samples self) Hmax).
  destruct (Z.ltb_spec (sample_count self mod max_samples self) 0); [lia|].
  destruct (Z.leb_spec (Z.of_nat (length (samples self)))
                       (sample_count self mod max_samples self)); [lia|].
  reflexivity.
Qed.

Lemma add_sample_fast_inv self ns e p now self' :
  _add_sample_fast self ns e p now = Some self' ->
  self' = add_sample_at self (Z.rem (sample_count self) (max_samples self)) ns e p now.
Proof.
  unfold _add_sample_fast.
  destruct ((max_samples self =? 0) || _); [discriminate|].
  destruct ((_ <? 0) || _); [discriminate|]. congruence.
Qed.

(** No recording changes the size of the buffer or the target. *)
Lemma record_all_frame calls : forall self self',
  record_all self calls = Some self' ->
  max_samples self' = max_samples self
  /\ target_latency_us self' = target_latency_us self
  /\ initialized self' = initialized self
  /\ start_time_ns self' = start_time_ns self
  /\ length (samples self') = length (samples self).
Proof.
  induction calls as [|c calls IH]; intros self self' Hrun.
  - injection Hrun as <-. repeat split.
  - cbn [record_all] in Hrun. unfold record_latency in Hrun.
    destruct (to_uint32 _) as [ns|]; [|discriminate].
    destruct (_add_sample_fast self ns _ _ _) as [self1|] eqn:Hadd; [|discriminate].
    apply add_sample_fast_inv in Hadd. subst self1.
    apply IH in Hrun as (-> & -> & -> & -> & ->).
    cbn. rewrite length_insert. repeat split.
Qed.

(** The accumulators after a run of [record_latency] calls. *)
Lemma record_all_folds calls us :
  Forall2 (fun c u => recorded_us (rec_latency_us c) = Some u) calls us ->
  forall self,
  0 < max_samples self ->
  length (samples self) = Z.to_nat (max_samples self) ->
  0 <= sample_count self ->
  sample_count self + Z.of_nat (length calls) < 2 ^ 31 ->
  0 <= total_samples self ->
  total_samples self + Z.of_nat (length calls) < 2 ^ 64 ->
  exists self',
    record_all self calls = Some self'
    /\ min_latency_us self' = fold_left lower us (min_latency_us self)
    /\ max_latency_us self' = fold_left higher us (max_latency_us self)
    /\ sum_latency_us self' = fold_left PrimFloat.add us (sum_latency_us self)
    /\ sample_count self' = sample_count self + Z.of_nat (length calls)
    /\ total_samples self' = total_samples self + Z.of_nat (length calls).
Proof.
  induction 1 as [|c u calls us Hu _ IH]; intros self Hroom Hbuf Hsc Hsc' Hts Hts'.
  - exists self. cbn. repeat split; lia.
  - cbn [length] in Hsc', Hts'. cbn [record_all].
    unfold recorded_us in Hu. unfold record_latency.
    destruct (to_uint32 (rec_latency_us c * 1000)%float) as [ns|]; [|discriminate].
    injection Hu as <-.
    rewrite add_sample_fast_in_range by assumption.
    match goal with
    | |- context [record_all ?next calls] =>
        destruct (IH next) as (self' & Hrun & Hmin & Hmax & Hsum & Hcount & Htotal)
    end; cbn [sample_count total_samples max_samples samples add_sample_at];
      try (rewrite wrap_int_small by lia); try (rewrite wrap64_small by lia);
      try (rewrite length_insert); try assumption; try lia.
    exists self'. split; [exact Hrun|].
    cbn [min_latency_us max_latency_us sum_latency_us sample_count
         total_samples add_sample_at] in Hmin, Hmax, Hsum, Hcount, Htotal.
    rewrite wrap_int_small in Hcount by lia.
    rewrite wrap64_small in Htotal by lia.
    cbn [fold_left length]. repeat split; try assumption; lia.
Qed.

(** *** The claims about the tracker *)

(** C6, as stated, fails: a latency of 1.0009765625 us is recorded as
    1000 ns; the tracker then reports a minimum, a maximum and a mean of
    1.0 us, below the one value recorded, and the value after the mean is
    still below it. *)
Lemma fraction_of_nanosecond_is_dropped :
  exists t0 t st,
    __cinit__ 100000 500.0%float 0 true = Returns t0
    /\ record_all t0 [{| rec_latency_us := 0x1.004p+0%float; rec_exchange_id := 1;
                         rec_protocol := "TCP"; rec_now_ns := 0 |}] = Some t
    /\ get_statistics t = Some st
    /\ min_us st = 1.0%float
    /\ max_us st = 1.0%float
    /\ mean_us st = 1.0%float
    /\ (1.0 <? 0x1.004p+0)%float = true
    /\ (next_up (mean_us st) <? 0x1.004p+0)%float = true.
Proof.
  assert (Hus : Forall2 (fun c u => recorded_us (rec_latency_us c) = Some u)
                  [{| rec_latency_us := 0x1.004p+0%float; rec_exchange_id := 1;
                      rec_protocol := "TCP"; rec_now_ns := 0 |}] [1.0%float]).
  { repeat constructor; vm_compute; reflexivity. }
  eexists. unfold __cinit__. cbn [negb].
  match goal with
  | |- context [Returns ?fresh = Returns _] =>
      destruct (record_all_folds _ _ Hus fresh)
        as (t & Hrun & Hmin & Hmax & Hsum & Hcount & Htotal)
  end; cbn [sample_count total_samples max_samples samples];
    try (rewrite length_replicate); try reflexivity; try (cbn; lia).
  destruct (record_all_frame _ _ _ Hrun) as (Hms & _ & _ & _ & Hbuf).
  cbn [max_samples samples] in Hms, Hbuf. rewrite length_replicate in Hbuf.
  cbn [sample_count total_samples min_latency_us max_latency_us sum_latency_us
       length] in Hmin, Hmax, Hsum, Hcount, Htotal.
  exists t. eexists. split; [reflexivity|]. split; [exact Hrun|].
  unfold get_statistics. rewrite Hcount, Hms, Hbuf, Z2Nat.id by lia.
  split; [reflexivity|].
  cbn [min_us max_us mean_us]. rewrite Hmin, Hmax, Hsum, Htotal.
  repeat split; vm_compute; reflexivity.
Qed.

(** The start value 999999.0 of the minimum is reported when every sample
    is above it: one sample of 1000000 us. *)
Remark minimum_of_a_slow_sample :
  exists t0 t st,
    __cinit__ 4 500.0%float 0 true = Returns t0
    /\ record_all t0 [{| rec_latency_us := 1000000.0%float; rec_exchange_id := 1;
                         rec_protocol := "TCP"; rec_now_ns := 0 |}] = Some t
    /\ get_statistics t = Some st
    /\ min_us st = 999999.0%float
    /\ max_us st = 1000000.0%float.
Proof.
  eexists. eexists. eexists. split; [reflexivity|].
  split; [vm_compute; reflexivity|]. split; [vm_compute; reflexivity|].
  split; vm_compute; reflexivity.
Qed.

(** C6, amended: a latency [x] recorded via [record_latency] enters the
    statistics as its whole nanoseconds, [trunc(x * 1000) / 1000.0].  For
    every non-empty list of fewer than 2^31 recorded latencies whose
    nanoseconds fit [uint32_t], with [us] these truncated values,
    [get_statistics] reports the number of samples; a [min_us] that no
    value of [us] is below, and that is one of [us] when one of them is
    below 999999.0; a [max_us] that is below no value of [us], and that is
    one of [us] when one of them is above 0; and as [mean_us] the sum of
    [us], added up in order in double precision, divided by the number of
    samples. *)
Theorem statistics_of_truncated_samples
    (max_samples : Z) (target : float) (now_ns : Z)
    (t0 : UltraLowLatencyTracker) (calls : list recording) (us : list float) :
  0 < max_samples ->
  __cinit__ max_samples target now_ns true = Returns t0 ->
  calls <> [] ->
  Z.of_nat (length calls) < 2 ^ 31 ->
  Forall2 (fun c u => recorded_us (rec_latency_us c) = Some u) calls us ->
  exists t st,
    record_all t0 calls = Some t
    /\ get_statistics t = Some st
    /\ count st = Z.of_nat (length calls)
    /\ (forall u, u ∈ us -> (u <? min_us st)%float = false)
    /\ ((exists u, u ∈ us /\ (u <? 999999.0)%float = true) ->
        min_us st ∈ us)
    /\ (forall u, u ∈ us -> (max_us st <? u)%float = false)
    /\ ((exists u, u ∈ us /\ (0.0 <? u)%float = true) ->
        max_us st ∈ us)
    /\ mean_us st
       = (fold_left PrimFloat.add us 0.0 / double_of_Z (Z.of_nat (length calls)))%float.
Proof.
  intros Hmax Ht0 Hne Hlen Hus.
  unfold __cinit__ in Ht0. cbn [negb] in Ht0. injection Ht0 as <-.
  match goal with
  | |- context [record_all ?fresh calls] =>
      destruct (record_all_folds calls us Hus fresh)
        as (t & Hrun & Hmin & Hmaxi & Hsum & Hcount & Htotal)
  end; cbn [sample_count total_samples Tracker.max_samples samples];
    try (rewrite length_replicate); try lia.
  cbn [min_latency_us max_latency_us sum_latency_us sample_count total_samples]
    in Hmin, Hmaxi, Hsum, Hcount, Htotal.
  destruct (record_all_frame _ _ _ Hrun) as (Hms & _ & _ & _ & Hbuf).
  cbn [Tracker.max_samples samples] in Hms, Hbuf.
  rewrite length_replicate in Hbuf.
  assert (Hsome : Z.of_nat (length calls) <> 0).
  { destruct calls; [congruence|cbn [length]; lia]. }
  exists t. eexists. split; [exact Hrun|].
  unfold get_statistics. rewrite Hcount, Hms, Hbuf.
  destruct (Z.eqb_spec (0 + Z.of_nat (length calls)) 0) as [|_]; [lia|].
  destruct (Z.ltb_spec (Z.min (0 + Z.of_nat (length calls)) max_samples) 1) as [|_];
    [lia|].
  destruct (Z.ltb_spec (Z.of_nat (Z.to_nat max_samples))
                       (Z.min (0 + Z.of_nat (length calls)) max_samples)) as [|_];
    [lia|].
  cbn [orb]. split; [reflexivity|].
  cbn [count min_us max_us mean_us]. rewrite Hmin, Hmaxi, Hsum, Htotal.
  destruct (running_minimum us 999999.0%float) as (Hwhere & Hbelow & _).
  destruct (running_maximum us 0.0%float) as (Hwhere' & Habove & _).
  cbn zeta in *.
  split; [reflexivity|]. split; [exact Hbelow|]. split.
  { intros (u & Hu & Hlt). destruct Hwhere as [Heq|Hin]; [|exact Hin].
    pose proof (Hbelow u Hu) as Hb. rewrite Heq in Hb. congruence. }
  split; [exact Habove|]. split.
  { intros (u & Hu & Hlt). destruct Hwhere' as [Heq|Hin]; [|exact Hin].
    pose proof (Habove u Hu) as Hb. rewrite Heq in Hb. congruence. }
  reflexivity.
Qed.

Lemma statistics_of_truncated_samples_witness :
  exists t0,
    0 < 4
    /\ __cinit__ 4 500.0%float 0 true = Returns t0
    /\ [{| rec_latency_us := 2.5%float; rec_exchange_id := 1;
           rec_protocol := "TCP"; rec_now_ns := 10 |};
        {| rec_latency_us := 0x1.004p+0%float; rec_exchange_id := 2;
           rec_protocol := "UDP"; rec_now_ns := 20 |}] <> []
    /\ Z.of_nat 2 < 2 ^ 31
    /\ Forall2 (fun c u => recorded_us (rec_latency_us c) = Some u)
         [{| rec_latency_us := 2.5%float; rec_exchange_id := 1;
             rec_protocol := "TCP"; rec_now_ns := 10 |};
          {| rec_latency_us := 0x1.004p+0%float; rec_exchange_id := 2;
             rec_protocol := "UDP"; rec_now_ns := 20 |}]
         [2.5%float; 1.0%float]
    /\ exists t st,
         record_all t0
           [{| rec_latency_us := 2.5%float; rec_exchange_id := 1;
               rec_protocol := "TCP"; rec_now_ns := 10 |};
            {| rec_latency_us := 0x1.004p+0%float; rec_exchange_id := 2;
               rec_protocol := "UDP"; rec_now_ns := 20 |}] = Some t
         /\ get_statistics t = Some st
         /\ count st = Z.of_nat 2
         /\ (forall u, u ∈ [2.5%float; 1.0%float] ->
               (u <? min_us st)%float = false)
         /\ ((exists u, u ∈ [2.5%float; 1.0%float] /\ (u <? 999999.0)%float = true) ->
             min_us st ∈ [2.5%float; 1.0%float])
         /\ (forall u, u ∈ [2.5%float; 1.0%float] ->
               (max_us st <? u)%float = false)
         /\ ((exists u, u ∈ [2.5%float; 1.0%float] /\ (0.0 <? u)%float = true) ->
             max_us st ∈ [2.5%float; 1.0%float])
         /\ mean_us st
            = (fold_left PrimFloat.add [2.5%float; 1.0%float] 0.0
               / double_of_Z (Z.of_nat 2))%float.
Proof.
  eexists. split; [lia|]. split; [reflexivity|].
  split; [intros Hnil; discriminate Hnil|].
  split; [cbn; lia|].
  assert (Hus : Forall2 (fun c u => recorded_us (rec_latency_us c) = Some u)
         [{| rec_latency_us := 2.5%float; rec_exchange_id := 1;
             rec_protocol := "TCP"; rec_now_ns := 10 |};
          {| rec_latency_us := 0x1.004p+0%float; rec_exchange_id := 2;
             rec_protocol := "UDP"; rec_now_ns := 20 |}]
         [2.5%float; 1.0%float]).
  { repeat constructor; vm_compute; reflexivity. }
  split; [exact Hus|].
  refine (statistics_of_truncated_samples 4 500.0%float 0 _ _ _ _ eq_refl _ _ Hus);
    first [lia | cbn; lia | intros Hnil; discriminate Hnil].
Defined.

(** C9: a call of [record_packet_latency] with [recv_time_ns <=
    send_time_ns] returns the tracker as it was: the sample ring, the two
    counts, minimum, maximum, the two sums and the violation count are
    those of before, and so is every statistic computed from them. *)
Theorem invalid_timestamps_change_nothing
    (self : UltraLowLatencyTracker) (send_time_ns recv_time_ns exchange_id : Z)
    (protocol : string) (now_ns : Z) :
  recv_time_ns <= send_time_ns ->
  record_packet_latency self send_time_ns recv_time_ns exchange_id protocol now_ns
  = Some self.
Proof.
  intros Hle. unfold record_packet_latency.
  destruct (Z.leb_spec recv_time_ns send_time_ns); [reflexivity|lia].
Qed.

Lemma invalid_timestamps_change_nothing_witness :
  exists self,
    record_all
      {| samples := replicate 4 {| timestamp_ns := 0; latency_ns := 0;
                                   exchange_id := 0; protocol_type := 0 |};
         sample_count := 0; max_samples := 4; total_samples := 0;
         start_time_ns := 0; min_latency_us := 999999.0%float;
         max_latency_us := 0.0%float; sum_latency_us := 0.0%float;
         sum_squared_latency_us := 0.0%float; violation_count := 0;
         target_latency_us := 500.0%float; initialized := true |}
      [{| rec_latency_us := 2.5%float; rec_exchange_id := 1;
          rec_protocol := "TCP"; rec_now_ns := 10 |}] = Some self
    /\ 1000 <= 1000
    /\ record_packet_latency self 1000 1000 1 "TCP" 20 = Some self.
Proof.
  eexists. split; [vm_compute; reflexivity|]. split; [lia|].
  apply (invalid_timestamps_change_nothing _ 1000 1000 1 "TCP" 20). lia.
Defined.

End TrackerFacts.

Section ParserCoverage.
Import Parser.

Ltac tests_to_props :=
  repeat match goal with
         | H : (_ <? _) = true |- _ => apply Z.ltb_lt in H
         | H : (_ <? _) = false |- _ => apply Z.ltb_ge in H
         | H : (_ =? _) = true |- _ => apply Z.eqb_eq in H
         | H : (_ =? _) = false |- _ => apply Z.eqb_neq in H
         | H : _ || _ = false |- _ => apply orb_false_iff in H as [? ?]
         end.

(** What a returned record says about the frame: the header checks the
    frame has passed, and the fields of the record. *)
Lemma parse_some_inv self data r :
  (parse_packet_fast self data).1 = Some r ->
  ethertype data = 0x0800 /\ ip_version data = 4 /\ 5 <= ihl_words data
  /\ 34 <= frame_len data
  /\ ((l4_protocol data = 6 /\ 14 + ihl data + 20 <= frame_len data)
      \/ (l4_protocol data = 17 /\ 14 + ihl data + 8 <= frame_len data))
  /\ exists e fx,
       walk_ports data (frame_len data) (14 + ihl data)
         (if l4_protocol data =? 6 then tcp_hdr_len data else 8)
       = Walked true (source_port data) (destination_port data) e fx
       /\ r = {| src_port := source_port data;
                 dest_port := destination_port data;
                 protocol := if l4_protocol data =? 6 then "TCP" else "UDP";
                 exchange_id := e;
                 exchange_name :=
                   nth (Z.to_nat e) ["Unknown"; "NYSE"; "NASDAQ"; "CBOE"]%string
                       ""%string;
                 is_fix := fx;
                 packet_size := frame_len data;
                 src_ip := source_address data;
                 dest_ip := destination_address data |}.
Proof.
  unfold parse_packet_fast, source_port, destination_port, source_address,
    destination_address, tcp_hdr_len, ihl, ihl_words, ethertype, ip_version,
    l4_protocol, frame_len.
  rewrite ntohs_load16, !ntohl_load32.
  set (n := Z.of_nat (length data)).
  set (words := Z.land (byte_at data 14) 15).
  destruct (n <? 14) eqn:H14; [discriminate|].
  destruct (be16 data 12 =? 2048) eqn:Hether; cbn [negb]; [|discriminate].
  destruct (n <? 34) eqn:H34; [discriminate|].
  destruct (Z.shiftr (byte_at data 14) 4 =? 4) eqn:Hversion; cbn [negb];
    [|discriminate].
  destruct ((words * 4 <? 20) || (n <? 14 + words * 4)) eqn:Hihl; [discriminate|].
  tests_to_props.
  destruct (byte_at data 23 =? 6) eqn:Htcp; [|destruct (byte_at data 23 =? 17) eqn:Hudp];
    try (cbn [negb fst]; discriminate);
    (destruct (n <? _) eqn:Hl4; [discriminate|]);
    match goal with
    | |- context [walk_ports ?d ?m ?l ?h] =>
        destruct (walk_ports_trading d m l h) as (e & fx & Hwalk); rewrite Hwalk
    end;
    (destruct (_ || _); cbn [negb fst]; [|discriminate]);
    intros [= <-]; tests_to_props;
    (split; [assumption|]); (split; [assumption|]); (split; [lia|]);
    (split; [lia|]); (split; [first [left; split; [assumption|lia]
                                    | right; split; [assumption|lia]]|]);
    exists e, fx; split; reflexivity.
Qed.

(** The FIX flag of a walked trading packet. *)
Lemma walk_ports_fix data n l4 h sp dp e fx :
  walk_ports data n l4 h = Walked true sp dp e fx ->
  fx = (if 0 <? n - l4 - h then _is_fix_protocol data (l4 + h) (n - l4 - h)
        else false).
Proof.
  unfold walk_ports. destruct (_ || _); intros [= _ _ _ <-]; reflexivity.
Qed.

Lemma byte_code (b c : byte) :
  (Z.of_N (Byte.to_N b) =? Z.of_N (Byte.to_N c)) = true <-> b = c.
Proof.
  rewrite Z.eqb_eq. split; [|now intros ->].
  intros H. apply N2Z.inj in H.
  assert (Hsome : Some b = Some c)
    by (rewrite <- (Byte.of_to_N b), <- (Byte.of_to_N c), H; reflexivity).
  now injection Hsome.
Qed.

(** [_is_fix_protocol], guarded as the parser guards it, says whether the
    bytes from [off] on are at least 8 and begin with "8=FIX". *)
Lemma is_fix_protocol_spec data off :
  0 <= off ->
  (if 0 <? frame_len data - off
   then _is_fix_protocol data off (frame_len data - off) else false) = true
  <-> (8 <= length (drop (Z.to_nat off) data))%nat
      /\ take 5 (drop (Z.to_nat off) data) = list_byte_of_string "8=FIX".
Proof.
  intros Hoff. unfold frame_len, _is_fix_protocol.
  assert (Hbyte : forall i, byte_at data (off + Z.of_nat i)
                  = match drop (Z.to_nat off) data !! i with
                    | Some b => Z.of_N (Byte.to_N b) | None => 0 end).
  { intros i. unfold byte_at. rewrite lookup_drop.
    replace (Z.to_nat (off + Z.of_nat i)) with (Z.to_nat off + i)%nat by lia.
    reflexivity. }
  pose proof (length_drop data (Z.to_nat off)) as Hlen.
  pose proof (Hbyte 0%nat) as B0. rewrite Z.add_0_r in B0.
  pose proof (Hbyte 1%nat) as B1. pose proof (Hbyte 2%nat) as B2.
  pose proof (Hbyte 3%nat) as B3. pose proof (Hbyte 4%nat) as B4.
  change (Z.of_nat 1) with 1 in B1. change (Z.of_nat 2) with 2 in B2.
  change (Z.of_nat 3) with 3 in B3. change (Z.of_nat 4) with 4 in B4.
  rewrite B0, B1, B2, B3, B4. clear Hbyte B0 B1 B2 B3 B4.
  destruct (drop (Z.to_nat off) data) as [|b0 [|b1 [|b2 [|b3 [|b4 [|b5 [|b6 [|b7 rest]]]]]]]];
    cbn [length] in Hlen;
    try (destruct (Z.ltb_spec 0 (Z.of_nat (length data) - off));
         [destruct (Z.ltb_spec (Z.of_nat (length data) - off) 8); [|lia]|];
         (split; [discriminate|intros [Hl _]; cbn [length] in Hl; lia])).
  destruct (Z.ltb_spec 0 (Z.of_nat (length data) - off)); [|lia].
  destruct (Z.ltb_spec (Z.of_nat (length data) - off) 8); [lia|].
  cbn [lookup list_lookup take length].
  change 56 with (Z.of_N (Byte.to_N "8")). change 61 with (Z.of_N (Byte.to_N "=")).
  change 70 with (Z.of_N (Byte.to_N "F")). change 73 with (Z.of_N (Byte.to_N "I")).
  change 88 with (Z.of_N (Byte.to_N "X")).
  rewrite !andb_true_iff, !byte_code. cbn [list_byte_of_string].
  split.
  - intros ((((-> & ->) & ->) & ->) & ->). split; [lia|reflexivity].
  - intros [_ [= -> -> -> -> ->]]. repeat split.
Qed.

(** X1: every record the parser returns carries the fields of the frame:
    the two ports and the two addresses read big-endian, the frame length,
    "TCP" for protocol 6 and "UDP" for protocol 17, and an exchange that is
    never "Unknown": its name is the one of its id, and one of the two
    ports is an exchange port. *)
Theorem record_fields_are_frame_fields
    (self : FastPacketParser) (data : list byte) (r : parsed) :
  (parse_packet_fast self data).1 = Some r ->
  src_port r = source_port data
  /\ dest_port r = destination_port data
  /\ src_ip r = source_address data
  /\ dest_ip r = destination_address data
  /\ packet_size r = frame_len data
  /\ ((protocol r = "TCP"%string /\ l4_protocol data = 6)
      \/ (protocol r = "UDP"%string /\ l4_protocol data = 17))
  /\ ((exchange_id r = 1 /\ exchange_name r = "NYSE"%string)
      \/ (exchange_id r = 2 /\ exchange_name r = "NASDAQ"%string)
      \/ (exchange_id r = 3 /\ exchange_name r = "CBOE"%string))
  /\ port_in (source_port data) exchange_ports
     || port_in (destination_port data) exchange_ports = true.
Proof.
  intros Hr.
  destruct (parse_some_inv _ _ _ Hr)
    as (_ & _ & _ & _ & Hproto & e & fx & Hwalk & ->).
  cbn [src_port dest_port src_ip dest_ip packet_size protocol exchange_id
       exchange_name].
  destruct (walk_ports_exchange _ _ _ _ _ _ _ _ Hwalk) as [_ He].
  destruct (walk_ports_trading data (frame_len data) (14 + ihl data)
              (if l4_protocol data =? 6 then tcp_hdr_len data else 8))
    as (e' & fx' & Hwalk').
  rewrite Hwalk in Hwalk'. injection Hwalk' as Htrading _ _.
  repeat (split; [reflexivity|]). split; [|split].
  - destruct Hproto as [[H6 _]|[H17 _]]; rewrite ?H6, ?H17; [left|right];
      split; reflexivity.
  - assert (e = 1 \/ e = 2 \/ e = 3) as [->|[->| ->]] by lia;
      [left|right; left|right; right]; split; reflexivity.
  - symmetry. exact Htrading.
Qed.

Lemma record_fields_are_frame_fields_witness :
  exists r,
    (parse_packet_fast __cinit__ nyse_fix_frame).1 = Some r
    /\ src_port r = source_port nyse_fix_frame
    /\ dest_port r = destination_port nyse_fix_frame
    /\ src_ip r = source_address nyse_fix_frame
    /\ dest_ip r = destination_address nyse_fix_frame
    /\ packet_size r = frame_len nyse_fix_frame
    /\ ((protocol r = "TCP"%string /\ l4_protocol nyse_fix_frame = 6)
        \/ (protocol r = "UDP"%string /\ l4_protocol nyse_fix_frame = 17))
    /\ ((exchange_id r = 1 /\ exchange_name r = "NYSE"%string)
        \/ (exchange_id r = 2 /\ exchange_name r = "NASDAQ"%string)
        \/ (exchange_id r = 3 /\ exchange_name r = "CBOE"%string))
    /\ port_in (source_port nyse_fix_frame) exchange_ports
       || port_in (destination_port nyse_fix_frame) exchange_ports = true.
Proof.
  eexists. split; [vm_compute; reflexivity|].
  apply (record_fields_are_frame_fields __cinit__ nyse_fix_frame).
  vm_compute. reflexivity.
Defined.

(** X2: in every record the parser returns, [is_fix] is true exactly when
    the TCP or UDP payload has at least 8 bytes and begins with the five
    bytes "8=FIX". *)
Theorem fix_flag_is_prefix_test
    (self : FastPacketParser) (data : list byte) (r : parsed) :
  (parse_packet_fast self data).1 = Some r ->
  is_fix r = true
  <-> (8 <= length (l4_payload data))%nat
      /\ take 5 (l4_payload data) = list_byte_of_string "8=FIX".
Proof.
  intros Hr.
  destruct (parse_some_inv _ _ _ Hr)
    as (_ & _ & Hwords & _ & Hproto & e & fx & Hwalk & ->).
  cbn [is_fix]. apply walk_ports_fix in Hwalk.
  set (h := if l4_protocol data =? 6 then tcp_hdr_len data else 8) in *.
  assert (Hh : 0 <= h).
  { unfold h, tcp_hdr_len.
    pose proof (Z.land_nonneg (Z.shiftr (byte_at data (14 + ihl data + 12)) 4) 15).
    destruct (l4_protocol data =? 6); lia. }
  assert (Hpayload : l4_payload data = drop (Z.to_nat (14 + ihl data + h)) data).
  { unfold l4_payload, tcp_payload, udp_payload, h.
    destruct (l4_protocol data =? 6); reflexivity. }
  replace (frame_len data - (14 + ihl data) - h)
    with (frame_len data - (14 + ihl data + h)) in Hwalk by lia.
  rewrite Hwalk, Hpayload. apply is_fix_protocol_spec.
  unfold ihl. lia.
Qed.

Lemma fix_flag_is_prefix_test_witness :
  exists r,
    (parse_packet_fast __cinit__ nyse_fix_frame).1 = Some r
    /\ (is_fix r = true
        <-> (8 <= length (l4_payload nyse_fix_frame))%nat
            /\ take 5 (l4_payload nyse_fix_frame) = list_byte_of_string "8=FIX").
Proof.
  eexists. split; [vm_compute; reflexivity|].
  apply (fix_flag_is_prefix_test __cinit__ nyse_fix_frame).
  vm_compute. reflexivity.
Defined.

(** One call: what is returned does not depend on the parser, and the
    parser counts the frame unless a header check has turned it away. *)
Lemma parse_step (self : FastPacketParser) (data : list byte) :
  parse_packet_fast self data
  = if header_reject data then (None, self)
    else ((parse_packet_fast __cinit__ data).1,
          count_frame self (frame_len data)).
Proof.
  unfold parse_packet_fast, header_reject, too_short, not_ipv4, ihl_below_5,
    l4_header_truncated, ihl, ihl_words, ethertype, ip_version,
    l4_protocol, frame_len, count_frame.
  rewrite ntohs_load16.
  set (n := Z.of_nat (length data)).
  set (words := Z.land (byte_at data 14) 15).
  destruct (n <? 14) eqn:H14; [reflexivity|].
  destruct (be16 data 12 =? 2048) eqn:Hether; cbn [negb orb];
    [|rewrite ?orb_true_r; reflexivity].
  destruct (n <? 34) eqn:H34; [reflexivity|].
  destruct (Z.shiftr (byte_at data 14) 4 =? 4) eqn:Hversion; cbn [negb orb];
    [|rewrite ?orb_true_r; reflexivity].
  destruct (n <? 14 + words * 4) eqn:Hlen; [rewrite orb_true_r; reflexivity|].
  destruct (words * 4 <? 20) eqn:Hwords; cbn [orb].
  { destruct (Z.ltb_spec words 5); [reflexivity|tests_to_props; lia]. }
  destruct (Z.ltb_spec words 5) as [|_]; [tests_to_props; lia|]. cbn [orb].
  destruct (byte_at data 23 =? 6) eqn:Htcp; cbn [andb orb].
  - assert (Hudp : (byte_at data 23 =? 17) = false)
      by (apply Z.eqb_neq; apply Z.eqb_eq in Htcp; lia).
    rewrite Hudp. cbn [andb orb].
    destruct (n <? 14 + words * 4 + 20) eqn:Hl4; [reflexivity|].
    match goal with
    | |- context [walk_ports ?d ?m ?l ?h] =>
        destruct (walk_ports_trading d m l h) as (e & fx & ->)
    end.
    destruct (_ || _); reflexivity.
  - destruct (byte_at data 23 =? 17) eqn:Hudp; cbn [andb orb].
    + destruct (n <? 14 + words * 4 + 8) eqn:Hl4; [reflexivity|].
      match goal with
      | |- context [walk_ports ?d ?m ?l ?h] =>
          destruct (walk_ports_trading d m l h) as (e & fx & ->)
      end.
      destruct (_ || _); reflexivity.
    + reflexivity.
Qed.

Lemma wrap64_wrap64_add a b : wrap64 (wrap64 a + b) = wrap64 (a + b).
Proof. unfold wrap64. apply Zplus_mod_idemp_l. Qed.

(** X3: the parser counts a frame when, and only when, the frame has
    passed the header checks.  A frame that is too short, not IPv4, has an
    IHL below 5 or a truncated TCP/UDP header leaves the parser as it was;
    every other frame, also one that is answered with [None] because it is
    no trading packet, adds 1 to [packets_parsed] and its length to
    [bytes_processed]. *)
Theorem parser_counts_walked_frames (self : FastPacketParser) (data : list byte) :
  (too_short data || not_ipv4 data || ihl_below_5 data
   || l4_header_truncated data = true ->
   parse_packet_fast self data = (None, self))
  /\ (too_short data || not_ipv4 data || ihl_below_5 data
      || l4_header_truncated data = false ->
      packets_parsed (parse_packet_fast self data).2
        = wrap64 (packets_parsed self + 1)
      /\ bytes_processed (parse_packet_fast self data).2
         = wrap64 (bytes_processed self + frame_len data)
      /\ parse_time_ns (parse_packet_fast self data).2 = parse_time_ns self).
Proof.
  rewrite parse_step. fold (header_reject data).
  split; intros ->; [reflexivity|]. repeat split.
Qed.

(** X4: a parser keeps nothing of a frame but its two counters.  For a
    batch of frames handed to a new parser one after the other, each
    answer is the one a new parser gives for that frame alone, and
    [get_statistics] then reports the number of frames that passed the
    header checks, the sum of their lengths, both modulo 2^64, and a parse
    time of 0: [parse_time_ns] is never written. *)
Theorem batch_is_frame_by_frame (frames : list (list byte)) :
  let counted := List.filter (fun data => negb (header_reject data)) frames in
  (parse_all __cinit__ frames).1
  = map (fun data => (parse_packet_fast __cinit__ data).1) frames
  /\ get_statistics (parse_all __cinit__ frames).2
     = (wrap64 (Z.of_nat (length counted)),
        wrap64 (foldr Z.add 0 (map frame_len counted)),
        0).
Proof.
  cbn zeta.
  assert (Hany : forall self p b,
    packets_parsed self = wrap64 p -> bytes_processed self = wrap64 b ->
    (parse_all self frames).1
    = map (fun data => (parse_packet_fast __cinit__ data).1) frames
    /\ packets_parsed (parse_all self frames).2
       = wrap64 (p + Z.of_nat (length
                   (List.filter (fun data => negb (header_reject data)) frames)))
    /\ bytes_processed (parse_all self frames).2
       = wrap64 (b + foldr Z.add 0 (map frame_len
                   (List.filter (fun data => negb (header_reject data)) frames)))
    /\ parse_time_ns (parse_all self frames).2 = parse_time_ns self).
  { induction frames as [|data rest IH]; intros self p b Hp Hb.
    - cbn. rewrite !Z.add_0_r. auto.
    - cbn [parse_all List.filter map]. rewrite (parse_step self data).
      pose proof (parse_step __cinit__ data) as Hnew.
      destruct (header_reject data) eqn:Hreject; cbn [negb].
      + destruct (IH self p b Hp Hb) as (Hr & Hpackets & Hbytes & Htime).
        destruct (parse_all self rest) as [rs self'']. cbn in *.
        rewrite Hnew. cbn. split; [f_equal; exact Hr|]. auto.
      + destruct (IH (count_frame self (frame_len data)) (p + 1)
                    (b + frame_len data)) as (Hr & Hpackets & Hbytes & Htime).
        { cbn. rewrite Hp. apply wrap64_wrap64_add. }
        { cbn. rewrite Hb. apply wrap64_wrap64_add. }
        destruct (parse_all (count_frame self (frame_len data)) rest)
          as [rs self''].
        cbn [fst snd length map foldr] in *.
        split; [f_equal; exact Hr|]. split; [|split].
        * rewrite Hpackets. f_equal. lia.
        * rewrite Hbytes. f_equal. lia.
        * exact Htime. }
  destruct (Hany __cinit__ 0 0 eq_refl eq_refl) as (Hr & Hpackets & Hbytes & Htime).
  split; [exact Hr|]. unfold get_statistics.
  rewrite Hpackets, Hbytes, Htime. reflexivity.
Qed.

Lemma byte_at_take data k off :
  0 <= off < Z.of_nat k -> byte_at (take k data) off = byte_at data off.
Proof.
  intros Hoff. unfold byte_at. rewrite lookup_take_lt by lia. reflexivity.
Qed.

(** X5: a frame cut off before the end of its minimal headers is answered
    with [None]: any cut below 34 bytes, a TCP frame cut below 20 bytes of
    TCP header, a UDP frame cut below 8 bytes of UDP header. *)
Theorem truncated_frame_gives_none
    (self : FastPacketParser) (data : list byte) (k : nat) :
  Z.of_nat k < 34
  \/ (l4_protocol data = 6 /\ Z.of_nat k < 14 + ihl data + 20)
  \/ (l4_protocol data = 17 /\ Z.of_nat k < 14 + ihl data + 8) ->
  (parse_packet_fast self (take k data)).1 = None.
Proof.
  intros Hcut. unfold parse_packet_fast.
  pose proof (length_take data k) as Hlen.
  set (n := Z.of_nat (length (take k data))) in *.
  assert (Hn : n <= Z.of_nat k) by lia.
  destruct (n <? 14) eqn:H14; [reflexivity|].
  destruct (negb _); [reflexivity|].
  destruct (n <? 34) eqn:H34; [reflexivity|].
  tests_to_props.
  rewrite !(byte_at_take data k 14), !(byte_at_take data k 23) by lia.
  destruct (negb _); [reflexivity|].
  destruct (_ || _) eqn:Hihl; [reflexivity|].
  unfold l4_protocol, ihl, ihl_words in Hcut.
  destruct (byte_at data 23 =? 6) eqn:Htcp.
  - destruct (Z.ltb_spec n (14 + Z.land (byte_at data 14) 15 * 4 + 20)) as [|Hge];
      [reflexivity|]. tests_to_props. lia.
  - destruct (byte_at data 23 =? 17) eqn:Hudp.
    + destruct (Z.ltb_spec n (14 + Z.land (byte_at data 14) 15 * 4 + 8)) as [|Hge];
        [reflexivity|]. tests_to_props. lia.
    + reflexivity.
Qed.

Lemma truncated_frame_gives_none_witness :
  (Z.of_nat 53 < 34
   \/ (l4_protocol nyse_fix_frame = 6 /\ Z.of_nat 53 < 14 + ihl nyse_fix_frame + 20)
   \/ (l4_protocol nyse_fix_frame = 17 /\ Z.of_nat 53 < 14 + ihl nyse_fix_frame + 8))
  /\ (parse_packet_fast __cinit__ (take 53 nyse_fix_frame)).1 = None.
Proof.
  assert (Hcut : Z.of_nat 53 < 34
   \/ (l4_protocol nyse_fix_frame = 6 /\ Z.of_nat 53 < 14 + ihl nyse_fix_frame + 20)
   \/ (l4_protocol nyse_fix_frame = 17 /\ Z.of_nat 53 < 14 + ihl nyse_fix_frame + 8)).
  { right. left. split; vm_compute; reflexivity. }
  split; [exact Hcut|].
  exact (truncated_frame_gives_none __cinit__ nyse_fix_frame 53 Hcut).
Defined.

(** The byte swaps on numbers written out in bytes. *)
Lemma ntohs_bytes b0 b1 :
  0 <= b0 < 2 ^ 8 -> 0 <= b1 < 2 ^ 8 ->
  _ntohs (b0 + 2 ^ 8 * b1) = b1 + 2 ^ 8 * b0.
Proof.
  intros H0 H1. unfold _ntohs, wrap16.
  rewrite Z.shiftr_div_pow2, !land_255 by lia.
  rewrite low_byte, high_bytes, (Z.mod_small b1) by lia.
  rewrite lor_shiftl_low by lia.
  rewrite Z.mod_small by lia. lia.
Qed.

Lemma ntohl_bytes b0 b1 b2 b3 :
  0 <= b0 < 2 ^ 8 -> 0 <= b1 < 2 ^ 8 -> 0 <= b2 < 2 ^ 8 -> 0 <= b3 < 2 ^ 8 ->
  _ntohl (b0 + 2 ^ 8 * (b1 + 2 ^ 8 * (b2 + 2 ^ 8 * b3)))
  = b3 + 2 ^ 8 * (b2 + 2 ^ 8 * (b1 + 2 ^ 8 * b0)).
Proof.
  intros H0 H1 H2 H3. unfold _ntohl.
  set (v := b0 + 2 ^ 8 * (b1 + 2 ^ 8 * (b2 + 2 ^ 8 * b3))).
  assert (D1 : Z.shiftr v 8 = b1 + 2 ^ 8 * (b2 + 2 ^ 8 * b3)).
  { rewrite Z.shiftr_div_pow2 by lia. apply high_bytes. lia. }
  assert (D2 : Z.shiftr v 16 = b2 + 2 ^ 8 * b3).
  { change 16 with (8 + 8). rewrite <- Z.shiftr_shiftr, D1 by lia.
    rewrite Z.shiftr_div_pow2 by lia. apply high_bytes. lia. }
  assert (D3 : Z.shiftr v 24 = b3).
  { change 24 with (16 + 8). rewrite <- Z.shiftr_shiftr, D2 by lia.
    rewrite Z.shiftr_div_pow2 by lia. apply high_bytes. lia. }
  rewrite D1, D2, D3, !land_255.
  unfold v. rewrite !low_byte, (Z.mod_small b3) by lia.
  replace (Z.shiftl b0 24) with (Z.shiftl (Z.shiftl b0 8) 16)
    by (rewrite Z.shiftl_shiftl by lia; reflexivity).
  rewrite <- Z.shiftl_lor, (lor_shiftl_low b0 b1 8) by lia.
  replace (Z.shiftl (b0 * 2 ^ 8 + b1) 16)
    with (Z.shiftl (Z.shiftl (b0 * 2 ^ 8 + b1) 8) 8)
    by (rewrite Z.shiftl_shiftl by lia; reflexivity).
  rewrite <- Z.shiftl_lor, (lor_shiftl_low _ b2 8) by lia.
  rewrite (lor_shiftl_low _ b3 8) by lia.
  rewrite wrap32_small by lia. lia.
Qed.

(** X6: the two byte swaps undo themselves: [_ntohs] twice is the
    identity on 16-bit values, [_ntohl] twice on 32-bit values. *)
Theorem byte_swaps_are_involutions (v w : Z) :
  0 <= v < 2 ^ 16 -> 0 <= w < 2 ^ 32 ->
  _ntohs (_ntohs v) = v /\ _ntohl (_ntohl w) = w.
Proof.
  intros Hv Hw. split.
  - pose proof (Z.div_mod v (2 ^ 8) ltac:(lia)) as Ev.
    pose proof (Z.mod_pos_bound v (2 ^ 8) ltac:(lia)) as Hlo.
    assert (Hhi : 0 <= v / 2 ^ 8 < 2 ^ 8)
      by (split; [apply Z.div_pos; lia|apply Z.div_lt_upper_bound; lia]).
    rewrite Ev at 1. rewrite (Z.add_comm (2 ^ 8 * _)).
    rewrite ntohs_bytes, ntohs_bytes by lia. lia.
  - set (b0 := w mod 2 ^ 8). set (r1 := w / 2 ^ 8).
    set (b1 := r1 mod 2 ^ 8). set (r2 := r1 / 2 ^ 8).
    set (b2 := r2 mod 2 ^ 8). set (b3 := r2 / 2 ^ 8).
    pose proof (Z.div_mod w (2 ^ 8) ltac:(lia)) as E0.
    pose proof (Z.div_mod r1 (2 ^ 8) ltac:(lia)) as E1.
    pose proof (Z.div_mod r2 (2 ^ 8) ltac:(lia)) as E2.
    pose proof (Z.mod_pos_bound w (2 ^ 8) ltac:(lia)) as H0.
    pose proof (Z.mod_pos_bound r1 (2 ^ 8) ltac:(lia)) as H1.
    pose proof (Z.mod_pos_bound r2 (2 ^ 8) ltac:(lia)) as H2.
    fold b0 r1 in E0. fold b1 r2 in E1. fold b2 b3 in E2.
    fold b0 in H0. fold b1 in H1. fold b2 in H2.
    assert (Hr1 : 0 <= r1 < 2 ^ 24)
      by (unfold r1; split; [apply Z.div_pos; lia|apply Z.div_lt_upper_bound; lia]).
    assert (Hr2 : 0 <= r2 < 2 ^ 16)
      by (unfold r2; split; [apply Z.div_pos; lia|apply Z.div_lt_upper_bound; lia]).
    assert (H3 : 0 <= b3 < 2 ^ 8)
      by (unfold b3; split; [apply Z.div_pos; lia|apply Z.div_lt_upper_bound; lia]).
    replace w with (b0 + 2 ^ 8 * (b1 + 2 ^ 8 * (b2 + 2 ^ 8 * b3))) by lia.
    rewrite ntohl_bytes, ntohl_bytes by lia. reflexivity.
Qed.

Lemma byte_swaps_are_involutions_witness :
  0 <= 0x0FA1 < 2 ^ 16 /\ 0 <= 0x0A000001 < 2 ^ 32
  /\ _ntohs (_ntohs 0x0FA1) = 0x0FA1 /\ _ntohl (_ntohl 0x0A000001) = 0x0A000001.
Proof.
  split; [lia|]. split; [lia|].
  apply (byte_swaps_are_involutions 0x0FA1 0x0A000001); lia.
Defined.

End ParserCoverage.

Section PoolCoverage.
Import Pool.

(** *** The layout of the arena *)

Lemma same_arena_refl self : same_arena self self.
Proof. repeat split. Qed.

Lemma same_arena_trans self self' self'' :
  same_arena self self' -> same_arena self' self'' -> same_arena self self''.
Proof.
  unfold same_arena. intros (? & ? & ? & ? & ? & ? & ?) (? & ? & ? & ? & ? & ? & ?).
  repeat split; congruence.
Qed.

Lemma size_pool_initialize_from a bs nb count : forall i off j b,
  initialize_from a bs nb i off count !! j = Some b -> size b = bs.
Proof.
  induction count as [|n IH]; intros i off j b Hb; [discriminate|].
  destruct j as [|j]; cbn in Hb.
  - injection Hb as <-. reflexivity.
  - eapply IH; eassumption.
Qed.

Lemma constructed_layout pool_size block_size use_mmap arena self :
  0 < block_size <= pool_size -> pool_size < 2 ^ 32 -> 0 < arena ->
  __cinit__ pool_size block_size use_mmap arena true = Returns self ->
  layout_ok self
  /\ pool_memory self = arena
  /\ Pool.pool_size self = pool_size
  /\ Pool.block_size self = block_size.
Proof.
  intros Hsize Hpool Harena Hself.
  assert (Hn : 1 <= pool_size / block_size)
    by (apply Z.div_le_lower_bound; lia).
  pose proof (Z.mul_div_le pool_size block_size ltac:(lia)) as Hmul.
  unfold __cinit__ in Hself.
  destruct (Z.eqb_spec arena 0) as [|_]; [lia|]. cbn [negb] in Hself.
  injection Hself as <-. split; [|repeat split]. split; cbn.
  - rewrite length_replicate. lia.
  - intros i b Hb. eapply size_pool_initialize_from; eassumption.
  - lia.
  - exact Hn.
Qed.

(** A block lies in the arena. *)
Lemma block_in_arena self free i b :
  pool_ok self free -> views_ok self -> layout_ok self ->
  all_blocks self !! i = Some b ->
  offset b = Z.of_nat i * block_size self
  /\ data b = pool_memory self + offset b
  /\ 0 <= offset b /\ offset b + block_size self <= pool_size self.
Proof.
  intros Hok Hv Hl Hb.
  destruct (vo_layout _ Hv _ _ Hb) as [Ho Ha].
  pose proof (vo_block_size _ Hv) as Hbs.
  pose proof (lo_fits _ Hl) as Hfits.
  pose proof (ok_length _ _ Hok) as Hlen.
  pose proof (lookup_lt_Some _ _ _ Hb) as Hi.
  repeat split; try assumption; nia.
Qed.

(** *** What one call does, field by field *)

(** [allocate] with a free block: the head of the free list is taken, and
    its address is entered under the handle. *)
Lemma allocate_head self view_id i rest :
  pool_ok self (i :: rest) -> views_ok self -> layout_ok self ->
  exists b self',
    all_blocks self !! i = Some b
    /\ allocate self view_id = Some (Some view_id, self')
    /\ pool_ok self' rest /\ views_ok self' /\ layout_ok self'
    /\ same_arena self self'
    /\ allocated_views self' = <[view_id := data b]> (allocated_views self)
    /\ all_blocks self' = <[i := set_block b true None]> (all_blocks self)
    /\ memory self' = memory self
    /\ total_allocations self' = wrap64 (total_allocations self + 1)
    /\ total_deallocations self' = total_deallocations self.
Proof.
  intros Hok Hv Hl.
  destruct (ok_chain _ _ Hok) as (Hstart & b & Hb & _).
  destruct (allocate_takes _ view_id _ _ Hok) as (self' & Halloc & Hok' & _).
  destruct (allocate_views_ok _ _ _ _ _ Hok Hv Halloc) as [Hv' _].
  exists b, self'. split; [exact Hb|]. split; [exact Halloc|].
  split; [exact Hok'|]. split; [exact Hv'|].
  unfold allocate, _allocate_block_fast, take_block in Halloc. rewrite Hstart, Hb in Halloc.
  destruct (Z.eqb_spec (data b) 0) as [Hnull|_];
    [exfalso; exact (ok_data _ _ Hok _ _ Hb Hnull)|].
  injection Halloc as <-. cbn.
  split; [|split; [repeat split|repeat split]].
  destruct Hl as [Hmem Hsize Hfits Hblocks]. split; cbn; try assumption.
  intros j bj Hj. apply list_lookup_insert_Some in Hj as [(-> & <- & _)|[_ Hj]].
  - cbn. eapply Hsize; eassumption.
  - eapply Hsize; eassumption.
Qed.

(** [deallocate] of a tracked handle: the block goes to the head of the
    free list, is zeroed, and the handle is forgotten. *)
Lemma deallocate_head self free view_id ptr :
  pool_ok self free -> views_ok self -> layout_ok self ->
  allocated_views self !! view_id = Some ptr ->
  exists i b,
    all_blocks self !! i = Some b /\ data b = ptr /\ in_use b = true
    /\ pool_ok (deallocate self (Some view_id)) (i :: free)
    /\ views_ok (deallocate self (Some view_id))
    /\ layout_ok (deallocate self (Some view_id))
    /\ same_arena self (deallocate self (Some view_id))
    /\ allocated_views (deallocate self (Some view_id))
       = delete view_id (allocated_views self)
    /\ all_blocks (deallocate self (Some view_id))
       = <[i := set_block b false (free_blocks self)]> (all_blocks self)
    /\ memory (deallocate self (Some view_id))
       = memset_zero (memory self) (data b - pool_memory self) (size b)
    /\ total_allocations (deallocate self (Some view_id)) = total_allocations self.
Proof.
  intros Hok Hv Hl Hptr.
  destruct (deallocate_tracked _ _ _ _ Hok Hv Hptr) as (Ha & Hf & _ & Hv').
  destruct (vo_tracked _ Hv _ _ Hptr) as (i & b & Hb & Hdata & Hused).
  exists i, b. split; [exact Hb|]. split; [exact Hdata|]. split; [exact Hused|].
  set (views := delete view_id (allocated_views self)).
  assert (Hv1 : views_ok (set_allocated_views self views)).
  { split; try apply Hv; cbn [allocated_views set_allocated_views].
    - intros v p Hp. apply lookup_delete_Some in Hp as [_ Hp].
      apply (vo_tracked _ Hv _ _ Hp).
    - intros v v' p Hp Hp'. apply lookup_delete_Some in Hp as [_ Hp].
      apply lookup_delete_Some in Hp' as [_ Hp'].
      eapply (vo_one_handle _ Hv); eassumption. }
  assert (Hsame : deallocate self (Some view_id)
                  = _deallocate_block_fast (set_allocated_views self views) ptr).
  { unfold deallocate. now rewrite Hptr. }
  assert (Hfound : list_find (fun b' => offset b' = wrap32 (ptr - pool_memory self))
                     (all_blocks self) = Some (i, b)).
  { rewrite <- Hdata. apply find_block; assumption. }
  assert (Hrecord : deallocate self (Some view_id)
    = {| pool_memory := pool_memory self;
         memory := memset_zero (memory self) (data b - pool_memory self) (size b);
         free_blocks := Some i;
         all_blocks := <[i := set_block b false (free_blocks self)]> (all_blocks self);
         pool_size := pool_size self;
         block_size := block_size self;
         num_blocks := num_blocks self;
         blocks_allocated := wrap32 (blocks_allocated self - 1);
         blocks_free := wrap32 (blocks_free self + 1);
         total_allocations := total_allocations self;
         total_deallocations := wrap64 (total_deallocations self + 1);
         use_mmap := use_mmap self;
         initialized := initialized self;
         mmap_fd := mmap_fd self;
         allocated_views := views |}).
  { rewrite Hsame. unfold _deallocate_block_fast.
    cbn [all_blocks pool_memory set_allocated_views].
    rewrite Hfound, Hused. reflexivity. }
  assert (Hok' : pool_ok (deallocate self (Some view_id)) (i :: free)).
  { destruct (deallocate_block_fast_ok (set_allocated_views self views) free ptr
                (pool_ok_views _ _ views Hok))
      as [(i' & Hok' & _)|Hnothing].
    - rewrite <- Hsame in Hok'.
      destruct (ok_chain _ _ Hok') as [Hstart _].
      rewrite Hrecord in Hstart. cbn in Hstart. injection Hstart as ->.
      exact Hok'.
    - exfalso. rewrite <- Hsame in Hnothing.
      rewrite Hnothing in Hf. cbn in Hf. lia. }
  split; [exact Hok'|]. split; [exact Hv'|].
  rewrite Hrecord. cbn.
  split; [|split; [repeat split|repeat split]].
  destruct Hl as [Hmem Hsize Hfits Hblocks]. split; cbn; try assumption.
  - unfold memset_zero. rewrite length_inserts. exact Hmem.
  - intros j bj Hj. apply list_lookup_insert_Some in Hj as [(-> & <- & _)|[_ Hj]].
    + cbn. eapply Hsize; eassumption.
    + eapply Hsize; eassumption.
Qed.

(** A handle that is not tracked. *)
Lemma deallocate_untracked self view_id :
  allocated_views self !! view_id = None -> deallocate self (Some view_id) = self.
Proof. intros Hnone. unfold deallocate. now rewrite Hnone. Qed.

(** *** [reset_pool] *)

Lemma length_reset_block n blocks i :
  length (reset_block n blocks i) = length blocks.
Proof.
  unfold reset_block. destruct (blocks !! i); [apply length_insert|reflexivity].
Qed.

(** The loop of [reset_pool] after [m] rounds. *)
Lemma lookup_reset_blocks n blocks m :
  (m <= length blocks)%nat ->
  forall j,
    foldl (reset_block n) blocks (seq 0 m) !! j
    = if decide (j < m)%nat
      then (fun b => set_block b false
                       (if Z.of_nat j <? wrap32 (n - 1) then Some (S j) else None))
             <$> blocks !! j
      else blocks !! j.
Proof.
  induction m as [|m IH]; intros Hm j.
  - cbn. destruct (decide (j < 0)%nat); [lia|reflexivity].
  - rewrite seq_S, foldl_app. cbn [foldl Nat.add].
    set (done := foldl (reset_block n) blocks (seq 0 m)) in *.
    assert (Hlen : length done = length blocks).
    { unfold done. clear IH. generalize blocks.
      induction (seq 0 m) as [|i l IHl]; intros bs; [reflexivity|].
      cbn. rewrite IHl. apply length_reset_block. }
    destruct (lookup_lt_is_Some_2 blocks m ltac:(lia)) as [b Hb].
    unfold reset_block. rewrite (IH ltac:(lia) m).
    destruct (decide (m < m)%nat); [lia|]. rewrite Hb.
    destruct (decide (j = m)) as [->|Hne].
    + rewrite list_lookup_insert_eq by lia.
      destruct (decide (m < S m)%nat); [|lia]. rewrite Hb. reflexivity.
    + rewrite list_lookup_insert_ne by congruence. rewrite (IH ltac:(lia) j).
      destruct (decide (j < m)%nat), (decide (j < S m)%nat); try lia; reflexivity.
Qed.

Lemma lookup_reset_pool self free j :
  pool_ok self free ->
  all_blocks (reset_pool self) !! j
  = (fun b => set_block b false
                (if (j <? Z.to_nat (num_blocks self) - 1)%nat
                 then Some (S j) else None))
      <$> all_blocks self !! j.
Proof.
  intros Hok. pose proof (ok_length _ _ Hok) as Hlen.
  pose proof (ok_bound _ _ Hok) as Hbound.
  cbn [reset_pool all_blocks].
  rewrite lookup_reset_blocks by lia.
  destruct (decide (j < Z.to_nat (num_blocks self))%nat) as [Hj|Hj].
  - destruct (all_blocks self !! j) as [b|]; [|reflexivity].
    cbn -[Nat.ltb Z.ltb wrap32]. do 2 f_equal.
    rewrite wrap32_small by lia.
    destruct (Z.ltb_spec (Z.of_nat j) (num_blocks self - 1)),
      (Nat.ltb_spec j (Z.to_nat (num_blocks self) - 1)); try reflexivity; lia.
  - rewrite (lookup_ge_None_2 (all_blocks self) j) by lia. reflexivity.
Qed.

Lemma memset_whole bytes n :
  Z.of_nat (length bytes) = n ->
  memset_zero bytes 0 n = replicate (Z.to_nat n) x00%byte.
Proof.
  intros Hlen. unfold memset_zero. cbn [Z.to_nat].
  rewrite <- (app_nil_r (replicate _ _)) at 1.
  apply list_inserts_0_l. rewrite length_replicate. lia.
Qed.

(** [reset_pool] on a pool in order: every block is free again, in index
    order, and nothing is tracked. *)
Lemma reset_pool_ok self free :
  pool_ok self free -> views_ok self -> layout_ok self ->
  pool_ok (reset_pool self) (seq 0 (Z.to_nat (num_blocks self)))
  /\ views_ok (reset_pool self)
  /\ layout_ok (reset_pool self)
  /\ same_arena self (reset_pool self).
Proof.
  intros Hok Hv Hl.
  pose proof (ok_length _ _ Hok) as Hlen.
  pose proof (ok_bound _ _ Hok) as Hbound.
  pose proof (lo_blocks _ Hl) as Hblocks.
  set (n := Z.to_nat (num_blocks self)).
  assert (Hlen' : length (all_blocks (reset_pool self)) = length (all_blocks self)).
  { cbn [reset_pool all_blocks]. generalize (all_blocks self).
    induction (seq 0 _) as [|i l IHl]; intros bs; [reflexivity|].
    cbn. rewrite IHl. apply length_reset_block. }
  assert (Hlookup : forall j b', all_blocks (reset_pool self) !! j = Some b' ->
            exists b, all_blocks self !! j = Some b
              /\ b' = set_block b false
                        (if (j <? n - 1)%nat then Some (S j) else None)).
  { intros j b' Hj. rewrite (lookup_reset_pool _ _ _ Hok) in Hj.
    destruct (all_blocks self !! j) as [b|]; [|discriminate].
    injection Hj as <-. eauto. }
  split; [|split; [|split]].
  - split.
    + rewrite Hlen'. exact Hlen.
    + exact Hbound.
    + apply (initial_chain _ n); [|lia|lia].
      intros j Hj.
      destruct (lookup_lt_is_Some_2 (all_blocks self) j ltac:(lia)) as [b Hb].
      eexists. split.
      * rewrite (lookup_reset_pool _ _ _ Hok), Hb. reflexivity.
      * reflexivity.
    + apply NoDup_seq.
    + intros j b' Hj. destruct (Hlookup j b' Hj) as (b & Hb & ->).
      pose proof (lookup_lt_Some _ _ _ Hb).
      rewrite elem_of_seq. cbn. split; [lia|reflexivity].
    + intros j b' Hj. destruct (Hlookup j b' Hj) as (b & Hb & ->).
      cbn. eapply (ok_data _ _ Hok); eassumption.
    + cbn. rewrite length_seq. lia.
    + cbn. rewrite length_seq. lia.
  - split.
    + apply (vo_block_size _ Hv).
    + rewrite Hlen'. apply (vo_fits _ Hv).
    + intros j b' Hj. destruct (Hlookup j b' Hj) as (b & Hb & ->).
      cbn. apply (vo_layout _ Hv _ _ Hb).
    + intros v ptr Hptr. cbn in Hptr. rewrite lookup_empty in Hptr. discriminate.
    + intros v v' ptr Hptr. cbn in Hptr. rewrite lookup_empty in Hptr. discriminate.
  - split.
    + cbn [reset_pool memory pool_size]. unfold memset_zero.
      rewrite length_inserts. apply (lo_memory _ Hl).
    + intros j b' Hj. destruct (Hlookup j b' Hj) as (b & Hb & ->).
      cbn. apply (lo_size _ Hl _ _ Hb).
    + apply (lo_fits _ Hl).
    + exact Hblocks.
  - repeat split.
Qed.

(** *** Histories *)

Lemma store_ok self free addr value :
  pool_ok self free -> views_ok self -> layout_ok self ->
  pool_ok (store self addr value) free
  /\ views_ok (store self addr value)
  /\ layout_ok (store self addr value)
  /\ same_arena self (store self addr value).
Proof.
  intros Hok Hv Hl. unfold store.
  destruct (is_address_in_pool self addr);
    [|split; [|split; [|split]]; try assumption; apply same_arena_refl].
  split; [|split; [|split]].
  - destruct Hok. split; assumption.
  - destruct Hv. split; assumption.
  - destruct Hl as [Hmem Hsize Hfits Hblocks]. split; cbn; try assumption.
    rewrite length_insert. exact Hmem.
  - repeat split.
Qed.

(** Every action returns and keeps the pool in order. *)
Lemma act_ok self free a :
  pool_ok self free -> views_ok self -> layout_ok self ->
  exists self' free',
    act self a = Some self'
    /\ pool_ok self' free' /\ views_ok self' /\ layout_ok self'
    /\ same_arena self self'.
Proof.
  intros Hok Hv Hl. destruct a as [[view_id|[view_id|]]|addr value|]; cbn [act step].
  - destruct free as [|i rest].
    + rewrite (allocate_exhausted _ _ Hok). cbn.
      exists self, []. auto using same_arena_refl.
    + destruct (allocate_head _ view_id _ _ Hok Hv Hl)
        as (b & self' & _ & -> & Hok' & Hv' & Hl' & Hsame & _).
      cbn. eauto 8.
  - cbn [option_map snd].
    destruct (allocated_views self !! view_id) as [ptr|] eqn:Hptr.
    + destruct (deallocate_head _ _ _ _ Hok Hv Hl Hptr)
        as (i & b & _ & _ & _ & Hok' & Hv' & Hl' & Hsame & _).
      eauto 8.
    + rewrite (deallocate_untracked _ _ Hptr).
      exists self, free. auto using same_arena_refl.
  - cbn. exists self, free. auto using same_arena_refl.
  - destruct (store_ok _ _ addr value Hok Hv Hl) as (? & ? & ? & ?). eauto 8.
  - destruct (reset_pool_ok _ _ Hok Hv Hl) as (? & ? & ? & ?). eauto 8.
Qed.

Lemma perform_ok actions : forall self free,
  pool_ok self free -> views_ok self -> layout_ok self ->
  exists self' free',
    perform self actions = Some self'
    /\ pool_ok self' free' /\ views_ok self' /\ layout_ok self'
    /\ same_arena self self'.
Proof.
  induction actions as [|a actions IH]; intros self free Hok Hv Hl.
  - exists self, free. cbn. auto using same_arena_refl.
  - destruct (act_ok _ _ a Hok Hv Hl)
      as (self1 & free1 & Hact & Hok1 & Hv1 & Hl1 & Hsame1).
    destruct (IH _ _ Hok1 Hv1 Hl1)
      as (self' & free' & Hrun & Hok' & Hv' & Hl' & Hsame').
    exists self', free'. cbn [perform]. rewrite Hact.
    split; [exact Hrun|]. split; [exact Hok'|]. split; [exact Hv'|].
    split; [exact Hl'|]. eapply same_arena_trans; eassumption.
Qed.

(** The state a history leads to, from the constructor on. *)
Lemma reached pool_size block_size use_mmap arena self actions :
  0 < block_size <= pool_size -> pool_size < 2 ^ 32 -> 0 < arena ->
  __cinit__ pool_size block_size use_mmap arena true = Returns self ->
  exists self' free',
    perform self actions = Some self'
    /\ pool_ok self' free' /\ views_ok self' /\ layout_ok self'
    /\ same_arena self self'
    /\ pool_memory self' = arena
    /\ Pool.pool_size self' = pool_size
    /\ Pool.block_size self' = block_size
    /\ num_blocks self' = pool_size / block_size.
Proof.
  intros Hsize Hpool Harena Hself.
  destruct (constructed_pool_ok _ _ _ _ _ Hsize Hpool Harena Hself)
    as (Hok & Hv & Hn).
  destruct (constructed_layout _ _ _ _ _ Hsize Hpool Harena Hself)
    as (Hl & Hpm & Hps & Hbs).
  destruct (perform_ok actions _ _ Hok Hv Hl)
    as (self' & free' & Hrun & Hok' & Hv' & Hl' & Hsame).
  exists self', free'. pose proof Hsame as (? & ? & ? & ? & _).
  repeat (split; [assumption|]). repeat split; congruence.
Qed.

(** *** Handing out and taking back *)

(** Allocating from a free list that is a run of indices. *)
Lemma allocate_all ids : forall self m r,
  pool_ok self (seq m (length ids + r)) -> views_ok self -> layout_ok self ->
  NoDup ids ->
  exists self',
    run self (map Allocate ids) = Some self'
    /\ pool_ok self' (seq (m + length ids) r)
    /\ views_ok self' /\ layout_ok self' /\ same_arena self self'
    /\ (forall j v, ids !! j = Some v ->
          allocated_views self' !! v
          = Some (pool_memory self + Z.of_nat (m + j) * block_size self))
    /\ (forall v, v ∉ ids -> allocated_views self' !! v = allocated_views self !! v).
Proof.
  induction ids as [|v ids IH]; intros self m r Hok Hv Hl Hnodup.
  - exists self. cbn in *. rewrite Nat.add_0_r.
    repeat (split; [first [assumption|reflexivity|apply same_arena_refl]|]).
    split; [intros j v Hj; rewrite lookup_nil in Hj; discriminate|reflexivity].
  - apply NoDup_cons in Hnodup as [Hnotin Hnodup].
    cbn [length Nat.add seq] in Hok.
    destruct (allocate_head _ v _ _ Hok Hv Hl)
      as (b & self1 & Hb & Halloc & Hok1 & Hv1 & Hl1 & Hsame1 & Hviews1 & _).
    destruct (block_in_arena _ _ _ _ Hok Hv Hl Hb) as (Hoff & Hdata & _).
    destruct (IH self1 (S m) r Hok1 Hv1 Hl1 Hnodup)
      as (self' & Hrun & Hok' & Hv' & Hl' & Hsame' & Hin & Hout).
    pose proof Hsame1 as (Hpm & _ & Hbs & _).
    exists self'. cbn [map run step]. rewrite Halloc.
    split; [exact Hrun|].
    split; [cbn [length]; replace (m + S (length ids))%nat
              with (S m + length ids)%nat by lia; exact Hok'|].
    split; [exact Hv'|]. split; [exact Hl'|].
    split; [eapply same_arena_trans; eassumption|]. split.
    + intros [|j] w Hj; cbn in Hj.
      * injection Hj as <-. rewrite (Hout _ Hnotin), Hviews1, lookup_insert_eq.
        rewrite Hdata, Hoff, Nat.add_0_r. reflexivity.
      * rewrite (Hin _ _ Hj), Hpm, Hbs. do 3 f_equal. lia.
    + intros w Hw. apply not_elem_of_cons in Hw as [Hne Hw].
      rewrite (Hout _ Hw), Hviews1. apply lookup_insert_ne. congruence.
Qed.

(** X7: a new pool hands out its blocks in the order of their addresses,
    one to each caller, until none is left.  After [k] allocations, [k] no
    more than the number of blocks, the [j]-th handle stands for the block
    at [arena + j * block_size], [k] blocks are allocated and the others
    free; when [k] is the number of blocks, every further [allocate]
    returns [None] and changes nothing. *)
Theorem new_pool_hands_out_blocks_in_order
    (pool_size block_size : Z) (use_mmap : bool) (arena : Z)
    (self : HighPerformanceMemoryPool) (ids : list Z) :
  0 < block_size <= pool_size ->
  pool_size < 2 ^ 32 ->
  0 < arena ->
  __cinit__ pool_size block_size use_mmap arena true = Returns self ->
  NoDup ids ->
  Z.of_nat (length ids) <= pool_size / block_size ->
  exists self',
    run self (map Allocate ids) = Some self'
    /\ (forall j v, ids !! j = Some v ->
          allocated_views self' !! v = Some (arena + Z.of_nat j * block_size))
    /\ blocks_allocated self' = Z.of_nat (length ids)
    /\ blocks_free self' = pool_size / block_size - Z.of_nat (length ids)
    /\ (Z.of_nat (length ids) = pool_size / block_size ->
        forall v, allocate self' v = Some (None, self')).
Proof.
  intros Hsize Hpool Harena Hself Hnodup Hlen.
  destruct (constructed_pool_ok _ _ _ _ _ Hsize Hpool Harena Hself)
    as (Hok & Hv & Hn).
  destruct (constructed_layout _ _ _ _ _ Hsize Hpool Harena Hself)
    as (Hl & Hpm & Hps & Hbs).
  set (n := pool_size / block_size) in *.
  assert (Hsplit : Z.to_nat n = (length ids + (Z.to_nat n - length ids))%nat) by lia.
  rewrite Hsplit in Hok.
  destruct (allocate_all ids self 0 _ Hok Hv Hl Hnodup)
    as (self' & Hrun & Hok' & _ & _ & Hsame & Hin & _).
  pose proof Hsame as (_ & _ & _ & Hn' & _).
  exists self'. split; [exact Hrun|]. split; [|split; [|split]].
  - intros j v Hj. rewrite (Hin _ _ Hj), Hpm, Hbs. reflexivity.
  - rewrite (ok_allocated _ _ Hok'), length_seq. lia.
  - rewrite (ok_free _ _ Hok'), length_seq. lia.
  - intros Hfull v. apply allocate_exhausted.
    replace (Z.to_nat n - length ids)%nat with 0%nat in Hok' by lia. exact Hok'.
Qed.

Lemma new_pool_hands_out_blocks_in_order_witness :
  exists self,
    0 < 4 <= 16 /\ 16 < 2 ^ 32 /\ 0 < 4096
    /\ __cinit__ 16 4 false 4096 true = Returns self
    /\ NoDup [11; 12; 13; 14]
    /\ Z.of_nat (length [11; 12; 13; 14]) <= 16 / 4
    /\ exists self',
         run self (map Allocate [11; 12; 13; 14]) = Some self'
         /\ (forall j v, [11; 12; 13; 14] !! j = Some v ->
               allocated_views self' !! v = Some (4096 + Z.of_nat j * 4))
         /\ blocks_allocated self' = Z.of_nat (length [11; 12; 13; 14])
         /\ blocks_free self' = 16 / 4 - Z.of_nat (length [11; 12; 13; 14])
         /\ (Z.of_nat (length [11; 12; 13; 14]) = 16 / 4 ->
             forall v, allocate self' v = Some (None, self')).
Proof.
  assert (Hnodup : NoDup [11; 12; 13; 14])
    by (refine (bool_decide_unpack _ _); vm_compute; exact I).
  eexists. split; [lia|]. split; [lia|]. split; [lia|].
  split; [reflexivity|]. split; [exact Hnodup|]. split; [vm_compute; discriminate|].
  apply (new_pool_hands_out_blocks_in_order 16 4 false 4096);
    [lia|lia|lia|reflexivity|exact Hnodup|vm_compute; discriminate].
Defined.

(** X8: releasing a handle wipes its block.  In every state a history of
    allocations, releases, writes through the memoryviews and resets leads
    to, [deallocate] of a tracked handle sets the [block_size] bytes of its
    block to zero and leaves every other byte of the arena as it was. *)
Theorem released_block_is_zeroed
    (pool_size block_size : Z) (use_mmap : bool) (arena : Z)
    (self0 self : HighPerformanceMemoryPool) (actions : list action)
    (view_id ptr : Z) :
  0 < block_size <= pool_size ->
  pool_size < 2 ^ 32 ->
  0 < arena ->
  __cinit__ pool_size block_size use_mmap arena true = Returns self0 ->
  perform self0 actions = Some self ->
  allocated_views self !! view_id = Some ptr ->
  forall k : nat,
    memory (deallocate self (Some view_id)) !! k
    = if (ptr - arena <=? Z.of_nat k) && (Z.of_nat k <? ptr - arena + block_size)
      then Some x00%byte
      else memory self !! k.
Proof.
  intros Hsize Hpool Harena Hself Hrun Hptr k.
  destruct (reached _ _ _ _ _ actions Hsize Hpool Harena Hself)
    as (self' & free & Hrun' & Hok & Hv & Hl & _ & Hpm & Hps & Hbs & _).
  rewrite Hrun in Hrun'. injection Hrun' as <-.
  destruct (deallocate_head _ _ _ _ Hok Hv Hl Hptr)
    as (i & b & Hb & Hdata & _ & _ & _ & _ & _ & _ & _ & Hmem & _).
  destruct (block_in_arena _ _ _ _ Hok Hv Hl Hb) as (_ & Haddr & Hlow & Hhigh).
  pose proof (lo_size _ Hl _ _ Hb) as Hblock.
  pose proof (lo_memory _ Hl) as Hlen.
  assert (Hstart : data b - pool_memory self = ptr - arena) by congruence.
  assert (Hrange : 0 <= ptr - arena
                   /\ ptr - arena + block_size <= Z.of_nat (length (memory self)))
    by lia.
  rewrite Hmem, Hstart, Hblock, Hbs. unfold memset_zero.
  destruct (Z.leb_spec (ptr - arena) (Z.of_nat k)) as [Hge|Hlt]; cbn [andb].
  - destruct (Z.ltb_spec (Z.of_nat k) (ptr - arena + block_size)) as [Hin|Hout].
    + rewrite list_lookup_inserts by (rewrite ?length_replicate; lia).
      apply lookup_replicate_2. lia.
    + apply list_lookup_inserts_ge. rewrite length_replicate. lia.
  - apply list_lookup_inserts_lt. lia.
Qed.

Lemma released_block_is_zeroed_witness :
  exists self0 self,
    0 < 4 <= 16 /\ 16 < 2 ^ 32 /\ 0 < 4096
    /\ __cinit__ 16 4 false 4096 true = Returns self0
    /\ perform self0 [Call (Allocate 11); Call (Allocate 12);
                      Store 4097 "A"%byte; Store 4100 "B"%byte] = Some self
    /\ allocated_views self !! 11 = Some 4096
    /\ forall k : nat,
         memory (deallocate self (Some 11)) !! k
         = if (4096 - 4096 <=? Z.of_nat k) && (Z.of_nat k <? 4096 - 4096 + 4)
           then Some x00%byte
           else memory self !! k.
Proof.
  eexists. eexists. split; [lia|]. split; [lia|]. split; [lia|].
  split; [reflexivity|]. split; [vm_compute; reflexivity|].
  split; [vm_compute; reflexivity|].
  refine (released_block_is_zeroed 16 4 false 4096 _ _
           [Call (Allocate 11); Call (Allocate 12);
            Store 4097 "A"%byte; Store 4100 "B"%byte] 11 4096 _ _ _ _ _ _);
    first [lia | reflexivity | vm_compute; reflexivity].
Defined.

(** X9: the free list is a stack.  In every state a history leads to, the
    block of a handle that is released is the block the next [allocate]
    hands out. *)
Theorem released_block_is_next
    (pool_size block_size : Z) (use_mmap : bool) (arena : Z)
    (self0 self : HighPerformanceMemoryPool) (actions : list action)
    (view_id ptr next_id : Z) :
  0 < block_size <= pool_size ->
  pool_size < 2 ^ 32 ->
  0 < arena ->
  __cinit__ pool_size block_size use_mmap arena true = Returns self0 ->
  perform self0 actions = Some self ->
  allocated_views self !! view_id = Some ptr ->
  exists self',
    allocate (deallocate self (Some view_id)) next_id = Some (Some next_id, self')
    /\ allocated_views self' !! next_id = Some ptr.
Proof.
  intros Hsize Hpool Harena Hself Hrun Hptr.
  destruct (reached _ _ _ _ _ actions Hsize Hpool Harena Hself)
    as (self' & free & Hrun' & Hok & Hv & Hl & _).
  rewrite Hrun in Hrun'. injection Hrun' as <-.
  destruct (deallocate_head _ _ _ _ Hok Hv Hl Hptr)
    as (i & b & Hb & Hdata & _ & Hok1 & Hv1 & Hl1 & _ & _ & Hblocks & _).
  destruct (allocate_head _ next_id _ _ Hok1 Hv1 Hl1)
    as (b' & self' & Hb' & Halloc & _ & _ & _ & _ & Hviews & _).
  exists self'. split; [exact Halloc|].
  rewrite Hviews, lookup_insert_eq. f_equal.
  rewrite Hblocks, list_lookup_insert_eq in Hb'
    by (eapply lookup_lt_Some; eassumption).
  injection Hb' as <-. exact Hdata.
Qed.

Lemma released_block_is_next_witness :
  exists self0 self,
    0 < 4 <= 16 /\ 16 < 2 ^ 32 /\ 0 < 4096
    /\ __cinit__ 16 4 false 4096 true = Returns self0
    /\ perform self0 [Call (Allocate 11); Call (Allocate 12);
                      Call (Allocate 13)] = Some self
    /\ allocated_views self !! 12 = Some 4100
    /\ exists self',
         allocate (deallocate self (Some 12)) 14 = Some (Some 14, self')
         /\ allocated_views self' !! 14 = Some 4100.
Proof.
  eexists. eexists. split; [lia|]. split; [lia|]. split; [lia|].
  split; [reflexivity|]. split; [vm_compute; reflexivity|].
  split; [vm_compute; reflexivity|].
  refine (released_block_is_next 16 4 false 4096 _ _
           [Call (Allocate 11); Call (Allocate 12); Call (Allocate 13)] 12 4100 14 _ _ _ _ _ _);
    first [lia | reflexivity | vm_compute; reflexivity].
Defined.

(** X10: the handles that are tracked stand for whole blocks of the arena
    that do not overlap.  In every state a history leads to, the address of
    a tracked handle is [arena + i * block_size] for a block index [i];
    [is_address_in_pool] accepts its first and its last byte; and the
    blocks of two different handles are disjoint. *)
Theorem tracked_handles_are_disjoint_blocks
    (pool_size block_size : Z) (use_mmap : bool) (arena : Z)
    (self0 self : HighPerformanceMemoryPool) (actions : list action)
    (view_id ptr : Z) :
  0 < block_size <= pool_size ->
  pool_size < 2 ^ 32 ->
  0 < arena ->
  __cinit__ pool_size block_size use_mmap arena true = Returns self0 ->
  perform self0 actions = Some self ->
  allocated_views self !! view_id = Some ptr ->
  (exists i, 0 <= i < pool_size / block_size /\ ptr = arena + i * block_size)
  /\ is_address_in_pool self ptr = true
  /\ is_address_in_pool self (ptr + block_size - 1) = true
  /\ forall other ptr',
       other <> view_id -> allocated_views self !! other = Some ptr' ->
       ptr + block_size <= ptr' \/ ptr' + block_size <= ptr.
Proof.
  intros Hsize Hpool Harena Hself Hrun Hptr.
  destruct (reached _ _ _ _ _ actions Hsize Hpool Harena Hself)
    as (self' & free & Hrun' & Hok & Hv & Hl & _ & Hpm & Hps & Hbs & Hn).
  rewrite Hrun in Hrun'. injection Hrun' as <-.
  destruct (vo_tracked _ Hv _ _ Hptr) as (i & b & Hb & Hdata & _).
  destruct (block_in_arena _ _ _ _ Hok Hv Hl Hb) as (Hoff & Haddr & Hlow & Hhigh).
  pose proof (lookup_lt_Some _ _ _ Hb) as Hi.
  pose proof (ok_length _ _ Hok) as Hlen.
  rewrite Hpm, Hps, Hbs in *.
  split; [exists (Z.of_nat i); split; [lia|congruence]|].
  unfold is_address_in_pool. rewrite Hpm, Hps.
  split; [apply andb_true_iff; split; [apply Z.leb_le|apply Z.ltb_lt]; lia|].
  split; [apply andb_true_iff; split; [apply Z.leb_le|apply Z.ltb_lt]; lia|].
  intros other ptr' Hne Hptr'.
  destruct (vo_tracked _ Hv _ _ Hptr') as (i' & b' & Hb' & Hdata' & _).
  destruct (block_in_arena _ _ _ _ Hok Hv Hl Hb') as (Hoff' & Haddr' & _).
  rewrite Hpm, Hbs in *.
  destruct (decide (i = i')) as [->|Hdiff].
  - exfalso. apply Hne. rewrite Hb in Hb'. injection Hb' as <-.
    eapply (vo_one_handle _ Hv); [eassumption|congruence].
  - nia.
Qed.

Lemma tracked_handles_are_disjoint_blocks_witness :
  exists self0 self,
    0 < 4 <= 16 /\ 16 < 2 ^ 32 /\ 0 < 4096
    /\ __cinit__ 16 4 false 4096 true = Returns self0
    /\ perform self0 [Call (Allocate 11); Call (Allocate 12);
                      Call (Deallocate (Some 11)); Call (Allocate 13)] = Some self
    /\ allocated_views self !! 13 = Some 4096
    /\ (exists i, 0 <= i < 16 / 4 /\ 4096 = 4096 + i * 4)
    /\ is_address_in_pool self 4096 = true
    /\ is_address_in_pool self (4096 + 4 - 1) = true
    /\ forall other ptr',
         other <> 13 -> allocated_views self !! other = Some ptr' ->
         4096 + 4 <= ptr' \/ ptr' + 4 <= 4096.
Proof.
  eexists. eexists. split; [lia|]. split; [lia|]. split; [lia|].
  split; [reflexivity|]. split; [vm_compute; reflexivity|].
  split; [vm_compute; reflexivity|].
  refine (tracked_handles_are_disjoint_blocks 16 4 false 4096 _ _
           [Call (Allocate 11); Call (Allocate 12);
            Call (Deallocate (Some 11)); Call (Allocate 13)] 13 4096 _ _ _ _ _ _);
    first [lia | reflexivity | vm_compute; reflexivity].
Defined.

(** X11: [reset_pool] undoes a history.  Whatever has been allocated,
    released and written, the pool after [reset_pool] is the pool the
    constructor returned, with every block free, the free list in address
    order, the arena zeroed and no handle tracked; only the two running
    totals [total_allocations] and [total_deallocations] are kept. *)
Theorem reset_pool_restores_the_new_pool
    (pool_size block_size : Z) (use_mmap : bool) (arena : Z)
    (self0 self : HighPerformanceMemoryPool) (actions : list action) :
  0 < block_size <= pool_size ->
  pool_size < 2 ^ 32 ->
  0 < arena ->
  __cinit__ pool_size block_size use_mmap arena true = Returns self0 ->
  perform self0 actions = Some self ->
  reset_pool self
  = with_totals self0 (total_allocations self) (total_deallocations self).
Proof.
  intros Hsize Hpool Harena Hself Hrun.
  destruct (reached _ _ _ _ _ actions Hsize Hpool Harena Hself)
    as (self' & free & Hrun' & Hok & Hv & Hl & Hsame & Hpm & Hps & Hbs & Hn).
  rewrite Hrun in Hrun'. injection Hrun' as <-.
  assert (Hblocks : 1 <= pool_size / block_size <= pool_size).
  { split; [apply Z.div_le_lower_bound; lia|apply Z.div_le_upper_bound; nia]. }
  pose proof (Z.mul_div_le pool_size block_size ltac:(lia)) as Hmul.
  pose proof (ok_length _ _ Hok) as Hlen.
  pose proof (lo_memory _ Hl) as Hmem.
  destruct Hsame as (_ & _ & _ & _ & Hmm & Hinit & Hfd).
  unfold __cinit__ in Hself.
  destruct (Z.eqb_spec arena 0) as [|_]; [lia|]. cbn [negb] in Hself.
  injection Hself as Hself. subst self0. cbn in Hmm, Hinit, Hfd.
  unfold reset_pool, with_totals. cbn. rewrite Hn, Hps.
  f_equal; try assumption.
  - apply memset_whole. congruence.
  - apply list_eq. intros j. rewrite lookup_reset_blocks by lia.
    destruct (decide (j < Z.to_nat (pool_size / block_size))%nat) as [Hj|Hj].
    + destruct (lookup_lt_is_Some_2 (all_blocks self) j ltac:(lia)) as [b Hb].
      destruct (lookup_pool_initialize_from arena block_size (pool_size / block_size)
                  (Z.to_nat (pool_size / block_size)) 0 0 j)
        as (b0 & Hb0 & Huse0 & _ & Hnext0 & Hoff0 & Hdata0); [lia|lia|lia|lia|lia|].
      pose proof (size_pool_initialize_from _ _ _ _ _ _ _ _ Hb0) as Hsize0.
      destruct (vo_layout _ Hv _ _ Hb) as [Hoff Hdata].
      pose proof (lo_size _ Hl _ _ Hb) as Hsizeb.
      rewrite Hb, Hb0. cbn [fmap option_fmap option_map]. f_equal.
      rewrite Hpm, Hbs in *.
      destruct b, b0. cbn in *. subst. unfold set_block. cbn. f_equal.
    + rewrite (lookup_ge_None_2 (all_blocks self) j) by lia.
      symmetry. apply lookup_ge_None_2.
      rewrite length_pool_initialize_from. lia.
Qed.

Lemma reset_pool_restores_the_new_pool_witness :
  exists self0 self,
    0 < 4 <= 16 /\ 16 < 2 ^ 32 /\ 0 < 4096
    /\ __cinit__ 16 4 false 4096 true = Returns self0
    /\ perform self0 [Call (Allocate 11); Call (Allocate 12);
                      Store 4097 "A"%byte; Call (Deallocate (Some 11));
                      Call (Allocate 13)] = Some self
    /\ reset_pool self
       = with_totals self0 (total_allocations self) (total_deallocations self).
Proof.
  eexists. eexists. split; [lia|]. split; [lia|]. split; [lia|].
  split; [reflexivity|]. split; [vm_compute; reflexivity|].
  refine (reset_pool_restores_the_new_pool 16 4 false 4096 _ _
            [Call (Allocate 11); Call (Allocate 12);
             Store 4097 "A"%byte; Call (Deallocate (Some 11));
             Call (Allocate 13)] _ _ _ _ _);
    first [lia | reflexivity | vm_compute; reflexivity].
Defined.

(** *** [get_fragmentation_ratio] *)

(** The walk along the free list counts its blocks. *)
Lemma count_free_segments_chain blocks free : forall start acc fuel,
  chain blocks start free -> (length free <= fuel)%nat ->
  0 <= acc -> acc + Z.of_nat (length free) < 2 ^ 32 ->
  count_free_segments blocks start acc fuel = Some (acc + Z.of_nat (length free)).
Proof.
  induction free as [|i free IH]; intros start acc fuel Hchain Hfuel Hacc Hfits.
  - cbn in Hchain. subst start. destruct fuel; cbn; f_equal; lia.
  - destruct Hchain as (-> & b & Hb & Hrest). cbn [length] in *.
    destruct fuel as [|fuel]; [lia|].
    cbn [count_free_segments]. rewrite Hb, wrap32_small by lia.
    rewrite (IH _ _ _ Hrest) by lia. f_equal. lia.
Qed.

(** How long a number is in binary. *)
Lemma digits2_pos_bounds p :
  2 ^ (Z.pos (digits2_pos p) - 1) <= Z.pos p < 2 ^ Z.pos (digits2_pos p).
Proof.
  induction p as [p IH|p IH|]; cbn [digits2_pos].
  - rewrite Pos2Z.inj_succ. replace (Z.succ (Z.pos (digits2_pos p)) - 1)
      with (Z.succ (Z.pos (digits2_pos p) - 1)) by lia.
    rewrite !Z.pow_succ_r by lia. lia.
  - rewrite Pos2Z.inj_succ. replace (Z.succ (Z.pos (digits2_pos p)) - 1)
      with (Z.succ (Z.pos (digits2_pos p) - 1)) by lia.
    rewrite !Z.pow_succ_r by lia. lia.
  - cbn. lia.
Qed.

Lemma digits2_pos_iter p n :
  digits2_pos (Pos.iter xO p n) = (digits2_pos p + n)%positive.
Proof.
  induction n as [|n IH] using Pos.peano_ind.
  - cbn. lia.
  - rewrite Pos.iter_succ. cbn [digits2_pos]. rewrite IH. lia.
Qed.

(** A positive integer below 2^53 is a finite [double]. *)
Lemma normalize_finite k :
  0 < k < 2 ^ 53 ->
  exists m e, binary_normalize prec emax k 0 false = S754_finite false m e.
Proof.
  intros Hk. destruct k as [|p|p]; try lia.
  pose proof (digits2_pos_bounds p) as Hd.
  assert (Hle : Z.pos (digits2_pos p) <= 53).
  { destruct (Z.le_gt_cases (Z.pos (digits2_pos p)) 53) as [|Hgt]; [assumption|].
    assert (2 ^ 53 <= 2 ^ (Z.pos (digits2_pos p) - 1))
      by (apply Z.pow_le_mono_r; lia). lia. }
  unfold binary_normalize, binary_round, shl_align.
  rewrite Z.add_0_r, Z.sub_0_r.
  unfold fexp at 1, SpecFloat.emin, prec, emax.
  replace (Z.max (Z.pos (digits2_pos p) - 53) (3 - 1024 - 53))
    with (Z.pos (digits2_pos p) - 53) by lia.
  destruct (Z.pos (digits2_pos p) - 53) as [|r|q] eqn:Hq; [|lia|].
  - unfold binary_round_aux, shr_fexp. cbn [Zdigits2].
    replace (fexp 53 1024 (Z.pos (digits2_pos p) + 0) - 0) with 0
      by (unfold fexp, SpecFloat.emin; lia).
    cbn [shr shr_record_of_loc shr_m loc_of_shr_record shr_r shr_s
         round_nearest_even Zdigits2].
    replace (fexp 53 1024 (Z.pos (digits2_pos p) + 0) - 0) with 0
      by (unfold fexp, SpecFloat.emin; lia).
    cbn [shr shr_record_of_loc shr_m]. cbn. eauto.
  - assert (Hsum : Z.pos (digits2_pos p) + Z.pos q = 53) by lia.
    unfold binary_round_aux, shr_fexp. cbn [Zdigits2].
    rewrite digits2_pos_iter, Pos2Z.inj_add, Hsum.
    replace (fexp 53 1024 (53 + fexp 53 1024 (Z.pos (digits2_pos p)))
             - fexp 53 1024 (Z.pos (digits2_pos p))) with 0
      by (unfold fexp, SpecFloat.emin; lia).
    cbn [shr shr_record_of_loc shr_m loc_of_shr_record shr_r shr_s
         round_nearest_even Zdigits2].
    rewrite digits2_pos_iter, Pos2Z.inj_add, Hsum.
    replace (fexp 53 1024 (53 + fexp 53 1024 (Z.pos (digits2_pos p)))
             - fexp 53 1024 (Z.pos (digits2_pos p))) with 0
      by (unfold fexp, SpecFloat.emin; lia).
    cbn [shr shr_record_of_loc shr_m].
    destruct (Z.leb_spec (fexp 53 1024 (Z.pos (digits2_pos p))) (1024 - 53));
      [eauto|unfold fexp, SpecFloat.emin in *; lia].
Qed.

(** A finite [double] that is not zero, divided by itself, is 1. *)
Lemma div_self s m e :
  SF64div (S754_finite s m e) (S754_finite s m e) = Prim2SF 1.
Proof.
  unfold SF64div, SFdiv, SFdiv_core_binary.
  rewrite !Z.sub_diag.
  change (fexp prec emax 0) with (-53). change (Z.min (-53) 0) with (-53).
  change (0 - -53) with 53.
  cbv iota beta zeta.
  assert (Hdiv : Z.div_eucl (Z.shiftl (Z.pos m) 53) (Z.pos m) = (2 ^ 53, 0)).
  { rewrite Z.shiftl_mul_pow2, Z.mul_comm by lia.
    transitivity ((2 ^ 53 * Z.pos m) / Z.pos m, (2 ^ 53 * Z.pos m) mod Z.pos m).
    - unfold Z.div, Z.modulo.
      destruct (Z.div_eucl (2 ^ 53 * Z.pos m) (Z.pos m)); reflexivity.
    - rewrite Z.div_mul, Z.mod_mul by lia. reflexivity. }
  rewrite Hdiv. unfold new_location.
  destruct (Z.even (Z.pos m)), s; reflexivity.
Qed.

Lemma to_double_div_self k :
  0 < k < 2 ^ 53 -> (to_double k / to_double k)%float = 1%float.
Proof.
  intros Hk. apply Prim2SF_inj. rewrite div_spec. unfold to_double.
  rewrite of_uint63_spec, Uint63.of_Z_spec.
  rewrite Z.mod_small by (change Uint63Axioms.wB with (2 ^ 63); lia).
  destruct (normalize_finite k Hk) as (m & e & ->). apply div_self.
Qed.

(** X12: [get_fragmentation_ratio] does not measure fragmentation.  In
    every state a history leads to, its loop ends, having counted
    [blocks_free] blocks, and the ratio it returns depends on the two
    counters alone: 0.0 when no block is allocated or at most one block is
    free, and 1.0 otherwise, however the free blocks lie in the arena. *)
Theorem fragmentation_ratio_is_zero_or_one
    (pool_size block_size : Z) (use_mmap : bool) (arena : Z)
    (self0 self : HighPerformanceMemoryPool) (actions : list action)
    (fuel : nat) :
  0 < block_size <= pool_size ->
  pool_size < 2 ^ 32 ->
  0 < arena ->
  __cinit__ pool_size block_size use_mmap arena true = Returns self0 ->
  perform self0 actions = Some self ->
  (Z.to_nat (pool_size / block_size) <= fuel)%nat ->
  get_fragmentation_ratio self fuel
  = Some (if (blocks_allocated self =? 0) || (blocks_free self <=? 1)
          then 0%float else 1%float).
Proof.
  intros Hsize Hpool Harena Hself Hrun Hfuel.
  destruct (reached _ _ _ _ _ actions Hsize Hpool Harena Hself)
    as (self' & free & Hrun' & Hok & Hv & Hl & _ & _ & _ & _ & Hn).
  rewrite Hrun in Hrun'. injection Hrun' as <-.
  pose proof (free_list_fits _ _ Hok) as Hfits.
  pose proof (ok_bound _ _ Hok) as Hbound.
  pose proof (ok_free _ _ Hok) as Hfree.
  unfold get_fragmentation_ratio.
  destruct (blocks_allocated self =? 0); [reflexivity|]. cbn [orb].
  rewrite (count_free_segments_chain _ free) by (first [apply Hok|lia]).
  rewrite Hfree.
  destruct (Z.eqb_spec (Z.of_nat (length free)) 0) as [Hzero|Hsome].
  - rewrite Hzero. reflexivity.
  - rewrite wrap32_small by lia.
    destruct (Z.leb_spec (Z.of_nat (length free)) 1) as [Hone|Hmore].
    + replace (Z.of_nat (length free)) with 1 by lia. reflexivity.
    + rewrite Z.max_r by lia. f_equal.
      replace (0 + Z.of_nat (length free) - 1) with (Z.of_nat (length free) - 1)
        by lia.
      apply to_double_div_self. lia.
Qed.

Lemma fragmentation_ratio_is_zero_or_one_witness :
  exists self0 self,
    0 < 4 <= 16 /\ 16 < 2 ^ 32 /\ 0 < 4096
    /\ __cinit__ 16 4 false 4096 true = Returns self0
    /\ perform self0 [Call (Allocate 11); Call (Allocate 12);
                      Call (Deallocate (Some 11))] = Some self
    /\ (Z.to_nat (16 / 4) <= 4)%nat
    /\ get_fragmentation_ratio self 4
       = Some (if (blocks_allocated self =? 0) || (blocks_free self <=? 1)
               then 0%float else 1%float).
Proof.
  eexists. eexists. split; [lia|]. split; [lia|]. split; [lia|].
  split; [reflexivity|]. split; [vm_compute; reflexivity|].
  split; [vm_compute; lia|].
  refine (fragmentation_ratio_is_zero_or_one 16 4 false 4096 _ _
            [Call (Allocate 11); Call (Allocate 12);
             Call (Deallocate (Some 11))] 4 _ _ _ _ _ _);
    first [lia | reflexivity | vm_compute; reflexivity | vm_compute; lia].
Defined.

(** *** A handle that is overwritten *)

(** A block in use that no handle stands for stays so whatever is
    called. *)
Lemma lost_step self free c ptr :
  pool_ok self free -> views_ok self -> layout_ok self ->
  (forall v, allocated_views self !! v <> Some ptr) ->
  (exists i b, all_blocks self !! i = Some b /\ data b = ptr /\ in_use b = true) ->
  exists r self' free',
    step self c = Some (r, self')
    /\ pool_ok self' free' /\ views_ok self' /\ layout_ok self'
    /\ (forall v, allocated_views self' !! v <> Some ptr)
    /\ (exists i b, all_blocks self' !! i = Some b /\ data b = ptr
                    /\ in_use b = true).
Proof.
  intros Hok Hv Hl Hnone (i & b & Hb & Hdata & Hused).
  destruct c as [view_id|[view_id|]]; cbn [step].
  - destruct free as [|j rest].
    + rewrite (allocate_exhausted _ _ Hok).
      exists None, self, []. repeat (split; [first [reflexivity|assumption]|]).
      exists i, b. auto.
    + destruct (allocate_head _ view_id _ _ Hok Hv Hl)
        as (bj & self' & Hbj & -> & Hok' & Hv' & Hl' & _ & Hviews & Hblocks & _).
      assert (Hfree : in_use bj = false).
      { apply (ok_in_use _ _ Hok _ _ Hbj), elem_of_cons. now left. }
      assert (Hne : j <> i).
      { intros ->. rewrite Hb in Hbj. injection Hbj as <-. congruence. }
      exists (Some view_id), self', rest.
      split; [reflexivity|]. split; [exact Hok'|]. split; [exact Hv'|].
      split; [exact Hl'|]. split.
      * intros v Hptr. rewrite Hviews in Hptr.
        destruct (decide (v = view_id)) as [->|Hother].
        -- rewrite lookup_insert_eq in Hptr. injection Hptr as Hsame.
           apply Hne. eapply block_of_address; [exact Hv|exact Hbj|exact Hb|congruence].
        -- rewrite lookup_insert_ne in Hptr by congruence. exact (Hnone _ Hptr).
      * exists i, b. rewrite Hblocks, list_lookup_insert_ne by exact Hne. auto.
  - destruct (allocated_views self !! view_id) as [p|] eqn:Hp.
    + destruct (deallocate_head _ _ _ _ Hok Hv Hl Hp)
        as (j & bj & Hbj & Hdataj & _ & Hok' & Hv' & Hl' & _ & Hviews & Hblocks & _).
      assert (Hne : j <> i).
      { intros ->. rewrite Hb in Hbj. injection Hbj as <-.
        apply (Hnone view_id). congruence. }
      exists None, (deallocate self (Some view_id)), (j :: free).
      split; [reflexivity|]. split; [exact Hok'|]. split; [exact Hv'|].
      split; [exact Hl'|]. split.
      * intros v Hptr. rewrite Hviews in Hptr.
        apply lookup_delete_Some in Hptr as [_ Hptr]. exact (Hnone _ Hptr).
      * exists i, b. rewrite Hblocks, list_lookup_insert_ne by exact Hne. auto.
    + rewrite (deallocate_untracked _ _ Hp).
      exists None, self, free. repeat (split; [first [reflexivity|assumption]|]).
      exists i, b. auto.
  - cbn. exists None, self, free.
    repeat (split; [first [reflexivity|assumption]|]). exists i, b. auto.
Qed.

Lemma lost_run calls ptr : forall self free,
  pool_ok self free -> views_ok self -> layout_ok self ->
  (forall v, allocated_views self !! v <> Some ptr) ->
  (exists i b, all_blocks self !! i = Some b /\ data b = ptr /\ in_use b = true) ->
  exists self',
    run self calls = Some self'
    /\ (forall v, allocated_views self' !! v <> Some ptr)
    /\ (exists i b, all_blocks self' !! i = Some b /\ data b = ptr
                    /\ in_use b = true).
Proof.
  induction calls as [|c calls IH]; intros self free Hok Hv Hl Hnone Hblock.
  - exists self. auto.
  - destruct (lost_step _ _ c _ Hok Hv Hl Hnone Hblock)
      as (r & self1 & free1 & Hstep & Hok1 & Hv1 & Hl1 & Hnone1 & Hblock1).
    destruct (IH _ _ Hok1 Hv1 Hl1 Hnone1 Hblock1) as (self' & Hrun & Hrest).
    exists self'. cbn [run]. rewrite Hstep. auto.
Qed.

(** X13: a block whose handle is overwritten is lost.  The pool knows a
    memoryview by its [id]; when [allocate] returns a memoryview whose
    [id] is still in the dictionary (the earlier one was dropped without
    [deallocate]), the entry is overwritten.  From then on no handle stands
    for the earlier block, and whatever is allocated or released afterwards
    the block stays in use. *)
Theorem overwritten_handle_loses_its_block
    (pool_size block_size : Z) (use_mmap : bool) (arena : Z)
    (self0 self : HighPerformanceMemoryPool) (actions : list action)
    (view_id ptr : Z) :
  0 < block_size <= pool_size ->
  pool_size < 2 ^ 32 ->
  0 < arena ->
  __cinit__ pool_size block_size use_mmap arena true = Returns self0 ->
  perform self0 actions = Some self ->
  allocated_views self !! view_id = Some ptr ->
  0 < blocks_free self ->
  exists self1,
    allocate self view_id = Some (Some view_id, self1)
    /\ forall calls, exists self2,
         run self1 calls = Some self2
         /\ (forall v, allocated_views self2 !! v <> Some ptr)
         /\ (exists i b, all_blocks self2 !! i = Some b /\ data b = ptr
                         /\ in_use b = true).
Proof.
  intros Hsize Hpool Harena Hself Hrun Hptr Hfree.
  destruct (reached _ _ _ _ _ actions Hsize Hpool Harena Hself)
    as (self' & free & Hrun' & Hok & Hv & Hl & _).
  rewrite Hrun in Hrun'. injection Hrun' as <-.
  rewrite (ok_free _ _ Hok) in Hfree.
  destruct free as [|j rest]; [cbn in Hfree; lia|].
  destruct (vo_tracked _ Hv _ _ Hptr) as (i & b & Hb & Hdata & Hused).
  destruct (allocate_head _ view_id _ _ Hok Hv Hl)
    as (bj & self1 & Hbj & Halloc & Hok1 & Hv1 & Hl1 & _ & Hviews & Hblocks & _).
  assert (Hunused : in_use bj = false).
  { apply (ok_in_use _ _ Hok _ _ Hbj), elem_of_cons. now left. }
  assert (Hne : j <> i).
  { intros ->. rewrite Hb in Hbj. injection Hbj as <-. congruence. }
  assert (Hother : data bj <> ptr).
  { intros Hsame. apply Hne.
    eapply block_of_address; [exact Hv|exact Hbj|exact Hb|congruence]. }
  exists self1. split; [exact Halloc|]. intros calls.
  apply (lost_run calls ptr self1 rest Hok1 Hv1 Hl1).
  - intros v Hlookup. rewrite Hviews in Hlookup.
    destruct (decide (v = view_id)) as [->|Hdiff].
    + rewrite lookup_insert_eq in Hlookup. congruence.
    + rewrite lookup_insert_ne in Hlookup by congruence.
      apply Hdiff. eapply (vo_one_handle _ Hv); eassumption.
  - exists i, b. rewrite Hblocks, list_lookup_insert_ne by exact Hne. auto.
Qed.

Lemma overwritten_handle_loses_its_block_witness :
  exists self0 self,
    0 < 4 <= 16 /\ 16 < 2 ^ 32 /\ 0 < 4096
    /\ __cinit__ 16 4 false 4096 true = Returns self0
    /\ perform self0 [Call (Allocate 11); Call (Allocate 12)] = Some self
    /\ allocated_views self !! 11 = Some 4096
    /\ 0 < blocks_free self
    /\ exists self1,
         allocate self 11 = Some (Some 11, self1)
         /\ forall calls, exists self2,
              run self1 calls = Some self2
              /\ (forall v, allocated_views self2 !! v <> Some 4096)
              /\ (exists i b, all_blocks self2 !! i = Some b /\ data b = 4096
                              /\ in_use b = true).
Proof.
  eexists. eexists. split; [lia|]. split; [lia|]. split; [lia|].
  split; [reflexivity|]. split; [vm_compute; reflexivity|].
  split; [vm_compute; reflexivity|]. split; [vm_compute; reflexivity|].
  refine (overwritten_handle_loses_its_block 16 4 false 4096 _ _
            [Call (Allocate 11); Call (Allocate 12)] 11 4096 _ _ _ _ _ _ _);
    first [lia | reflexivity | vm_compute; reflexivity].
Defined.

(** *** The running totals *)

(** What a call does to the number of blocks in use and to the two
    totals. *)
Lemma step_totals self free c :
  pool_ok self free -> views_ok self -> layout_ok self ->
  exists r self' free',
    step self c = Some (r, self')
    /\ pool_ok self' free' /\ views_ok self' /\ layout_ok self'
    /\ ((blocks_allocated self' = blocks_allocated self + 1
         /\ total_allocations self' = wrap64 (total_allocations self + 1)
         /\ total_deallocations self' = total_deallocations self)
        \/ (blocks_allocated self' = blocks_allocated self - 1
            /\ total_allocations self' = total_allocations self
            /\ total_deallocations self' = wrap64 (total_deallocations self + 1))
        \/ (blocks_allocated self' = blocks_allocated self
            /\ total_allocations self' = total_allocations self
            /\ total_deallocations self' = total_deallocations self)).
Proof.
  intros Hok Hv Hl. destruct c as [view_id|[view_id|]]; cbn [step].
  - destruct free as [|i rest].
    + rewrite (allocate_exhausted _ _ Hok).
      exists None, self, []. repeat (split; [first [reflexivity|assumption]|]).
      right. right. repeat split.
    + destruct (allocate_head _ view_id _ _ Hok Hv Hl)
        as (b & self' & _ & Halloc & Hok' & Hv' & Hl' & _ & _ & _ & _ & Hta & Htd).
      destruct (allocate_takes _ view_id _ _ Hok) as (self'' & Halloc' & _ & Hba & _).
      rewrite Halloc in Halloc'. injection Halloc' as <-.
      exists (Some view_id), self', rest.
      repeat (split; [first [reflexivity|assumption]|]). left. auto.
  - destruct (allocated_views self !! view_id) as [ptr|] eqn:Hptr.
    + destruct (deallocate_head _ _ _ _ Hok Hv Hl Hptr)
        as (i & b & _ & _ & _ & Hok' & Hv' & Hl' & _ & _ & _ & _ & Hta).
      destruct (deallocate_tracked _ _ _ _ Hok Hv Hptr) as (Hba & _ & Htd & _).
      exists None, (deallocate self (Some view_id)), (i :: free).
      repeat (split; [first [reflexivity|assumption]|]). right. left. auto.
    + rewrite (deallocate_untracked _ _ Hptr).
      exists None, self, free. repeat (split; [first [reflexivity|assumption]|]).
      right. right. repeat split.
  - cbn. exists None, self, free.
    repeat (split; [first [reflexivity|assumption]|]). right. right. repeat split.
Qed.

Lemma run_totals calls : forall self free done,
  pool_ok self free -> views_ok self -> layout_ok self ->
  0 <= total_deallocations self <= total_allocations self ->
  total_allocations self <= done ->
  done + Z.of_nat (length calls) < 2 ^ 64 ->
  total_allocations self - total_deallocations self = blocks_allocated self ->
  exists self',
    run self calls = Some self'
    /\ 0 <= total_deallocations self' <= total_allocations self'
    /\ total_allocations self' <= done + Z.of_nat (length calls)
    /\ total_allocations self' - total_deallocations self' = blocks_allocated self'.
Proof.
  induction calls as [|c calls IH];
    intros self free done Hok Hv Hl Horder Hdone Hfits Hinv.
  - exists self. cbn. repeat split; lia.
  - cbn [length] in Hfits.
    destruct (step_totals _ _ c Hok Hv Hl)
      as (r & self1 & free1 & Hstep & Hok1 & Hv1 & Hl1 & Hcase).
    pose proof (free_list_fits _ _ Hok1) as Hfree1.
    pose proof (ok_allocated _ _ Hok1) as Hba1.
    destruct (IH self1 free1 (done + 1) Hok1 Hv1 Hl1) as (self' & Hrun & Hrest).
    + destruct Hcase as [(Hba & Hta & Htd)|[(Hba & Hta & Htd)|(Hba & Hta & Htd)]];
        rewrite Hta, Htd, ?wrap64_small by lia; lia.
    + destruct Hcase as [(Hba & Hta & Htd)|[(Hba & Hta & Htd)|(Hba & Hta & Htd)]];
        rewrite Hta, ?wrap64_small by lia; lia.
    + lia.
    + destruct Hcase as [(Hba & Hta & Htd)|[(Hba & Hta & Htd)|(Hba & Hta & Htd)]];
        rewrite Hta, Htd, Hba, ?wrap64_small by lia; lia.
    + exists self'. cbn [run]. rewrite Hstep. split; [exact Hrun|].
      destruct Hrest as (? & ? & ?). cbn [length]. repeat split; lia.
Qed.

(** X22: the two totals account for the blocks in use.  Along every
    history of fewer than 2^64 [allocate] and [deallocate] calls on a new
    pool, [total_allocations - total_deallocations = blocks_allocated]:
    [allocate] counts only when it hands out a block, [deallocate] only
    when it takes one back.  [reset_pool] sets [blocks_allocated] to 0 and
    keeps the two totals, so that the equation need not hold after it. *)
Theorem totals_account_for_blocks_in_use
    (pool_size block_size : Z) (use_mmap : bool) (arena : Z)
    (self : HighPerformanceMemoryPool) (calls : list call) :
  0 < block_size <= pool_size ->
  pool_size < 2 ^ 32 ->
  0 < arena ->
  __cinit__ pool_size block_size use_mmap arena true = Returns self ->
  Z.of_nat (length calls) < 2 ^ 64 ->
  exists self',
    run self calls = Some self'
    /\ total_allocations self' - total_deallocations self' = blocks_allocated self'
    /\ 0 <= total_deallocations self' <= total_allocations self'
    /\ total_allocations self' <= Z.of_nat (length calls)
    /\ blocks_allocated (reset_pool self') = 0
    /\ total_allocations (reset_pool self') = total_allocations self'
    /\ total_deallocations (reset_pool self') = total_deallocations self'.
Proof.
  intros Hsize Hpool Harena Hself Hlen.
  destruct (constructed_pool_ok _ _ _ _ _ Hsize Hpool Harena Hself)
    as (Hok & Hv & Hn).
  destruct (constructed_layout _ _ _ _ _ Hsize Hpool Harena Hself) as (Hl & _).
  assert (Hzero : total_allocations self = 0 /\ total_deallocations self = 0
                  /\ blocks_allocated self = 0).
  { unfold __cinit__ in Hself.
    destruct (Z.eqb_spec arena 0) as [|_]; [lia|]. cbn [negb] in Hself.
    injection Hself as <-. repeat split. }
  destruct Hzero as (Hta & Htd & Hba).
  destruct (run_totals calls self _ 0 Hok Hv Hl) as (self' & Hrun & Horder & Hmax & Hinv);
    try lia.
  exists self'. split; [exact Hrun|]. split; [exact Hinv|]. split; [exact Horder|].
  split; [lia|]. repeat split.
Qed.

Lemma totals_account_for_blocks_in_use_witness :
  exists self,
    0 < 4 <= 16 /\ 16 < 2 ^ 32 /\ 0 < 4096
    /\ __cinit__ 16 4 false 4096 true = Returns self
    /\ Z.of_nat (length [Allocate 11; Allocate 12; Deallocate (Some 11);
                         Deallocate (Some 11); Allocate 13]) < 2 ^ 64
    /\ exists self',
         run self [Allocate 11; Allocate 12; Deallocate (Some 11);
                   Deallocate (Some 11); Allocate 13] = Some self'
         /\ total_allocations self' - total_deallocations self'
            = blocks_allocated self'
         /\ 0 <= total_deallocations self' <= total_allocations self'
         /\ total_allocations self'
            <= Z.of_nat (length [Allocate 11; Allocate 12; Deallocate (Some 11);
                                 Deallocate (Some 11); Allocate 13])
         /\ blocks_allocated (reset_pool self') = 0
         /\ total_allocations (reset_pool self') = total_allocations self'
         /\ total_deallocations (reset_pool self') = total_deallocations self'.
Proof.
  eexists. split; [lia|]. split; [lia|]. split; [lia|]. split; [reflexivity|].
  split; [vm_compute; reflexivity|].
  apply (totals_account_for_blocks_in_use 16 4 false 4096);
    [lia|lia|lia|reflexivity|vm_compute; reflexivity].
Defined.

End PoolCoverage.

Section QueueCoverage.
Import Queue.

Ltac destruct_innermost :=
  match goal with
  | |- context [match ?x with _ => _ end] =>
      lazymatch x with
      | context [match _ with _ => _ end] => fail
      | _ => destruct x
      end
  | |- context [if ?x then _ else _] =>
      lazymatch x with
      | context [match _ with _ => _ end] => fail
      | _ => destruct x
      end
  end.

(** No call changes the size of the ring. *)
Lemma step_frame q c r q' :
  step q c = Some (r, q') ->
  capacity q' = capacity q /\ mask q' = mask q
  /\ initialized q' = initialized q /\ committed_seq q' = committed_seq q.
Proof.
  destruct c as [dat allocated|]; cbn [step].
  - unfold enqueue, _try_enqueue_fast, while_true, enqueue_iteration,
      compare_and_swap.
    repeat destruct_innermost;
      intros Hs; try discriminate; injection Hs as <- <-; repeat split.
  - unfold dequeue, _try_dequeue_fast, while_true, dequeue_iteration,
      compare_and_swap.
    repeat destruct_innermost;
      intros Hs; try discriminate; injection Hs as <- <-; repeat split.
Qed.

Lemma run_frame calls : forall q rs q',
  run q calls = Some (rs, q') ->
  capacity q' = capacity q /\ mask q' = mask q
  /\ initialized q' = initialized q /\ committed_seq q' = committed_seq q.
Proof.
  induction calls as [|c calls IH]; intros q rs q' Hrun.
  - injection Hrun as <- <-. repeat split.
  - cbn [run] in Hrun.
    destruct (step q c) as [[r q1]|] eqn:Hstep; [|discriminate].
    destruct (run q1 calls) as [[rs1 q2]|] eqn:Hrest; [|discriminate].
    injection Hrun as <- <-.
    apply step_frame in Hstep as (<- & <- & <- & <-). eapply IH; eassumption.
Qed.

(** What a call does to the two enqueue counters. *)
Lemma step_enqueue_counters q c r q' :
  initialized q = true ->
  step q c = Some (r, q') ->
  match r with
  | Pushed _ true =>
      total_enqueued q' = wrap64 (total_enqueued q + 1)
      /\ total_failed_enqueues q' = total_failed_enqueues q
  | Pushed _ false =>
      total_enqueued q' = total_enqueued q
      /\ total_failed_enqueues q' = wrap64 (total_failed_enqueues q + 1)
  | Popped _ =>
      total_enqueued q' = total_enqueued q
      /\ total_failed_enqueues q' = total_failed_enqueues q
  end.
Proof.
  intros Hinit. destruct c as [dat allocated|]; cbn [step].
  - unfold enqueue, _try_enqueue_fast, while_true, enqueue_iteration,
      compare_and_swap. rewrite Hinit. cbn [negb].
    repeat destruct_innermost;
      intros Hs; try discriminate; injection Hs as <- <-; split; reflexivity.
  - unfold dequeue, _try_dequeue_fast, while_true, dequeue_iteration,
      compare_and_swap.
    repeat destruct_innermost;
      intros Hs; try discriminate; injection Hs as <- <-; split; reflexivity.
Qed.

(** Along a history the two counters of the ring count the values
    accepted and the values handed out, and the two enqueue counters the
    calls that returned [True] and [False]. *)
Lemma run_accounting calls : forall q k head tail pending rs q' a f,
  ring_holds q k head tail pending ->
  total_enqueued q = wrap64 a ->
  total_failed_enqueues q = wrap64 f ->
  run q calls = Some (rs, q') ->
  exists pending',
    ring_holds q' k (head + Z.of_nat (length (popped rs)))
               (tail + Z.of_nat (length (pushed rs))) pending'
    /\ total_enqueued q' = wrap64 (a + Z.of_nat (length (pushed rs)))
    /\ total_failed_enqueues q' = wrap64 (f + Z.of_nat (length (refused rs)))
    /\ (length (pushed rs) + length (refused rs) <= length calls)%nat.
Proof.
  induction calls as [|c calls IH];
    intros q k head tail pending rs q' a f Hring Ha Hf Hrun.
  - injection Hrun as <- <-. exists pending. cbn. rewrite !Z.add_0_r. auto.
  - cbn [run] in Hrun.
    destruct (step q c) as [[r q1]|] eqn:Hstep; [|discriminate].
    destruct (run q1 calls) as [[rs1 q2]|] eqn:Hrest; [|discriminate].
    injection Hrun as <- <-.
    pose proof (rh_order _ _ _ _ _ Hring) as Hord.
    pose proof (rh_pending _ _ _ _ _ Hring) as Hlen.
    pose proof (step_enqueue_counters _ _ _ _
                  (rh_initialized _ _ _ _ _ Hring) Hstep) as Hcount.
    assert (Hnext : exists head1 tail1 pending1 a1 f1,
      ring_holds q1 k head1 tail1 pending1
      /\ total_enqueued q1 = wrap64 a1 /\ total_failed_enqueues q1 = wrap64 f1
      /\ head1 + Z.of_nat (length (popped rs1))
         = head + Z.of_nat (length (popped (r :: rs1)))
      /\ tail1 + Z.of_nat (length (pushed rs1))
         = tail + Z.of_nat (length (pushed (r :: rs1)))
      /\ a1 + Z.of_nat (length (pushed rs1))
         = a + Z.of_nat (length (pushed (r :: rs1)))
      /\ f1 + Z.of_nat (length (refused rs1))
         = f + Z.of_nat (length (refused (r :: rs1)))
      /\ (length (pushed (r :: rs1)) + length (refused (r :: rs1))
          <= S (length (pushed rs1) + length (refused rs1)))%nat).
    { unfold pushed, popped, refused.
      destruct c as [dat [|]|]; cbn [step] in Hstep.
      - destruct (Z.eq_dec tail (2 ^ 32)) as [Hwrap|Hlow].
        { rewrite (enqueue_after_wrap _ _ _ _ _ Hring) in Hstep by assumption.
          discriminate. }
        destruct (Z.eq_dec tail (head + 2 ^ k)) as [Hfull|Hroom].
        + rewrite (enqueue_full _ _ _ _ _ Hring) in Hstep by lia.
          injection Hstep as <- <-. destruct Hcount as [He Hfail].
          exists head, tail, pending, a, (f + 1).
          split; [apply ring_holds_failed_enqueue; exact Hring|].
          split; [exact Ha|].
          split; [cbn; rewrite Hf; apply wrap64_wrap64_add|].
          cbn [omap list_omap length]. lia.
        + destruct (enqueue_claims _ _ _ _ _ Hring dat) as (q1' & Henq & Hring');
            [lia|lia|].
          rewrite Henq in Hstep. injection Hstep as <- <-.
          destruct Hcount as [He Hfail].
          exists head, (tail + 1), (pending ++ [py_str dat]), (a + 1), f.
          split; [exact Hring'|].
          split; [rewrite He, Ha; apply wrap64_wrap64_add|].
          split; [congruence|].
          cbn [omap list_omap length]. lia.
      - rewrite (enqueue_no_memory _ _ _ _ _ Hring) in Hstep.
        injection Hstep as <- <-. destruct Hcount as [He Hfail].
        exists head, tail, pending, a, (f + 1).
        split; [apply ring_holds_failed_enqueue; exact Hring|].
        split; [exact Ha|].
        split; [cbn; rewrite Hf; apply wrap64_wrap64_add|].
        cbn [omap list_omap length]. lia.
      - destruct pending as [|s rest].
        + cbn in Hlen.
          destruct (Z.eq_dec tail (2 ^ 32)) as [Hwrap|Hlow].
          { rewrite (dequeue_after_wrap _ _ _ _ _ Hring) in Hstep by lia.
            discriminate. }
          rewrite (dequeue_empty _ _ _ _ _ Hring) in Hstep by lia.
          injection Hstep as <- <-.
          exists head, tail, [], a, f.
          split; [exact Hring|]. split; [exact Ha|]. split; [exact Hf|].
          cbn [omap list_omap length]. lia.
        + destruct (dequeue_takes _ _ _ _ _ Hring s rest eq_refl)
            as (q1' & Hdeq & Hring' & _).
          rewrite Hdeq in Hstep. injection Hstep as <- <-.
          destruct Hcount as [He Hfail].
          exists (head + 1), tail, rest, a, f.
          split; [exact Hring'|]. split; [congruence|]. split; [congruence|].
          cbn [omap list_omap length]. lia. }
    destruct Hnext as (head1 & tail1 & pending1 & a1 & f1 & Hring1 & Ha1 & Hf1
                       & Hh & Ht & Hae & Hfe & Hcalls).
    destruct (IH _ _ _ _ _ _ _ _ _ Hring1 Ha1 Hf1 Hrest)
      as (pending' & Hring' & He' & Hf' & Hlen').
    exists pending'. rewrite <- Hh, <- Ht, <- Hae, <- Hfe.
    split; [exact Hring'|]. split; [exact He'|]. split; [exact Hf'|].
    cbn [length]. lia.
Qed.

(** The state a history of fewer than 2^32 calls leads to. *)
Lemma reached_ring capacity q calls :
  0 <= capacity < 2 ^ 32 -> capacity <> 1 ->
  __cinit__ capacity true = Returns q ->
  Z.of_nat (length calls) < 2 ^ 32 ->
  exists rs q' k head tail pending,
    run q calls = Some (rs, q')
    /\ ring_holds q' k head tail pending
    /\ head = Z.of_nat (length (popped rs))
    /\ tail = Z.of_nat (length (pushed rs))
    /\ tail < 2 ^ 32
    /\ head_seq q' = head /\ tail_seq q' = tail
    /\ total_enqueued q' = tail
    /\ total_failed_enqueues q' = Z.of_nat (length (refused rs))
    /\ (length (pushed rs) + length (refused rs) <= length calls)%nat.
Proof.
  intros Hrange Hne Hq Hcalls.
  destruct (constructed_ring capacity q Hrange Hne Hq) as (k & Hring).
  destruct (run_returns calls q k 0 0 [] Hring ltac:(lia)) as [[rs q'] Hrun].
  assert (Hzero : total_enqueued q = wrap64 0 /\ total_failed_enqueues q = wrap64 0).
  { unfold __cinit__ in Hq. cbn [negb] in Hq. injection Hq as <-.
    split; reflexivity. }
  destruct Hzero as [Ha Hf].
  destruct (run_accounting calls _ _ _ _ _ _ _ _ _ Hring Ha Hf Hrun)
    as (pending' & Hring' & He & Hfe & Hlen).
  rewrite !Z.add_0_l in *.
  pose proof (rh_order _ _ _ _ _ Hring') as Hord.
  exists rs, q', k, (Z.of_nat (length (popped rs))),
    (Z.of_nat (length (pushed rs))), pending'.
  split; [exact Hrun|]. split; [exact Hring'|].
  split; [reflexivity|]. split; [reflexivity|]. split; [lia|].
  split; [rewrite (rh_head _ _ _ _ _ Hring'); apply wrap32_small; lia|].
  split; [rewrite (rh_tail _ _ _ _ _ Hring'); apply wrap32_small; lia|].
  split; [rewrite He; apply wrap64_small; lia|].
  split; [rewrite Hfe; apply wrap64_small; lia|exact Hlen].
Qed.

(** X14: the queue counts what it holds.  After a history of fewer than
    2^32 calls on a new queue of any capacity but 1, [size] is the number
    of values accepted minus the number of values handed out and lies
    between 0 and the capacity; [capacity_remaining] is the capacity minus
    the size; [is_empty] and [is_full] say that the size is 0 and the
    capacity; [total_enqueued] is the number of [enqueue] calls that
    returned [True] and [total_failed_enqueues] the number of those that
    returned [False]. *)
Theorem queue_counts_what_it_holds
    (capacity : Z) (q : LockFreeQueue) (calls : list call) :
  0 <= capacity < 2 ^ 32 ->
  capacity <> 1 ->
  __cinit__ capacity true = Returns q ->
  Z.of_nat (length calls) < 2 ^ 32 ->
  exists rs q',
    run q calls = Some (rs, q')
    /\ size q' = Z.of_nat (length (pushed rs)) - Z.of_nat (length (popped rs))
    /\ 0 <= size q' <= Queue.capacity q'
    /\ capacity_remaining q' = Queue.capacity q' - size q'
    /\ (is_empty q' = true <-> size q' = 0)
    /\ (is_full q' = true <-> size q' = Queue.capacity q')
    /\ total_enqueued q' = Z.of_nat (length (pushed rs))
    /\ total_failed_enqueues q' = Z.of_nat (length (refused rs)).
Proof.
  intros Hrange Hne Hq Hcalls.
  destruct (reached_ring _ _ _ Hrange Hne Hq Hcalls)
    as (rs & q' & k & head & tail & pending & Hrun & Hring & Hhead & Htail
        & Hlow & Hh & Ht & He & Hf & _).
  pose proof (rh_order _ _ _ _ _ Hring) as Hord.
  pose proof (rh_capacity _ _ _ _ _ Hring) as Hcap.
  assert (Hsize : size q' = tail - head).
  { unfold size. rewrite Hh, Ht. apply wrap64_small. lia. }
  exists rs, q'. split; [exact Hrun|].
  unfold capacity_remaining, is_empty, is_full.
  rewrite Hsize, Hh, Ht, Hcap, He, Hf, <- Hhead, <- Htail.
  split; [reflexivity|]. split; [lia|]. split; [lia|].
  split; [rewrite Z.eqb_eq; lia|]. split; [rewrite Z.leb_le; lia|].
  split; reflexivity.
Qed.

Lemma queue_counts_what_it_holds_witness :
  exists q,
    0 <= 2 < 2 ^ 32 /\ 2 <> 1
    /\ __cinit__ 2 true = Returns q
    /\ Z.of_nat (length [Enqueue (PyStr "a") true; Enqueue (PyInt 7) true;
                         Enqueue PyNone true; Dequeue; Dequeue; Dequeue;
                         Enqueue (PyStr "b") false]) < 2 ^ 32
    /\ exists rs q',
         run q [Enqueue (PyStr "a") true; Enqueue (PyInt 7) true;
                Enqueue PyNone true; Dequeue; Dequeue; Dequeue;
                Enqueue (PyStr "b") false] = Some (rs, q')
         /\ size q' = Z.of_nat (length (pushed rs)) - Z.of_nat (length (popped rs))
         /\ 0 <= size q' <= Queue.capacity q'
         /\ capacity_remaining q' = Queue.capacity q' - size q'
         /\ (is_empty q' = true <-> size q' = 0)
         /\ (is_full q' = true <-> size q' = Queue.capacity q')
         /\ total_enqueued q' = Z.of_nat (length (pushed rs))
         /\ total_failed_enqueues q' = Z.of_nat (length (refused rs)).
Proof.
  eexists. split; [lia|]. split; [lia|]. split; [reflexivity|].
  split; [vm_compute; reflexivity|].
  apply (queue_counts_what_it_holds 2); [lia|lia|reflexivity|vm_compute; reflexivity].
Defined.

(** X15: [is_full] and [is_empty] tell what the next call returns.  After
    a history of fewer than 2^32 calls on a new queue of any capacity but
    1, an [enqueue] (with memory at hand) returns, and returns [False]
    exactly when [is_full] holds; a [dequeue] returns, and returns [None]
    exactly when [is_empty] holds. *)
Theorem full_and_empty_tell_the_next_reply
    (capacity : Z) (q : LockFreeQueue) (calls : list call) :
  0 <= capacity < 2 ^ 32 ->
  capacity <> 1 ->
  __cinit__ capacity true = Returns q ->
  Z.of_nat (length calls) < 2 ^ 32 ->
  exists rs q',
    run q calls = Some (rs, q')
    /\ (forall dat, exists q'',
          enqueue q' dat true = Some (negb (is_full q'), q''))
    /\ (exists v q'',
          dequeue q' = Some (v, q'') /\ (v = PyNone <-> is_empty q' = true)).
Proof.
  intros Hrange Hne Hq Hcalls.
  destruct (reached_ring _ _ _ Hrange Hne Hq Hcalls)
    as (rs & q' & k & head & tail & pending & Hrun & Hring & _ & _
        & Hlow & Hh & Ht & _).
  pose proof (rh_order _ _ _ _ _ Hring) as Hord.
  pose proof (rh_capacity _ _ _ _ _ Hring) as Hcap.
  pose proof (rh_pending _ _ _ _ _ Hring) as Hpend.
  assert (Hsize : size q' = tail - head).
  { unfold size. rewrite Hh, Ht. apply wrap64_small. lia. }
  exists rs, q'. split; [exact Hrun|].
  unfold is_full, is_empty. rewrite Hsize, Hcap, Hh, Ht. split.
  - intros dat. destruct (Z.eq_dec tail (head + 2 ^ k)) as [Hfull|Hroom].
    + rewrite (enqueue_full _ _ _ _ _ Hring) by lia.
      destruct (Z.leb_spec (2 ^ k) (tail - head)); [|lia]. eauto.
    + destruct (enqueue_claims _ _ _ _ _ Hring dat) as (q'' & -> & _);
        [lia|lia|].
      destruct (Z.leb_spec (2 ^ k) (tail - head)); [lia|]. eauto.
  - destruct pending as [|s rest].
    + cbn in Hpend. rewrite (dequeue_empty _ _ _ _ _ Hring) by lia.
      exists PyNone, q'. split; [reflexivity|].
      split; [intros _; apply Z.eqb_eq; lia|reflexivity].
    + cbn [length] in Hpend.
      destruct (dequeue_takes _ _ _ _ _ Hring s rest eq_refl) as (q'' & -> & _).
      exists (PyStr s), q''. split; [reflexivity|].
      split; [discriminate|]. rewrite Z.eqb_eq. lia.
Qed.

Lemma full_and_empty_tell_the_next_reply_witness :
  exists q,
    0 <= 2 < 2 ^ 32 /\ 2 <> 1
    /\ __cinit__ 2 true = Returns q
    /\ Z.of_nat (length [Enqueue (PyStr "a") true; Enqueue (PyStr "b") true])
       < 2 ^ 32
    /\ exists rs q',
         run q [Enqueue (PyStr "a") true; Enqueue (PyStr "b") true] = Some (rs, q')
         /\ (forall dat, exists q'',
               enqueue q' dat true = Some (negb (is_full q'), q''))
         /\ (exists v q'',
               dequeue q' = Some (v, q'') /\ (v = PyNone <-> is_empty q' = true)).
Proof.
  eexists. split; [lia|]. split; [lia|]. split; [reflexivity|].
  split; [vm_compute; reflexivity|].
  apply (full_and_empty_tell_the_next_reply 2);
    [lia|lia|reflexivity|vm_compute; reflexivity].
Defined.

(** X16: [clear] followed by [reset_statistics] gives the new queue back.
    Whatever the capacity asked for and whatever the history, the queue
    after the two calls is the queue the constructor returned: every slot
    empty with its index as sequence number, both counters of the ring and
    all statistics 0. *)
Theorem clear_and_reset_give_the_new_queue
    (capacity : Z) (q : LockFreeQueue) (calls : list call)
    (rs : list reply) (q' : LockFreeQueue) :
  __cinit__ capacity true = Returns q ->
  run q calls = Some (rs, q') ->
  reset_statistics (clear q') = q
  /\ clear (reset_statistics q') = q.
Proof.
  intros Hq Hrun.
  destruct (run_frame calls q rs q' Hrun) as (Hcap & Hmask & Hinit & _).
  unfold __cinit__ in Hq. cbn [negb] in Hq. injection Hq as <-.
  cbn in Hcap, Hmask, Hinit.
  unfold reset_statistics, clear. cbn. rewrite Hcap, Hmask, Hinit.
  split; reflexivity.
Qed.

Lemma clear_and_reset_give_the_new_queue_witness :
  exists q rs q',
    __cinit__ 4 true = Returns q
    /\ run q [Enqueue (PyStr "a") true; Enqueue (PyStr "b") true; Dequeue;
              Enqueue (PyStr "c") false] = Some (rs, q')
    /\ reset_statistics (clear q') = q
    /\ clear (reset_statistics q') = q.
Proof.
  eexists. eexists. eexists.
  split; [reflexivity|]. split; [vm_compute; reflexivity|].
  refine (clear_and_reset_give_the_new_queue 4 _
            [Enqueue (PyStr "a") true; Enqueue (PyStr "b") true; Dequeue;
             Enqueue (PyStr "c") false] _ _ _ _);
    [reflexivity | vm_compute; reflexivity].
Defined.

(** X17: the queue stops after 2^32 values.  The two counters of the ring
    are 64 bits wide, but [compare_and_swap] writes their low 32 bits only:
    once 2^32 values have been accepted, the tail counter reads 0 while the
    slots carry sequence numbers from 2^32 on, and every further [enqueue]
    loops for ever.  The values still waiting can be taken out; when the
    2^32 values have been handed out, every [dequeue] loops for ever as
    well, although [is_empty] holds. *)
Theorem queue_stops_after_2_32_values
    (q : LockFreeQueue) (k head : Z) (pending : list string) :
  ring_holds q k head (2 ^ 32) pending ->
  (forall dat, enqueue q dat true = None)
  /\ (head < 2 ^ 32 ->
      exists s rest q', pending = s :: rest
        /\ dequeue q = Some (PyStr s, q')
        /\ ring_holds q' k (head + 1) (2 ^ 32) rest)
  /\ (head = 2 ^ 32 -> dequeue q = None /\ is_empty q = true).
Proof.
  intros Hring.
  pose proof (rh_pending _ _ _ _ _ Hring) as Hpend.
  split; [|split].
  - intros dat. apply (enqueue_after_wrap _ _ _ _ _ Hring). reflexivity.
  - intros Hlow. destruct pending as [|s rest]; [cbn in Hpend; lia|].
    destruct (dequeue_takes _ _ _ _ _ Hring s rest eq_refl)
      as (q' & Hdeq & Hring' & _).
    exists s, rest, q'. auto.
  - intros Hwrap. split; [apply (dequeue_after_wrap _ _ _ _ _ Hring Hwrap)|].
    unfold is_empty.
    rewrite (rh_head _ _ _ _ _ Hring), (rh_tail _ _ _ _ _ Hring), Hwrap.
    reflexivity.
Qed.

Lemma queue_stops_after_2_32_values_witness :
  ring_holds queue_after_2_32_values 1 (2 ^ 32 - 1) (2 ^ 32) ["x"%string]
  /\ (forall dat, enqueue queue_after_2_32_values dat true = None)
  /\ (2 ^ 32 - 1 < 2 ^ 32 ->
      exists s rest q', ["x"%string] = s :: rest
        /\ dequeue queue_after_2_32_values = Some (PyStr s, q')
        /\ ring_holds q' 1 (2 ^ 32 - 1 + 1) (2 ^ 32) rest)
  /\ (2 ^ 32 - 1 = 2 ^ 32 ->
      dequeue queue_after_2_32_values = None
      /\ is_empty queue_after_2_32_values = true).
Proof.
  assert (Hring : ring_holds queue_after_2_32_values 1 (2 ^ 32 - 1) (2 ^ 32)
                             ["x"%string]).
  { split; try reflexivity; try lia.
    - intros p s Hp Hs. replace p with (2 ^ 32 - 1) in * by lia.
      vm_compute in Hs. injection Hs as <-. reflexivity.
    - intros p Hp. replace p with (2 ^ 32) by lia. reflexivity. }
  split; [exact Hring|].
  exact (queue_stops_after_2_32_values queue_after_2_32_values 1 (2 ^ 32 - 1)
           ["x"%string] Hring).
Defined.

(** Nothing divided by a positive integer is nothing. *)
Lemma to_double_div_zero k :
  0 < k < 2 ^ 53 -> (to_double 0 / to_double k)%float = 0%float.
Proof.
  intros Hk. apply Prim2SF_inj. rewrite div_spec. unfold to_double.
  rewrite !of_uint63_spec, !Uint63.of_Z_spec.
  rewrite Zmod_0_l, Z.mod_small by (change Uint63Axioms.wB with (2 ^ 63); lia).
  destruct (normalize_finite k Hk) as (m & e & ->). reflexivity.
Qed.

(** X25: the two success rates of [get_statistics].  After a history of
    fewer than 2^32 calls on a new queue of any capacity but 1,
    [dequeue_success_rate] is 0.0, also when every [dequeue] has returned
    a value, because the two dequeue counters are never written;
    [enqueue_success_rate] is 100.0 when at least one value has been
    accepted and none refused, and 0.0 when none has been accepted. *)
Theorem success_rates_of_a_history
    (capacity : Z) (q : LockFreeQueue) (calls : list call) :
  0 <= capacity < 2 ^ 32 ->
  capacity <> 1 ->
  __cinit__ capacity true = Returns q ->
  Z.of_nat (length calls) < 2 ^ 32 ->
  exists rs q',
    run q calls = Some (rs, q')
    /\ dequeue_success_rate q' = 0%float
    /\ (pushed rs <> [] -> refused rs = [] ->
        enqueue_success_rate q' = 100%float)
    /\ (pushed rs = [] -> enqueue_success_rate q' = 0%float).
Proof.
  intros Hrange Hne Hq Hcalls.
  destruct (reached_ring _ _ _ Hrange Hne Hq Hcalls)
    as (rs & q' & k & head & tail & pending & Hrun & Hring & _ & Htail
        & Hlow & _ & _ & He & Hf & Hlen).
  destruct (run_dequeue_counters calls q rs q' Hrun) as [Hd Hfd].
  assert (Hzero : total_dequeued q = 0 /\ total_failed_dequeues q = 0).
  { unfold __cinit__ in Hq. cbn [negb] in Hq. injection Hq as <-.
    split; reflexivity. }
  destruct Hzero as [Hd0 Hfd0].
  exists rs, q'. split; [exact Hrun|].
  unfold dequeue_success_rate, enqueue_success_rate.
  rewrite Hd, Hfd, Hd0, Hfd0, He, Hf, Htail.
  split; [reflexivity|]. split.
  - intros Hsome Hnone. rewrite Hnone. cbn [length].
    assert (Hpos : 0 < Z.of_nat (length (pushed rs)))
      by (destruct (pushed rs); [congruence|cbn [length]; lia]).
    rewrite Z.add_0_r, wrap64_small, Z.max_r by lia.
    rewrite to_double_div_self by lia. reflexivity.
  - intros Hnone. rewrite Hnone. cbn [length].
    rewrite Z.add_0_l, wrap64_small by lia.
    rewrite to_double_div_zero by lia. reflexivity.
Qed.

Lemma success_rates_of_a_history_witness :
  exists q,
    0 <= 2 < 2 ^ 32 /\ 2 <> 1
    /\ __cinit__ 2 true = Returns q
    /\ Z.of_nat (length [Enqueue (PyStr "a") true; Dequeue;
                         Enqueue (PyStr "b") true; Dequeue]) < 2 ^ 32
    /\ exists rs q',
         run q [Enqueue (PyStr "a") true; Dequeue;
                Enqueue (PyStr "b") true; Dequeue] = Some (rs, q')
         /\ dequeue_success_rate q' = 0%float
         /\ (pushed rs <> [] -> refused rs = [] ->
             enqueue_success_rate q' = 100%float)
         /\ (pushed rs = [] -> enqueue_success_rate q' = 0%float).
Proof.
  eexists. split; [lia|]. split; [lia|]. split; [reflexivity|].
  split; [vm_compute; reflexivity|].
  apply (success_rates_of_a_history 2);
    [lia|lia|reflexivity|vm_compute; reflexivity].
Defined.

End QueueCoverage.

Section TrackerCoverage.
Import Tracker.

(** What [record_latency] does with a call whose latency fits. *)
Lemma record_latency_stored self c smp :
  stored c = Some smp ->
  record_latency self (rec_latency_us c) (rec_exchange_id c) (rec_protocol c)
                 (rec_now_ns c)
  = _add_sample_fast self (latency_ns smp) (exchange_id smp)
                     (protocol_type smp) (rec_now_ns c)
  /\ timestamp_ns smp = wrap64 (rec_now_ns c)
  /\ recorded_us (rec_latency_us c)
     = Some (double_of_Z (latency_ns smp) / 1000.0)%float.
Proof.
  unfold stored, record_latency, recorded_us.
  destruct (to_uint32 _) as [ns|]; [|discriminate].
  intros Hs. injection Hs as <-. repeat split.
Qed.

(** *** Violations *)

Lemma violations_counted calls us :
  Forall2 (fun c u => recorded_us (rec_latency_us c) = Some u) calls us ->
  forall self v,
  0 < max_samples self ->
  length (samples self) = Z.to_nat (max_samples self) ->
  0 <= sample_count self ->
  sample_count self + Z.of_nat (length calls) < 2 ^ 31 ->
  violation_count self = wrap64 v ->
  exists self',
    record_all self calls = Some self'
    /\ violation_count self'
       = wrap64 (v + Z.of_nat (length
                   (List.filter (fun u => (target_latency_us self <? u)%float) us))).
Proof.
  induction 1 as [|c u calls us Hu _ IH]; intros self v Hroom Hbuf Hsc Hfits Hv.
  - exists self. cbn. rewrite Z.add_0_r. auto.
  - cbn [record_all]. unfold recorded_us in Hu. unfold record_latency.
    destruct (to_uint32 (rec_latency_us c * 1000)%float) as [ns|]; [|discriminate].
    injection Hu as <-. cbn [List.filter]. cbn [length] in Hfits.
    rewrite add_sample_fast_in_range by assumption.
    match goal with
    | |- context [record_all ?next calls] =>
        destruct (IH next
                    (if (target_latency_us self <? double_of_Z ns / 1000)%float
                     then v + 1 else v))
          as (self' & Hrun & Hcount)
    end; cbn [Tracker.max_samples samples sample_count add_sample_at];
      try (rewrite length_insert); try (rewrite wrap_int_small by lia);
      try assumption; try lia.
    { cbn [violation_count add_sample_at].
      destruct (target_latency_us self <? double_of_Z ns / 1000)%float;
        [rewrite Hv; apply wrap64_wrap64_add|exact Hv]. }
    exists self'. split; [exact Hrun|].
    rewrite Hcount. cbn [target_latency_us add_sample_at].
    destruct (target_latency_us self <? double_of_Z ns / 1000)%float;
      cbn [length]; f_equal; lia.
Qed.

(** X18: [violation_count] counts the samples above the target as they
    are recorded, that is after the fraction of a nanosecond has been
    dropped: after a run of fewer than 2^31 [record_latency] calls on a new
    tracker with room for at least one sample it is the number of recorded
    values [u] with [target < u], and it never exceeds the number of
    samples. *)
Theorem violations_are_counted_after_truncation
    (max_samples : Z) (target : float) (now_ns : Z)
    (t0 : UltraLowLatencyTracker) (calls : list recording) (us : list float) :
  0 < max_samples ->
  __cinit__ max_samples target now_ns true = Returns t0 ->
  Z.of_nat (length calls) < 2 ^ 31 ->
  Forall2 (fun c u => recorded_us (rec_latency_us c) = Some u) calls us ->
  exists t,
    record_all t0 calls = Some t
    /\ violation_count t
       = Z.of_nat (length (List.filter (fun u => (target <? u)%float) us))
    /\ violation_count t <= Z.of_nat (length calls)
    /\ forall x, is_violation t x = (target <? x)%float.
Proof.
  intros Hmax Ht0 Hlen Hus.
  unfold __cinit__ in Ht0. cbn [negb] in Ht0. injection Ht0 as <-.
  match goal with
  | |- context [record_all ?fresh calls] =>
      destruct (violations_counted calls us Hus fresh 0)
        as (t & Hrun & Hcount)
  end; cbn [Tracker.max_samples samples sample_count violation_count];
    try (rewrite length_replicate); try reflexivity; try lia.
  cbn [target_latency_us] in Hcount. rewrite Z.add_0_l in Hcount.
  pose proof (Forall2_length _ _ _ Hus) as Hsame.
  pose proof (List.filter_length_le (fun u => (target <? u)%float) us) as Hle.
  rewrite wrap64_small in Hcount by lia.
  exists t. split; [exact Hrun|]. split; [exact Hcount|]. split; [lia|].
  intros x. unfold is_violation.
  destruct (record_all_frame _ _ _ Hrun) as (_ & -> & _). reflexivity.
Qed.

Lemma violations_are_counted_after_truncation_witness :
  exists t0,
    0 < 2
    /\ __cinit__ 2 600.0%float 0 true = Returns t0
    /\ Z.of_nat (length three_recordings) < 2 ^ 31
    /\ Forall2 (fun c u => recorded_us (rec_latency_us c) = Some u)
         three_recordings [2.5%float; 600.0%float; 1.0%float]
    /\ exists t,
         record_all t0 three_recordings = Some t
         /\ violation_count t
            = Z.of_nat (length (List.filter (fun u => (600.0 <? u)%float)
                                  [2.5%float; 600.0%float; 1.0%float]))
         /\ violation_count t <= Z.of_nat (length three_recordings)
         /\ forall x, is_violation t x = (600.0 <? x)%float.
Proof.
  assert (Hus : Forall2 (fun c u => recorded_us (rec_latency_us c) = Some u)
                  three_recordings [2.5%float; 600.0%float; 1.0%float]).
  { repeat constructor; vm_compute; reflexivity. }
  eexists. split; [lia|]. split; [reflexivity|].
  split; [vm_compute; reflexivity|]. split; [exact Hus|].
  refine (violations_are_counted_after_truncation 2 600.0%float 0 _ _ _ _ eq_refl _ Hus);
    first [lia | vm_compute; reflexivity].
Defined.

(** *** The buffer *)

(** The buffer after a run of calls: the samples of the last
    [max_samples] calls, the [j]-th at index [j mod max_samples]. *)
Lemma record_all_window calls new : 
  Forall2 (fun c smp => stored c = Some smp) calls new ->
  forall self old,
  0 < max_samples self ->
  length (samples self) = Z.to_nat (max_samples self) ->
  sample_count self = Z.of_nat (length old) ->
  Z.of_nat (length old) + Z.of_nat (length calls) < 2 ^ 31 ->
  (forall j smp,
     0 <= j ->
     Z.of_nat (length old) - max_samples self <= j < Z.of_nat (length old) ->
     old !! Z.to_nat j = Some smp ->
     samples self !! Z.to_nat (j mod max_samples self) = Some smp) ->
  exists self',
    record_all self calls = Some self'
    /\ sample_count self' = Z.of_nat (length (old ++ new))
    /\ (forall j smp,
          0 <= j ->
          Z.of_nat (length (old ++ new)) - max_samples self <= j
            < Z.of_nat (length (old ++ new)) ->
          (old ++ new) !! Z.to_nat j = Some smp ->
          samples self' !! Z.to_nat (j mod max_samples self) = Some smp).
Proof.
  induction 1 as [|c smp calls new Hsmp _ IH];
    intros self old Hmax Hlen Hcount Hfits Hold.
  - exists self. rewrite app_nil_r. auto.
  - cbn [length] in Hfits.
    destruct (record_latency_stored self c smp Hsmp) as (Hrec & Hstamp & _).
    cbn [record_all]. rewrite Hrec.
    remember (Z.of_nat (length old)) as n eqn:Hn.
    rewrite add_sample_fast_in_range by (assumption || lia).
    set (self1 := add_sample_at self (sample_count self mod max_samples self)
                    (latency_ns smp) (exchange_id smp)
                    (protocol_type smp) (rec_now_ns c)).
    assert (Hsample : {| timestamp_ns := wrap64 (rec_now_ns c);
                         latency_ns := latency_ns smp;
                         exchange_id := exchange_id smp;
                         protocol_type := protocol_type smp |} = smp).
    { destruct smp. cbn in *. congruence. }
    assert (Hsamples : samples self1 = <[Z.to_nat (n mod max_samples self) := smp]>
                                         (samples self)).
    { unfold self1. cbn [samples add_sample_at].
      rewrite Hcount, Hsample. reflexivity. }
    destruct (IH self1 (old ++ [smp])) as (self' & Hrun & Hcount' & Hwindow).
    + exact Hmax.
    + rewrite Hsamples, length_insert. exact Hlen.
    + unfold self1. cbn [sample_count add_sample_at].
      rewrite Hcount, wrap_int_small, length_app by lia. cbn [length]. lia.
    + rewrite length_app. cbn [length]. lia.
    + rewrite length_app. cbn [length]. intros j smp' Hpos Hj Hlookup.
      change (max_samples self1) with (max_samples self) in *.
      rewrite Hsamples.
      pose proof (Z.mod_pos_bound j (max_samples self) Hmax) as Hslot.
      destruct (Z.eq_dec j n) as [->|Hne].
      * rewrite lookup_app_r in Hlookup by lia.
        replace (Z.to_nat n - length old)%nat with 0%nat in Hlookup by lia.
        cbn in Hlookup. injection Hlookup as <-.
        apply list_lookup_insert_eq. lia.
      * rewrite lookup_app_l in Hlookup by lia.
        rewrite list_lookup_insert_ne
          by (apply (slot_ne (max_samples self) (n + 1 - max_samples self)); lia).
        apply Hold; [lia|lia|exact Hlookup].
    + exists self'. split; [exact Hrun|].
      change (max_samples self1) with (max_samples self) in *.
      rewrite <- app_assoc in Hcount', Hwindow. cbn [app] in Hcount', Hwindow.
      split; assumption.
Qed.

(** X19: the buffer of the tracker is a ring that holds the latest
    samples.  After a run of fewer than 2^31 [record_latency] calls on a
    new tracker with room for [max_samples] samples, the sample of the
    [j]-th call, for each of the last [max_samples] calls, is found at
    index [j mod max_samples], with its nanoseconds, exchange, protocol
    and time stamp; and [get_current_latency_us] returns the latency of the
    last call as it was recorded (0.0 when there was no call). *)
Theorem buffer_holds_the_latest_samples
    (max_samples : Z) (target : float) (now_ns : Z)
    (t0 : UltraLowLatencyTracker) (calls : list recording)
    (new : list latency_sample) :
  0 < max_samples ->
  __cinit__ max_samples target now_ns true = Returns t0 ->
  Z.of_nat (length calls) < 2 ^ 31 ->
  Forall2 (fun c smp => stored c = Some smp) calls new ->
  exists t,
    record_all t0 calls = Some t
    /\ (forall j smp,
          0 <= j ->
          Z.of_nat (length calls) - max_samples <= j < Z.of_nat (length calls) ->
          new !! Z.to_nat j = Some smp ->
          samples t !! Z.to_nat (j mod max_samples) = Some smp)
    /\ get_current_latency_us t
       = Some (match last new with
               | None => 0.0
               | Some smp => double_of_Z (latency_ns smp) / 1000.0
               end)%float.
Proof.
  intros Hmax Ht0 Hlen Hnew.
  unfold __cinit__ in Ht0. cbn [negb] in Ht0. injection Ht0 as <-.
  pose proof (Forall2_length _ _ _ Hnew) as Hsame.
  match goal with
  | |- context [record_all ?fresh calls] =>
      destruct (record_all_window calls new Hnew fresh [])
        as (t & Hrun & Hcount & Hwindow)
  end; cbn [Tracker.max_samples samples sample_count length].
  - exact Hmax.
  - apply length_replicate.
  - reflexivity.
  - lia.
  - intros j smp Hpos Hj. lia.
  - cbn [app Tracker.max_samples] in Hcount, Hwindow.
    exists t. split; [exact Hrun|]. split.
    + intros j smp Hpos Hj. apply Hwindow; lia.
    + destruct (record_all_frame _ _ _ Hrun) as (Hms & _).
      cbn [Tracker.max_samples] in Hms.
      unfold get_current_latency_us. rewrite Hcount, Hms.
      destruct new as [|smp0 new'] using rev_ind; [reflexivity|].
      rewrite last_snoc, length_app in *. cbn [length] in *.
      destruct (Z.eqb_spec (Z.of_nat (length new' + 1)) 0) as [|_]; [lia|].
      rewrite wrap_int_small, Z.rem_mod_nonneg by lia.
      pose proof (Z.mod_pos_bound (Z.of_nat (length new' + 1) - 1) max_samples Hmax).
      destruct (Z.ltb_spec ((Z.of_nat (length new' + 1) - 1) mod max_samples) 0);
        [lia|].
      rewrite (Hwindow (Z.of_nat (length new' + 1) - 1) smp0);
        [reflexivity|lia|lia|].
      rewrite lookup_app_r by lia.
      replace (Z.to_nat (Z.of_nat (length new' + 1) - 1) - length new')%nat
        with 0%nat by lia. reflexivity.
Qed.

Lemma buffer_holds_the_latest_samples_witness :
  exists t0 new,
    0 < 2
    /\ __cinit__ 2 600.0%float 0 true = Returns t0
    /\ Z.of_nat (length three_recordings) < 2 ^ 31
    /\ Forall2 (fun c smp => stored c = Some smp) three_recordings new
    /\ exists t,
         record_all t0 three_recordings = Some t
         /\ (forall j smp,
               0 <= j ->
               Z.of_nat (length three_recordings) - 2 <= j
                 < Z.of_nat (length three_recordings) ->
               new !! Z.to_nat j = Some smp ->
               samples t !! Z.to_nat (j mod 2) = Some smp)
         /\ get_current_latency_us t
            = Some (match last new with
                    | None => 0.0
                    | Some smp => double_of_Z (latency_ns smp) / 1000.0
                    end)%float.
Proof.
  assert (Hnew : Forall2 (fun c smp => stored c = Some smp) three_recordings
                   [ {| timestamp_ns := 10; latency_ns := 2500;
                        exchange_id := 1; protocol_type := 1 |};
                     {| timestamp_ns := 20; latency_ns := 600000;
                        exchange_id := 2; protocol_type := 2 |};
                     {| timestamp_ns := 30; latency_ns := 1000;
                        exchange_id := 3; protocol_type := 3 |} ]).
  { repeat constructor; vm_compute; reflexivity. }
  eexists. eexists. split; [lia|]. split; [reflexivity|].
  split; [vm_compute; reflexivity|]. split; [exact Hnew|].
  refine (buffer_holds_the_latest_samples 2 600.0%float 0 _ _ _ _ eq_refl _ Hnew);
    first [lia | vm_compute; reflexivity].
Defined.

(** X20: [reset_statistics] gives the new tracker back.  After any run of
    [record_latency] calls, the tracker that [reset_statistics] leaves is
    the one the constructor returns for the same [max_samples] and target
    at the time of the reset: the buffer zeroed, no sample, the minimum at
    its start value 999999.0. *)
Theorem reset_statistics_gives_the_new_tracker
    (max_samples : Z) (target : float) (now0 now_ns : Z)
    (t0 t : UltraLowLatencyTracker) (calls : list recording) :
  __cinit__ max_samples target now0 true = Returns t0 ->
  record_all t0 calls = Some t ->
  Returns (reset_statistics t now_ns) = __cinit__ max_samples target now_ns true.
Proof.
  intros Ht0 Hrun.
  destruct (record_all_frame _ _ _ Hrun) as (Hms & Htarget & Hinit & _).
  unfold __cinit__ in Ht0. cbn [negb] in Ht0. injection Ht0 as <-.
  cbn in Hms, Htarget, Hinit.
  unfold reset_statistics, __cinit__. cbn [negb].
  rewrite Hms, Htarget, Hinit. reflexivity.
Qed.

Lemma reset_statistics_gives_the_new_tracker_witness :
  exists t0 t,
    __cinit__ 2 600.0%float 0 true = Returns t0
    /\ record_all t0 three_recordings = Some t
    /\ Returns (reset_statistics t 40) = __cinit__ 2 600.0%float 40 true.
Proof.
  eexists. eexists. split; [reflexivity|]. split; [vm_compute; reflexivity|].
  exact (reset_statistics_gives_the_new_tracker 2 600.0%float 0 40 _ _
           three_recordings eq_refl eq_refl).
Defined.

(** X21: [record_packet_latency] saturates.  On a tracker with room for
    at least one sample whose sample counter has not turned negative, for
    time stamps that lie 4294967295 ns or more apart, whatever the
    distance, the call returns and the sample it stores, at index
    [sample_count mod max_samples], is 4294967295 ns: the cap survives the
    way through microseconds and back. *)
Theorem long_latencies_are_capped
    (self : UltraLowLatencyTracker) (send_time_ns recv_time_ns exchange_id : Z)
    (protocol : string) (now_ns : Z) :
  0 < max_samples self ->
  length (samples self) = Z.to_nat (max_samples self) ->
  0 <= sample_count self ->
  0 <= send_time_ns ->
  recv_time_ns < 2 ^ 64 ->
  4294967295 <= recv_time_ns - send_time_ns ->
  exists self',
    record_packet_latency self send_time_ns recv_time_ns exchange_id protocol now_ns
    = Some self'
    /\ samples self' !! Z.to_nat (sample_count self mod max_samples self)
       = Some {| timestamp_ns := wrap64 now_ns;
                 latency_ns := 4294967295;
                 exchange_id := exchange_id mod 2 ^ 16;
                 protocol_type :=
                   if String.eqb protocol "TCP" then 1
                   else if String.eqb protocol "UDP" then 2
                   else if String.eqb protocol "FIX" then 3
                   else 0 |}
    /\ total_samples self' = wrap64 (total_samples self + 1)
    /\ sum_latency_us self'
       = (sum_latency_us self + double_of_Z 4294967295 / 1000.0)%float.
Proof.
  intros Hmax Hbuf Hcount Hsend Hrecv Hapart. unfold record_packet_latency.
  destruct (Z.leb_spec recv_time_ns send_time_ns) as [|_]; [lia|].
  rewrite wrap64_small, Z.min_r, wrap32_small by lia.
  unfold record_latency.
  assert (Hns : to_uint32 (double_of_Z 4294967295 / 1000.0 * 1000.0)%float
                = Some 4294967295) by (vm_compute; reflexivity).
  rewrite Hns, add_sample_fast_in_range by assumption.
  eexists. split; [reflexivity|]. cbn [samples total_samples sum_latency_us add_sample_at].
  split; [|split; reflexivity].
  apply list_lookup_insert_eq.
  pose proof (Z.mod_pos_bound (sample_count self) (max_samples self) Hmax). lia.
Qed.

Lemma long_latencies_are_capped_witness :
  exists self,
    __cinit__ 2 600.0%float 0 true = Returns self
    /\ 0 < max_samples self
    /\ length (samples self) = Z.to_nat (max_samples self)
    /\ 0 <= sample_count self
    /\ 0 <= 1000 /\ 5000001000 < 2 ^ 64 /\ 4294967295 <= 5000001000 - 1000
    /\ exists self',
         record_packet_latency self 1000 5000001000 1 "TCP" 50 = Some self'
         /\ samples self' !! Z.to_nat (sample_count self mod max_samples self)
            = Some {| timestamp_ns := wrap64 50;
                      latency_ns := 4294967295;
                      exchange_id := 1 mod 2 ^ 16;
                      protocol_type :=
                        if String.eqb "TCP" "TCP" then 1
                        else if String.eqb "TCP" "UDP" then 2
                        else if String.eqb "TCP" "FIX" then 3
                        else 0 |}
         /\ total_samples self' = wrap64 (total_samples self + 1)
         /\ sum_latency_us self'
            = (sum_latency_us self + double_of_Z 4294967295 / 1000.0)%float.
Proof.
  eexists. split; [reflexivity|]. split; [reflexivity|]. split; [reflexivity|].
  split; [cbn; lia|]. split; [lia|]. split; [lia|]. split; [lia|].
  refine (long_latencies_are_capped _ 1000 5000001000 1 "TCP" 50 _ _ _ _ _ _);
    first [lia | reflexivity | cbn; lia].
Defined.

(** *** The sample counter *)

Lemma record_all_app calls calls' : forall self,
  record_all self (calls ++ calls')
  = match record_all self calls with
    | Some self' => record_all self' calls'
    | None => None
    end.
Proof.
  induction calls as [|c calls IH]; intros self; [reflexivity|].
  cbn [app record_all].
  destruct (record_latency self _ _ _ _) as [self1|]; [apply IH|reflexivity].
Qed.

Lemma record_all_count calls : forall self self',
  record_all self calls = Some self' ->
  0 <= sample_count self ->
  sample_count self + Z.of_nat (length calls) < 2 ^ 31 ->
  sample_count self' = sample_count self + Z.of_nat (length calls).
Proof.
  induction calls as [|c calls IH]; intros self self' Hrun Hpos Hfits.
  - injection Hrun as <-. cbn. lia.
  - cbn [record_all] in Hrun. cbn [length] in Hfits. unfold record_latency in Hrun.
    destruct (to_uint32 _) as [ns|]; [|discriminate].
    destruct (_add_sample_fast self ns _ _ _) as [self1|] eqn:Hadd; [|discriminate].
    apply add_sample_fast_inv in Hadd. subst self1.
    apply IH in Hrun; cbn [sample_count add_sample_at] in *;
      rewrite ?wrap_int_small in * by lia; cbn [length]; lia.
Qed.

(** X23: the sample counter is an [int] and turns negative.  When 2^31
    samples have been recorded, [sample_count] is -2^31, and the index
    that the next [_add_sample_fast] computes for its write into the
    buffer, [sample_count % max_samples], is not positive; it is negative,
    and so lies before the buffer, unless [max_samples] divides 2^31. *)
Theorem sample_count_turns_negative
    (self self' : UltraLowLatencyTracker) (calls : list recording) :
  0 <= sample_count self < 2 ^ 31 ->
  0 < max_samples self ->
  record_all self calls = Some self' ->
  sample_count self + Z.of_nat (length calls) = 2 ^ 31 ->
  sample_count self' = - 2 ^ 31
  /\ write_index self' <= 0
  /\ (2 ^ 31 mod max_samples self <> 0 -> write_index self' < 0).
Proof.
  intros Hcount Hmax Hrun Hlen.
  destruct calls as [|c calls] using rev_ind; [cbn in Hlen; lia|].
  clear IHcalls. rewrite length_app in Hlen. cbn [length] in Hlen.
  rewrite record_all_app in Hrun.
  destruct (record_all self calls) as [self1|] eqn:Hfirst; [|discriminate].
  pose proof (record_all_count _ _ _ Hfirst ltac:(lia) ltac:(lia)) as Hcount1.
  destruct (record_all_frame _ _ _ Hfirst) as (Hmax1 & _).
  cbn [record_all] in Hrun. unfold record_latency in Hrun.
  destruct (to_uint32 _) as [ns|]; [|discriminate].
  destruct (_add_sample_fast self1 ns _ _ _) as [self2|] eqn:Hadd; [|discriminate].
  apply add_sample_fast_inv in Hadd. subst self2.
  injection Hrun as <-.
  unfold write_index. cbn [sample_count Tracker.max_samples add_sample_at].
  rewrite Hcount1, Hmax1.
  replace (sample_count self + Z.of_nat (length calls) + 1) with (2 ^ 31) by lia.
  change (wrap_int (2 ^ 31)) with (- 2 ^ 31).
  rewrite Z.rem_opp_l, Z.rem_mod_nonneg by lia.
  pose proof (Z.mod_pos_bound (2 ^ 31) (max_samples self) Hmax).
  repeat split; lia.
Qed.

Lemma sample_count_turns_negative_witness :
  exists self',
    0 <= sample_count tracker_after_many_samples < 2 ^ 31
    /\ 0 < max_samples tracker_after_many_samples
    /\ record_all tracker_after_many_samples (take 2 three_recordings) = Some self'
    /\ sample_count tracker_after_many_samples
       + Z.of_nat (length (take 2 three_recordings)) = 2 ^ 31
    /\ sample_count self' = - 2 ^ 31
    /\ write_index self' <= 0
    /\ (2 ^ 31 mod max_samples tracker_after_many_samples <> 0 ->
        write_index self' < 0).
Proof.
  eexists. split; [vm_compute; split; [discriminate|reflexivity]|].
  split; [reflexivity|]. split; [vm_compute; reflexivity|].
  split; [vm_compute; reflexivity|].
  refine (sample_count_turns_negative tracker_after_many_samples _
            (take 2 three_recordings) _ _ _ _);
    first [ reflexivity
          | vm_compute; reflexivity
          | vm_compute; split; [discriminate|reflexivity] ].
Defined.

(** *** Statistics of one exchange *)

(** X24: [get_exchange_statistics] reads the samples as they are stored.
    While the buffer has not wrapped (at most [max_samples] calls of
    [record_latency] on a new tracker), the statistics of an exchange are
    those of the stored samples whose 16-bit exchange id equals the
    argument: [None] when there is none, otherwise their number, the first
    least and the first greatest of their recorded latencies. *)
Theorem exchange_statistics_of_stored_samples
    (max_samples : Z) (target : float) (now_ns : Z)
    (t0 : UltraLowLatencyTracker) (calls : list recording)
    (new : list latency_sample) (exchange : Z) :
  __cinit__ max_samples target now_ns true = Returns t0 ->
  Z.of_nat (length calls) <= max_samples ->
  Z.of_nat (length calls) < 2 ^ 31 ->
  Forall2 (fun c smp => stored c = Some smp) calls new ->
  exists t,
    record_all t0 calls = Some t
    /\ get_exchange_statistics t exchange
       = match latencies_of exchange new with
         | [] => None
         | first :: rest =>
             Some {| ex_exchange_id := exchange;
                     ex_count := Z.of_nat (length (first :: rest));
                     ex_min_us := fold_left lower rest first;
                     ex_max_us := fold_left higher rest first |}
         end.
Proof.
  intros Ht0 Hroom Hlen Hnew.
  pose proof (Forall2_length _ _ _ Hnew) as Hsame.
  destruct (decide (calls = [])) as [->|Hsome].
  { apply Forall2_nil_inv_l in Hnew. subst new.
    unfold __cinit__ in Ht0. cbn [negb] in Ht0. injection Ht0 as <-.
    eexists. split; reflexivity. }
  assert (Hmax : 0 < max_samples).
  { destruct calls; [congruence|cbn [length] in Hroom; lia]. }
  unfold __cinit__ in Ht0. cbn [negb] in Ht0. injection Ht0 as <-.
  match goal with
  | |- context [record_all ?fresh calls] =>
      destruct (record_all_window calls new Hnew fresh [])
        as (t & Hrun & Hcount & Hwindow)
  end; cbn [Tracker.max_samples samples sample_count length].
  - exact Hmax.
  - apply length_replicate.
  - reflexivity.
  - lia.
  - intros j smp Hpos Hj. lia.
  - cbn [app Tracker.max_samples] in Hcount, Hwindow.
    destruct (record_all_frame _ _ _ Hrun) as (Hms & _ & _ & _ & Hsamples).
    cbn [Tracker.max_samples samples] in Hms, Hsamples.
    rewrite length_replicate in Hsamples.
    exists t. split; [exact Hrun|].
    assert (Htake : take (length new) (samples t) = new).
    { apply list_eq. intros i.
      destruct (decide (i < length new)%nat) as [Hi|Hi].
      - rewrite lookup_take_lt by lia.
        destruct (lookup_lt_is_Some_2 new i Hi) as [smp Hsmp].
        rewrite Hsmp.
        rewrite <- (Hwindow (Z.of_nat i) smp); [|lia|lia|now rewrite Nat2Z.id].
        rewrite Z.mod_small by lia. now rewrite Nat2Z.id.
      - rewrite lookup_take_ge by lia. symmetry. apply lookup_ge_None_2. lia. }
    unfold get_exchange_statistics. rewrite Hcount, Hms.
    destruct (Z.eqb_spec (Z.of_nat (length new)) 0) as [Hzero|_].
    { destruct new; [reflexivity|cbn [length] in Hzero; lia]. }
    rewrite Z.min_l, Nat2Z.id, Htake by lia.
    assert (Hshort : forall l : list latency_sample,
               (length (latencies_of exchange l) <= length l)%nat).
    { induction l as [|s l IHl]; [reflexivity|].
      unfold latencies_of in *. cbn [omap list_omap].
      destruct (Tracker.exchange_id s =? exchange); cbn [length]; lia. }
    pose proof (Hshort new) as Hbound.
    destruct (latencies_of exchange new) as [|first rest]; [reflexivity|].
    rewrite wrap_int_small by lia. reflexivity.
Qed.

Lemma exchange_statistics_of_stored_samples_witness :
  exists t0 new,
    __cinit__ 4 600.0%float 0 true = Returns t0
    /\ Z.of_nat (length three_recordings) <= 4
    /\ Z.of_nat (length three_recordings) < 2 ^ 31
    /\ Forall2 (fun c smp => stored c = Some smp) three_recordings new
    /\ exists t,
         record_all t0 three_recordings = Some t
         /\ get_exchange_statistics t 2
            = match latencies_of 2 new with
              | [] => None
              | first :: rest =>
                  Some {| ex_exchange_id := 2;
                          ex_count := Z.of_nat (length (first :: rest));
                          ex_min_us := fold_left lower rest first;
                          ex_max_us := fold_left higher rest first |}
              end.
Proof.
  assert (Hnew : Forall2 (fun c smp => stored c = Some smp) three_recordings
                   [ {| timestamp_ns := 10; latency_ns := 2500;
                        exchange_id := 1; protocol_type := 1 |};
                     {| timestamp_ns := 20; latency_ns := 600000;
                        exchange_id := 2; protocol_type := 2 |};
                     {| timestamp_ns := 30; latency_ns := 1000;
                        exchange_id := 3; protocol_type := 3 |} ]).
  { repeat constructor; vm_compute; reflexivity. }
  eexists. eexists. split; [reflexivity|].
  split; [vm_compute; discriminate|]. split; [vm_compute; reflexivity|].
  split; [exact Hnew|].
  refine (exchange_statistics_of_stored_samples 4 600.0%float 0 _ _ _ 2 eq_refl _ _ Hnew);
    first [vm_compute; discriminate | vm_compute; reflexivity].
Defined.

End TrackerCoverage.
